(** * The strategy execution core of jesse, embedded in Rocq

    Source: [jesse/strategies/Strategy.py], class [Strategy].

    The embedding is shallow.  A method of the class becomes a function in a
    state-and-exception monad over a record [World] that holds the fields of
    the strategy object together with the collaborators it shares (the
    position, the completed-trades store) and the trace of the calls it makes
    on the broker, on the router and on the user's overrides.  An exception
    leaves the state as it was when it was raised, as in Python.

    Numbers.  The strategy computes with binary64 floating-point numbers
    (Python [float], numpy [float64]).  The code is embedded once, over an
    interface [Num] of the operations it uses, and is run at two instances:
    [binary64] (Rocq's primitive floats, the arithmetic of the program) and
    [exact] (the rationals, the arithmetic the specification reasons in).

    Outside the class.  The collaborators are taken from an environment
    [Env]: the mode flags of [jh], the broker (every order-submitting call
    returns an order), the order store, and the overrides of the user's
    subclass.  An override reads the strategy and writes its four intents;
    [should_long], [should_short], [should_cancel] and the filters only read.
    The environment also gives the routes of the router, each a strategy
    object with its class and its attributes: a broadcast runs the loop of
    [_broadcast] over them, and an exception of a route's reconciler comes
    back to the strategy that broadcasts.

    After the class come the parts of it that need more than [Env] gives:
    [liquidate] and the averages, and [_terminate]; and the indicator
    [bollinger_bands_width].

    Left out: calls to the logger (they do not touch the strategy), the
    [vars] and [hp] dictionaries, and the convenience properties that only
    read the stores. *)

From Stdlib Require Import List Bool ZArith QArith Qabs String Floats Lia.
Import ListNotations.

Set Implicit Arguments.
Local Close Scope Q_scope.
Local Open Scope Z_scope.

(* ================================================================= *)
(** ** Numbers *)

(** The operations of Python floats that the strategy uses.  Python's
    [a > b] is [num_ltb b a], [a >= b] is [num_leb b a] and [a != b] is
    [negb (num_eqb a b)]. *)
Class Num (R : Type) : Type := {
  num_zero : R;                 (* the literal 0 the accumulators start from *)
  num_nan  : R;                 (* np.nan *)
  num_add  : R -> R -> R;
  num_mul  : R -> R -> R;
  num_div  : R -> R -> R;       (* IEEE division, total *)
  num_abs  : R -> R;
  num_eqb  : R -> R -> bool;
  num_ltb  : R -> R -> bool;
  num_leb  : R -> R -> bool
}.

(** binary64: the arithmetic of the program. *)
#[export] Instance binary64 : Num float := {
  num_zero := PrimFloat.zero;
  num_nan  := PrimFloat.nan;
  num_add  := PrimFloat.add;
  num_mul  := PrimFloat.mul;
  num_div  := PrimFloat.div;
  num_abs  := PrimFloat.abs;
  num_eqb  := PrimFloat.eqb;
  num_ltb  := PrimFloat.ltb;
  num_leb  := PrimFloat.leb
}.

(** Exact arithmetic over the rationals.  There is no NaN among the
    rationals; the instance puts 0 where the program stores [np.nan] (the
    stop-loss and take-profit averages of a trade that had none). *)
#[export] Instance exact : Num Q := {
  num_zero := 0%Q;
  num_nan  := 0%Q;
  num_add  := Qplus;
  num_mul  := Qmult;
  num_div  := Qdiv;
  num_abs  := Qabs;
  num_eqb  := Qeq_bool;
  num_ltb  := fun x y => negb (Qle_bool y x);
  num_leb  := Qle_bool
}.

(** A Python number is a [float] or a numpy [float64] scalar.  The two hold
    the same values and differ in one operation the strategy uses: dividing
    by zero raises [ZeroDivisionError] between Python floats and returns an
    infinity or a NaN as soon as one operand is a numpy scalar.  Arithmetic
    between the two kinds yields a numpy scalar. *)
Inductive Scalar (R : Type) : Type :=
| PyFloat (x : R)
| NpFloat (x : R).

Definition sval {R} (s : Scalar R) : R :=
  match s with PyFloat x => x | NpFloat x => x end.

Definition is_np {R} (s : Scalar R) : bool :=
  match s with PyFloat _ => false | NpFloat _ => true end.

Definition mk_scalar {R} (np : bool) (x : R) : Scalar R :=
  if np then NpFloat x else PyFloat x.

(* ================================================================= *)
(** ** Enumerations *)

(** [jesse.enums.sides] *)
Inductive Side := BUY | SELL.

(** [jesse.enums.order_roles] *)
Inductive Role := OPEN_POSITION | CLOSE_POSITION | INCREASE_POSITION | REDUCE_POSITION.

(** [jesse.enums.trade_types] *)
Inductive TradeType := LONG | SHORT.

(** The three values of [position.type]. *)
Inductive PositionType := long | short | close.

Definition Side_eqb (a b : Side) : bool :=
  match a, b with BUY, BUY | SELL, SELL => true | _, _ => false end.

Definition Role_eqb (a b : Role) : bool :=
  match a, b with
  | OPEN_POSITION, OPEN_POSITION | CLOSE_POSITION, CLOSE_POSITION
  | INCREASE_POSITION, INCREASE_POSITION | REDUCE_POSITION, REDUCE_POSITION => true
  | _, _ => false
  end.

Definition TradeType_eqb (a b : TradeType) : bool :=
  match a, b with LONG, LONG | SHORT, SHORT => true | _, _ => false end.

(** Modelled from the spec: [jh.side_to_type] and [jh.type_to_side], helpers
    of the repository outside the two source files; they translate between an
    order side and the direction of a trade. *)
Definition side_to_type (s : Side) : TradeType :=
  match s with BUY => LONG | SELL => SHORT end.

Definition type_to_side (t : TradeType) : Side :=
  match t with LONG => BUY | SHORT => SELL end.

(* ================================================================= *)
(** ** The collaborators' objects *)

(** Modelled from the spec: the [Order] model (read contract of section 3);
    [role] is the one field the strategy writes.  An order is identified by
    its [id]. *)
Module Order.
Record t (R : Type) : Type := mk {
  id : Z;
  side : Side;
  qty : Scalar R;
  price : Scalar R;
  role : option Role;
  exchange : string;
  symbol : string;
  is_active : bool;
  is_queued : bool;
  is_executed : bool
}.

Definition set_role {R} (r : Role) (o : t R) : t R :=
  {| id := id o; side := side o; qty := qty o; price := price o;
     role := Some r; exchange := exchange o; symbol := symbol o;
     is_active := is_active o; is_queued := is_queued o;
     is_executed := is_executed o |}.
End Order.

(** [order in basket] *)
Definition order_in {R} (o : Order.t R) (basket : list (Order.t R)) : bool :=
  existsb (fun o' => Order.id o' =? Order.id o) basket.

(** Modelled from the spec: the [Position] model (read contract of section
    3).  [is_open] and [is_close] are read off [type]. *)
Module Position.
Record t (R : Type) : Type := mk {
  qty : R;
  type : PositionType;
  entry_price : R;
  current_price : R
}.

Definition is_open {R} (p : t R) : bool :=
  match type p with long | short => true | close => false end.

Definition is_close {R} (p : t R) : bool :=
  match type p with close => true | long | short => false end.
End Position.

(** Modelled from the spec: the [CompletedTrade] model.  The strategy builds
    a trade when a position opens and sets every field of the first group
    there; the fields of the second group are unset ([None]) until the trade
    closes. *)
Module CompletedTrade.
Record t (R : Type) : Type := mk {
  orders : list (Order.t R);
  timeframe : string;
  id : Z;
  strategy_name : string;
  exchange : string;
  symbol : string;
  type : TradeType;
  qty : Scalar R;
  opened_at : Z;
  entry_candle_timestamp : R;
  exit_candle_timestamp : option R;
  stop_loss_at : option (Scalar R);
  take_profit_at : option (Scalar R);
  entry_price : option (Scalar R);
  exit_price : option (Scalar R);
  closed_at : option Z
}.

Definition set_orders {R} (v : list (Order.t R)) (c : t R) : t R :=
  let (orders, timeframe, id, strategy_name, exchange, symbol, type, qty, opened_at,
       entry_candle_timestamp, exit_candle_timestamp, stop_loss_at, take_profit_at,
       entry_price, exit_price, closed_at) := c in
  mk v timeframe id strategy_name exchange symbol type qty opened_at entry_candle_timestamp
    exit_candle_timestamp stop_loss_at take_profit_at entry_price exit_price closed_at.

Definition set_qty {R} (v : Scalar R) (c : t R) : t R :=
  let (orders, timeframe, id, strategy_name, exchange, symbol, type, qty, opened_at,
       entry_candle_timestamp, exit_candle_timestamp, stop_loss_at, take_profit_at,
       entry_price, exit_price, closed_at) := c in
  mk orders timeframe id strategy_name exchange symbol type v opened_at
    entry_candle_timestamp exit_candle_timestamp stop_loss_at take_profit_at entry_price
    exit_price closed_at.

Definition set_exit_candle_timestamp {R} (v : option R) (c : t R) : t R :=
  let (orders, timeframe, id, strategy_name, exchange, symbol, type, qty, opened_at,
       entry_candle_timestamp, exit_candle_timestamp, stop_loss_at, take_profit_at,
       entry_price, exit_price, closed_at) := c in
  mk orders timeframe id strategy_name exchange symbol type qty opened_at
    entry_candle_timestamp v stop_loss_at take_profit_at entry_price exit_price closed_at.

Definition set_stop_loss_at {R} (v : option (Scalar R)) (c : t R) : t R :=
  let (orders, timeframe, id, strategy_name, exchange, symbol, type, qty, opened_at,
       entry_candle_timestamp, exit_candle_timestamp, stop_loss_at, take_profit_at,
       entry_price, exit_price, closed_at) := c in
  mk orders timeframe id strategy_name exchange symbol type qty opened_at
    entry_candle_timestamp exit_candle_timestamp v take_profit_at entry_price exit_price
    closed_at.

Definition set_take_profit_at {R} (v : option (Scalar R)) (c : t R) : t R :=
  let (orders, timeframe, id, strategy_name, exchange, symbol, type, qty, opened_at,
       entry_candle_timestamp, exit_candle_timestamp, stop_loss_at, take_profit_at,
       entry_price, exit_price, closed_at) := c in
  mk orders timeframe id strategy_name exchange symbol type qty opened_at
    entry_candle_timestamp exit_candle_timestamp stop_loss_at v entry_price exit_price
    closed_at.

Definition set_entry_price {R} (v : option (Scalar R)) (c : t R) : t R :=
  let (orders, timeframe, id, strategy_name, exchange, symbol, type, qty, opened_at,
       entry_candle_timestamp, exit_candle_timestamp, stop_loss_at, take_profit_at,
       entry_price, exit_price, closed_at) := c in
  mk orders timeframe id strategy_name exchange symbol type qty opened_at
    entry_candle_timestamp exit_candle_timestamp stop_loss_at take_profit_at v exit_price
    closed_at.

Definition set_exit_price {R} (v : option (Scalar R)) (c : t R) : t R :=
  let (orders, timeframe, id, strategy_name, exchange, symbol, type, qty, opened_at,
       entry_candle_timestamp, exit_candle_timestamp, stop_loss_at, take_profit_at,
       entry_price, exit_price, closed_at) := c in
  mk orders timeframe id strategy_name exchange symbol type qty opened_at
    entry_candle_timestamp exit_candle_timestamp stop_loss_at take_profit_at entry_price v
    closed_at.

Definition set_closed_at {R} (v : option Z) (c : t R) : t R :=
  let (orders, timeframe, id, strategy_name, exchange, symbol, type, qty, opened_at,
       entry_candle_timestamp, exit_candle_timestamp, stop_loss_at, take_profit_at,
       entry_price, exit_price, closed_at) := c in
  mk orders timeframe id strategy_name exchange symbol type qty opened_at
    entry_candle_timestamp exit_candle_timestamp stop_loss_at take_profit_at entry_price
    exit_price v.
End CompletedTrade.

(* ================================================================= *)
(** ** Intents and tables *)

(** A numpy array of rows [(qty, price)]. *)
Definition Table (R : Type) : Type := list (R * R).

(** The kind of a Python sequence. *)
Inductive Seq := tuple | list_.

(** The values an intent field ([buy], [sell], [stop_loss], [take_profit])
    is given in this model: [None], a bare number (a value that is no
    sequence), one pair, a sequence of pairs, or a numpy array. *)
Inductive Intent (R : Type) : Type :=
| INone
| INumber (x : R)
| IPair (k : Seq) (q p : R)
| IRows (k : Seq) (rows : list (R * R))
| IArray (t : Table R).

Arguments INone {R}.

(** A row of a log of stop-loss or take-profit levels: a row of an array, or
    the pair [(abs(s.qty), s.price)] built from an executed order. *)
Definition Log (R : Type) : Type := list (Scalar R * Scalar R).

Definition log_of_table {R} (t : Table R) : Log R :=
  map (fun o => (NpFloat (fst o), NpFloat (snd o))) t.

(* ================================================================= *)
(** ** Calls on the collaborators *)

(** The order-submitting calls of the broker (section 6 of the spec). *)
Inductive BrokerCall (R : Type) : Type :=
| start_profit_at (s : Side) (q p : R) (r : Role)
| buy_at (q p : R) (r : Role)
| sell_at (q p : R) (r : Role)
| buy_at_market (q : R) (r : Role)
| sell_at_market (q : R) (r : Role)
| reduce_position_at (q p : R) (r : Role)
| stop_loss_at (q p : R) (r : Role).

(** The messages of [_broadcast]. *)
Inductive Msg :=
| route_open_position | route_stop_loss | route_take_profit
| route_increased_position | route_reduced_position | route_canceled.

(** The overrides of the user's strategy that act on it. *)
Module Hook.
Inductive t :=
| go_long | go_short | update_position | prepare | on_cancel
| on_open_position | on_stop_loss | on_take_profit
| on_increased_position | on_reduced_position.
End Hook.

(** What the strategy does to the world outside it, in the order it does
    it. *)
Inductive Event (R : Type) : Type :=
| EBroker (c : BrokerCall R)            (* an order-submitting call *)
| ECancelOrder (id : Z)                 (* broker.cancel_order(id) *)
| ECancelAllOrders                      (* broker.cancel_all_orders() *)
| EBroadcast (m : Msg)                  (* the message goes to every other route *)
| ECall (h : Hook.t)                    (* a user override is invoked *)
| ESleep                                (* time.sleep *)
| EClearOrders.                         (* store.orders.storage[...].clear() *)

Arguments ECancelOrder {R}.
Arguments ECancelAllOrders {R}.
Arguments EBroadcast {R}.
Arguments ECall {R}.
Arguments ESleep {R}.
Arguments EClearOrders {R}.

(* ================================================================= *)
(** ** The state *)

Record World (R : Type) : Type := mkWorld {
  (* fields of the strategy object *)
  name : string;
  timeframe : string;
  index : Z;
  buy : Intent R;
  _buy : option (Table R);
  sell : Intent R;
  _sell : option (Table R);
  stop_loss : Intent R;
  _stop_loss : option (Table R);
  take_profit : Intent R;
  _take_profit : option (Table R);
  _log_take_profit : option (Log R);
  _log_stop_loss : option (Log R);
  _open_position_orders : list (Order.t R);
  _stop_loss_orders : list (Order.t R);
  _take_profit_orders : list (Order.t R);
  trade : option (CompletedTrade.t R);
  trades_count : Z;
  _initial_qty : option R;
  _is_executing : bool;
  _is_initiated : bool;
  (* shared with the position ledger *)
  position : Position.t R;
  (* store.completed_trades *)
  completed_trades : list (CompletedTrade.t R);
  (* calls made on the collaborators, oldest first *)
  trace : list (Event R)
}.

(** Field updates.  An update takes the record apart once and rebuilds it. *)
Definition set_index {R} (v : Z) (w : World R) : World R :=
  let (name, timeframe, index, buy, _buy, sell, _sell, stop_loss, _stop_loss, take_profit,
       _take_profit, _log_take_profit, _log_stop_loss, _open_position_orders,
       _stop_loss_orders, _take_profit_orders, trade, trades_count, _initial_qty,
       _is_executing, _is_initiated, position, completed_trades, trace) := w in
  mkWorld name timeframe v buy _buy sell _sell stop_loss _stop_loss take_profit
    _take_profit _log_take_profit _log_stop_loss _open_position_orders _stop_loss_orders
    _take_profit_orders trade trades_count _initial_qty _is_executing _is_initiated
    position completed_trades trace.

Definition set_buy {R} (v : Intent R) (w : World R) : World R :=
  let (name, timeframe, index, buy, _buy, sell, _sell, stop_loss, _stop_loss, take_profit,
       _take_profit, _log_take_profit, _log_stop_loss, _open_position_orders,
       _stop_loss_orders, _take_profit_orders, trade, trades_count, _initial_qty,
       _is_executing, _is_initiated, position, completed_trades, trace) := w in
  mkWorld name timeframe index v _buy sell _sell stop_loss _stop_loss take_profit
    _take_profit _log_take_profit _log_stop_loss _open_position_orders _stop_loss_orders
    _take_profit_orders trade trades_count _initial_qty _is_executing _is_initiated
    position completed_trades trace.

Definition set__buy {R} (v : option (Table R)) (w : World R) : World R :=
  let (name, timeframe, index, buy, _buy, sell, _sell, stop_loss, _stop_loss, take_profit,
       _take_profit, _log_take_profit, _log_stop_loss, _open_position_orders,
       _stop_loss_orders, _take_profit_orders, trade, trades_count, _initial_qty,
       _is_executing, _is_initiated, position, completed_trades, trace) := w in
  mkWorld name timeframe index buy v sell _sell stop_loss _stop_loss take_profit
    _take_profit _log_take_profit _log_stop_loss _open_position_orders _stop_loss_orders
    _take_profit_orders trade trades_count _initial_qty _is_executing _is_initiated
    position completed_trades trace.

Definition set_sell {R} (v : Intent R) (w : World R) : World R :=
  let (name, timeframe, index, buy, _buy, sell, _sell, stop_loss, _stop_loss, take_profit,
       _take_profit, _log_take_profit, _log_stop_loss, _open_position_orders,
       _stop_loss_orders, _take_profit_orders, trade, trades_count, _initial_qty,
       _is_executing, _is_initiated, position, completed_trades, trace) := w in
  mkWorld name timeframe index buy _buy v _sell stop_loss _stop_loss take_profit
    _take_profit _log_take_profit _log_stop_loss _open_position_orders _stop_loss_orders
    _take_profit_orders trade trades_count _initial_qty _is_executing _is_initiated
    position completed_trades trace.

Definition set__sell {R} (v : option (Table R)) (w : World R) : World R :=
  let (name, timeframe, index, buy, _buy, sell, _sell, stop_loss, _stop_loss, take_profit,
       _take_profit, _log_take_profit, _log_stop_loss, _open_position_orders,
       _stop_loss_orders, _take_profit_orders, trade, trades_count, _initial_qty,
       _is_executing, _is_initiated, position, completed_trades, trace) := w in
  mkWorld name timeframe index buy _buy sell v stop_loss _stop_loss take_profit
    _take_profit _log_take_profit _log_stop_loss _open_position_orders _stop_loss_orders
    _take_profit_orders trade trades_count _initial_qty _is_executing _is_initiated
    position completed_trades trace.

Definition set_stop_loss {R} (v : Intent R) (w : World R) : World R :=
  let (name, timeframe, index, buy, _buy, sell, _sell, stop_loss, _stop_loss, take_profit,
       _take_profit, _log_take_profit, _log_stop_loss, _open_position_orders,
       _stop_loss_orders, _take_profit_orders, trade, trades_count, _initial_qty,
       _is_executing, _is_initiated, position, completed_trades, trace) := w in
  mkWorld name timeframe index buy _buy sell _sell v _stop_loss take_profit _take_profit
    _log_take_profit _log_stop_loss _open_position_orders _stop_loss_orders
    _take_profit_orders trade trades_count _initial_qty _is_executing _is_initiated
    position completed_trades trace.

Definition set__stop_loss {R} (v : option (Table R)) (w : World R) : World R :=
  let (name, timeframe, index, buy, _buy, sell, _sell, stop_loss, _stop_loss, take_profit,
       _take_profit, _log_take_profit, _log_stop_loss, _open_position_orders,
       _stop_loss_orders, _take_profit_orders, trade, trades_count, _initial_qty,
       _is_executing, _is_initiated, position, completed_trades, trace) := w in
  mkWorld name timeframe index buy _buy sell _sell stop_loss v take_profit _take_profit
    _log_take_profit _log_stop_loss _open_position_orders _stop_loss_orders
    _take_profit_orders trade trades_count _initial_qty _is_executing _is_initiated
    position completed_trades trace.

Definition set_take_profit {R} (v : Intent R) (w : World R) : World R :=
  let (name, timeframe, index, buy, _buy, sell, _sell, stop_loss, _stop_loss, take_profit,
       _take_profit, _log_take_profit, _log_stop_loss, _open_position_orders,
       _stop_loss_orders, _take_profit_orders, trade, trades_count, _initial_qty,
       _is_executing, _is_initiated, position, completed_trades, trace) := w in
  mkWorld name timeframe index buy _buy sell _sell stop_loss _stop_loss v _take_profit
    _log_take_profit _log_stop_loss _open_position_orders _stop_loss_orders
    _take_profit_orders trade trades_count _initial_qty _is_executing _is_initiated
    position completed_trades trace.

Definition set__take_profit {R} (v : option (Table R)) (w : World R) : World R :=
  let (name, timeframe, index, buy, _buy, sell, _sell, stop_loss, _stop_loss, take_profit,
       _take_profit, _log_take_profit, _log_stop_loss, _open_position_orders,
       _stop_loss_orders, _take_profit_orders, trade, trades_count, _initial_qty,
       _is_executing, _is_initiated, position, completed_trades, trace) := w in
  mkWorld name timeframe index buy _buy sell _sell stop_loss _stop_loss take_profit v
    _log_take_profit _log_stop_loss _open_position_orders _stop_loss_orders
    _take_profit_orders trade trades_count _initial_qty _is_executing _is_initiated
    position completed_trades trace.

Definition set__log_take_profit {R} (v : option (Log R)) (w : World R) : World R :=
  let (name, timeframe, index, buy, _buy, sell, _sell, stop_loss, _stop_loss, take_profit,
       _take_profit, _log_take_profit, _log_stop_loss, _open_position_orders,
       _stop_loss_orders, _take_profit_orders, trade, trades_count, _initial_qty,
       _is_executing, _is_initiated, position, completed_trades, trace) := w in
  mkWorld name timeframe index buy _buy sell _sell stop_loss _stop_loss take_profit
    _take_profit v _log_stop_loss _open_position_orders _stop_loss_orders
    _take_profit_orders trade trades_count _initial_qty _is_executing _is_initiated
    position completed_trades trace.

Definition set__log_stop_loss {R} (v : option (Log R)) (w : World R) : World R :=
  let (name, timeframe, index, buy, _buy, sell, _sell, stop_loss, _stop_loss, take_profit,
       _take_profit, _log_take_profit, _log_stop_loss, _open_position_orders,
       _stop_loss_orders, _take_profit_orders, trade, trades_count, _initial_qty,
       _is_executing, _is_initiated, position, completed_trades, trace) := w in
  mkWorld name timeframe index buy _buy sell _sell stop_loss _stop_loss take_profit
    _take_profit _log_take_profit v _open_position_orders _stop_loss_orders
    _take_profit_orders trade trades_count _initial_qty _is_executing _is_initiated
    position completed_trades trace.

Definition set__open_position_orders {R} (v : list (Order.t R)) (w : World R) : World R :=
  let (name, timeframe, index, buy, _buy, sell, _sell, stop_loss, _stop_loss, take_profit,
       _take_profit, _log_take_profit, _log_stop_loss, _open_position_orders,
       _stop_loss_orders, _take_profit_orders, trade, trades_count, _initial_qty,
       _is_executing, _is_initiated, position, completed_trades, trace) := w in
  mkWorld name timeframe index buy _buy sell _sell stop_loss _stop_loss take_profit
    _take_profit _log_take_profit _log_stop_loss v _stop_loss_orders _take_profit_orders
    trade trades_count _initial_qty _is_executing _is_initiated position completed_trades
    trace.

Definition set__stop_loss_orders {R} (v : list (Order.t R)) (w : World R) : World R :=
  let (name, timeframe, index, buy, _buy, sell, _sell, stop_loss, _stop_loss, take_profit,
       _take_profit, _log_take_profit, _log_stop_loss, _open_position_orders,
       _stop_loss_orders, _take_profit_orders, trade, trades_count, _initial_qty,
       _is_executing, _is_initiated, position, completed_trades, trace) := w in
  mkWorld name timeframe index buy _buy sell _sell stop_loss _stop_loss take_profit
    _take_profit _log_take_profit _log_stop_loss _open_position_orders v
    _take_profit_orders trade trades_count _initial_qty _is_executing _is_initiated
    position completed_trades trace.

Definition set__take_profit_orders {R} (v : list (Order.t R)) (w : World R) : World R :=
  let (name, timeframe, index, buy, _buy, sell, _sell, stop_loss, _stop_loss, take_profit,
       _take_profit, _log_take_profit, _log_stop_loss, _open_position_orders,
       _stop_loss_orders, _take_profit_orders, trade, trades_count, _initial_qty,
       _is_executing, _is_initiated, position, completed_trades, trace) := w in
  mkWorld name timeframe index buy _buy sell _sell stop_loss _stop_loss take_profit
    _take_profit _log_take_profit _log_stop_loss _open_position_orders _stop_loss_orders v
    trade trades_count _initial_qty _is_executing _is_initiated position completed_trades
    trace.

Definition set_trade {R} (v : option (CompletedTrade.t R)) (w : World R) : World R :=
  let (name, timeframe, index, buy, _buy, sell, _sell, stop_loss, _stop_loss, take_profit,
       _take_profit, _log_take_profit, _log_stop_loss, _open_position_orders,
       _stop_loss_orders, _take_profit_orders, trade, trades_count, _initial_qty,
       _is_executing, _is_initiated, position, completed_trades, trace) := w in
  mkWorld name timeframe index buy _buy sell _sell stop_loss _stop_loss take_profit
    _take_profit _log_take_profit _log_stop_loss _open_position_orders _stop_loss_orders
    _take_profit_orders v trades_count _initial_qty _is_executing _is_initiated position
    completed_trades trace.

Definition set_trades_count {R} (v : Z) (w : World R) : World R :=
  let (name, timeframe, index, buy, _buy, sell, _sell, stop_loss, _stop_loss, take_profit,
       _take_profit, _log_take_profit, _log_stop_loss, _open_position_orders,
       _stop_loss_orders, _take_profit_orders, trade, trades_count, _initial_qty,
       _is_executing, _is_initiated, position, completed_trades, trace) := w in
  mkWorld name timeframe index buy _buy sell _sell stop_loss _stop_loss take_profit
    _take_profit _log_take_profit _log_stop_loss _open_position_orders _stop_loss_orders
    _take_profit_orders trade v _initial_qty _is_executing _is_initiated position
    completed_trades trace.

Definition set__initial_qty {R} (v : option R) (w : World R) : World R :=
  let (name, timeframe, index, buy, _buy, sell, _sell, stop_loss, _stop_loss, take_profit,
       _take_profit, _log_take_profit, _log_stop_loss, _open_position_orders,
       _stop_loss_orders, _take_profit_orders, trade, trades_count, _initial_qty,
       _is_executing, _is_initiated, position, completed_trades, trace) := w in
  mkWorld name timeframe index buy _buy sell _sell stop_loss _stop_loss take_profit
    _take_profit _log_take_profit _log_stop_loss _open_position_orders _stop_loss_orders
    _take_profit_orders trade trades_count v _is_executing _is_initiated position
    completed_trades trace.

Definition set__is_executing {R} (v : bool) (w : World R) : World R :=
  let (name, timeframe, index, buy, _buy, sell, _sell, stop_loss, _stop_loss, take_profit,
       _take_profit, _log_take_profit, _log_stop_loss, _open_position_orders,
       _stop_loss_orders, _take_profit_orders, trade, trades_count, _initial_qty,
       _is_executing, _is_initiated, position, completed_trades, trace) := w in
  mkWorld name timeframe index buy _buy sell _sell stop_loss _stop_loss take_profit
    _take_profit _log_take_profit _log_stop_loss _open_position_orders _stop_loss_orders
    _take_profit_orders trade trades_count _initial_qty v _is_initiated position
    completed_trades trace.

Definition set__is_initiated {R} (v : bool) (w : World R) : World R :=
  let (name, timeframe, index, buy, _buy, sell, _sell, stop_loss, _stop_loss, take_profit,
       _take_profit, _log_take_profit, _log_stop_loss, _open_position_orders,
       _stop_loss_orders, _take_profit_orders, trade, trades_count, _initial_qty,
       _is_executing, _is_initiated, position, completed_trades, trace) := w in
  mkWorld name timeframe index buy _buy sell _sell stop_loss _stop_loss take_profit
    _take_profit _log_take_profit _log_stop_loss _open_position_orders _stop_loss_orders
    _take_profit_orders trade trades_count _initial_qty _is_executing v position
    completed_trades trace.

Definition set_position {R} (v : Position.t R) (w : World R) : World R :=
  let (name, timeframe, index, buy, _buy, sell, _sell, stop_loss, _stop_loss, take_profit,
       _take_profit, _log_take_profit, _log_stop_loss, _open_position_orders,
       _stop_loss_orders, _take_profit_orders, trade, trades_count, _initial_qty,
       _is_executing, _is_initiated, position, completed_trades, trace) := w in
  mkWorld name timeframe index buy _buy sell _sell stop_loss _stop_loss take_profit
    _take_profit _log_take_profit _log_stop_loss _open_position_orders _stop_loss_orders
    _take_profit_orders trade trades_count _initial_qty _is_executing _is_initiated v
    completed_trades trace.

Definition set_completed_trades {R} (v : list (CompletedTrade.t R)) (w : World R) : World R :=
  let (name, timeframe, index, buy, _buy, sell, _sell, stop_loss, _stop_loss, take_profit,
       _take_profit, _log_take_profit, _log_stop_loss, _open_position_orders,
       _stop_loss_orders, _take_profit_orders, trade, trades_count, _initial_qty,
       _is_executing, _is_initiated, position, completed_trades, trace) := w in
  mkWorld name timeframe index buy _buy sell _sell stop_loss _stop_loss take_profit
    _take_profit _log_take_profit _log_stop_loss _open_position_orders _stop_loss_orders
    _take_profit_orders trade trades_count _initial_qty _is_executing _is_initiated
    position v trace.

Definition set_trace {R} (v : list (Event R)) (w : World R) : World R :=
  let (name, timeframe, index, buy, _buy, sell, _sell, stop_loss, _stop_loss, take_profit,
       _take_profit, _log_take_profit, _log_stop_loss, _open_position_orders,
       _stop_loss_orders, _take_profit_orders, trade, trades_count, _initial_qty,
       _is_executing, _is_initiated, position, completed_trades, trace) := w in
  mkWorld name timeframe index buy _buy sell _sell stop_loss _stop_loss take_profit
    _take_profit _log_take_profit _log_stop_loss _open_position_orders _stop_loss_orders
    _take_profit_orders trade trades_count _initial_qty _is_executing _is_initiated
    position completed_trades v.

(* ================================================================= *)
(** ** Exceptions and the monad of methods *)

Inductive Exn :=
| InvalidStrategy | InvalidShape | ConflictingRules | ExchangeNotResponding
| Exception_          (* a plain [Exception] *)
| TypeError | IndexError | ZeroDivisionError | AttributeError
| Unmodelled.         (* the run leaves the values this model represents *)

Inductive Res (A : Type) : Type :=
| Ok (a : A)
| Raise (e : Exn).

Arguments Raise {A}.

(** A method call: from the state before to the state after and either the
    value returned or the exception raised. *)
Definition M (R A : Type) : Type := World R -> World R * Res A.

Definition ret {R A} (a : A) : M R A := fun w => (w, Ok a).

Definition raise {R A} (e : Exn) : M R A := fun w => (w, Raise e).

Definition bind {R A B} (m : M R A) (k : A -> M R B) : M R B :=
  fun w => match m w with
           | (w', Ok a) => k a w'
           | (w', Raise e) => (w', Raise e)
           end.

Definition get {R} : M R (World R) := fun w => (w, Ok w).

Definition modify {R} (f : World R -> World R) : M R unit := fun w => (f w, Ok tt).

Definition lift {R A} (r : Res A) : M R A := fun w => (w, r).

Declare Scope method_scope.
Delimit Scope method_scope with method.
Notation "x <- m ;; k" := (bind m (fun x => k))
  (at level 61, m at next level, right associativity) : method_scope.
Notation "m ;; k" := (bind m (fun _ => k))
  (at level 61, right associativity) : method_scope.
Local Open Scope method_scope.

Definition when {R} (b : bool) (m : M R unit) : M R unit :=
  if b then m else ret tt.

(** [for x in l: body(x)] *)
Fixpoint for_each {R A} (l : list A) (body : A -> M R unit) : M R unit :=
  match l with
  | [] => ret tt
  | x :: l' => body x ;; for_each l' body
  end.

Definition emit {R} (e : Event R) : M R unit :=
  modify (fun w => set_trace (trace w ++ [e]) w).

Definition is_nil {A} (l : list A) : bool :=
  match l with [] => true | _ :: _ => false end.

Definition is_None {R} (v : Intent R) : bool :=
  match v with INone => true | _ => false end.

(* ================================================================= *)
(** ** The environment of a strategy *)

(** The four fields a user override writes. *)
Module Intents.
Record t (R : Type) : Type := mk {
  buy : Intent R;
  sell : Intent R;
  stop_loss : Intent R;
  take_profit : Intent R
}.
End Intents.

(** What a filter returns: [True] or [False], a number, or [None]. *)
Inductive PyRet (R : Type) : Type :=
| RBool (b : bool)
| RNumber (x : R)
| RNone.

Arguments RBool {R}.
Arguments RNone {R}.

(** Everything the class takes from outside: the mode of the run ([jh]), the
    stores, the broker, and the overrides of the user's subclass.  An
    override reads the strategy and leaves the four intents as it wants them
    (section 6 of the spec: the intent fields are what an override writes);
    the predicates and the filters only read. *)
#[warnings="-register-all"]
Inductive Env (R : Type) : Type := mkEnv {
  is_live : bool;
  is_test_driving : bool;
  is_backtesting : bool;
  is_unit_testing : bool;
  (* jh.round_price_for_live_mode(price, x), jh.round_qty_for_live_mode(price, x),
     on one element x of the column *)
  round_price_for_live_mode : R -> R -> R;
  round_qty_for_live_mode : R -> R -> R;
  now : World R -> Z;                                   (* jh.now() *)
  current_candle_timestamp : World R -> R;              (* self.current_candle[0] *)
  (* the Order a broker call returns *)
  broker : BrokerCall R -> World R -> Order.t R;
  count_active_orders : World R -> nat;                 (* store.orders.count_active_orders *)
  (* the market orders the store executes when it is flushed, each with the
     position as its execution leaves it *)
  pending_market_orders : World R -> list (Order.t R * Position.t R);
  (* the user's subclass *)
  go_long : World R -> Intents.t R;
  go_short : World R -> Intents.t R;
  update_position : World R -> Intents.t R;
  prepare : World R -> Intents.t R;
  on_cancel : World R -> Intents.t R;
  on_open_position : World R -> Intents.t R;
  on_stop_loss : World R -> Intents.t R;
  on_take_profit : World R -> Intents.t R;
  on_increased_position : World R -> Intents.t R;
  on_reduced_position : World R -> Intents.t R;
  should_long : World R -> bool;
  should_short : World R -> bool;
  should_cancel : World R -> bool;
  filters : World R -> list (World R -> PyRet R);
  (* the other strategies: self.id; the on_route_* overrides, each given the
     strategy that broadcasts and then its own; and router.routes as the
     router holds them when the strategy is in the given state, the strategy
     object of each route with its class and its attributes *)
  id : Z;
  on_route_open_position : World R -> World R -> Intents.t R;
  on_route_stop_loss : World R -> World R -> Intents.t R;
  on_route_take_profit : World R -> World R -> Intents.t R;
  on_route_increased_position : World R -> World R -> Intents.t R;
  on_route_reduced_position : World R -> World R -> Intents.t R;
  on_route_canceled : World R -> World R -> Intents.t R;
  routes : World R -> list (Env R * World R)
}.

(** The override that writes nothing. *)
Definition pass {R} (w : World R) : Intents.t R :=
  {| Intents.buy := buy w; Intents.sell := sell w;
     Intents.stop_loss := stop_loss w; Intents.take_profit := take_profit w |}.

(* ================================================================= *)
(** ** The class [Strategy] *)

Section Strategy.

Context {R : Type} {N : Num R}.
Variable E : Env R.

(** *** Arithmetic on Python numbers *)

Definition sc_add (a b : Scalar R) : Scalar R :=
  mk_scalar (is_np a || is_np b) (num_add (sval a) (sval b)).

Definition sc_mul (a b : Scalar R) : Scalar R :=
  mk_scalar (is_np a || is_np b) (num_mul (sval a) (sval b)).

Definition sc_abs (a : Scalar R) : Scalar R :=
  mk_scalar (is_np a) (num_abs (sval a)).

(** [a / b] *)
Definition sc_div (a b : Scalar R) : Res (Scalar R) :=
  if is_np a || is_np b then Ok (NpFloat (num_div (sval a) (sval b)))
  else if num_eqb (sval b) num_zero then Raise ZeroDivisionError
  else Ok (PyFloat (num_div (sval a) (sval b))).

(** The integer literal [0] an accumulator starts from. *)
Definition py_zero : Scalar R := PyFloat num_zero.

(** [np.array_equal] of an array and a snapshot, which is an array or
    [None]: the same shape and equal elements. *)
Fixpoint table_eqb (a b : Table R) : bool :=
  match a, b with
  | [], [] => true
  | o :: a', o' :: b' =>
      num_eqb (fst o) (fst o') && num_eqb (snd o) (snd o') && table_eqb a' b'
  | _, _ => false
  end.

Definition array_equal (a : Table R) (snapshot : option (Table R)) : bool :=
  match snapshot with
  | Some b => table_eqb a b
  | None => false
  end.

(** *** Properties (lines 66-82, 916-924, 1087-1101) *)

Definition price (w : World R) : R := Position.current_price (position w).

Definition is_long (w : World R) : bool :=
  match Position.type (position w) with long => true | _ => false end.

Definition is_short (w : World R) : bool :=
  match Position.type (position w) with short => true | _ => false end.

(** Comparing a number with [None] raises [TypeError]. *)
Definition is_reduced (w : World R) : Res (option bool) :=
  if Position.is_close (position w) then Ok None
  else match _initial_qty w with
       | Some q0 => Ok (Some (num_ltb (Position.qty (position w)) q0))
       | None => Raise TypeError
       end.

Definition is_increased (w : World R) : Res (option bool) :=
  if Position.is_close (position w) then Ok None
  else match _initial_qty w with
       | Some q0 => Ok (Some (num_ltb q0 (Position.qty (position w))))
       | None => Raise TypeError
       end.

(** *** Calls on the collaborators *)

(** A user override runs and leaves the intents as it set them. *)
Definition call (h : Hook.t) (f : World R -> Intents.t R) : M R unit :=
  emit (ECall h) ;;
  modify (fun w =>
    let d := f w in
    set_buy (Intents.buy d) (set_sell (Intents.sell d)
      (set_stop_loss (Intents.stop_loss d) (set_take_profit (Intents.take_profit d) w)))).

(** An order-submitting call on the broker returns the order. *)
Definition place (c : BrokerCall R) : M R (Order.t R) :=
  fun w => (set_trace (trace w ++ [EBroker c]) w, Ok (broker E c w)).

(** *** [_reset] (lines 356-372) *)

Definition _reset : M R unit :=
  modify (fun w =>
    set__initial_qty None
      (set__take_profit_orders [] (set__stop_loss_orders [] (set__open_position_orders []
        (set__log_stop_loss None (set__log_take_profit None
          (set__take_profit None (set_take_profit INone
            (set__stop_loss None (set_stop_loss INone
              (set__sell None (set_sell INone
                (set__buy None (set_buy INone w)))))))))))))).

(** *** Normalization (lines 198-282) *)

(** [type(x[0])] for an intent [x]: a number, a list or tuple, or a row of
    an array.  [None] and a bare number have no item 0, an empty sequence
    has no index 0. *)
Inductive Item := a_number | a_sequence | an_array_row.

Definition item0 (x : Intent R) : Res Item :=
  match x with
  | INone | INumber _ => Raise TypeError
  | IPair _ _ _ => Ok a_number
  | IRows _ [] | IArray [] => Raise IndexError
  | IRows _ (_ :: _) => Ok a_sequence
  | IArray (_ :: _) => Ok an_array_row
  end.

(** [[x]]: the list whose one element is [x].  Around a pair this is a
    sequence of one row; around anything else it is no table. *)
Definition wrap (x : Intent R) : Res (Intent R) :=
  match x with
  | IPair _ q p => Ok (IRows list_ [(q, p)])
  | _ => Raise Unmodelled
  end.

(** [np.array(x, dtype=float)] for a sequence of pairs or an array. *)
Definition np_array (x : Intent R) : Res (Table R) :=
  match x with
  | IRows _ rows => Ok rows
  | IArray t => Ok t
  | _ => Raise Unmodelled
  end.

(** [_convert_to_numpy_array] (lines 244-270).  [np.array] raises
    [ValueError] on no value among those of [Intent], so [InvalidShape] is
    not raised here. *)
Definition _convert_to_numpy_array (arr : Intent R) : Res (Table R) :=
  match arr with
  | IArray t => Ok t
  | IRows _ rows =>
      if is_live E then
        match rows with
        | [] => Raise IndexError
        | (_, price) :: _ =>
            Ok (map (fun o => (round_qty_for_live_mode E price (fst o),
                               round_price_for_live_mode E price (snd o))) rows)
        end
      else Ok rows
  | _ => Raise Unmodelled
  end.

(** The two lines that [_prepare_buy], [_prepare_sell], [_prepare_stop_loss]
    and [_prepare_take_profit] share: wrap a value whose item 0 is of none of
    the types allowed for a row, then convert.  [rows_may_be_arrays] says
    whether [np.ndarray] is among those types. *)
Definition normalized (rows_may_be_arrays : bool) (x : Intent R) : Res (Table R) :=
  match item0 x with
  | Raise e => Raise e
  | Ok a_number =>
      match wrap x with Ok x' => _convert_to_numpy_array x' | Raise e => Raise e end
  | Ok a_sequence => _convert_to_numpy_array x
  | Ok an_array_row =>
      if rows_may_be_arrays then _convert_to_numpy_array x
      else match wrap x with Ok x' => _convert_to_numpy_array x' | Raise e => Raise e end
  end.

Definition _prepare_buy (make_copies : bool) : M R unit :=
  w <- get ;;
  t <- lift (normalized false (buy w)) ;;
  modify (set_buy (IArray t)) ;;
  when make_copies (modify (set__buy (Some t))).

Definition _prepare_sell (make_copies : bool) : M R unit :=
  w <- get ;;
  t <- lift (normalized false (sell w)) ;;
  modify (set_sell (IArray t)) ;;
  when make_copies (modify (set__sell (Some t))).

Definition _prepare_stop_loss (make_copies : bool) : M R unit :=
  w <- get ;;
  match stop_loss w with
  | IArray _ => ret tt
  | x =>
      t <- lift (normalized true x) ;;
      modify (set_stop_loss (IArray t)) ;;
      when make_copies
        (modify (set__stop_loss (Some t)) ;;
         modify (set__log_stop_loss (Some (log_of_table t))))
  end.

Definition _prepare_take_profit (make_copies : bool) : M R unit :=
  w <- get ;;
  match take_profit w with
  | IArray _ => ret tt
  | x =>
      t <- lift (normalized true x) ;;
      modify (set_take_profit (IArray t)) ;;
      when make_copies
        (modify (set__take_profit (Some t)) ;;
         modify (set__log_take_profit (Some (log_of_table t))))
  end.

(** [type(x) not in [tuple, list, np.ndarray]] *)
Definition not_sequence_or_array (x : Intent R) : bool :=
  match x with
  | IPair _ _ _ | IRows _ _ | IArray _ => false
  | INone | INumber _ => true
  end.

(** [type(x) not in [tuple, list]] *)
Definition not_sequence (x : Intent R) : bool :=
  match x with
  | IPair _ _ _ | IRows _ _ => false
  | INone | INumber _ | IArray _ => true
  end.

Definition _validate_stop_loss : M R unit :=
  w <- get ;;
  if is_None (stop_loss w) then raise InvalidStrategy
  else if not_sequence_or_array (stop_loss w) then raise InvalidStrategy
  else ret tt.

Definition _validate_take_profit : M R unit :=
  w <- get ;;
  if is_None (take_profit w) then raise InvalidStrategy
  else if not_sequence_or_array (take_profit w) then raise InvalidStrategy
  else ret tt.

(** *** The reconciler (lines 403-572) *)

Definition append_open_position_order (o : Order.t R) : M R unit :=
  modify (fun w => set__open_position_orders (_open_position_orders w ++ [o]) w).

Definition append_take_profit_order (o : Order.t R) : M R unit :=
  modify (fun w => set__take_profit_orders (_take_profit_orders w ++ [o]) w).

Definition append_stop_loss_order (o : Order.t R) : M R unit :=
  modify (fun w => set__stop_loss_orders (_stop_loss_orders w ++ [o]) w).

(** The body of the loop over the rows of [_buy]: lines 182-196 in
    [_execute_long] and, with the same text, lines 425-439 in the
    reconciler. *)
Definition submit_buy_row (o : R * R) : M R unit :=
  w <- get ;;
  if num_ltb (price w) (snd o) then                        (* o[1] > self.price *)
    ord <- place (start_profit_at BUY (fst o) (snd o) OPEN_POSITION) ;;
    append_open_position_order ord
  else if num_ltb (snd o) (price w) then                   (* o[1] < self.price *)
    ord <- place (buy_at (fst o) (snd o) OPEN_POSITION) ;;
    append_open_position_order ord
  else if num_eqb (snd o) (price w) then                   (* o[1] == self.price *)
    ord <- place (buy_at_market (fst o) OPEN_POSITION) ;;
    append_open_position_order ord
  else ret tt.

(** The body of the loop over the rows of [_sell] in [_execute_short]
    (lines 311-325). *)
Definition submit_sell_row (o : R * R) : M R unit :=
  w <- get ;;
  if num_ltb (snd o) (price w) then                        (* o[1] < self.price *)
    ord <- place (start_profit_at SELL (fst o) (snd o) OPEN_POSITION) ;;
    append_open_position_order ord
  else if num_ltb (price w) (snd o) then                   (* o[1] > self.price *)
    ord <- place (sell_at (fst o) (snd o) OPEN_POSITION) ;;
    append_open_position_order ord
  else if num_eqb (snd o) (price w) then                   (* o[1] == self.price *)
    ord <- place (sell_at_market (fst o) OPEN_POSITION) ;;
    append_open_position_order ord
  else ret tt.

(** The body of the loop over the rows of [_sell] in the reconciler (lines
    460-474). *)
Definition resubmit_sell_row (o : R * R) : M R unit :=
  w <- get ;;
  if num_ltb (price w) (snd o) then                        (* o[1] > self.price *)
    ord <- place (start_profit_at BUY (fst o) (snd o) OPEN_POSITION) ;;
    append_open_position_order ord
  else if num_ltb (snd o) (price w) then                   (* o[1] < self.price *)
    ord <- place (sell_at (fst o) (snd o) OPEN_POSITION) ;;
    append_open_position_order ord
  else if num_eqb (snd o) (price w) then                   (* o[1] == self.price *)
    ord <- place (sell_at_market (fst o) OPEN_POSITION) ;;
    append_open_position_order ord
  else ret tt.

(** [for o in basket: if o.is_active or o.is_queued: cancel_order(o.id)] *)
Definition cancel_live_orders (basket : list (Order.t R)) : M R unit :=
  for_each basket (fun o =>
    when (Order.is_active o || Order.is_queued o) (emit (ECancelOrder (Order.id o)))).

(** [[o for o in basket if o.is_executed]] *)
Definition executed_only (basket : list (Order.t R)) : list (Order.t R) :=
  filter (fun o => Order.is_executed o) basket.

(** The entry of a long position (lines 407-439). *)
Definition reconcile_buy : M R unit :=
  w <- get ;;
  k <- lift (item0 (buy w)) ;;
  x <- lift (match k with a_number => wrap (buy w) | _ => Ok (buy w) end) ;;
  t <- lift (np_array x) ;;
  modify (set_buy (IArray t)) ;;
  w <- get ;;
  when (negb (array_equal t (_buy w)))
    (modify (set__buy (Some t)) ;;
     cancel_live_orders (_open_position_orders w) ;;
     modify (fun w => set__open_position_orders (executed_only (_open_position_orders w)) w) ;;
     for_each t submit_buy_row).

(** The entry of a short position (lines 441-474). *)
Definition reconcile_sell : M R unit :=
  w <- get ;;
  k <- lift (item0 (sell w)) ;;
  x <- lift (match k with a_number => wrap (sell w) | _ => Ok (sell w) end) ;;
  t <- lift (np_array x) ;;
  modify (set_sell (IArray t)) ;;
  w <- get ;;
  when (negb (array_equal t (_sell w)))
    (modify (set__sell (Some t)) ;;
     cancel_live_orders (_open_position_orders w) ;;
     modify (fun w => set__open_position_orders (executed_only (_open_position_orders w)) w) ;;
     for_each t resubmit_sell_row).

(** The rows logged for the executed orders that stay in a basket:
    [(abs(s.qty), s.price)]. *)
Definition log_of_orders (basket : list (Order.t R)) : Log R :=
  map (fun s => (sc_abs (Order.qty s), Order.price s)) basket.

Definition append_log_take_profit (o : R * R) : M R unit :=
  modify (fun w =>
    match _log_take_profit w with
    | Some l => set__log_take_profit (Some (l ++ [(NpFloat (fst o), NpFloat (snd o))])) w
    | None => w
    end).

Definition append_log_stop_loss (o : R * R) : M R unit :=
  modify (fun w =>
    match _log_stop_loss w with
    | Some l => set__log_stop_loss (Some (l ++ [(NpFloat (fst o), NpFloat (snd o))])) w
    | None => w
    end).

(** The body of the loop over the rows of [_take_profit] (lines 497-525). *)
Definition resubmit_take_profit_row (o : R * R) : M R unit :=
  append_log_take_profit o ;;
  w <- get ;;
  if num_eqb (snd o) (price w) then
    if is_long w then
      ord <- place (sell_at_market (fst o) CLOSE_POSITION) ;; append_take_profit_order ord
    else if is_short w then
      ord <- place (buy_at_market (fst o) CLOSE_POSITION) ;; append_take_profit_order ord
    else ret tt
  else if (is_long w && num_ltb (price w) (snd o)) || (is_short w && num_ltb (snd o) (price w)) then
    ord <- place (reduce_position_at (fst o) (snd o) CLOSE_POSITION) ;;
    append_take_profit_order ord
  else if (is_long w && num_ltb (snd o) (price w)) || (is_short w && num_ltb (price w) (snd o)) then
    ord <- place (stop_loss_at (fst o) (snd o) CLOSE_POSITION) ;;
    append_take_profit_order ord
  else ret tt.

(** The body of the loop over the rows of [_stop_loss] (lines 549-567). *)
Definition resubmit_stop_loss_row (o : R * R) : M R unit :=
  append_log_stop_loss o ;;
  w <- get ;;
  if num_eqb (snd o) (price w) then
    if is_long w then
      ord <- place (sell_at_market (fst o) CLOSE_POSITION) ;; append_stop_loss_order ord
    else if is_short w then
      ord <- place (buy_at_market (fst o) CLOSE_POSITION) ;; append_stop_loss_order ord
    else ret tt
  else
    ord <- place (stop_loss_at (fst o) (snd o) CLOSE_POSITION) ;;
    append_stop_loss_order ord.

(** After [_prepare_take_profit], [self.take_profit] is an array. *)
Definition the_array (x : Intent R) : Res (Table R) :=
  match x with IArray t => Ok t | _ => Raise Unmodelled end.

(** Lines 476-525. *)
Definition reconcile_take_profit : M R unit :=
  _validate_take_profit ;;
  _prepare_take_profit false ;;
  w <- get ;;
  t <- lift (the_array (take_profit w)) ;;
  when (negb (array_equal t (_take_profit w)))
    (modify (set__take_profit (Some t)) ;;
     cancel_live_orders (_take_profit_orders w) ;;
     modify (fun w => set__take_profit_orders (executed_only (_take_profit_orders w)) w) ;;
     modify (fun w => set__log_take_profit (Some (log_of_orders (_take_profit_orders w))) w) ;;
     for_each t resubmit_take_profit_row).

(** Lines 527-567. *)
Definition reconcile_stop_loss : M R unit :=
  _validate_stop_loss ;;
  _prepare_stop_loss false ;;
  w <- get ;;
  t <- lift (the_array (stop_loss w)) ;;
  when (negb (array_equal t (_stop_loss w)))
    (modify (set__stop_loss (Some t)) ;;
     cancel_live_orders (_stop_loss_orders w) ;;
     modify (fun w => set__stop_loss_orders (executed_only (_stop_loss_orders w)) w) ;;
     modify (fun w => set__log_stop_loss (Some (log_of_orders (_stop_loss_orders w))) w) ;;
     for_each t resubmit_stop_loss_row).

(** Lines 569-572.  Both intents are arrays here when neither is [None]:
    the two blocks before leave them so. *)
Definition stop_loss_is_not_take_profit : M R unit :=
  w <- get ;;
  when (Position.is_open (position w))
    match stop_loss w, take_profit w with
    | INone, _ | _, INone => ret tt
    | IArray s, IArray t => if table_eqb s t then raise InvalidStrategy else ret tt
    | _, _ => raise Unmodelled
    end.

Definition _detect_and_handle_entry_and_exit_modifications : M R unit :=
  w <- get ;;
  if Position.is_close (position w) then ret tt
  else
    (if is_long w then reconcile_buy
     else if is_short w then reconcile_sell
     else ret tt) ;;
    (w <- get ;;
     when (Position.is_open (position w) && negb (is_None (take_profit w)))
       reconcile_take_profit) ;;
    (w <- get ;;
     when (Position.is_open (position w) && negb (is_None (stop_loss w)))
       reconcile_stop_loss) ;;
    stop_loss_is_not_take_profit.

(** [_update_position] (lines 398-401) *)
Definition _update_position : M R unit :=
  call Hook.update_position (update_position E) ;;
  _detect_and_handle_entry_and_exit_modifications.

End Strategy.

(** What an override leaves in the four intent fields. *)
Definition written {R} (d : Intents.t R) (w : World R) : World R :=
  set_buy (Intents.buy d) (set_sell (Intents.sell d)
    (set_stop_loss (Intents.stop_loss d) (set_take_profit (Intents.take_profit d) w))).

(** *** The routes of the router, and the loop of [_broadcast] (lines 84-110) *)

(** A route of the router: a strategy object, with its [id], its
    environment, its overrides of the six [on_route_*] methods and its
    state.  An [on_route_*] override is given the strategy that broadcasts
    and, as the other overrides, leaves the four intents of its own strategy
    as it wants them. *)
Module Route.
Record t (R : Type) : Type := mk {
  id : Z;
  env : Env R;
  on_route_open_position : World R -> World R -> Intents.t R;
  on_route_stop_loss : World R -> World R -> Intents.t R;
  on_route_take_profit : World R -> World R -> Intents.t R;
  on_route_increased_position : World R -> World R -> Intents.t R;
  on_route_reduced_position : World R -> World R -> Intents.t R;
  on_route_canceled : World R -> World R -> Intents.t R;
  strategy : World R
}.

Definition set_strategy {R} (v : World R) (r : t R) : t R :=
  let (id, env, on_route_open_position, on_route_stop_loss, on_route_take_profit,
       on_route_increased_position, on_route_reduced_position, on_route_canceled,
       strategy) := r in
  mk id env on_route_open_position on_route_stop_loss on_route_take_profit
    on_route_increased_position on_route_reduced_position on_route_canceled v.
End Route.

(** The route of a strategy object: its class and its attributes. *)
Definition route_of {R} (s : Env R * World R) : Route.t R :=
  let (E, w) := s in
  {| Route.id := id E;
     Route.env := E;
     Route.on_route_open_position := on_route_open_position E;
     Route.on_route_stop_loss := on_route_stop_loss E;
     Route.on_route_take_profit := on_route_take_profit E;
     Route.on_route_increased_position := on_route_increased_position E;
     Route.on_route_reduced_position := on_route_reduced_position E;
     Route.on_route_canceled := on_route_canceled E;
     Route.strategy := w |}.

Module Router.

Section Broadcast.

Context {R : Type} {N : Num R}.

(** The [if]/[elif] chain of lines 97-108. *)
Definition on_route (msg : Msg) (r : Route.t R) : World R -> World R -> Intents.t R :=
  match msg with
  | route_open_position => Route.on_route_open_position r
  | route_stop_loss => Route.on_route_stop_loss r
  | route_take_profit => Route.on_route_take_profit r
  | route_increased_position => Route.on_route_increased_position r
  | route_reduced_position => Route.on_route_reduced_position r
  | route_canceled => Route.on_route_canceled r
  end.

(** One turn of the loop for a route that is not the sender (lines 97-110):
    its [on_route_*] override, then its reconciler. *)
Definition notify (self : World R) (msg : Msg) (r : Route.t R) : Route.t R * Res unit :=
  let w := written (on_route msg r self (Route.strategy r)) (Route.strategy r) in
  let (w', res) := _detect_and_handle_entry_and_exit_modifications (Route.env r) w in
  (Route.set_strategy w' r, res).

(** [self._broadcast(msg)] on the routes of the router, of which [self] is
    one: the routes as the loop leaves them.  An exception of a route's
    reconciler leaves the loop. *)
Fixpoint _broadcast (self : Route.t R) (msg : Msg) (routes : list (Route.t R))
  : list (Route.t R) * Res unit :=
  match routes with
  | [] => ([], Ok tt)
  | r :: rest =>
      if Route.id r =? Route.id self then                    (* skip self *)
        let (rest', res) := _broadcast self msg rest in (r :: rest', res)
      else
        match notify (Route.strategy self) msg r with
        | (r', Ok _) => let (rest', res) := _broadcast self msg rest in (r' :: rest', res)
        | (r', Raise e) => (r' :: rest, Raise e)
        end
  end.

End Broadcast.

End Router.

(** *** The class, from [_broadcast] on *)

Section Lifecycle.

Context {R : Type} {N : Num R}.
Variable E : Env R.

(** [_broadcast] (lines 84-110): the loop over [router.routes], of which
    the strategy is one.  What the loop leaves in the other strategies stays
    with them, in the router: [routes E] holds it for the states that follow.
    An exception of a route's reconciler is raised here. *)
Definition _broadcast (msg : Msg) : M R unit :=
  emit (EBroadcast msg) ;;
  w <- get ;;
  lift (snd (Router._broadcast (route_of (E, w)) msg (map route_of (routes E w)))).

(** *** [_execute_cancel] (lines 335-354) *)

Definition _execute_cancel : M R unit :=
  w <- get ;;
  if Position.is_open (position w) then raise Exception_
  else
    emit ECancelAllOrders ;;
    _reset ;;
    _broadcast route_canceled ;;
    call Hook.on_cancel (on_cancel E) ;;
    when (negb (is_unit_testing E) && negb (is_live E)) (emit EClearOrders).

(** *** The lifecycle handlers (lines 630-768) *)

(** [for o in x] over a snapshot: [None] is not iterable. *)
Definition rows_of (x : option (Table R)) : Res (Table R) :=
  match x with Some t => Ok t | None => Raise TypeError end.

(** The body of the loop of lines 635-661. *)
Definition open_take_profit_row (o : R * R) : M R unit :=
  w <- get ;;
  (if is_long w then
     if num_leb (snd o) (Position.entry_price (position w)) then raise InvalidStrategy
     else ret tt
   else if is_short w then
     if num_leb (Position.entry_price (position w)) (snd o) then raise InvalidStrategy
     else ret tt
   else ret tt) ;;
  ord <- place E (reduce_position_at (fst o) (snd o) CLOSE_POSITION) ;;
  append_take_profit_order ord.

(** The body of the loop of lines 664-690. *)
Definition open_stop_loss_row (o : R * R) : M R unit :=
  w <- get ;;
  (if is_long w then
     if num_leb (Position.entry_price (position w)) (snd o) then raise InvalidStrategy
     else ret tt
   else if is_short w then
     if num_leb (snd o) (Position.entry_price (position w)) then raise InvalidStrategy
     else ret tt
   else ret tt) ;;
  ord <- place E (stop_loss_at (fst o) (snd o) CLOSE_POSITION) ;;
  append_stop_loss_order ord.

(** Lines 634-690: the exit orders of a position that has just opened. *)
Definition submit_exit_orders : M R unit :=
  (w <- get ;;
   when (negb (is_None (take_profit w)))
     (rows <- lift (rows_of (_take_profit w)) ;; for_each rows open_take_profit_row)) ;;
  (w <- get ;;
   when (negb (is_None (stop_loss w)))
     (rows <- lift (rows_of (_stop_loss w)) ;; for_each rows open_stop_loss_row)).

Definition _on_open_position : M R unit :=
  _broadcast route_open_position ;;
  submit_exit_orders ;;
  modify (set__open_position_orders []) ;;
  modify (fun w => set__initial_qty (Some (Position.qty (position w))) w) ;;
  call Hook.on_open_position (on_open_position E) ;;
  _detect_and_handle_entry_and_exit_modifications E.

Definition _on_stop_loss : M R unit :=
  _broadcast route_stop_loss ;;
  _execute_cancel ;;
  call Hook.on_stop_loss (on_stop_loss E) ;;
  _detect_and_handle_entry_and_exit_modifications E.

Definition _on_take_profit : M R unit :=
  _broadcast route_take_profit ;;
  _execute_cancel ;;
  call Hook.on_take_profit (on_take_profit E) ;;
  _detect_and_handle_entry_and_exit_modifications E.

Definition _on_increased_position : M R unit :=
  modify (set__open_position_orders []) ;;
  _broadcast route_increased_position ;;
  call Hook.on_increased_position (on_increased_position E) ;;
  _detect_and_handle_entry_and_exit_modifications E.

Definition _on_reduced_position : M R unit :=
  modify (set__open_position_orders []) ;;
  _broadcast route_reduced_position ;;
  call Hook.on_reduced_position (on_reduced_position E) ;;
  _detect_and_handle_entry_and_exit_modifications E.

(** *** The trade recorder: [_log_position_update] (lines 998-1085) *)

(** The two accumulators [(sum_price, sum_qty)] of the loops of lines
    1028-1075, and one turn of a loop. *)
Definition Sums : Type := (Scalar R * Scalar R)%type.

Definition no_sums : Sums := (py_zero, py_zero).

Definition add_fill (acc : Sums) (q p : Scalar R) : Sums :=
  (sc_add (fst acc) (sc_mul (sc_abs q) p), sc_add (snd acc) (sc_abs q)).

(** Lines 1028-1047: the average of a log, [np.nan] for no log. *)
Definition average_of_log (log : option (Log R)) : Res (Scalar R) :=
  match log with
  | Some rows =>
      let acc := fold_left (fun acc l => add_fill acc (fst l) (snd l)) rows no_sums in
      sc_div (fst acc) (snd acc)
  | None => Ok (PyFloat num_nan)
  end.

(** Lines 1050-1060: the loop for the entry price skips an order that is not
    executed and an order whose side is not the side of the trade. *)
Definition entry_sums (ty : TradeType) (orders : list (Order.t R)) : Sums :=
  fold_left (fun acc l =>
    if negb (Order.is_executed l) then acc
    else if negb (TradeType_eqb (side_to_type (Order.side l)) ty) then acc
    else add_fill acc (Order.qty l) (Order.price l)) orders no_sums.

(** Lines 1064-1074: the loop for the exit price skips an order that is not
    executed and an order whose side is the side of the trade. *)
Definition exit_sums (ty : TradeType) (orders : list (Order.t R)) : Sums :=
  fold_left (fun acc l =>
    if negb (Order.is_executed l) then acc
    else if TradeType_eqb (side_to_type (Order.side l)) ty then acc
    else add_fill acc (Order.qty l) (Order.price l)) orders no_sums.

(** Lines 1078-1081: [pydash.sum_by] over the orders on the opening side. *)
Definition opening_qty (ty : TradeType) (orders : list (Order.t R)) : Scalar R :=
  fold_left (fun acc o => sc_add acc (sc_abs (Order.qty o)))
    (filter (fun o => Side_eqb (Order.side o) (type_to_side ty)) orders) py_zero.

(** [self.trade.field = ...]: [self.trade] may be [None]. *)
Definition with_trade {A} (k : CompletedTrade.t R -> M R A) : M R A :=
  w <- get ;;
  match trade w with
  | Some t => k t
  | None => raise AttributeError
  end.

Definition update_trade (f : CompletedTrade.t R -> CompletedTrade.t R) : M R unit :=
  with_trade (fun t => modify (set_trade (Some (f t)))).

Definition _log_position_update (order : Order.t R) (role : option Role) : M R unit :=
  match role with
  | Some OPEN_POSITION =>
      modify (fun w => set_trade (Some
        {| CompletedTrade.orders := [order];
           CompletedTrade.timeframe := timeframe w;
           CompletedTrade.id := Order.id order;
           CompletedTrade.strategy_name := name w;
           CompletedTrade.exchange := Order.exchange order;
           CompletedTrade.symbol := Order.symbol order;
           CompletedTrade.type := if Side_eqb (Order.side order) BUY then LONG else SHORT;
           CompletedTrade.qty := Order.qty order;
           CompletedTrade.opened_at := now E w;
           CompletedTrade.entry_candle_timestamp := current_candle_timestamp E w;
           CompletedTrade.exit_candle_timestamp := None;
           CompletedTrade.stop_loss_at := None;
           CompletedTrade.take_profit_at := None;
           CompletedTrade.entry_price := None;
           CompletedTrade.exit_price := None;
           CompletedTrade.closed_at := None |}) w)
  | Some INCREASE_POSITION | Some REDUCE_POSITION =>
      update_trade (fun t => CompletedTrade.set_orders (CompletedTrade.orders t ++ [order]) t) ;;
      update_trade (fun t => CompletedTrade.set_qty (sc_add (CompletedTrade.qty t) (Order.qty order)) t)
  | Some CLOSE_POSITION =>
      w <- get ;;
      update_trade (CompletedTrade.set_exit_candle_timestamp (Some (current_candle_timestamp E w))) ;;
      update_trade (fun t => CompletedTrade.set_orders (CompletedTrade.orders t ++ [order]) t) ;;
      (* the average stop-loss and take-profit prices *)
      sl <- lift (average_of_log (_log_stop_loss w)) ;;
      update_trade (CompletedTrade.set_stop_loss_at (Some sl)) ;;
      tp <- lift (average_of_log (_log_take_profit w)) ;;
      update_trade (CompletedTrade.set_take_profit_at (Some tp)) ;;
      (* the average entry price *)
      entry <- with_trade (fun t =>
        let acc := entry_sums (CompletedTrade.type t) (CompletedTrade.orders t) in
        lift (sc_div (fst acc) (snd acc))) ;;
      update_trade (CompletedTrade.set_entry_price (Some entry)) ;;
      (* the average exit price *)
      exit <- with_trade (fun t =>
        let acc := exit_sums (CompletedTrade.type t) (CompletedTrade.orders t) in
        lift (sc_div (fst acc) (snd acc))) ;;
      update_trade (CompletedTrade.set_exit_price (Some exit)) ;;
      w' <- get ;;
      update_trade (CompletedTrade.set_closed_at (Some (now E w'))) ;;
      update_trade (fun t =>
        CompletedTrade.set_qty (opening_qty (CompletedTrade.type t) (CompletedTrade.orders t)) t) ;;
      with_trade (fun t => modify (fun w => set_completed_trades (completed_trades w ++ [t]) w)) ;;
      modify (set_trade None) ;;
      modify (fun w => set_trades_count (trades_count w + 1) w)
  | None => ret tt
  end.

(** *** The order classifier: [_on_updated_position] (lines 112-141) *)

Definition has_role (r : Role) (o : Order.t R) : bool :=
  match Order.role o with
  | Some r' => Role_eqb r' r
  | None => false
  end.

(** Lines 122-124. *)
Definition reassign_opening (p : Position.t R) (order : Order.t R) : Order.t R :=
  if has_role OPEN_POSITION order
     && negb (num_eqb (num_abs (Position.qty p)) (num_abs (sval (Order.qty order))))
  then Order.set_role INCREASE_POSITION order
  else order.

(** Lines 126-128. *)
Definition reassign_closing (p : Position.t R) (order : Order.t R) : Order.t R :=
  if has_role CLOSE_POSITION order && Position.is_open p
  then Order.set_role REDUCE_POSITION order
  else order.

(** The role an executed order ends with. *)
Definition classify (p : Position.t R) (order : Order.t R) : Order.t R :=
  reassign_closing p (reassign_opening p order).

(** The order is an object the baskets and the trade share with the caller:
    whoever holds it sees the fields it has now. *)
Definition seen_as (o : Order.t R) (l : list (Order.t R)) : list (Order.t R) :=
  map (fun o' => if Order.id o' =? Order.id o then o else o') l.

Definition share (o : Order.t R) : M R unit :=
  modify (fun w =>
    set__open_position_orders (seen_as o (_open_position_orders w))
      (set__stop_loss_orders (seen_as o (_stop_loss_orders w))
        (set__take_profit_orders (seen_as o (_take_profit_orders w))
          (set_trade
             (option_map (fun t => CompletedTrade.set_orders (seen_as o (CompletedTrade.orders t)) t)
                (trade w)) w)))).

(** The lifecycle handlers, and the choice among them of lines 132-141. *)
Inductive Handler :=
| open_position_handler | take_profit_handler | stop_loss_handler
| increased_position_handler | reduced_position_handler.

Definition handler_of (role : option Role) (in_take_profit in_stop_loss : bool)
  : option Handler :=
  match role with
  | Some OPEN_POSITION => Some open_position_handler
  | Some CLOSE_POSITION =>
      if in_take_profit then Some take_profit_handler
      else if in_stop_loss then Some stop_loss_handler
      else None
  | Some INCREASE_POSITION => Some increased_position_handler
  | Some REDUCE_POSITION => Some reduced_position_handler
  | None => None
  end.

Definition run_handler (h : option Handler) : M R unit :=
  match h with
  | Some open_position_handler => _on_open_position
  | Some take_profit_handler => _on_take_profit
  | Some stop_loss_handler => _on_stop_loss
  | Some increased_position_handler => _on_increased_position
  | Some reduced_position_handler => _on_reduced_position
  | None => ret tt
  end.

Definition _on_updated_position (order : Order.t R) : M R unit :=
  w <- get ;;
  let order := classify (position w) order in
  share order ;;
  _log_position_update order (Order.role order) ;;
  w <- get ;;
  run_handler (handler_of (Order.role order)
                 (order_in order (_take_profit_orders w))
                 (order_in order (_stop_loss_orders w))).

(** *** The entry pipelines (lines 150-196, 284-325) *)

(** [passed == False]: [False], and the number 0, equal [False]. *)
Definition equals_False (v : PyRet R) : bool :=
  match v with
  | RBool b => negb b
  | RNumber x => num_eqb x num_zero
  | RNone => false
  end.

(** [passed is False] *)
Definition is_False (v : PyRet R) : bool :=
  match v with
  | RBool b => negb b
  | _ => false
  end.

(** Lines 154-157. *)
Definition validate_buy : M R unit :=
  w <- get ;;
  if is_None (buy w) then raise InvalidStrategy
  else if not_sequence (buy w) then raise InvalidStrategy
  else ret tt.

(** Lines 288-291. *)
Definition validate_sell : M R unit :=
  w <- get ;;
  if is_None (sell w) then raise InvalidStrategy
  else if not_sequence (sell w) then raise InvalidStrategy
  else ret tt.

(** Lines 161-171 and 295-301. *)
Definition prepare_exits : M R unit :=
  (w <- get ;;
   when (negb (is_None (take_profit w))) (_validate_take_profit ;; _prepare_take_profit E true)) ;;
  (w <- get ;;
   when (negb (is_None (stop_loss w))) (_validate_stop_loss ;; _prepare_stop_loss E true)).

Definition _execute_long : M R unit :=
  call Hook.go_long (go_long E) ;;
  validate_buy ;;
  _prepare_buy E true ;;
  prepare_exits ;;
  w <- get ;;
  if existsb (fun f => equals_False (f w)) (filters E w) then _reset
  else rows <- lift (rows_of (_buy w)) ;; for_each rows (submit_buy_row E).

Definition _execute_short : M R unit :=
  call Hook.go_short (go_short E) ;;
  validate_sell ;;
  _prepare_sell E true ;;
  prepare_exits ;;
  w <- get ;;
  if existsb (fun f => is_False (f w)) (filters E w) then _reset
  else rows <- lift (rows_of (_sell w)) ;; for_each rows (submit_sell_row E).

(** *** The tick: [_check] (lines 577-628) and [_execute] (lines 821-835) *)

(** Lines 598-603: up to [n] polls of the order store. *)
Fixpoint wait_for_cancellation (n : nat) : M R unit :=
  match n with
  | O => ret tt
  | S n' =>
      w <- get ;;
      if (count_active_orders E w =? 0)%nat then ret tt
      else emit ESleep ;; wait_for_cancellation n'
  end.

(** Lines 590-609. *)
Definition cancel_if_asked : M R unit :=
  w <- get ;;
  when (negb (is_nil (_open_position_orders w)) && should_cancel E w)
    (_execute_cancel ;;
     when (is_live E)
       (emit ESleep ;;
        wait_for_cancellation 20 ;;
        w <- get ;;
        if negb (count_active_orders E w =? 0)%nat then raise ExchangeNotResponding
        else ret tt)).

(** Modelled from the spec: [store.orders.execute_pending_market_orders], a
    method of the order store.  The store executes its pending market orders
    in turn; an execution changes the position and then hands the executed
    order to [_on_updated_position]. *)
Definition execute_pending_market_orders : M R unit :=
  w <- get ;;
  for_each (pending_market_orders E w) (fun fill =>
    modify (set_position (snd fill)) ;;
    _on_updated_position (fst fill)).

(** Lines 617-628. *)
Definition enter_if_flat : M R unit :=
  w <- get ;;
  when (Position.is_close (position w) && is_nil (_open_position_orders w))
    ((if should_short E w && should_long E w then raise ConflictingRules else ret tt) ;;
     (w <- get ;; when (should_long E w) _execute_long) ;;
     (w <- get ;; when (should_short E w) _execute_short)).

(** Lines 579-580. *)
Definition mark_initiated : M R unit :=
  w <- get ;; when (negb (_is_initiated w)) (modify (set__is_initiated true)).

(** Line 586: the cap on the trades of a test drive. *)
Definition test_drive_is_over (w : World R) : bool :=
  is_test_driving E && (2 <=? Z.of_nat (List.length (completed_trades w))).

(** Lines 590-615: what a tick does before it looks for an entry. *)
Definition before_entry : M R unit :=
  cancel_if_asked ;;
  (w <- get ;; when (Position.is_open (position w)) (_update_position E)) ;;
  when (is_backtesting E || is_unit_testing E) execute_pending_market_orders.

Definition _check : M R unit :=
  mark_initiated ;;
  w <- get ;;
  if test_drive_is_over w then ret tt
  else before_entry ;; enter_if_flat.

Definition _execute : M R unit :=
  w <- get ;;
  if _is_executing w then ret tt
  else
    modify (set__is_executing true) ;;
    call Hook.prepare (prepare E) ;;
    _check ;;
    modify (set__is_executing false) ;;
    modify (fun w => set_index (index w + 1) w).

End Lifecycle.

(* ================================================================= *)
(** ** A concrete strategy, to run the class on *)

Module Demo.

Section Build.

Context {R : Type} {N : Num R}.

(** [-x], which the class itself never computes. *)
Variable neg : R -> R.

(** A sandbox broker: the order it returns carries the call's side, quantity
    (negative for a sell), price and role; its id is the number of calls made
    on the collaborators so far. *)
Definition order (s : Side) (q : R) (p : R) (r : Role) (w : World R) : Order.t R :=
  {| Order.id := Z.of_nat (List.length (trace w));
     Order.side := s;
     Order.qty := NpFloat (match s with BUY => q | SELL => neg q end);
     Order.price := NpFloat p;
     Order.role := Some r;
     Order.exchange := "Sandbox";
     Order.symbol := "BTCUSD";
     Order.is_active := true;
     Order.is_queued := false;
     Order.is_executed := false |}.

Definition closing_side (w : World R) : Side :=
  match Position.type (position w) with short => BUY | _ => SELL end.

Definition sandbox (c : BrokerCall R) (w : World R) : Order.t R :=
  match c with
  | start_profit_at s q p r => order s q p r w
  | buy_at q p r => order BUY q p r w
  | sell_at q p r => order SELL q p r w
  | buy_at_market q r => order BUY q (Position.current_price (position w)) r w
  | sell_at_market q r => order SELL q (Position.current_price (position w)) r w
  | reduce_position_at q p r => order (closing_side w) q p r w
  | stop_loss_at q p r => order (closing_side w) q p r w
  end.

(** A strategy whose [go_long] and [go_short] set the given intents, whose
    [should_long] and [should_short] answer as given, and which overrides
    nothing else; the run is a backtest, and the router has no route. *)
Definition strategy (long_ short_ : bool) (entry take stop : Intent R) : Env R :=
  {| is_live := false;
     is_test_driving := false;
     is_backtesting := true;
     is_unit_testing := false;
     round_price_for_live_mode := fun _ x => x;
     round_qty_for_live_mode := fun _ x => x;
     now := fun _ => 0;
     current_candle_timestamp := fun _ => num_zero;
     broker := sandbox;
     count_active_orders := fun _ => O;
     pending_market_orders := fun _ => [];
     go_long := fun _ =>
       {| Intents.buy := entry; Intents.sell := INone;
          Intents.stop_loss := stop; Intents.take_profit := take |};
     go_short := fun _ =>
       {| Intents.buy := INone; Intents.sell := entry;
          Intents.stop_loss := stop; Intents.take_profit := take |};
     update_position := pass;
     prepare := pass;
     on_cancel := pass;
     on_open_position := pass;
     on_stop_loss := pass;
     on_take_profit := pass;
     on_increased_position := pass;
     on_reduced_position := pass;
     should_long := fun _ => long_;
     should_short := fun _ => short_;
     should_cancel := fun _ => false;
     filters := fun _ => [];
     id := 0;
     on_route_open_position := fun _ => pass;
     on_route_stop_loss := fun _ => pass;
     on_route_take_profit := fun _ => pass;
     on_route_increased_position := fun _ => pass;
     on_route_reduced_position := fun _ => pass;
     on_route_canceled := fun _ => pass;
     routes := fun _ => [] |}.

(** The strategy as [__init__] leaves it, beside a position. *)
Definition fresh (p : Position.t R) : World R :=
  {| name := "Demo"; timeframe := "1h"; index := 0;
     buy := INone; _buy := None; sell := INone; _sell := None;
     stop_loss := INone; _stop_loss := None;
     take_profit := INone; _take_profit := None;
     _log_take_profit := None; _log_stop_loss := None;
     _open_position_orders := []; _stop_loss_orders := []; _take_profit_orders := [];
     trade := None; trades_count := 0; _initial_qty := None;
     _is_executing := false; _is_initiated := false;
     position := p; completed_trades := []; trace := [] |}.

(** An executed order. *)
Definition fill (i : Z) (s : Side) (q p : R) (r : Role) : Order.t R :=
  {| Order.id := i; Order.side := s;
     Order.qty := PyFloat q; Order.price := PyFloat p;
     Order.role := Some r;
     Order.exchange := "Sandbox"; Order.symbol := "BTCUSD";
     Order.is_active := false; Order.is_queued := false; Order.is_executed := true |}.

End Build.

End Demo.

(* ================================================================= *)
(** ** The vocabulary of the statements *)

(** Every run of [m] takes a world to one that [P] relates to it, whether
    [m] returns or raises. *)
Definition along {R A} (P : World R -> World R -> Prop) (m : M R A) : Prop :=
  forall w w' r, m w = (w', r) -> P w w'.

(** What no method but [_execute] changes: the tick counter and the guard;
    and the trace only grows. *)
Definition stays {R} (w w' : World R) : Prop :=
  index w' = index w /\ _is_executing w' = _is_executing w /\
  exists evs, trace w' = trace w ++ evs.

(** Nothing is said to the outside, and the exit baskets hold the same
    orders. *)
Definition quiet {R} (w w' : World R) : Prop :=
  trace w' = trace w /\
  map (@Order.id R) (_take_profit_orders w') = map (@Order.id R) (_take_profit_orders w) /\
  map (@Order.id R) (_stop_loss_orders w') = map (@Order.id R) (_stop_loss_orders w).

(** The message with which a lifecycle handler announces itself to the other
    routes. *)
Definition message_of (h : Handler) : Msg :=
  match h with
  | open_position_handler => route_open_position
  | take_profit_handler => route_take_profit
  | stop_loss_handler => route_stop_loss
  | increased_position_handler => route_increased_position
  | reduced_position_handler => route_reduced_position
  end.

(** What [_reset] leaves: no intent, no snapshot, no log, empty baskets and
    no initial quantity. *)
Definition nulled {R} (w : World R) : Prop :=
  buy w = INone /\ _buy w = None /\ sell w = INone /\ _sell w = None /\
  stop_loss w = INone /\ _stop_loss w = None /\
  take_profit w = INone /\ _take_profit w = None /\
  _log_take_profit w = None /\ _log_stop_loss w = None /\
  _open_position_orders w = [] /\ _stop_loss_orders w = [] /\
  _take_profit_orders w = [] /\ _initial_qty w = None.

(** What comes back to a strategy of class [E] that broadcasts [msg] in
    state [w]: the loop over the routes returns, or the reconciler of a route
    raised. *)
Definition routes_answer {R} {N : Num R} (E : Env R) (msg : Msg) (w : World R)
  : Res unit :=
  snd (Router._broadcast (route_of (E, w)) msg (map route_of (routes E w))).

(** The fields [_reset] does not write. *)
Definition same_outside_reset {R} (w w' : World R) : Prop :=
  name w' = name w /\ timeframe w' = timeframe w /\ index w' = index w /\
  trade w' = trade w /\ trades_count w' = trades_count w /\
  _is_executing w' = _is_executing w /\ _is_initiated w' = _is_initiated w /\
  position w' = position w /\ completed_trades w' = completed_trades w /\
  trace w' = trace w.

(** Section 4.3 of the spec in its own words, for an entry on direction [d]
    with the mark at [m]: a price equal to the mark selects MARKET; a price
    worse than the mark (BUY: above it, SELL: below it) selects a STOP entry
    on [d]; a price better than the mark selects a LIMIT entry on [d]. *)
Definition entry_per_spec {R} {N : Num R} (d : Side) (m : R) (o : R * R)
  : option (BrokerCall R) :=
  let q := fst o in
  let p := snd o in
  if num_eqb p m then
    Some (match d with
          | BUY => buy_at_market q OPEN_POSITION
          | SELL => sell_at_market q OPEN_POSITION
          end)
  else
    match d with
    | BUY =>
        if num_ltb m p then Some (start_profit_at BUY q p OPEN_POSITION)
        else if num_ltb p m then Some (buy_at q p OPEN_POSITION)
        else None
    | SELL =>
        if num_ltb p m then Some (start_profit_at SELL q p OPEN_POSITION)
        else if num_ltb m p then Some (sell_at q p OPEN_POSITION)
        else None
    end.

(** Two numbers compare as numbers do: [x <= y] is the negation of
    [y < x], and [y <= x] that of [x < y].  A NaN compares so with
    nothing. *)
Definition comparable {R} {N : Num R} (x y : R) : bool :=
  Bool.eqb (num_leb x y) (negb (num_ltb y x)) &&
  Bool.eqb (num_leb y x) (negb (num_ltb x y)).

(** Exactly one of [x < y], [x == y] and [y < x] holds. *)
Definition trichotomous {R} {N : Num R} (x y : R) : bool :=
  match num_ltb x y, num_eqb x y, num_ltb y x with
  | true, false, false | false, true, false | false, false, true => true
  | _, _, _ => false
  end.

(** None of [x < y], [x == y] and [y < x] holds. *)
Definition unordered {R} {N : Num R} (x y : R) : bool :=
  negb (num_ltb x y) && negb (num_eqb x y) && negb (num_ltb y x).

(** The calls of section 4.3 for the rows of a table, in the order of the
    rows: one for a row that has one, none for a row that has none. *)
Definition entry_calls {R} {N : Num R} (d : Side) (m : R) (rows : Table R)
  : list (BrokerCall R) :=
  flat_map (fun o => match entry_per_spec d m o with Some c => [c] | None => [] end) rows.

(** Section 4.8 of the spec: on the position's type, a take-profit price is
    on the side of profit when it is strictly above the entry price of a
    long position, strictly below that of a short one. *)
Definition profits {R} {N : Num R} (ty : PositionType) (entry p : R) : bool :=
  match ty with
  | long => num_ltb entry p
  | short => num_ltb p entry
  | close => true
  end.

(** And a stop-loss price protects when it is strictly below the entry price
    of a long position, strictly above that of a short one. *)
Definition protects {R} {N : Num R} (ty : PositionType) (entry p : R) : bool :=
  match ty with
  | long => num_ltb p entry
  | short => num_ltb entry p
  | close => true
  end.

(** The tests of lines 637-651 and 666-681 as they are written: a
    take-profit row is refused when its price is [<=] the entry price of a
    long position or [>=] that of a short one, a stop-loss row the other way
    round. *)
Definition take_profit_refused {R} {N : Num R} (ty : PositionType) (entry p : R) : bool :=
  match ty with
  | long => num_leb p entry
  | short => num_leb entry p
  | close => false
  end.

Definition stop_loss_refused {R} {N : Num R} (ty : PositionType) (entry p : R) : bool :=
  match ty with
  | long => num_leb entry p
  | short => num_leb p entry
  | close => false
  end.

(** The rows of a list up to the first that fails a test. *)
Fixpoint passing {A} (ok : A -> bool) (l : list A) : list A :=
  match l with
  | [] => []
  | x :: l' => if ok x then x :: passing ok l' else []
  end.

(** The rows the open handler walks for an exit intent: none when the intent
    is [None], else those of its snapshot. *)
Definition exit_rows {R} (x : Intent R) (snapshot : option (Table R)) : Table R :=
  if is_None x then []
  else match snapshot with Some t => t | None => [] end.

(** An intent that is set has its snapshot. *)
Definition snapshot_taken {R} (x : Intent R) (snapshot : option (Table R)) : Prop :=
  is_None x = false -> snapshot <> None.

(** What the loops over the exit rows read stays as it is. *)
Definition exits_frame {R} (w w' : World R) : Prop :=
  position w' = position w /\
  take_profit w' = take_profit w /\ _take_profit w' = _take_profit w /\
  stop_loss w' = stop_loss w /\ _stop_loss w' = _stop_loss w.

(** The broker calls of the open handler for a take-profit row and for a
    stop-loss row. *)
Definition take_profit_call {R} (o : R * R) : Event R :=
  EBroker (reduce_position_at (fst o) (snd o) CLOSE_POSITION).

Definition stop_loss_call {R} (o : R * R) : Event R :=
  EBroker (stop_loss_at (fst o) (snd o) CLOSE_POSITION).

(** The world after one order-submitting call for an entry: the call is in
    the trace and the order the broker returned is at the end of the basket of
    entry orders. *)
Definition placed {R} (E : Env R) (c : BrokerCall R) (w : World R) : World R :=
  let w' := set_trace (trace w ++ [EBroker c]) w in
  set__open_position_orders (_open_position_orders w' ++ [broker E c w]) w'.

(** The world after a sequence of such calls, and the orders the broker
    returned for them. *)
Definition placed_all {R} (E : Env R) (cs : list (BrokerCall R)) (w : World R) : World R :=
  fold_left (fun w c => placed E c w) cs w.

Fixpoint returned {R} (E : Env R) (cs : list (BrokerCall R)) (w : World R)
  : list (Order.t R) :=
  match cs with
  | [] => []
  | c :: cs' => broker E c w :: returned E cs' (placed E c w)
  end.

(** Lines 151-171 of [_execute_long] and 285-301 of [_execute_short]: what
    the pipelines do before the filters. *)
Definition long_preparation {R} {N : Num R} (E : Env R) : M R unit :=
  (call Hook.go_long (go_long E) ;; validate_buy ;; _prepare_buy E true ;; prepare_exits E)%method.

Definition short_preparation {R} {N : Num R} (E : Env R) : M R unit :=
  (call Hook.go_short (go_short E) ;; validate_sell ;; _prepare_sell E true ;; prepare_exits E)%method.

(** The executed orders of a trade on the side of its direction, and those
    on the opposite side. *)
Definition entry_fills {R} (t : CompletedTrade.t R) : list (Order.t R) :=
  filter (fun o => Order.is_executed o
                   && TradeType_eqb (side_to_type (Order.side o)) (CompletedTrade.type t))
         (CompletedTrade.orders t).

Definition exit_fills {R} (t : CompletedTrade.t R) : list (Order.t R) :=
  filter (fun o => Order.is_executed o
                   && negb (TradeType_eqb (side_to_type (Order.side o)) (CompletedTrade.type t)))
         (CompletedTrade.orders t).

(** The |qty|-weighted average of the prices of a list of fills: the sum of
    |qty| * price over the sum of |qty|, each summed from zero in the order of
    the list. *)
Definition cost {R} {N : Num R} (fills : list (Order.t R)) : R :=
  fold_left (fun s o => num_add s (num_mul (num_abs (sval (Order.qty o))) (sval (Order.price o))))
            fills num_zero.

Definition volume {R} {N : Num R} (fills : list (Order.t R)) : R :=
  fold_left (fun s o => num_add s (num_abs (sval (Order.qty o)))) fills num_zero.

Definition vwap {R} {N : Num R} (fills : list (Order.t R)) : R :=
  num_div (cost fills) (volume fills).

Definition fill_prices {R} (fills : list (Order.t R)) : list R :=
  map (fun o => sval (Order.price o)) fills.

(** [x] lies in the closed interval between the least and the greatest of
    [prices]: between two of them. *)
Definition between {R} {N : Num R} (x : R) (prices : list R) : Prop :=
  exists lo hi, In lo prices /\ In hi prices /\ num_leb lo x = true /\ num_leb x hi = true.

(** The trade that a run of the recorder on a closing order completes. *)
Definition completes {R} {N : Num R} (E : Env R) (order : Order.t R)
           (w : World R) (t : CompletedTrade.t R) : Prop :=
  exists w', _log_position_update E order (Some CLOSE_POSITION) w = (w', Ok tt) /\
             completed_trades w' = completed_trades w ++ [t].

(** The recorded prices of a trade are the weighted averages of its fills. *)
Definition records_vwap {R} {N : Num R} (t : CompletedTrade.t R) : Prop :=
  (exists s, CompletedTrade.entry_price t = Some s /\ sval s = vwap (entry_fills t)) /\
  (exists s, CompletedTrade.exit_price t = Some s /\ sval s = vwap (exit_fills t)).

(** The recorded prices of a trade lie between its fill prices. *)
Definition within_fills {R} {N : Num R} (t : CompletedTrade.t R) : Prop :=
  (exists s, CompletedTrade.entry_price t = Some s /\
             between (sval s) (fill_prices (entry_fills t))) /\
  (exists s, CompletedTrade.exit_price t = Some s /\
             between (sval s) (fill_prices (exit_fills t))).

(** Property 5 of section 8 of the spec (VWAP closure), in the arithmetic
    [N]: every completed trade with an executed order on each side records
    the weighted averages and they lie between the fill prices. *)
Definition VWAP_closure (R : Type) (N : Num R) : Prop :=
  forall (E : Env R) order w t,
  completes E order w t ->
  entry_fills t <> [] -> exit_fills t <> [] ->
  records_vwap t /\ within_fills t.

(* ================================================================= *)
(** ** Concrete inputs *)

Module Inputs.

Local Open Scope float_scope.

(** No position, the mark at 100. *)
Definition flat : Position.t float :=
  {| Position.qty := 0; Position.type := close;
     Position.entry_price := 0; Position.current_price := 100 |}.

(** One unit long, entered at 100, the mark at 100. *)
Definition one_long : Position.t float :=
  {| Position.qty := 1; Position.type := long;
     Position.entry_price := 100; Position.current_price := 100 |}.

(** One unit short, entered at 100, the mark at 100. *)
Definition one_short : Position.t float :=
  {| Position.qty := -1; Position.type := short;
     Position.entry_price := 100; Position.current_price := 100 |}.

(** Scenario E1 of the spec: buy 1 at the mark, take profit at 110, stop
    at 90. *)
Definition basic_long : Env float :=
  Demo.strategy PrimFloat.opp true false
    (IPair tuple 1 100) (IPair tuple 1 110) (IPair tuple 1 90).

(** A position of one unit long whose initial quantity was 2. *)
Definition halved : World float :=
  set__initial_qty (Some 2) (Demo.fresh one_long).

(** Scenario E5 of the spec, in halves: a first fill of half a unit opened
    the position and the trade; the position now holds one unit. *)
Definition first_half : Order.t float := Demo.fill 5 BUY 0.5 100 OPEN_POSITION.

Definition after_first_half : World float :=
  set_position one_long
    (fst (_log_position_update basic_long first_half (Some OPEN_POSITION)
            (Demo.fresh one_long))).

(** The second fill of half a unit, an exit of half a unit, and a fill of
    the whole unit. *)
Definition second_half : Order.t float := Demo.fill 6 BUY 0.5 100 OPEN_POSITION.

Definition half_exit : Order.t float := Demo.fill 7 SELL (-0.5) 110 CLOSE_POSITION.

Definition whole : Order.t float := Demo.fill 8 BUY 1 100 OPEN_POSITION.

(** Scenario E6: both [should_long] and [should_short] hold. *)
Definition conflicting : Env float :=
  Demo.strategy PrimFloat.opp true true
    (IPair tuple 1 100) (IPair tuple 1 110) (IPair tuple 1 90).

(** Sell 1 at the mark, take profit at 90, stop at 110. *)
Definition basic_short : Env float :=
  Demo.strategy PrimFloat.opp false true
    (IPair tuple 1 100) (IPair tuple 1 90) (IPair tuple 1 110).

(** A short position whose entry was one row at the mark, after the user
    has rewritten [sell] to three rows: above, below and at the mark. *)
Definition short_mutated : World float :=
  set_sell (IRows list_ [(1, 105); (1, 95); (1, 100)])
    (set__sell (Some [(1, 100)]) (Demo.fresh one_short)).

(** A strategy whose [go_long] sets [buy] to a numpy array. *)
Definition table_entry : Env float :=
  Demo.strategy PrimFloat.opp true false (IArray [(1, 100)]) INone INone.

(** A long position from 100 with two take-profit rows, the second below
    the entry price, and one stop-loss row. *)
Definition long_with_exits : World float :=
  set_take_profit (IArray [(1, 110); (1, 95)])
    (set__take_profit (Some [(1, 110); (1, 95)])
      (set_stop_loss (IArray [(2, 90)])
        (set__stop_loss (Some [(2, 90)]) (Demo.fresh one_long)))).

(** A strategy whose [go_long] sets three entry rows: above, below and at
    the mark. *)
Definition ladder : Env float :=
  Demo.strategy PrimFloat.opp true false
    (IRows list_ [(1, 105); (2, 95); (3, 100)]) INone INone.

(** A strategy whose [go_long] sets one entry row, its price a NaN. *)
Definition nan_entry : Env float :=
  Demo.strategy PrimFloat.opp true false (IRows list_ [(1, nan)]) INone INone.

(** A long trade opened by one fill of 3 units at 0.1 (the binary64 number
    nearest to 0.1), about to be closed by one fill of 3 units at 0.2. *)
Definition tenth : float := 0x1.999999999999ap-4.
Definition fifth : float := 0x1.999999999999ap-3.

Definition bought : Order.t float := Demo.fill 1 BUY 3 tenth OPEN_POSITION.
Definition sold : Order.t float := Demo.fill 2 SELL (-3) fifth CLOSE_POSITION.

Definition before_close : World float :=
  fst (_log_position_update basic_long bought (Some OPEN_POSITION) (Demo.fresh flat)).

(** The binary64 number next above [tenth]: 0.10000000000000002. *)
Definition above_tenth : float := 0x1.999999999999bp-4.

End Inputs.

(** The same trade in exact arithmetic, at the prices 1/10 and 1/5. *)
Module ExactInputs.

Definition nothing : Env Q :=
  Demo.strategy Qopp false false INone INone INone.

Definition flat : Position.t Q :=
  {| Position.qty := 0%Q; Position.type := close;
     Position.entry_price := 0%Q; Position.current_price := 100%Q |}.

Definition bought : Order.t Q := Demo.fill 1 BUY 3%Q (1 # 10)%Q OPEN_POSITION.
Definition sold : Order.t Q := Demo.fill 2 SELL (-3)%Q (1 # 5)%Q CLOSE_POSITION.

Definition before_close : World Q :=
  fst (_log_position_update nothing bought (Some OPEN_POSITION) (Demo.fresh flat)).

End ExactInputs.

(* ================================================================= *)
(** ** Requests and reads of the user's strategy *)

Local Open Scope method_scope.

Section Requests.

Context {R : Type} {N : Num R}.
Variable E : Env R.

(** [position.pnl]: a property of the position model (its read contract is
    in section 3 of the spec), computed outside the class. *)
Variable pnl : Position.t R -> R.

(** *** [liquidate] (lines 1134-1144) *)

Definition liquidate : M R unit :=
  w <- get ;;
  if Position.is_close (position w) then ret tt
  else if num_ltb num_zero (pnl (position w)) then              (* pnl > 0 *)
    modify (set_take_profit (IPair tuple (Position.qty (position w)) (price w)))
  else
    modify (set_stop_loss (IPair tuple (Position.qty (position w)) (price w))).

(** *** The averages (lines 1103-1132) *)

(** [x.sum()] for a one-dimensional array [x]: numpy's summation, whose
    order of additions is numpy's own. *)
Variable np_sum : list R -> R.

(** [(np.abs(arr[:, 0] * arr[:, 1])).sum() / np.abs(arr[:, 0]).sum()], a
    division between numpy scalars.  Whether an array without rows has a
    column 0 depends on its shape, which a [Table] does not hold. *)
Definition average_of (arr : Table R) : Res R :=
  match arr with
  | [] => Raise Unmodelled
  | _ :: _ =>
      Ok (num_div (np_sum (map (fun o => num_abs (num_mul (fst o) (snd o))) arr))
                  (np_sum (map (fun o => num_abs (fst o)) arr)))
  end.

Definition average_stop_loss (w : World R) : Res R :=
  match _stop_loss w with
  | None => Raise InvalidStrategy
  | Some arr => average_of arr
  end.

Definition average_take_profit (w : World R) : Res R :=
  match _take_profit w with
  | None => Raise InvalidStrategy
  | Some arr => average_of arr
  end.

(** [arr[:, 0]] for [arr] a snapshot: [None] is not subscriptable. *)
Definition average_of_snapshot (arr : option (Table R)) : Res (option R) :=
  match arr with
  | None => Raise TypeError
  | Some arr =>
      match average_of arr with
      | Ok x => Ok (Some x)
      | Raise e => Raise e
      end
  end.

Definition average_entry_price (w : World R) : Res (option R) :=
  if is_long w then average_of_snapshot (_buy w)
  else if is_short w then average_of_snapshot (_sell w)
  else if should_long E w then average_of_snapshot (_buy w)
  else if should_short E w then average_of_snapshot (_sell w)
  else Ok None.

End Requests.

(* ================================================================= *)
(** ** The end of a run: [_terminate] (lines 837-872) *)

(** The two counters of [store.app] that [_terminate] writes. *)
Module App.
Record t (R : Type) : Type := mk {
  total_open_trades : Z;
  total_open_pl : R
}.
End App.

Section Terminate.

Context {R : Type} {N : Num R}.
Variable E : Env R.

(** The user's override [terminate]. *)
Variable terminate : World R -> Intents.t R.

(** [position.pnl] and [position._close(price)], of the position model. *)
Variable pnl : Position.t R -> R.
Variable _close : R -> Position.t R -> Position.t R.

(** Lines 846-852. *)
Definition last_words : M R unit :=
  modify (fun w => written (terminate w) w) ;;
  _detect_and_handle_entry_and_exit_modifications E ;;
  when (negb (is_live E)) (execute_pending_market_orders E).

Definition _terminate (app : App.t R) (w : World R) : (App.t R * World R) * Res unit :=
  match last_words w with
  | (w1, Raise e) => ((app, w1), Raise e)
  | (w1, Ok _) =>
      if is_live E then ((app, w1), Ok tt)
      else if Position.is_open (position w1) then
        let app' :=
          {| App.total_open_trades := App.total_open_trades app + 1;
             App.total_open_pl := num_add (App.total_open_pl app) (pnl (position w1)) |} in
        let w2 := set_position (_close (Position.current_price (position w1)) (position w1)) w1 in
        let (w3, res) := _execute_cancel E w2 in
        ((app', w3), res)
      else if negb (is_nil (_open_position_orders w1)) then
        let (w3, res) := _execute_cancel E w1 in
        ((app, w3), res)
      else ((app, w1), Ok tt)
  end.

End Terminate.

(* ================================================================= *)
(** * The indicator [bollinger_bands_width]

    Source: [jesse/indicators/bollinger_bands_width.py]. *)

(** A row of the candles array: the columns 1 to 4 are those the strategy
    reads as [open], [close], [high] and [low], column 0 is the timestamp. *)
Module Candle.
Record t : Type := mk {
  timestamp : float;
  open : float;
  close : float;
  high : float;
  low : float;
  volume : float
}.
End Candle.

Module Indicators.

(** What the indicator returns: a number, or an array when [sequential]. *)
Inductive Value :=
| a_float (x : float)
| an_array (xs : list float).

(** [x[-1]] *)
Fixpoint last_item (xs : list float) : Res float :=
  match xs with
  | [] => Raise IndexError
  | [x] => Ok x
  | _ :: xs' => last_item xs'
  end.

(** [x[-n:]] *)
Definition last_rows {A} (n : nat) (x : list A) : list A :=
  skipn (List.length x - n) x.

(** An arithmetic operation between two arrays of one shape, element by
    element. *)
Fixpoint elementwise (f : float -> float -> float) (a b : list float)
  : Res (list float) :=
  match a, b with
  | [], [] => Ok []
  | x :: a', y :: b' =>
      match elementwise f a' b' with
      | Ok l => Ok (f x y :: l)
      | Raise e => Raise e
      end
  | _, _ => Raise Unmodelled
  end.

Section BBW.

(** [talib.BBANDS(real, timeperiod, nbdevup, nbdevdn, matype)]: the upper,
    the middle and the lower band. *)
Variable BBANDS : list float -> Z -> float -> float -> Z ->
                  list float * list float * list float.

Definition bollinger_bands_width (candles : list Candle.t) (period : Z)
    (devup devdn : float) (matype : Z) (sequential : bool) : Res Value :=
  let candles :=
    if negb sequential && (240 <? Z.of_nat (List.length candles))
    then last_rows 240 candles else candles in
  let '(upperbands, middlebands, lowerbands) :=
    BBANDS (map Candle.close candles) period devup devdn matype in
  if sequential then
    match elementwise PrimFloat.sub upperbands lowerbands with
    | Ok d =>
        match elementwise PrimFloat.div d middlebands with
        | Ok x => Ok (an_array x)
        | Raise e => Raise e
        end
    | Raise e => Raise e
    end
  else
    match last_item upperbands, last_item lowerbands, last_item middlebands with
    | Ok u, Ok l, Ok m => Ok (a_float (PrimFloat.div (PrimFloat.sub u l) m))
    | Raise e, _, _ | Ok _, Raise e, _ | Ok _, Ok _, Raise e => Raise e
    end.

End BBW.

End Indicators.


(* ================================================================= *)
(** ** Further vocabulary *)

(** A run leaves the reading [f] of the world as it was. *)
Definition kept {R A} (f : World R -> A) (w w' : World R) : Prop := f w' = f w.

Definition Exn_eqb (a b : Exn) : bool :=
  match a, b with
  | InvalidStrategy, InvalidStrategy | InvalidShape, InvalidShape
  | ConflictingRules, ConflictingRules | ExchangeNotResponding, ExchangeNotResponding
  | Exception_, Exception_ | TypeError, TypeError | IndexError, IndexError
  | ZeroDivisionError, ZeroDivisionError | AttributeError, AttributeError
  | Unmodelled, Unmodelled => true
  | _, _ => false
  end.

(** The run of [m] from [w] raises [e]. *)
Definition raises {R A} (e : Exn) (m : M R A) (w : World R) : bool :=
  match snd (m w) with
  | Raise e' => Exn_eqb e' e
  | Ok _ => false
  end.

(** No run of [m] raises [e]. *)
Definition never {R A} (e : Exn) (m : M R A) : Prop := forall w, raises e m w = false.

(** An entry intent is settled when it is a prepared array with a row and
    equals its snapshot; an exit intent, when it is [None] or a prepared
    array that equals its snapshot. *)
Definition entry_settled {R} {N : Num R} (x : Intent R) (snapshot : option (Table R))
  : bool :=
  match x with
  | IArray (o :: t) => array_equal (o :: t) snapshot
  | _ => false
  end.

Definition exit_settled {R} {N : Num R} (x : Intent R) (snapshot : option (Table R))
  : bool :=
  match x with
  | INone => true
  | IArray t => array_equal t snapshot
  | _ => false
  end.

(** Two prepared exit intents are not the same array. *)
Definition exits_differ {R} {N : Num R} (sl tp : Intent R) : bool :=
  match sl, tp with
  | IArray s, IArray t => negb (table_eqb s t)
  | _, _ => true
  end.

(** A strategy is settled when the entry of its position and its two exits
    are, and the exits differ.  With no position there is nothing to
    settle. *)
Definition settled {R} {N : Num R} (w : World R) : bool :=
  match Position.type (position w) with
  | close => true
  | long =>
      entry_settled (buy w) (_buy w) && exit_settled (take_profit w) (_take_profit w)
      && exit_settled (stop_loss w) (_stop_loss w)
      && exits_differ (stop_loss w) (take_profit w)
  | short =>
      entry_settled (sell w) (_sell w) && exit_settled (take_profit w) (_take_profit w)
      && exit_settled (stop_loss w) (_stop_loss w)
      && exits_differ (stop_loss w) (take_profit w)
  end.

(** Every number of a prepared intent equals itself: none is a NaN. *)
Definition self_equal {R} {N : Num R} (x : Intent R) : bool :=
  match x with
  | IArray t => table_eqb t t
  | _ => true
  end.

(** [type(x) is np.ndarray] *)
Definition is_array {R} (x : Intent R) : bool :=
  match x with IArray _ => true | _ => false end.

(** Two strategies hold the same intents and the same snapshots of them. *)
Definition same_intents {R} (w v : World R) : Prop :=
  buy v = buy w /\ _buy v = _buy w /\ sell v = sell w /\ _sell v = _sell w /\
  take_profit v = take_profit w /\ _take_profit v = _take_profit w /\
  stop_loss v = stop_loss w /\ _stop_loss v = _stop_loss w.

(** The MARKET order that closes a position of quantity [q]: a sell for a
    long position, a buy for a short one. *)
Definition market_exit {R} (w : World R) (q : R) : BrokerCall R :=
  if is_long w then sell_at_market q CLOSE_POSITION else buy_at_market q CLOSE_POSITION.

(** The ids of the orders of a basket that are active or queued. *)
Definition live_ids {R} (basket : list (Order.t R)) : list Z :=
  map (@Order.id R) (filter (fun o => Order.is_active o || Order.is_queued o) basket).

(** What a broadcast of [self] does to a route it reaches, and what the
    route answers: nothing for the route of [self], the turn of the loop for
    another. *)
Definition visited {R} {N : Num R} (self : Route.t R) (msg : Msg) (r : Route.t R)
  : Route.t R :=
  if Route.id r =? Route.id self then r
  else fst (Router.notify (Route.strategy self) msg r).

Definition answer {R} {N : Num R} (self : Route.t R) (msg : Msg) (r : Route.t R)
  : Res unit :=
  if Route.id r =? Route.id self then Ok tt
  else snd (Router.notify (Route.strategy self) msg r).

(** What a broadcast leaves of a route: its id, its environment, and the
    position and the trade books of its strategy. *)
Definition same_route {R} (r r' : Route.t R) : Prop :=
  Route.id r' = Route.id r /\ Route.env r' = Route.env r /\
  position (Route.strategy r') = position (Route.strategy r) /\
  trade (Route.strategy r') = trade (Route.strategy r) /\
  completed_trades (Route.strategy r') = completed_trades (Route.strategy r).

(** Nothing was said to the broker of a route, and its baskets are as they
    were. *)
Definition silent {R} (r r' : Route.t R) : Prop :=
  trace (Route.strategy r') = trace (Route.strategy r) /\
  _open_position_orders (Route.strategy r') = _open_position_orders (Route.strategy r) /\
  _take_profit_orders (Route.strategy r') = _take_profit_orders (Route.strategy r) /\
  _stop_loss_orders (Route.strategy r') = _stop_loss_orders (Route.strategy r).

(** The sum of a list of rationals. *)
Definition Qsum (l : list Q) : Q := fold_right Qplus 0%Q l.

(** The absolute prices of the rows of a table of rationals. *)
Definition absolute_prices (arr : Table Q) : list Q := map (fun o => Qabs (snd o)) arr.

(** The calls on the broker for single orders: an order-submitting call
    and the cancellation of one order. *)
Definition to_the_broker {R} (e : Event R) : bool :=
  match e with
  | EBroker _ | ECancelOrder _ => true
  | _ => false
  end.

(** A run says to the outside only what [P] allows. *)
Definition says_only {R} (P : Event R -> bool) (w w' : World R) : Prop :=
  exists evs, trace w' = trace w ++ evs /\ forallb P evs = true.

(* ================================================================= *)
(** ** Further inputs *)

Module MoreInputs.

(** The same strategy on a test drive. *)
Definition test_drive {R} (E : Env R) : Env R :=
  {| is_live := is_live E;
     is_test_driving := true;
     is_backtesting := is_backtesting E;
     is_unit_testing := is_unit_testing E;
     round_price_for_live_mode := round_price_for_live_mode E;
     round_qty_for_live_mode := round_qty_for_live_mode E;
     now := now E;
     current_candle_timestamp := current_candle_timestamp E;
     broker := broker E;
     count_active_orders := count_active_orders E;
     pending_market_orders := pending_market_orders E;
     go_long := go_long E;
     go_short := go_short E;
     update_position := update_position E;
     prepare := prepare E;
     on_cancel := on_cancel E;
     on_open_position := on_open_position E;
     on_stop_loss := on_stop_loss E;
     on_take_profit := on_take_profit E;
     on_increased_position := on_increased_position E;
     on_reduced_position := on_reduced_position E;
     should_long := should_long E;
     should_short := should_short E;
     should_cancel := should_cancel E;
     filters := filters E;
     id := id E;
     on_route_open_position := on_route_open_position E;
     on_route_stop_loss := on_route_stop_loss E;
     on_route_take_profit := on_route_take_profit E;
     on_route_increased_position := on_route_increased_position E;
     on_route_reduced_position := on_route_reduced_position E;
     on_route_canceled := on_route_canceled E;
     routes := routes E |}.

(** The same strategy with other filters. *)
Definition with_filters {R} (fs : World R -> list (World R -> PyRet R)) (E : Env R)
  : Env R :=
  {| is_live := is_live E;
     is_test_driving := is_test_driving E;
     is_backtesting := is_backtesting E;
     is_unit_testing := is_unit_testing E;
     round_price_for_live_mode := round_price_for_live_mode E;
     round_qty_for_live_mode := round_qty_for_live_mode E;
     now := now E;
     current_candle_timestamp := current_candle_timestamp E;
     broker := broker E;
     count_active_orders := count_active_orders E;
     pending_market_orders := pending_market_orders E;
     go_long := go_long E;
     go_short := go_short E;
     update_position := update_position E;
     prepare := prepare E;
     on_cancel := on_cancel E;
     on_open_position := on_open_position E;
     on_stop_loss := on_stop_loss E;
     on_take_profit := on_take_profit E;
     on_increased_position := on_increased_position E;
     on_reduced_position := on_reduced_position E;
     should_long := should_long E;
     should_short := should_short E;
     should_cancel := should_cancel E;
     filters := fs;
     id := id E;
     on_route_open_position := on_route_open_position E;
     on_route_stop_loss := on_route_stop_loss E;
     on_route_take_profit := on_route_take_profit E;
     on_route_increased_position := on_route_increased_position E;
     on_route_reduced_position := on_route_reduced_position E;
     on_route_canceled := on_route_canceled E;
     routes := routes E |}.

(** A long strategy one of whose filters returns the number 0, and a short
    strategy one of whose filters returns [False]. *)
Definition long_with_a_zero_filter : Env float :=
  with_filters (fun _ => [fun _ => RBool true; fun _ => RNumber 0%float]) Inputs.basic_long.

Definition short_with_a_False_filter : Env float :=
  with_filters (fun _ => [fun _ => RBool false]) Inputs.basic_short.

(** The trade of [Inputs.before_close], closed. *)
Definition closed_trade : World float :=
  fst (_log_position_update Inputs.basic_long Inputs.sold (Some CLOSE_POSITION)
         Inputs.before_close).

(** A flat strategy with two completed trades. *)
Definition after_two_trades : World float :=
  set_completed_trades (completed_trades closed_trade ++ completed_trades closed_trade)
    (Demo.fresh Inputs.flat).

(** One unit long, the entry of one row at 100 in place, no exit set. *)
Definition opened : World float :=
  set_buy (IArray [(1, 100)]%float)
    (set__buy (Some [(1, 100)]%float) (Demo.fresh Inputs.one_long)).

(** The same with a take-profit of one row in place, its price a NaN. *)
Definition with_a_NaN_take_profit : World float :=
  set_take_profit (IArray [(1, nan)]%float)
    (set__take_profit (Some [(1, nan)]%float) opened).

(** The trade of [Inputs.before_close] with its closing order in the
    take-profit basket. *)
Definition closing : World float :=
  set__take_profit_orders [Inputs.sold] Inputs.before_close.

(** A buy order that has not been executed, and the trade it opened. *)
Definition pending_buy : Order.t float :=
  {| Order.id := 3; Order.side := BUY;
     Order.qty := PyFloat 3%float; Order.price := PyFloat Inputs.tenth;
     Order.role := Some OPEN_POSITION;
     Order.exchange := "Sandbox"; Order.symbol := "BTCUSD";
     Order.is_active := true; Order.is_queued := false; Order.is_executed := false |}.

Definition opened_by_pending : World float :=
  fst (_log_position_update Inputs.basic_long pending_buy (Some OPEN_POSITION)
         (Demo.fresh Inputs.flat)).

(** One unit long with a take-profit pair not yet prepared. *)
Definition with_raw_take_profit : World float :=
  set_take_profit (IPair tuple 1 110)%float (Demo.fresh Inputs.one_long).

(** One unit long with a take-profit at 120 in place, an executed and a
    waiting order in its basket, and the take-profit rewritten to 110. *)
Definition moved_take_profit : World float :=
  set_take_profit (IArray [(1, 110)]%float)
    (set__take_profit (Some [(1, 120)]%float)
      (set__take_profit_orders [Inputs.sold; pending_buy] opened)).

(** The same strategy in live trading. *)
Definition live {R} (E : Env R) : Env R :=
  {| is_live := true;
     is_test_driving := is_test_driving E;
     is_backtesting := false;
     is_unit_testing := is_unit_testing E;
     round_price_for_live_mode := round_price_for_live_mode E;
     round_qty_for_live_mode := round_qty_for_live_mode E;
     now := now E;
     current_candle_timestamp := current_candle_timestamp E;
     broker := broker E;
     count_active_orders := count_active_orders E;
     pending_market_orders := pending_market_orders E;
     go_long := go_long E;
     go_short := go_short E;
     update_position := update_position E;
     prepare := prepare E;
     on_cancel := on_cancel E;
     on_open_position := on_open_position E;
     on_stop_loss := on_stop_loss E;
     on_take_profit := on_take_profit E;
     on_increased_position := on_increased_position E;
     on_reduced_position := on_reduced_position E;
     should_long := should_long E;
     should_short := should_short E;
     should_cancel := should_cancel E;
     filters := filters E;
     id := id E;
     on_route_open_position := on_route_open_position E;
     on_route_stop_loss := on_route_stop_loss E;
     on_route_take_profit := on_route_take_profit E;
     on_route_increased_position := on_route_increased_position E;
     on_route_reduced_position := on_route_reduced_position E;
     on_route_canceled := on_route_canceled E;
     routes := routes E |}.

(** The same strategy, asking on every tick to cancel its entry. *)
Definition cancelling {R} (E : Env R) : Env R :=
  {| is_live := is_live E;
     is_test_driving := is_test_driving E;
     is_backtesting := is_backtesting E;
     is_unit_testing := is_unit_testing E;
     round_price_for_live_mode := round_price_for_live_mode E;
     round_qty_for_live_mode := round_qty_for_live_mode E;
     now := now E;
     current_candle_timestamp := current_candle_timestamp E;
     broker := broker E;
     count_active_orders := count_active_orders E;
     pending_market_orders := pending_market_orders E;
     go_long := go_long E;
     go_short := go_short E;
     update_position := update_position E;
     prepare := prepare E;
     on_cancel := on_cancel E;
     on_open_position := on_open_position E;
     on_stop_loss := on_stop_loss E;
     on_take_profit := on_take_profit E;
     on_increased_position := on_increased_position E;
     on_reduced_position := on_reduced_position E;
     should_long := should_long E;
     should_short := should_short E;
     should_cancel := fun _ => true;
     filters := filters E;
     id := id E;
     on_route_open_position := on_route_open_position E;
     on_route_stop_loss := on_route_stop_loss E;
     on_route_take_profit := on_route_take_profit E;
     on_route_increased_position := on_route_increased_position E;
     on_route_reduced_position := on_route_reduced_position E;
     on_route_canceled := on_route_canceled E;
     routes := routes E |}.

(** The same strategy as the route [i] of a router that holds the
    strategies [rs]. *)
Definition in_router {R} (i : Z) (rs : World R -> list (Env R * World R)) (E : Env R)
  : Env R :=
  {| is_live := is_live E;
     is_test_driving := is_test_driving E;
     is_backtesting := is_backtesting E;
     is_unit_testing := is_unit_testing E;
     round_price_for_live_mode := round_price_for_live_mode E;
     round_qty_for_live_mode := round_qty_for_live_mode E;
     now := now E;
     current_candle_timestamp := current_candle_timestamp E;
     broker := broker E;
     count_active_orders := count_active_orders E;
     pending_market_orders := pending_market_orders E;
     go_long := go_long E;
     go_short := go_short E;
     update_position := update_position E;
     prepare := prepare E;
     on_cancel := on_cancel E;
     on_open_position := on_open_position E;
     on_stop_loss := on_stop_loss E;
     on_take_profit := on_take_profit E;
     on_increased_position := on_increased_position E;
     on_reduced_position := on_reduced_position E;
     should_long := should_long E;
     should_short := should_short E;
     should_cancel := should_cancel E;
     filters := filters E;
     id := i;
     on_route_open_position := on_route_open_position E;
     on_route_stop_loss := on_route_stop_loss E;
     on_route_take_profit := on_route_take_profit E;
     on_route_increased_position := on_route_increased_position E;
     on_route_reduced_position := on_route_reduced_position E;
     on_route_canceled := on_route_canceled E;
     routes := rs |}.

(** A long strategy that has lost its entry intent: its reconciler raises
    [TypeError] at [self.buy[0]]. *)
Definition lost : Env float * World float :=
  (in_router 2 (fun _ => []) Inputs.basic_long, Demo.fresh Inputs.one_long).

(** The demo strategy as route 1 of a router whose routes are its own and
    that of the lost strategy. *)
Definition beside_a_lost_route : Env float :=
  in_router 1 (fun w => [(in_router 1 (fun _ => []) Inputs.basic_long, w); lost])
    Inputs.basic_long.

(** The same strategy with another [on_open_position]. *)
Definition with_on_open_position {R} (f : World R -> Intents.t R) (E : Env R) : Env R :=
  {| is_live := is_live E;
     is_test_driving := is_test_driving E;
     is_backtesting := is_backtesting E;
     is_unit_testing := is_unit_testing E;
     round_price_for_live_mode := round_price_for_live_mode E;
     round_qty_for_live_mode := round_qty_for_live_mode E;
     now := now E;
     current_candle_timestamp := current_candle_timestamp E;
     broker := broker E;
     count_active_orders := count_active_orders E;
     pending_market_orders := pending_market_orders E;
     go_long := go_long E;
     go_short := go_short E;
     update_position := update_position E;
     prepare := prepare E;
     on_cancel := on_cancel E;
     on_open_position := f;
     on_stop_loss := on_stop_loss E;
     on_take_profit := on_take_profit E;
     on_increased_position := on_increased_position E;
     on_reduced_position := on_reduced_position E;
     should_long := should_long E;
     should_short := should_short E;
     should_cancel := should_cancel E;
     filters := filters E;
     id := id E;
     on_route_open_position := on_route_open_position E;
     on_route_stop_loss := on_route_stop_loss E;
     on_route_take_profit := on_route_take_profit E;
     on_route_increased_position := on_route_increased_position E;
     on_route_reduced_position := on_route_reduced_position E;
     on_route_canceled := on_route_canceled E;
     routes := routes E |}.

(** A long strategy whose [on_open_position] sets a stop at 105. *)
Definition stop_set_on_open : Env float :=
  with_on_open_position
    (fun w => {| Intents.buy := buy w; Intents.sell := sell w;
                 Intents.stop_loss := IPair tuple 1 105;
                 Intents.take_profit := take_profit w |}%float)
    Inputs.basic_long.

(** A route whose [on_route_*] overrides write nothing. *)
Definition route (i : Z) (E : Env float) (w : World float) : Route.t float :=
  {| Route.id := i;
     Route.env := E;
     Route.on_route_open_position := fun _ w => pass w;
     Route.on_route_stop_loss := fun _ w => pass w;
     Route.on_route_take_profit := fun _ w => pass w;
     Route.on_route_increased_position := fun _ w => pass w;
     Route.on_route_reduced_position := fun _ w => pass w;
     Route.on_route_canceled := fun _ w => pass w;
     Route.strategy := w |}.

(** Four routes: the sender; a short route whose entry the user has
    rewritten; a long route that has lost its entry intent, whose reconciler
    raises; a flat route. *)
Definition sender : Route.t float := route 1 Inputs.basic_long (Demo.fresh Inputs.flat).

Definition routes : list (Route.t float) :=
  [ sender;
    route 2 Inputs.basic_short Inputs.short_mutated;
    route 3 Inputs.basic_long (Demo.fresh Inputs.one_long);
    route 4 Inputs.basic_long (Demo.fresh Inputs.flat) ].

(** A position model for the end of a run: a profit of 5 on every position,
    and a close that leaves no quantity at the closing price. *)
Definition five (_ : Position.t float) : float := 5%float.

Definition closed_at (p : float) (pos : Position.t float) : Position.t float :=
  {| Position.qty := 0%float; Position.type := close;
     Position.entry_price := Position.entry_price pos; Position.current_price := p |}.

Definition no_open_trades : App.t float :=
  {| App.total_open_trades := 0; App.total_open_pl := 0%float |}.

(** A candle that closes at [c], and bands that are the closes themselves,
    twice the closes and no band at all. *)
Definition candle (c : float) : Candle.t :=
  {| Candle.timestamp := 0; Candle.open := c; Candle.close := c;
     Candle.high := c; Candle.low := c; Candle.volume := 1 |}%float.

Definition bands (real : list float) (_ : Z) (_ _ : float) (_ : Z)
  : list float * list float * list float :=
  (map (fun x => PrimFloat.mul 3 x) real, real, map (fun x => PrimFloat.mul 2 x) real)%float.

(** 240 candles that close at 10, after a candle that closes at 1 and after
    two that close at 7. *)
Definition one_before : list Candle.t := candle 1%float :: repeat (candle 10%float) 240.

Definition two_before : list Candle.t :=
  candle 7%float :: candle 7%float :: repeat (candle 10%float) 240.

(** One unit long with an executed and a waiting order in the entry
    basket; and the same with the entry rewritten to two rows, one under
    and one over the mark. *)
Definition with_a_waiting_entry : World float :=
  set__open_position_orders [Inputs.bought; pending_buy] opened.

Definition rewritten_entry : World float :=
  set_buy (IRows list_ [(1, 90); (1, 110)]%float) with_a_waiting_entry.

End MoreInputs.

(* ================================================================= *)
(** ** Runs of methods *)

Local Open Scope method_scope.

Section Runs.

Context {R : Type}.

Lemma bind_ok A B (m : M R A) (k : A -> M R B) w w1 a :
  m w = (w1, Ok a) -> bind m k w = k a w1.
Proof. intros H. unfold bind. now rewrite H. Qed.

(** A run of [m ;; k] went through a run of [m]: one that returned, and then
    a run of [k], or one that raised. *)
Lemma bind_inv A B (m : M R A) (k : A -> M R B) w w' r :
  bind m k w = (w', r) ->
  (exists w1 a, m w = (w1, Ok a) /\ k a w1 = (w', r)) \/
  (exists e, m w = (w', Raise e) /\ r = Raise e).
Proof.
  unfold bind. destruct (m w) as [w1 [a|e]]; intros H.
  - left. eauto.
  - right. inversion H; subst. eauto.
Qed.

Variable P : World R -> World R -> Prop.
Hypothesis P_refl : forall w, P w w.
Hypothesis P_trans : forall a b c, P a b -> P b c -> P a c.

Lemma along_ret A (a : A) : along P (ret a).
Proof. intros w w' r H. inversion H. apply P_refl. Qed.

Lemma along_raise A e : along P (@raise R A e).
Proof. intros w w' r H. inversion H. apply P_refl. Qed.

Lemma along_lift A (x : Res A) : along P (lift x).
Proof. intros w w' r H. inversion H. apply P_refl. Qed.

Lemma along_get : along P get.
Proof. intros w w' r H. inversion H. apply P_refl. Qed.

Lemma along_bind A B (m : M R A) (k : A -> M R B) :
  along P m -> (forall a, along P (k a)) -> along P (bind m k).
Proof.
  intros Hm Hk w w' r H.
  destruct (bind_inv _ _ _ H) as [(w1 & a & H1 & H2)|(e & H1 & _)].
  - eapply P_trans; [eapply Hm | eapply Hk]; eauto.
  - eapply Hm; eauto.
Qed.

Lemma along_when b (m : M R unit) : along P m -> along P (when b m).
Proof. destruct b; simpl; auto using along_ret. Qed.

Lemma along_for_each A (l : list A) (body : A -> M R unit) :
  (forall a, along P (body a)) -> along P (for_each l body).
Proof.
  intros Hb. induction l; simpl; [apply along_ret|].
  apply along_bind; auto.
Qed.

Lemma along_modify (f : World R -> World R) :
  (forall w, P w (f w)) -> along P (modify f).
Proof. intros Hf w w' r H. inversion H. apply Hf. Qed.

End Runs.

Lemma stays_refl R (w : World R) : stays w w.
Proof. repeat split. exists []. now rewrite app_nil_r. Qed.

Lemma stays_trans R (a b c : World R) : stays a b -> stays b c -> stays a c.
Proof.
  intros (H1 & H2 & e1 & H3) (H4 & H5 & e2 & H6). repeat split; try congruence.
  exists (e1 ++ e2). now rewrite H6, H3, app_assoc.
Qed.

Lemma quiet_refl R (w : World R) : quiet w w.
Proof. repeat split. Qed.

Lemma quiet_trans R (a b c : World R) : quiet a b -> quiet b c -> quiet a c.
Proof. intros (H1 & H2 & H3) (H4 & H5 & H6). repeat split; congruence. Qed.

#[local] Hint Resolve stays_refl stays_trans quiet_refl quiet_trans : core.

(** The steps of a proof that a method goes along a relation. *)
Ltac along_step side :=
  first
    [ apply along_ret; solve [auto] | apply along_raise; solve [auto]
    | apply along_lift; solve [auto] | apply along_get; solve [auto]
    | apply along_bind; [ solve [eauto] .. | | intro ]
    | apply along_when; [ solve [eauto] .. | ]
    | apply along_for_each; [ solve [eauto] .. | intro ]
    | apply along_modify; intro; side
    | match goal with
      | |- along _ (if ?b then _ else _) => destruct b
      | |- along _ (match ?x with _ => _ end) => destruct x
      end ].

Ltac stays_side :=
  match goal with w : World _ |- _ => destruct w end;
  repeat split; simpl;
  solve [ reflexivity | exists []; now rewrite app_nil_r | eexists; reflexivity ].

Ltac quiet_side :=
  match goal with w : World _ |- _ => destruct w end;
  repeat split; simpl; solve [ reflexivity ].

Create HintDb frames.

Ltac stays_tac := repeat first [ solve [eauto with frames] | along_step stays_side ].
Ltac quiet_tac := repeat first [ solve [eauto with frames] | along_step quiet_side ].

(* ================================================================= *)
(** ** The tick counter, the guard and the trace *)

Section Stays.

Context {R : Type} {N : Num R}.
Variable E : Env R.

Lemma stays_emit (e : Event R) : along stays (emit e).
Proof. unfold emit. stays_tac. Qed.

Lemma stays_place c : along stays (place E c).
Proof. intros w w' r H. inversion H. destruct w. repeat split. simpl. eauto. Qed.

Lemma stays_call h (f : World R -> Intents.t R) : along stays (call h f).
Proof. pose proof stays_emit. unfold call. stays_tac. Qed.

Lemma stays__broadcast m : along stays (_broadcast E m).
Proof. pose proof stays_emit. unfold _broadcast. stays_tac. Qed.

Lemma stays__reset : along stays (@_reset R).
Proof. unfold _reset. stays_tac. Qed.

Hint Resolve stays_emit stays_place stays_call stays__broadcast stays__reset : frames.

Lemma stays__prepare_buy b : along stays (_prepare_buy E b).
Proof. unfold _prepare_buy. stays_tac. Qed.

Lemma stays__prepare_sell b : along stays (_prepare_sell E b).
Proof. unfold _prepare_sell. stays_tac. Qed.

Lemma stays__prepare_stop_loss b : along stays (_prepare_stop_loss E b).
Proof. unfold _prepare_stop_loss. stays_tac. Qed.

Lemma stays__prepare_take_profit b : along stays (_prepare_take_profit E b).
Proof. unfold _prepare_take_profit. stays_tac. Qed.

Lemma stays__validate_stop_loss : along stays (@_validate_stop_loss R).
Proof. unfold _validate_stop_loss. stays_tac. Qed.

Lemma stays__validate_take_profit : along stays (@_validate_take_profit R).
Proof. unfold _validate_take_profit. stays_tac. Qed.

Hint Resolve stays__prepare_buy stays__prepare_sell stays__prepare_stop_loss
  stays__prepare_take_profit stays__validate_stop_loss stays__validate_take_profit : frames.

Lemma stays_append_open o : along stays (@append_open_position_order R o).
Proof. unfold append_open_position_order. stays_tac. Qed.

Lemma stays_append_take_profit o : along stays (@append_take_profit_order R o).
Proof. unfold append_take_profit_order. stays_tac. Qed.

Lemma stays_append_stop_loss o : along stays (@append_stop_loss_order R o).
Proof. unfold append_stop_loss_order. stays_tac. Qed.

Hint Resolve stays_append_open stays_append_take_profit stays_append_stop_loss : frames.

Lemma stays_submit_buy_row o : along stays (submit_buy_row E o).
Proof. unfold submit_buy_row. stays_tac. Qed.

Lemma stays_submit_sell_row o : along stays (submit_sell_row E o).
Proof. unfold submit_sell_row. stays_tac. Qed.

Lemma stays_resubmit_sell_row o : along stays (resubmit_sell_row E o).
Proof. unfold resubmit_sell_row. stays_tac. Qed.

Lemma stays_cancel_live_orders b : along stays (@cancel_live_orders R b).
Proof. unfold cancel_live_orders. stays_tac. Qed.

Hint Resolve stays_submit_buy_row stays_submit_sell_row stays_resubmit_sell_row
  stays_cancel_live_orders : frames.

Lemma stays_reconcile_buy : along stays (reconcile_buy E).
Proof. unfold reconcile_buy. stays_tac. Qed.

Lemma stays_reconcile_sell : along stays (reconcile_sell E).
Proof. unfold reconcile_sell. stays_tac. Qed.

Lemma stays_append_log_take_profit o : along stays (@append_log_take_profit R o).
Proof.
  unfold append_log_take_profit. apply along_modify. intro w.
  destruct (_log_take_profit w); [stays_side | auto].
Qed.

Lemma stays_append_log_stop_loss o : along stays (@append_log_stop_loss R o).
Proof.
  unfold append_log_stop_loss. apply along_modify. intro w.
  destruct (_log_stop_loss w); [stays_side | auto].
Qed.

Hint Resolve stays_reconcile_buy stays_reconcile_sell stays_append_log_take_profit
  stays_append_log_stop_loss : frames.

Lemma stays_resubmit_take_profit_row o : along stays (resubmit_take_profit_row E o).
Proof. unfold resubmit_take_profit_row. stays_tac. Qed.

Lemma stays_resubmit_stop_loss_row o : along stays (resubmit_stop_loss_row E o).
Proof. unfold resubmit_stop_loss_row. stays_tac. Qed.

Hint Resolve stays_resubmit_take_profit_row stays_resubmit_stop_loss_row : frames.

Lemma stays_reconcile_take_profit : along stays (reconcile_take_profit E).
Proof. unfold reconcile_take_profit. stays_tac. Qed.

Lemma stays_reconcile_stop_loss : along stays (reconcile_stop_loss E).
Proof. unfold reconcile_stop_loss. stays_tac. Qed.

Lemma stays_stop_loss_is_not_take_profit : along stays (@stop_loss_is_not_take_profit R N).
Proof. unfold stop_loss_is_not_take_profit. stays_tac. Qed.

Hint Resolve stays_reconcile_take_profit stays_reconcile_stop_loss
  stays_stop_loss_is_not_take_profit : frames.

Lemma stays_reconciler : along stays (_detect_and_handle_entry_and_exit_modifications E).
Proof. unfold _detect_and_handle_entry_and_exit_modifications. stays_tac. Qed.

Hint Resolve stays_reconciler : frames.

Lemma stays__update_position : along stays (_update_position E).
Proof. unfold _update_position. stays_tac. Qed.

Lemma stays__execute_cancel : along stays (_execute_cancel E).
Proof. unfold _execute_cancel. stays_tac. Qed.

Hint Resolve stays__update_position stays__execute_cancel : frames.

Lemma stays_open_take_profit_row o : along stays (open_take_profit_row E o).
Proof. unfold open_take_profit_row. stays_tac. Qed.

Lemma stays_open_stop_loss_row o : along stays (open_stop_loss_row E o).
Proof. unfold open_stop_loss_row. stays_tac. Qed.

Hint Resolve stays_open_take_profit_row stays_open_stop_loss_row : frames.

Lemma stays_submit_exit_orders : along stays (submit_exit_orders E).
Proof. unfold submit_exit_orders. stays_tac. Qed.

Hint Resolve stays_submit_exit_orders : frames.

Lemma stays__on_open_position : along stays (_on_open_position E).
Proof. unfold _on_open_position. stays_tac. Qed.

Lemma stays__on_stop_loss : along stays (_on_stop_loss E).
Proof. unfold _on_stop_loss. stays_tac. Qed.

Lemma stays__on_take_profit : along stays (_on_take_profit E).
Proof. unfold _on_take_profit. stays_tac. Qed.

Lemma stays__on_increased_position : along stays (_on_increased_position E).
Proof. unfold _on_increased_position. stays_tac. Qed.

Lemma stays__on_reduced_position : along stays (_on_reduced_position E).
Proof. unfold _on_reduced_position. stays_tac. Qed.

Hint Resolve stays__on_open_position stays__on_stop_loss stays__on_take_profit
  stays__on_increased_position stays__on_reduced_position : frames.

Lemma stays_with_trade A (k : CompletedTrade.t R -> M R A) :
  (forall t, along stays (k t)) -> along stays (with_trade k).
Proof. intros Hk. unfold with_trade. stays_tac. Qed.

Lemma stays_update_trade f : along stays (@update_trade R f).
Proof. unfold update_trade. apply stays_with_trade. intro. stays_tac. Qed.

Hint Resolve stays_update_trade : frames.

Lemma stays__log_position_update o r : along stays (_log_position_update E o r).
Proof.
  unfold _log_position_update.
  destruct r as [[]|]; stays_tac; apply stays_with_trade; intro; stays_tac.
Qed.

Lemma stays_share o : along stays (@share R o).
Proof. unfold share. stays_tac. Qed.

Lemma stays_run_handler h : along stays (run_handler E h).
Proof. unfold run_handler. stays_tac. Qed.

Hint Resolve stays__log_position_update stays_share stays_run_handler : frames.

Lemma stays__on_updated_position o : along stays (_on_updated_position E o).
Proof. unfold _on_updated_position. stays_tac. Qed.

Hint Resolve stays__on_updated_position : frames.

Lemma stays_validate_buy : along stays (@validate_buy R).
Proof. unfold validate_buy. stays_tac. Qed.

Lemma stays_validate_sell : along stays (@validate_sell R).
Proof. unfold validate_sell. stays_tac. Qed.

Lemma stays_prepare_exits : along stays (prepare_exits E).
Proof. unfold prepare_exits. stays_tac. Qed.

Hint Resolve stays_validate_buy stays_validate_sell stays_prepare_exits : frames.

Lemma stays__execute_long : along stays (_execute_long E).
Proof. unfold _execute_long. stays_tac. Qed.

Lemma stays__execute_short : along stays (_execute_short E).
Proof. unfold _execute_short. stays_tac. Qed.

Hint Resolve stays__execute_long stays__execute_short : frames.

Lemma stays_wait_for_cancellation n : along stays (wait_for_cancellation E n).
Proof. induction n; simpl; stays_tac. Qed.

Hint Resolve stays_wait_for_cancellation : frames.

Lemma stays_cancel_if_asked : along stays (cancel_if_asked E).
Proof. unfold cancel_if_asked. stays_tac. Qed.

Lemma stays_execute_pending_market_orders : along stays (execute_pending_market_orders E).
Proof. unfold execute_pending_market_orders. stays_tac. Qed.

Lemma stays_enter_if_flat : along stays (enter_if_flat E).
Proof. unfold enter_if_flat. stays_tac. Qed.

Lemma stays_mark_initiated : along stays (@mark_initiated R).
Proof. unfold mark_initiated. stays_tac. Qed.

Hint Resolve stays_cancel_if_asked stays_execute_pending_market_orders stays_enter_if_flat
  stays_mark_initiated : frames.

Lemma stays_before_entry : along stays (before_entry E).
Proof. unfold before_entry. stays_tac. Qed.

Hint Resolve stays_before_entry : frames.

Lemma stays__check : along stays (_check E).
Proof. unfold _check. stays_tac. Qed.

End Stays.

(* ================================================================= *)
(** ** The tick: [_execute] *)

Section Tick.

Context {R : Type} {N : Num R}.
Variable E : Env R.

(** C3.  A call of [_execute] made while [_is_executing] is set returns at
    once: the world, its trace of calls included, is the one it was, so
    neither [prepare] nor [_check] ran.  A call made while it is clear, once
    it returns, leaves the flag clear and [index] greater by exactly 1. *)
Theorem execute_guard_and_index (w : World R) :
  (_is_executing w = true -> _execute E w = (w, Ok tt)) /\
  (_is_executing w = false ->
   forall w', _execute E w = (w', Ok tt) ->
   _is_executing w' = false /\ index w' = index w + 1).
Proof.
  split.
  - intros H. unfold _execute, bind, get. now rewrite H.
  - intros H w' Hrun. unfold _execute in Hrun.
    unfold bind at 1 in Hrun. unfold get at 1 in Hrun. rewrite H in Hrun.
    unfold bind at 1 in Hrun. unfold modify at 1 in Hrun.
    destruct (bind_inv _ _ _ Hrun) as [(w2 & [] & Hprep & Hrun2)|(e & _ & He)];
      [|discriminate].
    destruct (bind_inv _ _ _ Hrun2) as [(w3 & [] & Hchk & Hrun3)|(e & _ & He)];
      [|discriminate].
    apply (stays_call (R:=R)) in Hprep. apply stays__check in Hchk.
    destruct Hprep as (I2 & _), Hchk as (I3 & _).
    unfold bind, modify in Hrun3. inversion Hrun3; subst w'.
    destruct w, w3; simpl in *. split; [reflexivity|]. now rewrite I3, I2.
Qed.

End Tick.

(** The guard clear: the first tick of the demo strategy returns with the
    guard clear and the counter at 1; the guard set: nothing happens. *)
Lemma execute_guard_and_index_witness :
  let w := Demo.fresh Inputs.flat in
  (_is_executing (fst (_execute Inputs.basic_long w)) = false /\
   index (fst (_execute Inputs.basic_long w)) = 1) /\
  _execute Inputs.basic_long (set__is_executing true w) = (set__is_executing true w, Ok tt).
Proof.
  intro w. split.
  - apply (proj2 (execute_guard_and_index Inputs.basic_long w) eq_refl).
    vm_compute. reflexivity.
  - apply (proj1 (execute_guard_and_index Inputs.basic_long (set__is_executing true w)) eq_refl).
Defined.

(* ================================================================= *)
(** ** [is_reduced] and [is_increased] *)

Section Properties.

Context {R : Type} {N : Num R}.

(** C10.  While the position is closed, [is_reduced] and [is_increased]
    return [None], not a boolean.  While it is open, with [_initial_qty] the
    quantity [q0], [is_reduced] returns the truth value of
    [position.qty < q0] and [is_increased] that of [position.qty > q0]. *)
Theorem is_reduced_is_increased_spec (w : World R) :
  (Position.is_close (position w) = true ->
   is_reduced w = Ok None /\ is_increased w = Ok None) /\
  (Position.is_open (position w) = true ->
   forall q0, _initial_qty w = Some q0 ->
   is_reduced w = Ok (Some (num_ltb (Position.qty (position w)) q0)) /\
   is_increased w = Ok (Some (num_ltb q0 (Position.qty (position w))))).
Proof.
  unfold is_reduced, is_increased, Position.is_open, Position.is_close.
  split.
  - intros ->. auto.
  - intros Hopen q0 ->. destruct (Position.type (position w)); try discriminate; auto.
Qed.

End Properties.

(** Flat: both are [None].  One unit long after an initial quantity of 2:
    reduced, not increased. *)
Lemma is_reduced_is_increased_witness :
  (is_reduced (Demo.fresh Inputs.flat) = Ok None /\
   is_increased (Demo.fresh Inputs.flat) = Ok None) /\
  (is_reduced Inputs.halved = Ok (Some true) /\
   is_increased Inputs.halved = Ok (Some false)).
Proof.
  split.
  - apply (proj1 (is_reduced_is_increased_spec (Demo.fresh Inputs.flat))). reflexivity.
  - exact (proj2 (is_reduced_is_increased_spec Inputs.halved) eq_refl 2%float eq_refl).
Defined.

(* ================================================================= *)
(** ** [_execute_cancel] and [_reset] *)

Section Cancel.

Context {R : Type} {N : Num R}.
Variable E : Env R.

Lemma reset_nulls (w : World R) :
  nulled (fst (_reset w)) /\ same_outside_reset w (fst (_reset w)).
Proof. destruct w. unfold nulled, same_outside_reset. simpl. repeat split. Qed.

(** [_broadcast] is its event, and then what the routes answer. *)
Lemma broadcast_run msg (w : World R) :
  _broadcast E msg w
  = (fst (emit (EBroadcast msg) w),
     routes_answer E msg (fst (emit (EBroadcast msg) w))).
Proof. reflexivity. Qed.

Lemma broadcast_inv msg (w w1 : World R) r :
  _broadcast E msg w = (w1, r) ->
  w1 = fst (emit (EBroadcast msg) w) /\ r = routes_answer E msg w1.
Proof. rewrite broadcast_run. intros H. injection H as <- <-. auto. Qed.

(** [_execute_cancel] on a closed position, up to the answer of the routes. *)
Lemma execute_cancel_closed (w : World R) :
  Position.is_close (position w) = true ->
  let w3 := fst (emit (EBroadcast route_canceled)
                   (fst (_reset (fst (emit ECancelAllOrders w))))) in
  _execute_cancel E w
  = match routes_answer E route_canceled w3 with
    | Ok _ =>
        (call Hook.on_cancel (on_cancel E) ;;
         when (negb (is_unit_testing E) && negb (is_live E)) (emit EClearOrders)) w3
    | Raise e => (w3, Raise e)
    end.
Proof.
  intros H. cbv zeta.
  assert (Ho : Position.is_open (position w) = false).
  { unfold Position.is_open, Position.is_close in *.
    destruct (Position.type (position w)); congruence. }
  set (w1 := fst (emit ECancelAllOrders w)).
  set (w2 := fst (_reset w1)).
  assert (H1 : emit ECancelAllOrders w = (w1, Ok tt)) by reflexivity.
  assert (H2 : _reset w1 = (w2, Ok tt)) by reflexivity.
  unfold _execute_cancel. unfold bind at 1, get at 1. rewrite Ho.
  rewrite (bind_ok _ _ _ H1), (bind_ok _ _ _ H2).
  unfold bind at 1. rewrite broadcast_run.
  destruct (routes_answer E route_canceled _) as [[]|e]; reflexivity.
Qed.

(** C7, amended.  With the position open, [_execute_cancel] raises and the
    world is as it was.  With the position closed, what it does is, in this
    order: the broker's [cancel_all_orders], [_reset], the broadcast of
    [route-canceled], and then, when the loop over the routes returns, the
    [on_cancel] override (and, in a backtest, the clearing of the route's
    orders in the store).  The strategy the routes are shown is the reset
    one: every intent, snapshot and log null, the baskets empty, no initial
    quantity, the rest untouched.  When the reconciler of a route raises,
    [_execute_cancel] raises the same exception from the reset strategy, and
    [on_cancel] is not called. *)
Theorem execute_cancel_spec (w : World R) :
  (Position.is_open (position w) = true ->
   _execute_cancel E w = (w, Raise Exception_)) /\
  (Position.is_close (position w) = true ->
   let w1 := fst (emit ECancelAllOrders w) in
   let w2 := fst (_reset w1) in
   let w3 := fst (emit (EBroadcast route_canceled) w2) in
   let w4 := fst (call Hook.on_cancel (on_cancel E) w3) in
   let clears := negb (is_unit_testing E) && negb (is_live E) in
   let w5 := fst (when clears (emit EClearOrders) w4) in
   nulled w2 /\ same_outside_reset w1 w2 /\
   trace w3 = trace w ++ [ECancelAllOrders; EBroadcast route_canceled] /\
   match routes_answer E route_canceled w3 with
   | Ok _ =>
       _execute_cancel E w = (w5, Ok tt) /\
       trace w5 = trace w3 ++ [ECall Hook.on_cancel]
                          ++ (if clears then [EClearOrders] else [])
   | Raise e => _execute_cancel E w = (w3, Raise e)
   end).
Proof.
  split.
  - intros H. unfold _execute_cancel, bind, get. now rewrite H.
  - intros H. cbv zeta.
    split; [apply reset_nulls|]. split; [apply reset_nulls|].
    split; [destruct w; simpl; now rewrite <- app_assoc|].
    rewrite (execute_cancel_closed _ H). cbv zeta.
    destruct (routes_answer E route_canceled _) as [[]|e]; [|reflexivity].
    split.
    + destruct (negb (is_unit_testing E) && negb (is_live E)); reflexivity.
    + destruct w. simpl.
      destruct (negb (is_unit_testing E) && negb (is_live E)); simpl;
        rewrite <- ?app_assoc; reflexivity.
Qed.

End Cancel.

(** With a position open the demo strategy cannot cancel; flat and alone in
    the router, it cancels, and the trace shows the calls in their order. *)
Lemma execute_cancel_witness :
  _execute_cancel Inputs.basic_long (Demo.fresh Inputs.one_long)
    = (Demo.fresh Inputs.one_long, Raise Exception_) /\
  trace (fst (_execute_cancel Inputs.basic_long (Demo.fresh Inputs.flat)))
    = [ECancelAllOrders; EBroadcast route_canceled; ECall Hook.on_cancel; EClearOrders].
Proof.
  split.
  - apply (proj1 (execute_cancel_spec Inputs.basic_long (Demo.fresh Inputs.one_long))).
    reflexivity.
  - destruct (proj2 (execute_cancel_spec Inputs.basic_long (Demo.fresh Inputs.flat)) eq_refl)
      as (_ & _ & _ & H).
    cbv zeta in H.
    change (routes_answer Inputs.basic_long route_canceled
              (fst (emit (EBroadcast route_canceled)
                 (fst (_reset (fst (emit ECancelAllOrders (Demo.fresh Inputs.flat))))))))
      with (@Ok unit tt) in H.
    destruct H as (Hrun & Htrace). rewrite Hrun. exact Htrace.
Defined.

(** C7 as it was claimed fails beside a route whose reconciler raises.  The
    demo strategy, flat, shares the router with a long strategy that has lost
    its entry intent: [_execute_cancel] cancels all orders, resets and
    broadcasts; the reconciler of the other route raises [TypeError], which
    [_execute_cancel] raises in its turn, and [on_cancel] is never called. *)
Lemma a_route_that_raises_stops_the_cancellation :
  let E := MoreInputs.beside_a_lost_route in
  let w := Demo.fresh Inputs.flat in
  Position.is_close (position w) = true /\
  snd (_execute_cancel E w) = Raise TypeError /\
  trace (fst (_execute_cancel E w)) = [ECancelAllOrders; EBroadcast route_canceled] /\
  ~ In (ECall Hook.on_cancel) (trace (fst (_execute_cancel E w))).
Proof.
  cbv zeta.
  assert (Ht : trace (fst (_execute_cancel MoreInputs.beside_a_lost_route
                             (Demo.fresh Inputs.flat)))
               = [ECancelAllOrders; EBroadcast route_canceled])
    by (vm_compute; reflexivity).
  split; [reflexivity|]. split; [vm_compute; reflexivity|]. split; [exact Ht|].
  rewrite Ht. intros [H|[H|[]]]; discriminate.
Qed.

(* ================================================================= *)
(** ** The order classifier *)

Section Classifier.

Context {R : Type} {N : Num R}.
Variable E : Env R.

Lemma seen_as_ids (o : Order.t R) l :
  map (@Order.id R) (seen_as o l) = map (@Order.id R) l.
Proof.
  induction l as [|o' l IH]; simpl; [reflexivity|]. rewrite IH.
  destruct (Z.eqb_spec (Order.id o') (Order.id o)); congruence.
Qed.

Lemma order_in_ids (o o' : Order.t R) l l' :
  Order.id o = Order.id o' -> map (@Order.id R) l = map (@Order.id R) l' ->
  order_in o l = order_in o' l'.
Proof.
  unfold order_in. intros Ho. revert l'.
  induction l as [|a l IH]; intros [|a' l'] H; simpl in *; try discriminate; auto.
  injection H as Ha Hl. rewrite Ha, (IH l' Hl), Ho. reflexivity.
Qed.

Lemma classify_id p (o : Order.t R) : Order.id (classify p o) = Order.id o.
Proof.
  unfold classify, reassign_closing, reassign_opening.
  repeat match goal with |- context [if ?b then _ else _] => destruct b end; reflexivity.
Qed.

Lemma quiet_share o : along quiet (@share R o).
Proof.
  unfold share. apply along_modify. intro w. destruct w. unfold quiet. simpl.
  now rewrite !seen_as_ids.
Qed.

Lemma quiet_with_trade A (k : CompletedTrade.t R -> M R A) :
  (forall t, along quiet (k t)) -> along quiet (with_trade k).
Proof. intros Hk. unfold with_trade. quiet_tac. Qed.

Lemma quiet_update_trade f : along quiet (@update_trade R f).
Proof. unfold update_trade. apply quiet_with_trade. intro. quiet_tac. Qed.

Hint Resolve quiet_share quiet_update_trade : frames.

Lemma quiet__log_position_update o r : along quiet (_log_position_update E o r).
Proof.
  unfold _log_position_update.
  destruct r as [[]|]; quiet_tac; apply quiet_with_trade; intro; quiet_tac.
Qed.

Hint Resolve quiet__log_position_update : frames.

(** The recorder's part of [_on_updated_position]. *)
Lemma quiet_recorded o r : along quiet (share o ;; _log_position_update E o r).
Proof. quiet_tac. Qed.

(** A method that starts with a broadcast shows it first in the trace. *)
Lemma broadcast_first A msg (k : M R A) w w' r :
  along stays k ->
  (_broadcast E msg ;; k) w = (w', r) ->
  exists evs, trace w' = trace w ++ EBroadcast msg :: evs.
Proof.
  intros Hk H. unfold bind at 1 in H. rewrite broadcast_run in H.
  destruct (routes_answer E msg _) as [[]|e].
  - apply Hk in H. destruct H as (_ & _ & evs & H). exists evs.
    rewrite H. destruct w. simpl. now rewrite <- app_assoc.
  - injection H as <- <-. exists []. destruct w. reflexivity.
Qed.

(** Each lifecycle handler announces itself before it says anything else. *)
Lemma handler_announces h w w' r :
  run_handler E (Some h) w = (w', r) ->
  exists evs, trace w' = trace w ++ EBroadcast (message_of h) :: evs.
Proof.
  pose proof (stays_reconciler E) as Hrec.
  pose proof (stays__execute_cancel E) as Hcan.
  pose proof (stays_submit_exit_orders E) as Hexit.
  assert (Hcall : forall h' (f : World R -> Intents.t R), along stays (call h' f))
    by (intros; apply stays_call).
  destruct h; simpl; intros H.
  - unfold _on_open_position in H. eapply broadcast_first; [|exact H]. stays_tac.
  - unfold _on_take_profit in H. eapply broadcast_first; [|exact H]. stays_tac.
  - unfold _on_stop_loss in H. eapply broadcast_first; [|exact H]. stays_tac.
  - unfold _on_increased_position in H. unfold bind at 1, modify at 1 in H.
    eapply broadcast_first in H; [|stays_tac].
    destruct H as (evs & H). exists evs. rewrite H. destruct w. reflexivity.
  - unfold _on_reduced_position in H. unfold bind at 1, modify at 1 in H.
    eapply broadcast_first in H; [|stays_tac].
    destruct H as (evs & H). exists evs. rewrite H. destruct w. reflexivity.
Qed.

(** C1.  The classifier reassigns the role of an executed order: from
    OPEN_POSITION to INCREASE_POSITION when the absolute quantity of the
    position differs from that of the order, from CLOSE_POSITION to
    REDUCE_POSITION when the position is still open, and keeps it otherwise.
    Once the trade recorder has taken the order (without a word to the
    outside), the handler that runs is a function of the resulting role alone,
    and of the exit basket the order is in when the role is CLOSE_POSITION:
    open, take-profit, stop-loss, increased, reduced; the handler shows in
    the trace by the message it broadcasts first. *)
Theorem on_updated_position_spec (w : World R) (order : Order.t R) :
  let differs :=
    negb (num_eqb (num_abs (Position.qty (position w))) (num_abs (sval (Order.qty order)))) in
  let order' := classify (position w) order in
  let h := handler_of (Order.role order')
             (order_in order (_take_profit_orders w))
             (order_in order (_stop_loss_orders w)) in
  (Order.role order = Some OPEN_POSITION -> differs = true ->
   Order.role order' = Some INCREASE_POSITION) /\
  (Order.role order = Some CLOSE_POSITION -> Position.is_open (position w) = true ->
   Order.role order' = Some REDUCE_POSITION) /\
  (~ (Order.role order = Some OPEN_POSITION /\ differs = true) ->
   ~ (Order.role order = Some CLOSE_POSITION /\ Position.is_open (position w) = true) ->
   Order.role order' = Order.role order) /\
  (forall in_tp in_sl,
     handler_of (Some OPEN_POSITION) in_tp in_sl = Some open_position_handler /\
     handler_of (Some CLOSE_POSITION) true in_sl = Some take_profit_handler /\
     handler_of (Some CLOSE_POSITION) false true = Some stop_loss_handler /\
     handler_of (Some CLOSE_POSITION) false false = None /\
     handler_of (Some INCREASE_POSITION) in_tp in_sl = Some increased_position_handler /\
     handler_of (Some REDUCE_POSITION) in_tp in_sl = Some reduced_position_handler) /\
  (forall w' r, _on_updated_position E order w = (w', r) ->
   exists w1 r1,
     (share order' ;; _log_position_update E order' (Order.role order')) w = (w1, r1) /\
     trace w1 = trace w /\
     match r1 with
     | Raise e => w' = w1 /\ r = Raise e
     | Ok _ =>
         run_handler E h w1 = (w', r) /\
         match h with
         | Some h => exists evs, trace w' = trace w ++ EBroadcast (message_of h) :: evs
         | None => w' = w1 /\ r = Ok tt
         end
     end).
Proof.
  cbv zeta. split; [|split; [|split; [|split]]].
  - intros Hr Hd. unfold classify, reassign_closing, reassign_opening, has_role.
    rewrite Hr, Hd. reflexivity.
  - intros Hr Ho. unfold classify, reassign_closing, reassign_opening, has_role.
    rewrite Hr. simpl. rewrite Hr, Ho. reflexivity.
  - intros H1 H2. unfold classify, reassign_closing, reassign_opening, has_role.
    destruct (Order.role order) as [[]|] eqn:Hr; simpl; rewrite ?Hr; simpl;
      try congruence.
    + destruct (negb _) eqn:Hd; simpl; [exfalso; apply H1; auto | ].
      rewrite Hr. simpl. congruence.
    + destruct (Position.is_open (position w)) eqn:Ho; simpl;
        [exfalso; apply H2; auto | congruence].
  - intros in_tp in_sl. destruct in_tp, in_sl; repeat split.
  - intros w' r Hrun. unfold _on_updated_position in Hrun.
    unfold bind at 1, get at 1 in Hrun.
    set (order' := classify (position w) order) in *.
    destruct ((share order' ;; _log_position_update E order' (Order.role order')) w)
      as [w1 r1] eqn:Hrec.
    exists w1, r1. split; [reflexivity|].
    pose proof (quiet_recorded _ _ _ Hrec) as (Ht & Htp & Hsl).
    split; [exact Ht|].
    unfold bind at 1 2 in Hrun. unfold bind in Hrec.
    destruct (share order' w) as [w0 [[]|e0]] eqn:Hshare.
    + rewrite Hrec in Hrun. destruct r1 as [[]|e].
      * unfold bind, get in Hrun. cbv beta iota in Hrun.
        rewrite (order_in_ids order' order _ _ (classify_id _ _) Htp) in Hrun.
        rewrite (order_in_ids order' order _ _ (classify_id _ _) Hsl) in Hrun.
        split; [exact Hrun|].
        destruct (handler_of _ _ _) as [h|] eqn:Hh.
        -- rewrite <- Ht. eapply handler_announces; eauto.
        -- simpl in Hrun. inversion Hrun. auto.
      * inversion Hrun. auto.
    + inversion Hrec; subst. inversion Hrun. auto.
Qed.

End Classifier.

(** Scenario E5: with one unit held, a fill of half a unit tagged
    OPEN_POSITION becomes INCREASE_POSITION, an exit of half a unit becomes
    REDUCE_POSITION, a fill of the whole unit stays OPEN_POSITION; and the
    strategy's answer to the second half is the increased-position
    broadcast. *)
Lemma on_updated_position_witness :
  Order.role (classify Inputs.one_long Inputs.second_half) = Some INCREASE_POSITION /\
  Order.role (classify Inputs.one_long Inputs.half_exit) = Some REDUCE_POSITION /\
  Order.role (classify Inputs.one_long Inputs.whole) = Some OPEN_POSITION /\
  exists evs,
    trace (fst (_on_updated_position Inputs.basic_long Inputs.second_half
                  Inputs.after_first_half))
    = trace Inputs.after_first_half ++ EBroadcast route_increased_position :: evs.
Proof.
  split; [|split; [|split]].
  - apply (proj1 (on_updated_position_spec Inputs.basic_long
                    Inputs.after_first_half Inputs.second_half)); reflexivity.
  - apply (proj1 (proj2 (on_updated_position_spec Inputs.basic_long
                    Inputs.after_first_half Inputs.half_exit))); reflexivity.
  - apply (proj1 (proj2 (proj2 (on_updated_position_spec Inputs.basic_long
                    Inputs.after_first_half Inputs.whole))));
      intros [H1 H2]; discriminate.
  - destruct (proj2 (proj2 (proj2 (proj2 (on_updated_position_spec Inputs.basic_long
                    Inputs.after_first_half Inputs.second_half)))) _ _
                (surjective_pairing _)) as (w1 & r1 & Hrec & _ & Hrest).
    vm_compute in Hrec. injection Hrec as <- <-.
    exact (proj2 Hrest).
Defined.

(* ================================================================= *)
(** ** Looking for an entry: the end of [_check] *)

Section Entry.

Context {R : Type} {N : Num R}.
Variable E : Env R.

(** A method that starts with a call of an override shows it first in the
    trace. *)
Lemma call_first A h (f : World R -> Intents.t R) (k : M R A) w w' r :
  along stays k ->
  (call h f ;; k) w = (w', r) ->
  exists evs, trace w' = trace w ++ ECall h :: evs.
Proof.
  intros Hk H. unfold bind, call, emit, modify in H. cbv beta iota in H.
  apply Hk in H. destruct H as (_ & _ & evs & H). exists evs.
  rewrite H. destruct w. simpl. now rewrite <- app_assoc.
Qed.

Lemma execute_long_first w w' r :
  _execute_long E w = (w', r) -> exists evs, trace w' = trace w ++ ECall Hook.go_long :: evs.
Proof.
  unfold _execute_long. apply call_first.
  pose proof (stays_validate_buy (R:=R)). pose proof (stays__prepare_buy E).
  pose proof (stays_prepare_exits E). pose proof (stays__reset (R:=R)).
  pose proof (stays_submit_buy_row E).
  stays_tac.
Qed.

Lemma execute_short_first w w' r :
  _execute_short E w = (w', r) -> exists evs, trace w' = trace w ++ ECall Hook.go_short :: evs.
Proof.
  unfold _execute_short. apply call_first.
  pose proof (stays_validate_sell (R:=R)). pose proof (stays__prepare_sell E).
  pose proof (stays_prepare_exits E). pose proof (stays__reset (R:=R)).
  pose proof (stays_submit_sell_row E).
  stays_tac.
Qed.

Lemma mark_initiated_returns (w : World R) :
  mark_initiated w = (fst (mark_initiated w), Ok tt).
Proof. unfold mark_initiated, bind, get. destruct (_is_initiated w); reflexivity. Qed.

(** C4.  Where a tick finds the position closed and the basket of entry
    orders empty (the test of line 617): if [should_long] and [should_short]
    both hold, it raises [ConflictingRules] and the world is as it was, so
    no entry pipeline has run; if only [should_long] holds, it runs
    [_execute_long], whose call of [go_long] is the next event of the trace;
    if only [should_short] holds, it runs [_execute_short].  A tick reaches
    that test with the world its earlier steps leave, unless the cap of a
    test drive ends it before. *)
Theorem enter_if_flat_spec (w : World R) :
  Position.is_close (position w) = true -> _open_position_orders w = [] ->
  (should_long E w = true -> should_short E w = true ->
   enter_if_flat E w = (w, Raise ConflictingRules)) /\
  (should_long E w = true -> should_short E w = false ->
   enter_if_flat E w
   = (_execute_long E ;; w' <- get ;; when (should_short E w') (_execute_short E)) w /\
   forall w' r, enter_if_flat E w = (w', r) ->
   exists evs, trace w' = trace w ++ ECall Hook.go_long :: evs) /\
  (should_long E w = false -> should_short E w = true ->
   enter_if_flat E w = _execute_short E w /\
   forall w' r, enter_if_flat E w = (w', r) ->
   exists evs, trace w' = trace w ++ ECall Hook.go_short :: evs) /\
  (forall w0,
   test_drive_is_over E (fst (mark_initiated w0)) = false ->
   before_entry E (fst (mark_initiated w0)) = (w, Ok tt) ->
   _check E w0 = enter_if_flat E w).
Proof.
  intros Hclose Hnil.
  assert (Hflat : forall X (a b : X),
    (if Position.is_close (position w) && is_nil (_open_position_orders w) then a else b) = a)
    by (intros; now rewrite Hclose, Hnil).
  split; [|split; [|split]].
  - intros Hl Hs. unfold enter_if_flat, bind, get, when, raise.
    rewrite Hflat, Hl, Hs. reflexivity.
  - intros Hl Hs.
    assert (Heq : enter_if_flat E w
      = (_execute_long E ;; w' <- get ;; when (should_short E w') (_execute_short E)) w).
    { unfold enter_if_flat, bind, get, when, ret, raise. rewrite Hflat, Hs.
      cbn [andb]. cbv beta iota. rewrite ?Hl. reflexivity. }
    split; [exact Heq|].
    intros w' r Hrun. rewrite Heq in Hrun.
    destruct (bind_inv _ _ _ Hrun) as [(w1 & [] & H1 & H2)|(e & H1 & _)].
    + apply execute_long_first in H1. destruct H1 as (evs & H1).
      assert (Hrest : along stays (w' <- get ;; when (should_short E w') (_execute_short E))).
      { pose proof (stays__execute_short E). stays_tac. }
      apply Hrest in H2. destruct H2 as (_ & _ & evs' & H2).
      exists (evs ++ evs'). rewrite H2, H1, <- app_assoc. reflexivity.
    + eapply execute_long_first; eauto.
  - intros Hl Hs.
    assert (Heq : enter_if_flat E w = _execute_short E w).
    { unfold enter_if_flat, bind, get, when, ret, raise. rewrite Hflat, Hs, Hl.
      cbn [andb]. cbv beta iota. rewrite ?Hl, ?Hs. cbv beta iota.
      destruct (_execute_short E w) as [w' [[]|e]]; reflexivity. }
    split; [exact Heq|].
    intros w' r Hrun. rewrite Heq in Hrun. eapply execute_short_first; eauto.
  - intros w0 Hcap Hbefore. unfold _check.
    unfold bind at 1. rewrite (mark_initiated_returns w0).
    unfold bind at 1, get at 1. rewrite Hcap.
    unfold bind. now rewrite Hbefore.
Qed.

End Entry.

(** Scenario E6 raises, at the test and for the tick as a whole; the long
    demo strategy calls [go_long] next; the short one runs
    [_execute_short]. *)
Lemma enter_if_flat_witness :
  let w := Demo.fresh Inputs.flat in
  let w1 := set__is_initiated true w in
  enter_if_flat Inputs.conflicting w1 = (w1, Raise ConflictingRules) /\
  _check Inputs.conflicting w = (w1, Raise ConflictingRules) /\
  (exists evs, trace (fst (enter_if_flat Inputs.basic_long w))
               = trace w ++ ECall Hook.go_long :: evs) /\
  enter_if_flat Inputs.basic_short w = _execute_short Inputs.basic_short w.
Proof.
  intros w w1.
  pose proof (enter_if_flat_spec Inputs.conflicting w1 eq_refl eq_refl) as (Hboth & _ & _ & Htick).
  pose proof (enter_if_flat_spec Inputs.basic_long w eq_refl eq_refl) as (_ & Hlong & _).
  pose proof (enter_if_flat_spec Inputs.basic_short w eq_refl eq_refl) as (_ & _ & Hshort & _).
  split; [|split; [|split]].
  - exact (Hboth eq_refl eq_refl).
  - rewrite (Htick w eq_refl eq_refl). exact (Hboth eq_refl eq_refl).
  - exact (proj2 (Hlong eq_refl eq_refl) _ _ (surjective_pairing _)).
  - exact (proj1 (Hshort eq_refl eq_refl)).
Defined.

(* ================================================================= *)
(** ** The entry of a short position in the reconciler *)

(** C2, on the code.  A short position, the mark at 100, and [sell]
    rewritten to the rows (1, 105), (1, 95), (1, 100).  The reconciler
    answers the row above the mark with a STOP entry on side BUY, and the row
    below the mark with a LIMIT sell.  Section 4.3 of the spec, and
    [_execute_short], place a LIMIT sell for the first and a STOP entry on
    side SELL for the second. *)
Theorem short_reconciler_entry_orders :
  let w := Inputs.short_mutated in
  let rows := [(1, 105); (1, 95); (1, 100)]%float in
  _detect_and_handle_entry_and_exit_modifications Inputs.basic_short w
  = (fst (_detect_and_handle_entry_and_exit_modifications Inputs.basic_short w), Ok tt) /\
  trace (fst (_detect_and_handle_entry_and_exit_modifications Inputs.basic_short w))
  = [EBroker (start_profit_at BUY 1 105 OPEN_POSITION);
     EBroker (sell_at 1 95 OPEN_POSITION);
     EBroker (sell_at_market 1 OPEN_POSITION)]%float /\
  map (entry_per_spec SELL (price w)) rows
  = [Some (sell_at 1 105 OPEN_POSITION);
     Some (start_profit_at SELL 1 95 OPEN_POSITION);
     Some (sell_at_market 1 OPEN_POSITION)]%float /\
  trace (fst (for_each rows (submit_sell_row Inputs.basic_short) (Demo.fresh Inputs.one_short)))
  = [EBroker (sell_at 1 105 OPEN_POSITION);
     EBroker (start_profit_at SELL 1 95 OPEN_POSITION);
     EBroker (sell_at_market 1 OPEN_POSITION)]%float.
Proof. vm_compute. repeat split. Qed.

(* ================================================================= *)
(** ** The shape of the entry intent *)

(** C9, as stated, fails: the demo strategy sets [buy] to an already
    normalized table (a numpy array) in [go_long], and [_execute_long] raises
    [InvalidStrategy]. *)
Lemma normalized_entry_is_refused :
  let w := Demo.fresh Inputs.flat in
  buy (fst (call Hook.go_long (go_long Inputs.table_entry) w)) = IArray [(1, 100)]%float /\
  snd (_execute_long Inputs.table_entry w) = Raise InvalidStrategy.
Proof. vm_compute. split; reflexivity. Qed.

Section Shapes.

Context {R : Type} {N : Num R}.
Variable E : Env R.

(** Rows that are there convert to a table, the rows themselves outside live
    mode. *)
Lemma convert_rows k (o : R * R) rows :
  exists t, _convert_to_numpy_array E (IRows k (o :: rows)) = Ok t /\
            (is_live E = false -> t = o :: rows).
Proof.
  unfold _convert_to_numpy_array. destruct (is_live E).
  - destruct o as [q p]. eexists. split; [reflexivity | discriminate].
  - eexists. split; reflexivity.
Qed.

Lemma normalized_pair b k q p :
  normalized E b (IPair k q p) = _convert_to_numpy_array E (IRows list_ [(q, p)]).
Proof. reflexivity. Qed.

Lemma normalized_rows b k (o : R * R) rows :
  normalized E b (IRows k (o :: rows)) = _convert_to_numpy_array E (IRows k (o :: rows)).
Proof. reflexivity. Qed.

(** C9, amended.  Lines 154-159 of [_execute_long] and 288-293 of
    [_execute_short] accept the entry intent as one (qty, price) pair or as
    a sequence of pairs, each a Python list or tuple, and normalize it: the
    intent becomes the table and the effective snapshot a copy of it.  They
    raise [InvalidStrategy], and leave the strategy as it was, exactly when
    the intent is [None] or is neither a list nor a tuple; an already
    normalized table (a numpy array) is among the refused. *)
Theorem entry_intent_shapes (w : World R) :
  let long_lines := validate_buy ;; _prepare_buy E true in
  let short_lines := validate_sell ;; _prepare_sell E true in
  (* refusals *)
  (snd (long_lines w) = Raise InvalidStrategy
   <-> is_None (buy w) = true \/ not_sequence (buy w) = true) /\
  (snd (short_lines w) = Raise InvalidStrategy
   <-> is_None (sell w) = true \/ not_sequence (sell w) = true) /\
  (is_None (buy w) = true \/ not_sequence (buy w) = true ->
   long_lines w = (w, Raise InvalidStrategy)) /\
  (is_None (sell w) = true \/ not_sequence (sell w) = true ->
   short_lines w = (w, Raise InvalidStrategy)) /\
  (forall t : Table R, not_sequence (IArray t) = true) /\
  (* one pair *)
  (forall k q p, buy w = IPair k q p ->
   exists t, _convert_to_numpy_array E (IRows list_ [(q, p)]) = Ok t /\
             (is_live E = false -> t = [(q, p)]) /\
             long_lines w = (set__buy (Some t) (set_buy (IArray t) w), Ok tt)) /\
  (forall k q p, sell w = IPair k q p ->
   exists t, _convert_to_numpy_array E (IRows list_ [(q, p)]) = Ok t /\
             (is_live E = false -> t = [(q, p)]) /\
             short_lines w = (set__sell (Some t) (set_sell (IArray t) w), Ok tt)) /\
  (* a sequence of pairs *)
  (forall k o rows, buy w = IRows k (o :: rows) ->
   exists t, _convert_to_numpy_array E (IRows k (o :: rows)) = Ok t /\
             (is_live E = false -> t = o :: rows) /\
             long_lines w = (set__buy (Some t) (set_buy (IArray t) w), Ok tt)) /\
  (forall k o rows, sell w = IRows k (o :: rows) ->
   exists t, _convert_to_numpy_array E (IRows k (o :: rows)) = Ok t /\
             (is_live E = false -> t = o :: rows) /\
             short_lines w = (set__sell (Some t) (set_sell (IArray t) w), Ok tt)).
Proof.
  cbv zeta.
  assert (Hlong_refuse : is_None (buy w) = true \/ not_sequence (buy w) = true ->
    (validate_buy ;; _prepare_buy E true) w = (w, Raise InvalidStrategy)).
  { intros H. unfold validate_buy, bind, get.
    destruct (buy w); simpl in *; try reflexivity; destruct H; discriminate. }
  assert (Hshort_refuse : is_None (sell w) = true \/ not_sequence (sell w) = true ->
    (validate_sell ;; _prepare_sell E true) w = (w, Raise InvalidStrategy)).
  { intros H. unfold validate_sell, bind, get.
    destruct (sell w); simpl in *; try reflexivity; destruct H; discriminate. }
  assert (Hlong_pair : forall k q p, buy w = IPair k q p ->
    exists t, _convert_to_numpy_array E (IRows list_ [(q, p)]) = Ok t /\
              (is_live E = false -> t = [(q, p)]) /\
              (validate_buy ;; _prepare_buy E true) w
              = (set__buy (Some t) (set_buy (IArray t) w), Ok tt)).
  { intros k q p Hb. destruct (convert_rows list_ (q, p) []) as (t & Ht & Hlive).
    exists t. repeat split; auto.
    unfold validate_buy, _prepare_buy, bind, get, lift, modify, when, ret.
    rewrite Hb. cbn [is_None not_sequence]. cbv beta iota. rewrite Hb.
    rewrite ?normalized_pair, ?normalized_rows, Ht. reflexivity. }
  assert (Hshort_pair : forall k q p, sell w = IPair k q p ->
    exists t, _convert_to_numpy_array E (IRows list_ [(q, p)]) = Ok t /\
              (is_live E = false -> t = [(q, p)]) /\
              (validate_sell ;; _prepare_sell E true) w
              = (set__sell (Some t) (set_sell (IArray t) w), Ok tt)).
  { intros k q p Hb. destruct (convert_rows list_ (q, p) []) as (t & Ht & Hlive).
    exists t. repeat split; auto.
    unfold validate_sell, _prepare_sell, bind, get, lift, modify, when, ret.
    rewrite Hb. cbn [is_None not_sequence]. cbv beta iota. rewrite Hb.
    rewrite ?normalized_pair, ?normalized_rows, Ht. reflexivity. }
  assert (Hlong_rows : forall k o rows, buy w = IRows k (o :: rows) ->
    exists t, _convert_to_numpy_array E (IRows k (o :: rows)) = Ok t /\
              (is_live E = false -> t = o :: rows) /\
              (validate_buy ;; _prepare_buy E true) w
              = (set__buy (Some t) (set_buy (IArray t) w), Ok tt)).
  { intros k o rows Hb. destruct (convert_rows k o rows) as (t & Ht & Hlive).
    exists t. repeat split; auto.
    unfold validate_buy, _prepare_buy, bind, get, lift, modify, when, ret.
    rewrite Hb. cbn [is_None not_sequence]. cbv beta iota. rewrite Hb.
    rewrite ?normalized_pair, ?normalized_rows, Ht. reflexivity. }
  assert (Hshort_rows : forall k o rows, sell w = IRows k (o :: rows) ->
    exists t, _convert_to_numpy_array E (IRows k (o :: rows)) = Ok t /\
              (is_live E = false -> t = o :: rows) /\
              (validate_sell ;; _prepare_sell E true) w
              = (set__sell (Some t) (set_sell (IArray t) w), Ok tt)).
  { intros k o rows Hb. destruct (convert_rows k o rows) as (t & Ht & Hlive).
    exists t. repeat split; auto.
    unfold validate_sell, _prepare_sell, bind, get, lift, modify, when, ret.
    rewrite Hb. cbn [is_None not_sequence]. cbv beta iota. rewrite Hb.
    rewrite ?normalized_pair, ?normalized_rows, Ht. reflexivity. }
  repeat match goal with |- _ /\ _ => split end; auto.
  - split; [|intros H; now rewrite (Hlong_refuse H)].
    intros Hraise. destruct (buy w) as [|x|k q p|k [|o rows]|t] eqn:Hb; simpl; auto; exfalso.
    + destruct (Hlong_pair k q p eq_refl) as (t & _ & _ & Hrun).
      rewrite Hrun in Hraise. discriminate.
    + unfold validate_buy, _prepare_buy, bind, get, lift, ret in Hraise.
      rewrite Hb in Hraise. cbn [is_None not_sequence] in Hraise.
      cbv beta iota in Hraise. rewrite Hb in Hraise. discriminate.
    + destruct (Hlong_rows k o rows eq_refl) as (t & _ & _ & Hrun).
      rewrite Hrun in Hraise. discriminate.
  - split; [|intros H; now rewrite (Hshort_refuse H)].
    intros Hraise. destruct (sell w) as [|x|k q p|k [|o rows]|t] eqn:Hb; simpl; auto; exfalso.
    + destruct (Hshort_pair k q p eq_refl) as (t & _ & _ & Hrun).
      rewrite Hrun in Hraise. discriminate.
    + unfold validate_sell, _prepare_sell, bind, get, lift, ret in Hraise.
      rewrite Hb in Hraise. cbn [is_None not_sequence] in Hraise.
      cbv beta iota in Hraise. rewrite Hb in Hraise. discriminate.
    + destruct (Hshort_rows k o rows eq_refl) as (t & _ & _ & Hrun).
      rewrite Hrun in Hraise. discriminate.
Qed.

End Shapes.

(** A pair set by [go_long] becomes the table [[(1, 100)]] and its
    snapshot; a table set by [go_long] is refused. *)
Lemma entry_intent_shapes_witness :
  let w := fst (call Hook.go_long (go_long Inputs.basic_long) (Demo.fresh Inputs.flat)) in
  let w' := fst (call Hook.go_long (go_long Inputs.table_entry) (Demo.fresh Inputs.flat)) in
  (validate_buy ;; _prepare_buy Inputs.basic_long true) w
  = (set__buy (Some [(1, 100)]%float) (set_buy (IArray [(1, 100)]%float) w), Ok tt) /\
  (validate_buy ;; _prepare_buy Inputs.table_entry true) w' = (w', Raise InvalidStrategy).
Proof.
  intros w w'. split.
  - destruct (entry_intent_shapes Inputs.basic_long w) as (_ & _ & _ & _ & _ & Hpair & _).
    destruct (Hpair tuple 1%float 100%float eq_refl) as (t & _ & Hlive & Hrun).
    rewrite Hrun, (Hlive eq_refl). reflexivity.
  - destruct (entry_intent_shapes Inputs.table_entry w') as (_ & _ & Hrefuse & _).
    apply Hrefuse. right. reflexivity.
Defined.

(* ================================================================= *)
(** ** The exit orders of a position that opens *)

Section ExitOrders.

Context {R : Type} {N : Num R}.
Variable E : Env R.

Lemma exits_frame_refl (w : World R) : exits_frame w w.
Proof. repeat split. Qed.

Lemma exits_frame_trans (a b c : World R) :
  exits_frame a b -> exits_frame b c -> exits_frame a c.
Proof.
  intros (H1 & H2 & H3 & H4 & H5) (G1 & G2 & G3 & G4 & G5).
  repeat split; congruence.
Qed.

Lemma comparable_leb (x y : R) :
  comparable x y = true ->
  num_leb x y = negb (num_ltb y x) /\ num_leb y x = negb (num_ltb x y).
Proof.
  unfold comparable. intros H. apply andb_prop in H. destruct H as [H1 H2].
  split; now apply eqb_prop.
Qed.

Lemma passing_In A (ok : A -> bool) l x : In x (passing ok l) -> In x l /\ ok x = true.
Proof.
  induction l as [|y l IH]; simpl; [tauto|].
  destruct (ok y) eqn:Hy; simpl; [|tauto].
  intros [<-|H]; [auto|]. destruct (IH H). auto.
Qed.

Lemma forallb_false A (ok : A -> bool) l :
  (exists x, In x l /\ ok x = false) -> forallb ok l = false.
Proof.
  intros (x & Hin & Hx). destruct (forallb ok l) eqn:Hall; [|reflexivity].
  rewrite forallb_forall in Hall. rewrite (Hall x Hin) in Hx. discriminate.
Qed.

(** One turn of the loop over the take-profit rows. *)
Lemma open_take_profit_row_run o w w' r :
  open_take_profit_row E o w = (w', r) ->
  if take_profit_refused (Position.type (position w))
       (Position.entry_price (position w)) (snd o)
  then w' = w /\ r = Raise InvalidStrategy
  else r = Ok tt /\ trace w' = trace w ++ [take_profit_call o] /\ exits_frame w w'.
Proof.
  intros H. destruct w. cbn [position] in *.
  unfold open_take_profit_row, bind, get, place, append_take_profit_order, modify,
    is_long, is_short, raise, ret in H.
  unfold take_profit_refused, take_profit_call, exits_frame. cbn in H |- *.
  destruct (Position.type position0).
  - destruct (num_leb (snd o) (Position.entry_price position0));
      cbn in H; inversion H; subst; cbn; auto; repeat split.
  - destruct (num_leb (Position.entry_price position0) (snd o));
      cbn in H; inversion H; subst; cbn; auto; repeat split.
  - cbn in H; inversion H; subst; cbn; auto; repeat split.
Qed.

(** One turn of the loop over the stop-loss rows. *)
Lemma open_stop_loss_row_run o w w' r :
  open_stop_loss_row E o w = (w', r) ->
  if stop_loss_refused (Position.type (position w))
       (Position.entry_price (position w)) (snd o)
  then w' = w /\ r = Raise InvalidStrategy
  else r = Ok tt /\ trace w' = trace w ++ [stop_loss_call o] /\ exits_frame w w'.
Proof.
  intros H. destruct w. cbn [position] in *.
  unfold open_stop_loss_row, bind, get, place, append_stop_loss_order, modify,
    is_long, is_short, raise, ret in H.
  unfold stop_loss_refused, stop_loss_call, exits_frame. cbn in H |- *.
  destruct (Position.type position0).
  - destruct (num_leb (Position.entry_price position0) (snd o));
      cbn in H; inversion H; subst; cbn; auto; repeat split.
  - destruct (num_leb (snd o) (Position.entry_price position0));
      cbn in H; inversion H; subst; cbn; auto; repeat split.
  - cbn in H; inversion H; subst; cbn; auto; repeat split.
Qed.

(** A loop whose turns either pass a row on to the broker or raise, run
    from a world that reads as [w0] does. *)
Lemma checked_loop (w0 : World R) (body : R * R -> M R unit) (ok : R * R -> bool)
      (ev : R * R -> Event R) :
  (forall o w w' r, exits_frame w0 w -> body o w = (w', r) ->
     if ok o then r = Ok tt /\ trace w' = trace w ++ [ev o] /\ exits_frame w w'
     else w' = w /\ r = Raise InvalidStrategy) ->
  forall rows w w' r,
  exits_frame w0 w ->
  for_each rows body w = (w', r) ->
  r = (if forallb ok rows then Ok tt else Raise InvalidStrategy) /\
  trace w' = trace w ++ map ev (passing ok rows) /\
  exits_frame w0 w'.
Proof.
  intros Hbody. induction rows as [|o rows IH]; intros w w' r Hw H.
  - inversion H; subst. simpl. rewrite app_nil_r. auto.
  - simpl in H. destruct (bind_inv _ _ _ H) as [(w1 & [] & H1 & H2)|(e & H1 & ->)].
    + pose proof (Hbody o w w1 (Ok tt) Hw H1) as Hrow.
      simpl. destruct (ok o).
      * destruct Hrow as (_ & Ht & Hf).
        destruct (IH w1 w' r (exits_frame_trans Hw Hf) H2) as (Hr & Ht' & Hf').
        split; [exact Hr|]. split; [|exact Hf'].
        rewrite Ht', Ht, <- app_assoc. reflexivity.
      * destruct Hrow as (_ & Hr). discriminate.
    + pose proof (Hbody o w w' (Raise e) Hw H1) as Hrow.
      simpl. destruct (ok o).
      * destruct Hrow as (Hr & _). discriminate.
      * destruct Hrow as (-> & Hr). rewrite Hr, app_nil_r. auto.
Qed.

(** Lines 634-661. *)
Lemma take_profit_block w w1 r1 :
  let ty := Position.type (position w) in
  let entry := Position.entry_price (position w) in
  let tp := exit_rows (take_profit w) (_take_profit w) in
  let tp_ok := fun o : R * R => negb (take_profit_refused ty entry (snd o)) in
  snapshot_taken (take_profit w) (_take_profit w) ->
  (w0 <- get ;;
   when (negb (is_None (take_profit w0)))
     (rows <- lift (rows_of (_take_profit w0)) ;; for_each rows (open_take_profit_row E)))
    w = (w1, r1) ->
  r1 = (if forallb tp_ok tp then Ok tt else Raise InvalidStrategy) /\
  trace w1 = trace w ++ map take_profit_call (passing tp_ok tp) /\
  exits_frame w w1.
Proof.
  cbv zeta. unfold exit_rows, snapshot_taken. intros Hsnap H.
  unfold bind at 1, get at 1 in H.
  destruct (is_None (take_profit w)); simpl in H.
  - inversion H; subst. simpl. rewrite app_nil_r. auto using exits_frame_refl.
  - destruct (_take_profit w) as [t|]; [|now destruct Hsnap].
    unfold bind, lift, rows_of in H.
    eapply checked_loop with (w0 := w); eauto using exits_frame_refl.
    intros o a a' r Hf Hb. destruct Hf as (Hp & _).
    rewrite <- Hp. apply open_take_profit_row_run in Hb.
    destruct (take_profit_refused _ _ _); exact Hb.
Qed.

(** Lines 663-690. *)
Lemma stop_loss_block w w1 r1 :
  let ty := Position.type (position w) in
  let entry := Position.entry_price (position w) in
  let sl := exit_rows (stop_loss w) (_stop_loss w) in
  let sl_ok := fun o : R * R => negb (stop_loss_refused ty entry (snd o)) in
  snapshot_taken (stop_loss w) (_stop_loss w) ->
  (w0 <- get ;;
   when (negb (is_None (stop_loss w0)))
     (rows <- lift (rows_of (_stop_loss w0)) ;; for_each rows (open_stop_loss_row E)))
    w = (w1, r1) ->
  r1 = (if forallb sl_ok sl then Ok tt else Raise InvalidStrategy) /\
  trace w1 = trace w ++ map stop_loss_call (passing sl_ok sl) /\
  exits_frame w w1.
Proof.
  cbv zeta. unfold exit_rows, snapshot_taken. intros Hsnap H.
  unfold bind at 1, get at 1 in H.
  destruct (is_None (stop_loss w)); simpl in H.
  - inversion H; subst. simpl. rewrite app_nil_r. auto using exits_frame_refl.
  - destruct (_stop_loss w) as [t|]; [|now destruct Hsnap].
    unfold bind, lift, rows_of in H.
    eapply checked_loop with (w0 := w); eauto using exits_frame_refl.
    intros o a a' r Hf Hb. destruct Hf as (Hp & _).
    rewrite <- Hp. apply open_stop_loss_row_run in Hb.
    destruct (stop_loss_refused _ _ _); exact Hb.
Qed.

(** Lines 634-690 on the exits as the snapshots hold them. *)
Lemma submit_exit_orders_run (w w' : World R) r :
  let ty := Position.type (position w) in
  let entry := Position.entry_price (position w) in
  let tp := exit_rows (take_profit w) (_take_profit w) in
  let sl := exit_rows (stop_loss w) (_stop_loss w) in
  let tp_ok := fun o : R * R => negb (take_profit_refused ty entry (snd o)) in
  let sl_ok := fun o : R * R => negb (stop_loss_refused ty entry (snd o)) in
  snapshot_taken (take_profit w) (_take_profit w) ->
  snapshot_taken (stop_loss w) (_stop_loss w) ->
  submit_exit_orders E w = (w', r) ->
  r = (if forallb tp_ok tp && forallb sl_ok sl then Ok tt else Raise InvalidStrategy) /\
  trace w' = trace w ++ map take_profit_call (passing tp_ok tp)
               ++ (if forallb tp_ok tp then map stop_loss_call (passing sl_ok sl)
                   else []).
Proof.
  cbv zeta. intros Htp Hsl Hrun.
  set (ty := Position.type (position w)) in *.
  set (entry := Position.entry_price (position w)) in *.
  set (tp := exit_rows (take_profit w) (_take_profit w)) in *.
  set (sl := exit_rows (stop_loss w) (_stop_loss w)) in *.
  set (tp_ok := fun o : R * R => negb (take_profit_refused ty entry (snd o))) in *.
  set (sl_ok := fun o : R * R => negb (stop_loss_refused ty entry (snd o))) in *.
  unfold submit_exit_orders in Hrun.
  destruct (bind_inv _ _ _ Hrun) as [(w1 & [] & H1 & H2)|(e & H1 & ->)].
  - apply take_profit_block in H1; auto.
    destruct H1 as (Hr1 & Ht1 & Hf1). fold ty entry tp tp_ok in Hr1, Ht1.
    destruct (forallb tp_ok tp); [|discriminate].
    destruct Hf1 as (Hp & Htpi & Htps & Hsli & Hsls).
    apply stop_loss_block in H2.
    + rewrite Hp, Hsli, Hsls in H2. fold ty entry sl sl_ok in H2.
      destruct H2 as (Hr2 & Ht2 & _). cbn [andb]. split; [exact Hr2|].
      rewrite Ht2, Ht1, app_assoc. reflexivity.
    + now rewrite Hsli, Hsls.
  - apply take_profit_block in H1; auto.
    destruct H1 as (Hr1 & Ht1 & _). fold ty entry tp tp_ok in Hr1, Ht1.
    destruct (forallb tp_ok tp); [discriminate|].
    cbn [andb]. split; [exact Hr1|]. rewrite Ht1, app_nil_r. reflexivity.
Qed.

(** C5, amended.  The open handler (lines 630-695) first broadcasts; when a
    route's reconciler raises, it raises with it.  Then it walks the rows of
    the snapshots of the exit intents that are set, the take-profit rows
    first: a row is refused, and InvalidStrategy raised, when the test
    written for it holds ([<=] the entry price for a take-profit row of a
    long position, [>=] for its stop-loss rows, the other way round for a
    short position); every row before the first refused one has gone to the
    broker, as a [reduce_position_at] or a [stop_loss_at] call tagged
    CLOSE_POSITION.  On prices that compare with the entry price as numbers
    do, the refused rows are those that are not strictly on the side of
    profit, or of protection; a NaN price is refused by no test.  When no row
    is refused the handler goes on to the [on_open_position] override and to
    the reconciler, whose orders are not checked against the entry price.  An
    exit intent that is set and has no snapshot makes the handler raise
    TypeError. *)
Theorem exit_orders_are_validated (w0 : World R) :
  let w := fst (emit (EBroadcast route_open_position) w0) in
  let ty := Position.type (position w0) in
  let entry := Position.entry_price (position w0) in
  let tp := exit_rows (take_profit w0) (_take_profit w0) in
  let sl := exit_rows (stop_loss w0) (_stop_loss w0) in
  let tp_ok := fun o : R * R => negb (take_profit_refused ty entry (snd o)) in
  let sl_ok := fun o : R * R => negb (stop_loss_refused ty entry (snd o)) in
  let sent := map take_profit_call (passing tp_ok tp)
              ++ (if forallb tp_ok tp then map stop_loss_call (passing sl_ok sl) else []) in
  let rest :=
    modify (set__open_position_orders []) ;;
    modify (fun w => set__initial_qty (Some (Position.qty (position w))) w) ;;
    call Hook.on_open_position (on_open_position E) ;;
    _detect_and_handle_entry_and_exit_modifications E in
  (* the tests, on prices that compare as numbers do *)
  (forall p, comparable p entry = true ->
     take_profit_refused ty entry p = negb (profits ty entry p) /\
     stop_loss_refused ty entry p = negb (protects ty entry p)) /\
  (* a broadcast that fails *)
  (forall e, routes_answer E route_open_position w = Raise e ->
     _on_open_position E w0 = (w, Raise e)) /\
  (* the rows of the snapshots *)
  (routes_answer E route_open_position w = Ok tt ->
   snapshot_taken (take_profit w0) (_take_profit w0) ->
   snapshot_taken (stop_loss w0) (_stop_loss w0) ->
   exists w1,
     trace w1 = trace w0 ++ EBroadcast route_open_position :: sent /\
     (forall ev, In ev sent ->
        (exists o, In o tp /\ tp_ok o = true /\ ev = take_profit_call o) \/
        (exists o, In o sl /\ sl_ok o = true /\ ev = stop_loss_call o)) /\
     ((exists o, In o tp /\ tp_ok o = false) \/ (exists o, In o sl /\ sl_ok o = false) ->
      _on_open_position E w0 = (w1, Raise InvalidStrategy)) /\
     (forallb tp_ok tp && forallb sl_ok sl = true ->
      submit_exit_orders E w = (w1, Ok tt) /\ _on_open_position E w0 = rest w1)) /\
  (* an exit without its snapshot *)
  (routes_answer E route_open_position w = Ok tt ->
   is_None (take_profit w0) = false -> _take_profit w0 = None ->
   _on_open_position E w0 = (w, Raise TypeError)) /\
  (routes_answer E route_open_position w = Ok tt ->
   snapshot_taken (take_profit w0) (_take_profit w0) ->
   is_None (stop_loss w0) = false -> _stop_loss w0 = None ->
   exists w1,
     trace w1 = trace w0 ++ EBroadcast route_open_position
                            :: map take_profit_call (passing tp_ok tp) /\
     _on_open_position E w0
     = (w1, Raise (if forallb tp_ok tp then TypeError else InvalidStrategy))).
Proof.
  cbv zeta.
  set (w := fst (emit (EBroadcast route_open_position) w0)).
  assert (Hw : position w = position w0 /\ take_profit w = take_profit w0 /\
               _take_profit w = _take_profit w0 /\ stop_loss w = stop_loss w0 /\
               _stop_loss w = _stop_loss w0 /\
               trace w = trace w0 ++ [EBroadcast route_open_position])
    by (subst w; destruct w0; repeat split).
  destruct Hw as (Wp & Wtp & Wtps & Wsl & Wsls & Wt).
  assert (Hhandler : forall r, routes_answer E route_open_position w = r ->
            _on_open_position E w0
            = match r with
              | Ok _ =>
                  (submit_exit_orders E ;;
                   modify (set__open_position_orders []) ;;
                   modify (fun w => set__initial_qty (Some (Position.qty (position w))) w) ;;
                   call Hook.on_open_position (on_open_position E) ;;
                   _detect_and_handle_entry_and_exit_modifications E) w
              | Raise e => (w, Raise e)
              end).
  { intros r Hr. unfold _on_open_position. unfold bind at 1. rewrite broadcast_run.
    fold w. rewrite Hr. destruct r as [[]|e]; reflexivity. }
  split; [|split; [|split; [|split]]].
  - intros p Hc. apply comparable_leb in Hc. destruct Hc as (H1 & H2).
    unfold take_profit_refused, stop_loss_refused, profits, protects.
    destruct (Position.type (position w0)); rewrite ?H1, ?H2; auto.
  - intros e He. exact (Hhandler _ He).
  - intros Ha Htp Hsl. rewrite (Hhandler _ Ha).
    destruct (submit_exit_orders E w) as [w1 r1] eqn:Hrun.
    pose proof Hrun as Hmain. apply submit_exit_orders_run in Hmain;
      [|now rewrite Wtp, Wtps|now rewrite Wsl, Wsls].
    rewrite Wp, Wtp, Wtps, Wsl, Wsls, Wt in Hmain.
    destruct Hmain as (Hr & Ht).
    exists w1. split; [|split; [|split]].
    + rewrite Ht, <- app_assoc. reflexivity.
    + intros ev Hev. apply in_app_or in Hev. destruct Hev as [Hev|Hev].
      * left. apply in_map_iff in Hev. destruct Hev as (o & <- & Ho).
        apply passing_In in Ho. exists o. tauto.
      * right. destruct (forallb _ (exit_rows (take_profit w0) _)); [|destruct Hev].
        apply in_map_iff in Hev. destruct Hev as (o & <- & Ho).
        apply passing_In in Ho. exists o. tauto.
    + intros Hbad.
      assert (Hall : forallb (fun o : R * R =>
                        negb (take_profit_refused (Position.type (position w0))
                                (Position.entry_price (position w0)) (snd o)))
                       (exit_rows (take_profit w0) (_take_profit w0))
                     && forallb (fun o : R * R =>
                        negb (stop_loss_refused (Position.type (position w0))
                                (Position.entry_price (position w0)) (snd o)))
                       (exit_rows (stop_loss w0) (_stop_loss w0)) = false).
      { destruct Hbad as [Hbad|Hbad]; apply forallb_false in Hbad; rewrite Hbad;
          [reflexivity | apply andb_false_r]. }
      rewrite Hall in Hr. unfold bind at 1. now rewrite Hrun, Hr.
    + intros Hall. rewrite Hall in Hr. subst r1. split; [reflexivity|].
      unfold bind at 1. now rewrite Hrun.
  - intros Ha Hset Hnone. rewrite (Hhandler _ Ha).
    assert (Hs : submit_exit_orders E w = (w, Raise TypeError)).
    { unfold submit_exit_orders, bind, get. rewrite Wtp, Wtps, Hset, Hnone. reflexivity. }
    unfold bind at 1. now rewrite Hs.
  - intros Ha Htp Hset Hnone. rewrite (Hhandler _ Ha).
    unfold submit_exit_orders.
    match goal with
    | |- context [bind (bind ?m1 ?k1) ?k2] =>
        destruct (m1 w) as [w1 r1] eqn:H1
    end.
    pose proof H1 as Hblock. apply take_profit_block in Hblock; [|now rewrite Wtp, Wtps].
    rewrite Wp, Wtp, Wtps, Wt in Hblock. destruct Hblock as (Hr & Ht & Hf).
    destruct (forallb _ (exit_rows (take_profit w0) (_take_profit w0))).
    + subst r1. destruct Hf as (_ & _ & _ & Fsl & Fsls).
      assert (Hs : (w2 <- get ;;
                    when (negb (is_None (stop_loss w2)))
                      (rows <- lift (rows_of (_stop_loss w2)) ;;
                       for_each rows (open_stop_loss_row E))) w1 = (w1, Raise TypeError)).
      { unfold bind, get. rewrite Fsl, Fsls, Wsl, Wsls, Hset, Hnone. reflexivity. }
      exists w1. split; [rewrite Ht, <- app_assoc; reflexivity|].
      unfold bind at 1. unfold bind at 1. now rewrite H1, Hs.
    + subst r1. exists w1. split; [rewrite Ht, <- app_assoc; reflexivity|].
      unfold bind at 1. unfold bind at 1. now rewrite H1.
Qed.

End ExitOrders.

(** Long from 100, take-profit rows at 110 and 95, a stop at 90: the row at
    110 goes to the broker, the row at 95 raises, the stop is never
    reached. *)
Lemma exit_orders_are_validated_witness :
  snd (_on_open_position Inputs.basic_long Inputs.long_with_exits) = Raise InvalidStrategy /\
  trace (fst (_on_open_position Inputs.basic_long Inputs.long_with_exits))
  = [EBroadcast route_open_position;
     EBroker (reduce_position_at 1 110 CLOSE_POSITION)]%float.
Proof.
  assert (Ha : routes_answer Inputs.basic_long route_open_position
                 (fst (emit (EBroadcast route_open_position) Inputs.long_with_exits))
               = Ok tt) by reflexivity.
  assert (Htp : snapshot_taken (take_profit Inputs.long_with_exits)
                               (_take_profit Inputs.long_with_exits))
    by (intros _; discriminate).
  assert (Hsl : snapshot_taken (stop_loss Inputs.long_with_exits)
                               (_stop_loss Inputs.long_with_exits))
    by (intros _; discriminate).
  destruct (proj1 (proj2 (proj2 (exit_orders_are_validated Inputs.basic_long
                                   Inputs.long_with_exits))) Ha Htp Hsl)
    as (w1 & Htrace & _ & Hbad & _).
  rewrite Hbad.
  - split; [reflexivity | exact Htrace].
  - left. exists (1, 95)%float. split; [right; left; reflexivity | reflexivity].
Defined.

(** C5 as it was claimed fails in two ways.  A long strategy from 100 whose
    [on_open_position] sets a stop at 105, above the entry price: the handler
    returns, and the reconciler it ends with has sent the stop to the broker
    unchecked.  And a long strategy from 100 with a take-profit row whose
    price is a NaN: the row is not strictly above the entry price, no test
    refuses it, and it goes to the broker; the handler returns. *)
Lemma unchecked_exits_reach_the_broker :
  (let run := _on_open_position MoreInputs.stop_set_on_open MoreInputs.opened in
   Position.type (position MoreInputs.opened) = long /\
   Position.entry_price (position MoreInputs.opened) = 100%float /\
   protects long 100%float 105%float = false /\
   snd run = Ok tt /\
   trace (fst run) = [EBroadcast route_open_position; ECall Hook.on_open_position;
                      EBroker (stop_loss_at 1 105 CLOSE_POSITION)]%float) /\
  (let run := _on_open_position Inputs.basic_long MoreInputs.with_a_NaN_take_profit in
   Position.type (position MoreInputs.with_a_NaN_take_profit) = long /\
   Position.entry_price (position MoreInputs.with_a_NaN_take_profit) = 100%float /\
   profits long 100%float nan = false /\
   snd run = Ok tt /\
   trace (fst run) = [EBroadcast route_open_position;
                      EBroker (reduce_position_at 1 nan CLOSE_POSITION);
                      ECall Hook.on_open_position; ECancelOrder 1]%float).
Proof. cbv zeta. repeat split; vm_compute; reflexivity. Qed.

(* ================================================================= *)
(** ** Numbers that compare as numbers do *)

Lemma SFcompare_swap (x y : spec_float) :
  SFcompare y x = option_map CompOpp (SFcompare x y).
Proof.
  destruct x as [sx|sx| |sx mx ex], y as [sy|sy| |sy my ey]; simpl;
    try reflexivity; try (destruct sx; reflexivity); try (destruct sy; reflexivity);
    try (destruct sx, sy; reflexivity).
  destruct sx, sy; simpl; try reflexivity;
    rewrite (Z.compare_antisym ex ey);
    destruct (ex ?= ey)%Z; simpl; try reflexivity;
    rewrite (Pos.compare_cont_antisym mx my Eq); simpl;
    destruct (Pos.compare_cont Eq my mx); reflexivity.
Qed.

Lemma SFcompare_None (x y : spec_float) :
  SFcompare x y = None -> SFcompare x x = None \/ SFcompare y y = None.
Proof.
  destruct x as [sx|sx| |sx mx ex], y as [sy|sy| |sy my ey]; simpl; auto;
    try discriminate; try (destruct sx; discriminate); try (destruct sy; discriminate).
Qed.

(** Two binary64 numbers of which neither is a NaN compare as numbers do. *)
Lemma binary64_compares (x y : float) :
  PrimFloat.is_nan x = false -> PrimFloat.is_nan y = false ->
  trichotomous x y = true /\ comparable x y = true.
Proof.
  unfold trichotomous, comparable, PrimFloat.is_nan. simpl.
  rewrite !negb_false_iff, !ltb_spec, !eqb_spec, !leb_spec.
  unfold SFltb, SFeqb, SFleb. intros Hx Hy.
  rewrite (SFcompare_swap (Prim2SF x) (Prim2SF y)).
  destruct (SFcompare (Prim2SF x) (Prim2SF y)) as [[]|] eqn:C; simpl; auto.
  apply SFcompare_None in C.
  destruct C as [C|C]; [rewrite C in Hx | rewrite C in Hy]; discriminate.
Qed.

Lemma SFcompare_self (x : spec_float) :
  SFcompare x x = Some Eq \/
  (forall y, SFcompare x y = None /\ SFcompare y x = None).
Proof.
  destruct x as [sx|sx| |sx mx ex]; simpl.
  - left. destruct sx; reflexivity.
  - left. destruct sx; reflexivity.
  - right. intro y. split; [reflexivity | destruct y as [sy|sy| |sy my ey]; reflexivity].
  - left. destruct sx; rewrite Z.compare_refl, Pos.compare_cont_refl; reflexivity.
Qed.

(** A NaN compares with nothing, a number with every number: two binary64
    numbers are unordered when one of them is a NaN, and compare as numbers
    do when neither is. *)
Lemma binary64_orders (x y : float) :
  trichotomous x y = negb (PrimFloat.is_nan x || PrimFloat.is_nan y) /\
  unordered x y = PrimFloat.is_nan x || PrimFloat.is_nan y.
Proof.
  destruct (PrimFloat.is_nan x) eqn:Hx; [|destruct (PrimFloat.is_nan y) eqn:Hy].
  - unfold PrimFloat.is_nan in Hx. rewrite negb_true_iff, eqb_spec in Hx.
    unfold SFeqb in Hx.
    destruct (SFcompare_self (Prim2SF x)) as [C|C]; [rewrite C in Hx; discriminate|].
    destruct (C (Prim2SF y)) as (C1 & C2).
    unfold trichotomous, unordered. simpl.
    rewrite !ltb_spec, !eqb_spec. unfold SFltb, SFeqb. rewrite C1, C2. split; reflexivity.
  - unfold PrimFloat.is_nan in Hy. rewrite negb_true_iff, eqb_spec in Hy.
    unfold SFeqb in Hy.
    destruct (SFcompare_self (Prim2SF y)) as [C|C]; [rewrite C in Hy; discriminate|].
    destruct (C (Prim2SF x)) as (C1 & C2).
    unfold trichotomous, unordered. simpl.
    rewrite !ltb_spec, !eqb_spec. unfold SFltb, SFeqb. rewrite C1, C2. split; reflexivity.
  - destruct (binary64_compares x y Hx Hy) as (Ht & _). split; [exact Ht|].
    unfold trichotomous, unordered in *. simpl in *.
    destruct (PrimFloat.ltb x y), (PrimFloat.eqb x y), (PrimFloat.ltb y x);
      try discriminate; reflexivity.
Qed.

(* ================================================================= *)
(** ** The entry orders of the pipelines *)

Section EntryOrders.

Context {R : Type} {N : Num R}.
Variable E : Env R.

Lemma price_placed c (w : World R) : price (placed E c w) = price w.
Proof. destruct w. reflexivity. Qed.

Lemma trace_placed c (w : World R) : trace (placed E c w) = trace w ++ [EBroker c].
Proof. destruct w. reflexivity. Qed.

Lemma basket_placed c (w : World R) :
  _open_position_orders (placed E c w) = _open_position_orders w ++ [broker E c w].
Proof. destruct w. reflexivity. Qed.

Lemma trace_placed_all cs (w : World R) :
  trace (placed_all E cs w) = trace w ++ map (@EBroker R) cs.
Proof.
  revert w. induction cs as [|c cs IH]; intro w; simpl.
  - now rewrite app_nil_r.
  - unfold placed_all in *. simpl. rewrite IH, trace_placed, <- app_assoc. reflexivity.
Qed.

Lemma basket_placed_all cs (w : World R) :
  _open_position_orders (placed_all E cs w) = _open_position_orders w ++ returned E cs w.
Proof.
  revert w. induction cs as [|c cs IH]; intro w; simpl.
  - now rewrite app_nil_r.
  - unfold placed_all in *. simpl. rewrite IH, basket_placed, <- app_assoc. reflexivity.
Qed.

Lemma returned_length cs (w : World R) : List.length (returned E cs w) = List.length cs.
Proof. revert w. induction cs; intro w; simpl; auto. Qed.

(** When its preparation returns and no filter rejects, a pipeline is the
    loop over the rows of its snapshot. *)
Lemma execute_long_is_loop w0 w rows :
  long_preparation E w0 = (w, Ok tt) ->
  existsb (fun f => equals_False (f w)) (filters E w) = false ->
  _buy w = Some rows ->
  _execute_long E w0 = for_each rows (submit_buy_row E) w.
Proof.
  intros Hprep Hfilters Hrows. unfold long_preparation in Hprep.
  destruct (bind_inv _ _ _ Hprep) as [(w1 & [] & H1 & Hprep1)|(e & _ & He)]; [|discriminate].
  destruct (bind_inv _ _ _ Hprep1) as [(w2 & [] & H2 & Hprep2)|(e & _ & He)]; [|discriminate].
  destruct (bind_inv _ _ _ Hprep2) as [(w3 & [] & H3 & H4)|(e & _ & He)]; [|discriminate].
  unfold _execute_long.
  rewrite (bind_ok _ _ _ H1), (bind_ok _ _ _ H2), (bind_ok _ _ _ H3), (bind_ok _ _ _ H4).
  unfold bind at 1, get at 1. rewrite Hfilters.
  unfold bind, lift, rows_of. now rewrite Hrows.
Qed.

Lemma execute_short_is_loop w0 w rows :
  short_preparation E w0 = (w, Ok tt) ->
  existsb (fun f => is_False (f w)) (filters E w) = false ->
  _sell w = Some rows ->
  _execute_short E w0 = for_each rows (submit_sell_row E) w.
Proof.
  intros Hprep Hfilters Hrows. unfold short_preparation in Hprep.
  destruct (bind_inv _ _ _ Hprep) as [(w1 & [] & H1 & Hprep1)|(e & _ & He)]; [|discriminate].
  destruct (bind_inv _ _ _ Hprep1) as [(w2 & [] & H2 & Hprep2)|(e & _ & He)]; [|discriminate].
  destruct (bind_inv _ _ _ Hprep2) as [(w3 & [] & H3 & H4)|(e & _ & He)]; [|discriminate].
  unfold _execute_short.
  rewrite (bind_ok _ _ _ H1), (bind_ok _ _ _ H2), (bind_ok _ _ _ H3), (bind_ok _ _ _ H4).
  unfold bind at 1, get at 1. rewrite Hfilters.
  unfold bind, lift, rows_of. now rewrite Hrows.
Qed.

(** One turn of a loop, on a row whose price compares with the mark or is
    unordered with it. *)
Lemma submit_buy_row_any o w :
  trichotomous (snd o) (price w) = true \/ unordered (snd o) (price w) = true ->
  submit_buy_row E o w = (placed_all E (entry_calls BUY (price w) [o]) w, Ok tt).
Proof.
  unfold trichotomous, unordered, entry_calls, entry_per_spec, submit_buy_row, bind, get,
    place, append_open_position_order, modify, placed_all, placed, ret.
  cbn [flat_map fst snd].
  destruct (num_ltb (snd o) (price w)), (num_eqb (snd o) (price w)),
    (num_ltb (price w) (snd o)); cbn; intros [H|H]; try discriminate; reflexivity.
Qed.

Lemma submit_sell_row_any o w :
  trichotomous (snd o) (price w) = true \/ unordered (snd o) (price w) = true ->
  submit_sell_row E o w = (placed_all E (entry_calls SELL (price w) [o]) w, Ok tt).
Proof.
  unfold trichotomous, unordered, entry_calls, entry_per_spec, submit_sell_row, bind, get,
    place, append_open_position_order, modify, placed_all, placed, ret.
  cbn [flat_map fst snd].
  destruct (num_ltb (snd o) (price w)), (num_eqb (snd o) (price w)),
    (num_ltb (price w) (snd o)); cbn; intros [H|H]; try discriminate; reflexivity.
Qed.

Lemma price_placed_all cs (w : World R) : price (placed_all E cs w) = price w.
Proof.
  revert w. induction cs as [|c cs IH]; intro w; [reflexivity|].
  unfold placed_all in *. simpl. now rewrite IH, price_placed.
Qed.

Lemma placed_all_app cs cs' (w : World R) :
  placed_all E (cs ++ cs') w = placed_all E cs' (placed_all E cs w).
Proof. unfold placed_all. apply fold_left_app. Qed.

Lemma entry_calls_cons (d : Side) (m : R) o (rows : Table R) :
  entry_calls d m (o :: rows) = entry_calls d m [o] ++ entry_calls d m rows.
Proof. unfold entry_calls. cbn [flat_map]. now rewrite app_nil_r. Qed.

(** A loop of such turns makes the calls of the rows, in their order. *)
Lemma entry_loop_any (d : Side) (body : R * R -> M R unit) :
  (forall o w, trichotomous (snd o) (price w) = true \/ unordered (snd o) (price w) = true ->
     body o w = (placed_all E (entry_calls d (price w) [o]) w, Ok tt)) ->
  forall rows w,
  (forall o, In o rows ->
     trichotomous (snd o) (price w) = true \/ unordered (snd o) (price w) = true) ->
  for_each rows body w = (placed_all E (entry_calls d (price w) rows) w, Ok tt).
Proof.
  intros Hbody. induction rows as [|o rows IH]; intros w Hrows; [reflexivity|].
  cbn [for_each]. unfold bind. rewrite (Hbody o w (Hrows o (or_introl eq_refl))).
  rewrite IH.
  - now rewrite price_placed_all, (entry_calls_cons d (price w) o rows), placed_all_app.
  - intros o' Ho'. rewrite price_placed_all. auto using in_cons.
Qed.

(** One call for a row that compares with the mark, none for one that is
    unordered with it. *)
Lemma entry_calls_length (d : Side) (m : R) (rows : Table R) :
  (forall o, In o rows -> trichotomous (snd o) m = negb (unordered (snd o) m)) ->
  List.length (entry_calls d m rows)
  = List.length (filter (fun o => negb (unordered (snd o) m)) rows).
Proof.
  induction rows as [|o rows IH]; intros Hrows; [reflexivity|].
  change (entry_calls d m (o :: rows))
    with ((match entry_per_spec d m o with Some c => [c] | None => [] end)
          ++ entry_calls d m rows).
  rewrite length_app, IH by auto using in_cons.
  specialize (Hrows o (or_introl eq_refl)).
  cbn [filter]. revert Hrows.
  unfold trichotomous, unordered, entry_per_spec. cbn [fst snd].
  destruct d, (num_ltb (snd o) m), (num_eqb (snd o) m), (num_ltb m (snd o));
    cbn; intros H; try discriminate; reflexivity.
Qed.

End EntryOrders.

(** In binary64 every price compares with the mark or is unordered with it,
    and the rows that have a call are those whose price and mark are
    numbers. *)
Lemma binary64_any (x y : float) :
  trichotomous x y = true \/ unordered x y = true.
Proof.
  destruct (binary64_orders x y) as (H1 & H2). rewrite H1, H2.
  destruct (PrimFloat.is_nan x || PrimFloat.is_nan y); auto.
Qed.

Lemma binary64_entry_calls_length (d : Side) (m : float) (rows : Table float) :
  List.length (entry_calls d m rows)
  = List.length (filter (fun o : float * float =>
                   negb (PrimFloat.is_nan (snd o) || PrimFloat.is_nan m)) rows).
Proof.
  rewrite entry_calls_length.
  - f_equal. apply filter_ext. intro o. now rewrite (proj2 (binary64_orders (snd o) m)).
  - intros o _. destruct (binary64_orders (snd o) m) as (H1 & H2). now rewrite H1, H2.
Qed.

(** C6, amended.  Let the pipelines reach their loop in the world [w], with
    the mark at [m] and a normalized entry table [rows].  The call for a row
    (q, p) is the one of section 4.3 of the spec: MARKET when p equals m; for
    a BUY entry a STOP entry when p > m and a LIMIT buy when p < m; for a SELL
    entry a STOP entry when p < m and a LIMIT sell when p > m.  When p and m
    are numbers exactly one of the three cases holds; when one of them is a
    NaN none holds and the row has no call.  Each loop makes the calls of the
    rows, in the order of the rows, appends the order each call returns to
    the basket of entry orders, and returns: one call for each row whose
    price is a number (the mark being one), none for a row whose price is a
    NaN.  A pipeline whose preparation returns and whose filters do not
    reject is that loop. *)
Theorem entry_rows_are_placed (E : Env float) (w : World float) (rows : Table float) :
  let m := price w in
  let is_number := fun o : float * float =>
    negb (PrimFloat.is_nan (snd o) || PrimFloat.is_nan m) in
  (forall q p,
   (num_eqb p m = true ->
    entry_per_spec BUY m (q, p) = Some (buy_at_market q OPEN_POSITION) /\
    entry_per_spec SELL m (q, p) = Some (sell_at_market q OPEN_POSITION)) /\
   (num_ltb m p = true ->
    entry_per_spec BUY m (q, p) = Some (start_profit_at BUY q p OPEN_POSITION) /\
    entry_per_spec SELL m (q, p) = Some (sell_at q p OPEN_POSITION)) /\
   (num_ltb p m = true ->
    entry_per_spec BUY m (q, p) = Some (buy_at q p OPEN_POSITION) /\
    entry_per_spec SELL m (q, p) = Some (start_profit_at SELL q p OPEN_POSITION)) /\
   trichotomous p m = is_number (q, p) /\
   (is_number (q, p) = false ->
    entry_per_spec BUY m (q, p) = None /\ entry_per_spec SELL m (q, p) = None)) /\
  (let cs := entry_calls BUY m rows in
   for_each rows (submit_buy_row E) w = (placed_all E cs w, Ok tt) /\
   (forall w0, long_preparation E w0 = (w, Ok tt) ->
    existsb (fun f => equals_False (f w)) (filters E w) = false ->
    _buy w = Some rows ->
    _execute_long E w0 = (placed_all E cs w, Ok tt)) /\
   trace (placed_all E cs w) = trace w ++ map (@EBroker float) cs /\
   _open_position_orders (placed_all E cs w) = _open_position_orders w ++ returned E cs w /\
   List.length (returned E cs w) = List.length cs /\
   List.length cs = List.length (filter is_number rows)) /\
  (let cs := entry_calls SELL m rows in
   for_each rows (submit_sell_row E) w = (placed_all E cs w, Ok tt) /\
   (forall w0, short_preparation E w0 = (w, Ok tt) ->
    existsb (fun f => is_False (f w)) (filters E w) = false ->
    _sell w = Some rows ->
    _execute_short E w0 = (placed_all E cs w, Ok tt)) /\
   trace (placed_all E cs w) = trace w ++ map (@EBroker float) cs /\
   _open_position_orders (placed_all E cs w) = _open_position_orders w ++ returned E cs w /\
   List.length (returned E cs w) = List.length cs /\
   List.length cs = List.length (filter is_number rows)).
Proof.
  cbv zeta.
  assert (Hany : forall o : float * float,
            trichotomous (snd o) (price w) = true \/ unordered (snd o) (price w) = true)
    by (intro o; apply binary64_any).
  pose proof (fun d => binary64_entry_calls_length d (price w) rows) as Hlen.
  split; [|split].
  - intros q p. destruct (binary64_orders p (price w)) as (H1 & H2).
    cbn [snd]. split; [|split; [|split; [|split]]].
    + intros He. unfold entry_per_spec. cbn [fst snd]. now rewrite He.
    + intros Hl. unfold entry_per_spec. cbn [fst snd]. rewrite Hl.
      destruct (PrimFloat.is_nan p || PrimFloat.is_nan (price w));
        unfold trichotomous, unordered in *; simpl in *; rewrite Hl in *;
        destruct (PrimFloat.ltb p (price w)), (PrimFloat.eqb p (price w));
        try discriminate; auto.
    + intros Hl. unfold entry_per_spec. cbn [fst snd]. rewrite Hl.
      destruct (PrimFloat.is_nan p || PrimFloat.is_nan (price w));
        unfold trichotomous, unordered in *; simpl in *; rewrite Hl in *;
        destruct (PrimFloat.ltb (price w) p), (PrimFloat.eqb p (price w));
        try discriminate; auto.
    + exact H1.
    + intros Hn. apply negb_false_iff in Hn. rewrite Hn in H2.
      unfold unordered in H2. simpl in H2. unfold entry_per_spec. cbn [fst snd]. simpl.
      destruct (PrimFloat.ltb p (price w)), (PrimFloat.eqb p (price w)),
        (PrimFloat.ltb (price w) p); try discriminate; auto.
  - pose proof (entry_loop_any E BUY (submit_buy_row E) (submit_buy_row_any E) rows w
                  (fun o _ => Hany o)) as Hloop.
    split; [exact Hloop|]. split; [|split; [|split; [|split]]].
    + intros w0 Hprep Hf Hb. rewrite <- Hloop. now apply execute_long_is_loop.
    + apply trace_placed_all.
    + apply basket_placed_all.
    + apply returned_length.
    + apply Hlen.
  - pose proof (entry_loop_any E SELL (submit_sell_row E) (submit_sell_row_any E) rows w
                  (fun o _ => Hany o)) as Hloop.
    split; [exact Hloop|]. split; [|split; [|split; [|split]]].
    + intros w0 Hprep Hf Hb. rewrite <- Hloop. now apply execute_short_is_loop.
    + apply trace_placed_all.
    + apply basket_placed_all.
    + apply returned_length.
    + apply Hlen.
Qed.

(** The ladder strategy at the mark 100: a STOP entry for the row at 105, a
    LIMIT buy for the row at 95, a MARKET buy for the row at 100, and three
    orders in the basket. *)
Lemma entry_rows_are_placed_witness :
  let w0 := Demo.fresh Inputs.flat in
  let w := fst (long_preparation Inputs.ladder w0) in
  let cs := [start_profit_at BUY 1 105 OPEN_POSITION; buy_at 2 95 OPEN_POSITION;
             buy_at_market 3 OPEN_POSITION]%float in
  _execute_long Inputs.ladder w0 = (placed_all Inputs.ladder cs w, Ok tt) /\
  trace (placed_all Inputs.ladder cs w) = trace w ++ map (@EBroker float) cs /\
  List.length (_open_position_orders (placed_all Inputs.ladder cs w)) = 3%nat.
Proof.
  intros w0 w cs.
  destruct (entry_rows_are_placed Inputs.ladder w [(1, 105); (2, 95); (3, 100)]%float)
    as (_ & (_ & Hpipe & Htrace & Hbasket & Hlen & _) & _).
  change (entry_calls BUY (price w) [(1, 105); (2, 95); (3, 100)]%float) with cs in *.
  split; [|split].
  - exact (Hpipe w0 eq_refl eq_refl eq_refl).
  - exact Htrace.
  - rewrite Hbasket, length_app, Hlen. reflexivity.
Defined.

(** C6 as it was claimed fails on a row whose price is a NaN.  The entry of
    the strategy is the one row (1, NaN): the pipeline prepares it, finds
    that its price is neither above, nor below, nor equal to the mark, places
    no order for it, and returns; the basket of entry orders stays empty. *)
Lemma a_NaN_row_is_not_placed :
  let run := _execute_long Inputs.nan_entry (Demo.fresh Inputs.flat) in
  _buy (fst run) = Some [(1, nan)]%float /\
  snd run = Ok tt /\
  trace (fst run) = [ECall Hook.go_long] /\
  _open_position_orders (fst run) = [].
Proof. cbv zeta. repeat split; vm_compute; reflexivity. Qed.

(* ================================================================= *)
(** ** The prices of a completed trade *)

Section Recorder.

Context {R : Type} {N : Num R}.
Variable E : Env R.

Lemma sval_mk_scalar b (x : R) : sval (mk_scalar b x) = x.
Proof. destruct b; reflexivity. Qed.

Lemma sval_add_fill (acc : Sums) q p :
  sval (fst (add_fill acc q p)) = num_add (sval (fst acc)) (num_mul (num_abs (sval q)) (sval p)) /\
  sval (snd (add_fill acc q p)) = num_add (sval (snd acc)) (num_abs (sval q)).
Proof. unfold add_fill, sc_add, sc_mul, sc_abs. simpl. now rewrite !sval_mk_scalar. Qed.

(** The loop with its two [continue]s sums over the fills it keeps. *)
Lemma sums_over_fills (keep : Order.t R -> bool) (step : Sums -> Order.t R -> Sums) :
  (forall acc l, step acc l = if keep l then add_fill acc (Order.qty l) (Order.price l) else acc) ->
  forall orders acc,
  sval (fst (fold_left step orders acc))
  = fold_left (fun s o => num_add s (num_mul (num_abs (sval (Order.qty o))) (sval (Order.price o))))
              (filter keep orders) (sval (fst acc)) /\
  sval (snd (fold_left step orders acc))
  = fold_left (fun s o => num_add s (num_abs (sval (Order.qty o))))
              (filter keep orders) (sval (snd acc)).
Proof.
  intros Hstep. induction orders as [|l orders IH]; intro acc; simpl; [auto|].
  rewrite Hstep. destruct (keep l); simpl; [|apply IH].
  destruct (IH (add_fill acc (Order.qty l) (Order.price l))) as (H1 & H2).
  destruct (sval_add_fill acc (Order.qty l) (Order.price l)) as (G1 & G2).
  now rewrite H1, H2, G1, G2.
Qed.

Lemma entry_sums_are_sums ty orders :
  let fills := filter (fun o => Order.is_executed o
                                && TradeType_eqb (side_to_type (Order.side o)) ty) orders in
  sval (fst (entry_sums ty orders)) = cost fills /\
  sval (snd (entry_sums ty orders)) = volume fills.
Proof.
  apply (sums_over_fills
           (fun o => Order.is_executed o && TradeType_eqb (side_to_type (Order.side o)) ty)).
  intros acc l. destruct (Order.is_executed l), (TradeType_eqb _ ty); reflexivity.
Qed.

Lemma exit_sums_are_sums ty orders :
  let fills := filter (fun o => Order.is_executed o
                                && negb (TradeType_eqb (side_to_type (Order.side o)) ty)) orders in
  sval (fst (exit_sums ty orders)) = cost fills /\
  sval (snd (exit_sums ty orders)) = volume fills.
Proof.
  apply (sums_over_fills
           (fun o => Order.is_executed o
                     && negb (TradeType_eqb (side_to_type (Order.side o)) ty))).
  intros acc l. destruct (Order.is_executed l), (TradeType_eqb _ ty); reflexivity.
Qed.

Lemma sval_sc_div a b s : sc_div a b = Ok s -> sval s = num_div (sval a) (sval b).
Proof.
  unfold sc_div. destruct (is_np a || is_np b); [|destruct (num_eqb _ _)];
    intros H; inversion H; reflexivity.
Qed.

(** What the recorder writes into the trade it completes. *)
Lemma completed_trade order w t :
  completes E order w t ->
  exists t0 entry exit,
    trade w = Some t0 /\
    CompletedTrade.orders t = CompletedTrade.orders t0 ++ [order] /\
    CompletedTrade.type t = CompletedTrade.type t0 /\
    CompletedTrade.entry_price t = Some entry /\
    CompletedTrade.exit_price t = Some exit /\
    sc_div (fst (entry_sums (CompletedTrade.type t) (CompletedTrade.orders t)))
           (snd (entry_sums (CompletedTrade.type t) (CompletedTrade.orders t))) = Ok entry /\
    sc_div (fst (exit_sums (CompletedTrade.type t) (CompletedTrade.orders t)))
           (snd (exit_sums (CompletedTrade.type t) (CompletedTrade.orders t))) = Ok exit.
Proof.
  intros (w' & Hrun & Hct).
  destruct w. destruct trade0 as [t0|]; [destruct t0|].
  - unfold _log_position_update, update_trade, with_trade, bind, get, modify, lift,
      raise in Hrun.
    cbn [trade set_trade CompletedTrade.set_exit_candle_timestamp CompletedTrade.set_orders
         CompletedTrade.orders _log_stop_loss _log_take_profit
         CompletedTrade.set_stop_loss_at CompletedTrade.set_take_profit_at
         CompletedTrade.type CompletedTrade.set_entry_price CompletedTrade.set_exit_price
         CompletedTrade.set_closed_at CompletedTrade.set_qty set_completed_trades
         set_trades_count completed_trades] in Hrun.
    destruct (average_of_log _log_stop_loss0) as [sl|]; [|discriminate].
    destruct (average_of_log _log_take_profit0) as [tp|]; [|discriminate].
    destruct (sc_div (fst (entry_sums type (orders ++ [order]))) _) as [entry|] eqn:Hentry;
      [|discriminate].
    destruct (sc_div (fst (exit_sums type (orders ++ [order]))) _) as [exit|] eqn:Hexit;
      [|discriminate].
    inversion Hrun; subst w'. cbn [completed_trades] in Hct.
    apply app_inv_head in Hct. injection Hct as <-.
    eexists _, entry, exit. cbn. repeat split; auto.
  - unfold _log_position_update, update_trade, with_trade, bind, get, raise in Hrun.
    discriminate.
Qed.

(** In any arithmetic the recorded prices are the weighted averages. *)
Lemma completed_trade_records_vwap order w t : completes E order w t -> records_vwap t.
Proof.
  intros H. apply completed_trade in H.
  destruct H as (t0 & entry & exit & _ & _ & _ & He & Hx & Hde & Hdx).
  apply sval_sc_div in Hde, Hdx.
  destruct (entry_sums_are_sums (CompletedTrade.type t) (CompletedTrade.orders t)) as (E1 & E2).
  destruct (exit_sums_are_sums (CompletedTrade.type t) (CompletedTrade.orders t)) as (X1 & X2).
  split; [exists entry | exists exit]; split; auto; unfold vwap, entry_fills, exit_fills;
    congruence.
Qed.

End Recorder.

(** *** Exact arithmetic *)

Section ExactAverages.

Local Open Scope Q_scope.

(** A list of rationals that is not empty has a least and a greatest
    element. *)
Lemma least_and_greatest (l : list Q) :
  l <> [] ->
  exists lo hi, In lo l /\ In hi l /\ forall p, In p l -> lo <= p /\ p <= hi.
Proof.
  induction l as [|x l IH]; [congruence|]. intros _.
  destruct l as [|y l].
  - exists x, x. simpl. repeat split; auto; destruct H as [<-|[]]; apply Qle_refl.
  - destruct IH as (lo & hi & Hlo & Hhi & Hall); [discriminate|].
    assert (Hlo' : exists lo', In lo' (x :: y :: l) /\ lo' <= x /\ lo' <= lo).
    { destruct (Qlt_le_dec x lo) as [H|H].
      - exists x. repeat split; [now left | apply Qle_refl | now apply Qlt_le_weak].
      - exists lo. repeat split; [now right | exact H | apply Qle_refl]. }
    assert (Hhi' : exists hi', In hi' (x :: y :: l) /\ x <= hi' /\ hi <= hi').
    { destruct (Qlt_le_dec hi x) as [H|H].
      - exists x. repeat split; [now left | apply Qle_refl | now apply Qlt_le_weak].
      - exists hi. repeat split; [now right | exact H | apply Qle_refl]. }
    destruct Hlo' as (lo' & Hlo1 & Hlo2 & Hlo3), Hhi' as (hi' & Hhi1 & Hhi2 & Hhi3).
    exists lo', hi'. repeat split; auto.
    + destruct H as [<-|H]; [exact Hlo2|].
      eapply Qle_trans; [exact Hlo3 | apply Hall, H].
    + destruct H as [<-|H]; [exact Hhi2|].
      eapply Qle_trans; [apply Hall, H | exact Hhi3].
Qed.

(** Sums of weights and of weighted prices, with the prices between [lo] and
    [hi]. *)
Lemma weighted_sums_bounds (lo hi : Q) (fills : list (Order.t Q)) :
  (forall o, In o fills -> lo <= sval (Order.price o) /\ sval (Order.price o) <= hi) ->
  forall c v, lo * v <= c -> c <= hi * v ->
  let c' := fold_left (fun s o => s + Qabs (sval (Order.qty o)) * sval (Order.price o)) fills c in
  let v' := fold_left (fun s o => s + Qabs (sval (Order.qty o))) fills v in
  lo * v' <= c' /\ c' <= hi * v' /\ v <= v'.
Proof.
  induction fills as [|o fills IH]; intros Hp c v H1 H2; simpl.
  - repeat split; auto. apply Qle_refl.
  - destruct (Hp o (or_introl eq_refl)) as (Hlo & Hhi).
    pose proof (Qabs_nonneg (sval (Order.qty o))) as Hw.
    destruct (IH (fun o' Ho' => Hp o' (or_intror Ho'))
                 (c + Qabs (sval (Order.qty o)) * sval (Order.price o))
                 (v + Qabs (sval (Order.qty o)))) as (G1 & G2 & G3).
    + rewrite Qmult_plus_distr_r. apply Qplus_le_compat; [exact H1|].
      rewrite (Qmult_comm (Qabs _) (sval (Order.price o))).
      now apply Qmult_le_compat_r.
    + rewrite Qmult_plus_distr_r. apply Qplus_le_compat; [exact H2|].
      rewrite (Qmult_comm (Qabs _) (sval (Order.price o))).
      now apply Qmult_le_compat_r.
    + repeat split; auto. eapply Qle_trans; [|exact G3].
      rewrite <- (Qplus_0_r v) at 1. apply Qplus_le_compat; [apply Qle_refl | exact Hw].
Qed.

(** The weighted average of fills with a volume that is not zero lies between
    two of their prices. *)
Lemma vwap_between (fills : list (Order.t Q)) :
  ~ volume fills == 0 -> between (vwap fills) (fill_prices fills).
Proof.
  intros Hv.
  assert (Hne : fill_prices fills <> []).
  { destruct fills; [|discriminate]. exfalso. apply Hv. reflexivity. }
  destruct (least_and_greatest Hne) as (lo & hi & Hlo & Hhi & Hall).
  exists lo, hi. split; [exact Hlo|]. split; [exact Hhi|].
  destruct (@weighted_sums_bounds lo hi fills) with (c := 0) (v := 0) as (G1 & G2 & G3).
  - intros o Ho. apply Hall. unfold fill_prices.
    exact (in_map (fun o => sval (Order.price o)) fills o Ho).
  - rewrite Qmult_0_r. apply Qle_refl.
  - rewrite Qmult_0_r. apply Qle_refl.
  - assert (G1' : lo * volume fills <= cost fills) by exact G1.
    assert (G2' : cost fills <= hi * volume fills) by exact G2.
    assert (G3' : 0 <= volume fills) by exact G3.
    clear G1 G2 G3. rename G1' into G1, G2' into G2, G3' into G3.
    assert (Hpos : 0 < volume fills).
    { apply Qle_lteq in G3. destruct G3 as [G3|G3]; [exact G3|]. now symmetry in G3. }
    unfold vwap. cbn [num_leb num_div exact]. rewrite !Qle_bool_iff. split.
    + now apply Qle_shift_div_l.
    + apply Qle_shift_div_r; [exact Hpos | exact G2].
Qed.

End ExactAverages.

(** C8, as stated, fails in the arithmetic of the program.  A long trade
    with one entry fill of 3 units at 0.1 and one exit fill of 3 units at 0.2:
    the recorder completes it, and the entry price it records is
    (3 * 0.1) / 3 in binary64, which is 0.10000000000000002, strictly above
    0.1, the only entry fill price. *)
Lemma vwap_closure_fails_in_binary64 :
  (exists t,
     completes Inputs.basic_long Inputs.sold Inputs.before_close t /\
     entry_fills t = [Inputs.bought] /\
     fill_prices (entry_fills t) = [Inputs.tenth] /\
     CompletedTrade.entry_price t = Some (PyFloat Inputs.above_tenth) /\
     PrimFloat.ltb Inputs.tenth Inputs.above_tenth = true /\
     PrimFloat.leb Inputs.above_tenth Inputs.tenth = false) /\
  ~ VWAP_closure binary64.
Proof.
  set (run := _log_position_update Inputs.basic_long Inputs.sold (Some CLOSE_POSITION)
                Inputs.before_close).
  destruct (completed_trades (fst run)) as [|t [|]] eqn:Ht;
    try (vm_compute in Ht; discriminate).
  assert (Hc : completes Inputs.basic_long Inputs.sold Inputs.before_close t).
  { assert (Hok : snd run = Ok tt) by (vm_compute; reflexivity).
    exists (fst run). split; [|rewrite Ht; reflexivity].
    transitivity (fst run, snd run); [apply surjective_pairing | now rewrite Hok]. }
  vm_compute in Ht. injection Ht as <-.
  split.
  - eexists. split; [exact Hc|]. vm_compute. repeat split.
  - intros H.
    destruct (H _ _ _ _ Hc) as (_ & (s & Hs & lo & hi & _ & Hhi & _ & Hle) & _);
      try (vm_compute; discriminate).
    injection Hs as <-.
    vm_compute in Hhi. destruct Hhi as [<-|[]].
    vm_compute in Hle. discriminate.
Qed.

(** C8, amended.  In any arithmetic, and so in binary64, the entry price of
    a completed trade is the quotient of the sum of |qty| * price by the sum
    of |qty| over its executed orders on the side of the trade, and the exit
    price the same quotient over its executed orders on the opposite side,
    each sum taken from zero in the order of the orders.  In exact arithmetic,
    when the executed quantity on a side is not zero, that price lies between
    the least and the greatest fill price of the side. *)
Theorem vwap_of_completed_trade :
  (forall R (N : Num R) (E : Env R) order w t,
   completes E order w t -> records_vwap t) /\
  (forall (E : Env Q) order w t,
   completes E order w t ->
   ~ (volume (entry_fills t) == 0)%Q -> ~ (volume (exit_fills t) == 0)%Q ->
   within_fills t).
Proof.
  split.
  - intros R N E order w t. apply completed_trade_records_vwap.
  - intros E order w t Hc Hentry Hexit.
    destruct (completed_trade_records_vwap Hc) as ((s1 & Hs1 & Hv1) & (s2 & Hs2 & Hv2)).
    split; [exists s1 | exists s2]; split; auto.
    + rewrite Hv1. now apply vwap_between.
    + rewrite Hv2. now apply vwap_between.
Qed.

(** The trade of 3 units bought at 0.1 and sold at 0.2: in binary64 the
    recorder writes the quotients of the sums; in exact arithmetic, at 1/10
    and 1/5, the prices it writes lie between the fill prices. *)
Lemma vwap_of_completed_trade_witness :
  (exists t, completes Inputs.basic_long Inputs.sold Inputs.before_close t /\
             records_vwap t) /\
  (exists t, completes ExactInputs.nothing ExactInputs.sold ExactInputs.before_close t /\
             within_fills t).
Proof.
  split.
  - set (run := _log_position_update Inputs.basic_long Inputs.sold (Some CLOSE_POSITION)
                  Inputs.before_close).
    destruct (completed_trades (fst run)) as [|t [|]] eqn:Ht;
      try (vm_compute in Ht; discriminate).
    assert (Hc : completes Inputs.basic_long Inputs.sold Inputs.before_close t).
    { assert (Hok : snd run = Ok tt) by (vm_compute; reflexivity).
      exists (fst run). split; [|rewrite Ht; reflexivity].
      transitivity (fst run, snd run); [apply surjective_pairing | now rewrite Hok]. }
    exists t. split; [exact Hc|].
    exact (proj1 vwap_of_completed_trade _ _ _ _ _ _ Hc).
  - set (run := _log_position_update ExactInputs.nothing ExactInputs.sold
                  (Some CLOSE_POSITION) ExactInputs.before_close).
    destruct (completed_trades (fst run)) as [|t [|]] eqn:Ht;
      try (vm_compute in Ht; discriminate).
    assert (Hc : completes ExactInputs.nothing ExactInputs.sold ExactInputs.before_close t).
    { assert (Hok : snd run = Ok tt) by (vm_compute; reflexivity).
      exists (fst run). split; [|rewrite Ht; reflexivity].
      transitivity (fst run, snd run); [apply surjective_pairing | now rewrite Hok]. }
    exists t. split; [exact Hc|].
    vm_compute in Ht. injection Ht as <-.
    apply (proj2 vwap_of_completed_trade _ _ _ _ Hc); vm_compute; discriminate.
Defined.

(* ================================================================= *)
(** * Further properties of the class *)

(** ** A tick that raises, a tick on a test drive, the wait for a cancellation *)

Section Ticks.

Context {R : Type} {N : Num R}.
Variable E : Env R.

(** X1.  [_execute] has no [finally]: when a tick raises, the guard
    [_is_executing] stays set and [index] is not advanced, and from then on
    every call of [_execute] returns at once without running anything. *)
Theorem a_tick_that_raises_blocks_the_next (w w' : World R) (e : Exn) :
  _is_executing w = false ->
  _execute E w = (w', Raise e) ->
  _is_executing w' = true /\ index w' = index w /\ _execute E w' = (w', Ok tt).
Proof.
  intros H Hrun. unfold _execute in Hrun.
  unfold bind at 1 in Hrun. unfold get at 1 in Hrun. rewrite H in Hrun.
  unfold bind at 1 in Hrun. unfold modify at 1 in Hrun.
  destruct (bind_inv _ _ _ Hrun) as [(w2 & [] & Hprep & Hrun2)|(e' & Hprep & _)].
  - destruct (bind_inv _ _ _ Hrun2) as [(w3 & [] & _ & Hrun3)|(e' & Hchk & _)].
    + unfold bind, modify in Hrun3. discriminate.
    + apply (stays_call (R:=R)) in Hprep. apply stays__check in Hchk.
      destruct Hprep as (I2 & X2 & _), Hchk as (I3 & X3 & _).
      assert (Hguard : _is_executing w' = true).
      { rewrite X3, X2. destruct w. reflexivity. }
      repeat split; [exact Hguard | |].
      * rewrite I3, I2. destruct w. reflexivity.
      * unfold _execute, bind, get. now rewrite Hguard.
  - unfold call, emit, bind, modify in Hprep. discriminate.
Qed.

(** On a test drive that is over, [_check] does no more than note that the
    strategy has run. *)
Lemma check_on_a_capped_test_drive (v : World R) :
  test_drive_is_over E v = true -> _check E v = (set__is_initiated true v, Ok tt).
Proof.
  intros H. unfold _check, mark_initiated, bind, get, when, modify, ret.
  destruct (_is_initiated v) eqn:Hi; cbn [negb].
  - rewrite H. f_equal. destruct v. cbn in Hi. now subst.
  - assert (H' : test_drive_is_over E (set__is_initiated true v) = true)
      by (destruct v; exact H).
    now rewrite H'.
Qed.

(** X2.  On a test drive that has completed two trades, a tick stops after
    [prepare]: the only call it makes is that override; it asks nothing of
    the broker, cancels nothing, and neither the position nor the baskets
    nor the stores change.  The tick itself completes. *)
Theorem test_drive_cap_ends_the_tick (w : World R) :
  is_test_driving E = true ->
  _is_executing w = false ->
  (2 <= List.length (completed_trades w))%nat ->
  exists w',
    _execute E w = (w', Ok tt) /\
    trace w' = trace w ++ [ECall Hook.prepare] /\
    index w' = index w + 1 /\ _is_executing w' = false /\ _is_initiated w' = true /\
    position w' = position w /\
    _open_position_orders w' = _open_position_orders w /\
    _take_profit_orders w' = _take_profit_orders w /\
    _stop_loss_orders w' = _stop_loss_orders w /\
    trade w' = trade w /\ completed_trades w' = completed_trades w.
Proof.
  intros Htd Hx Hn.
  destruct (call Hook.prepare (prepare E) (set__is_executing true w)) as [w2 r2] eqn:Hprep.
  assert (Hover : test_drive_is_over E w2 = true).
  { unfold call, emit, bind, modify in Hprep. injection Hprep as <- _.
    unfold test_drive_is_over. rewrite Htd. destruct w. cbn in *.
    apply Z.leb_le. lia. }
  assert (Hr2 : r2 = Ok tt).
  { unfold call, emit, bind, modify in Hprep. now injection Hprep as _ <-. }
  subst r2.
  exists (set_index (index w2 + 1) (set__is_executing false (set__is_initiated true w2))).
  split.
  - unfold _execute. unfold bind at 1, get at 1. rewrite Hx.
    unfold bind at 1, modify at 1. rewrite (bind_ok _ _ _ Hprep).
    rewrite (bind_ok _ _ _ (check_on_a_capped_test_drive _ Hover)).
    unfold bind, modify. destruct w2. reflexivity.
  - unfold call, emit, bind, modify in Hprep. injection Hprep as <-.
    destruct w. cbn. repeat split.
Qed.

(** X3.  The wait for a cancellation (lines 598-603) always ends: with [n]
    polls allowed it sleeps [k <= n] times and does nothing else, and when
    it stops before the polls run out, the store counts no active order. *)
Theorem wait_for_cancellation_is_bounded (n : nat) (w : World R) :
  exists k,
    (k <= n)%nat /\
    wait_for_cancellation E n w = (set_trace (trace w ++ repeat ESleep k) w, Ok tt) /\
    ((k < n)%nat ->
     count_active_orders E (set_trace (trace w ++ repeat ESleep k) w) = O).
Proof.
  revert w. induction n as [|n IH]; intro w.
  - exists O. split; [lia | split; [|lia]]. destruct w. cbn. now rewrite app_nil_r.
  - cbn [wait_for_cancellation]. unfold bind at 1, get at 1.
    destruct (Nat.eqb_spec (count_active_orders E w) 0) as [Hz|Hz].
    + exists O. assert (Hw : set_trace (trace w ++ repeat ESleep 0) w = w)
        by (destruct w; cbn; now rewrite app_nil_r).
      rewrite Hw. split; [lia | split; [reflexivity | auto]].
    + destruct (IH (set_trace (trace w ++ [ESleep]) w)) as (k & Hk & Hrun & Hstop).
      assert (Hw : set_trace (trace (set_trace (trace w ++ [ESleep]) w) ++ repeat ESleep k)
                     (set_trace (trace w ++ [ESleep]) w)
                   = set_trace (trace w ++ repeat ESleep (S k)) w)
        by (destruct w; cbn; now rewrite <- app_assoc).
      rewrite Hw in Hrun, Hstop.
      exists (S k). split; [lia | split; [| intro; apply Hstop; lia]].
      unfold bind, emit, modify. exact Hrun.
Qed.

End Ticks.

(** The demo strategy whose two predicates both hold raises on its first
    tick; the guard is then set and the next tick does nothing. *)
Lemma a_tick_that_raises_blocks_the_next_witness :
  let w' := fst (_execute Inputs.conflicting (Demo.fresh Inputs.flat)) in
  _is_executing w' = true /\ index w' = 0 /\ _execute Inputs.conflicting w' = (w', Ok tt).
Proof.
  intro w'.
  apply (@a_tick_that_raises_blocks_the_next _ _ Inputs.conflicting
           (Demo.fresh Inputs.flat) _ ConflictingRules eq_refl).
  vm_compute. reflexivity.
Defined.

(** The demo strategy on a test drive, after two trades. *)
Lemma test_drive_cap_ends_the_tick_witness :
  exists w',
    _execute (MoreInputs.test_drive Inputs.basic_long) MoreInputs.after_two_trades
    = (w', Ok tt) /\
    trace w' = [ECall Hook.prepare].
Proof.
  destruct (test_drive_cap_ends_the_tick (MoreInputs.test_drive Inputs.basic_long)
              MoreInputs.after_two_trades eq_refl eq_refl)
    as (w' & Hrun & Htrace & _).
  - vm_compute. lia.
  - exists w'. split; [exact Hrun | exact Htrace].
Defined.

(* ================================================================= *)
(** ** What a method leaves alone, and what it never raises *)

Lemma kept_refl R A (f : World R -> A) (w : World R) : kept f w w.
Proof. reflexivity. Qed.

Lemma kept_trans R A (f : World R -> A) (a b c : World R) :
  kept f a b -> kept f b c -> kept f a c.
Proof. unfold kept. congruence. Qed.

#[local] Hint Resolve kept_refl kept_trans : core.

Lemma kept_place R (E : Env R) c A (f : World R -> A) :
  (forall w t, f (set_trace t w) = f w) -> along (kept f) (place E c).
Proof. intros Hf w w' r H. inversion H. apply Hf. Qed.

Ltac kept_side :=
  match goal with w : World _ |- _ => destruct w end;
  unfold kept; cbn;
  repeat match goal with |- context [match ?x with _ => _ end] => destruct x end;
  reflexivity.

(** [kept_in f H]: the run [H] kept [f]. *)
Ltac kept_in_with tac f H :=
  match type of H with
  | ?m ?w = (?w', ?r) =>
      let K := fresh "K" in
      assert (K : kept f w w') by (refine ((_ : along (kept f) m) w w' r H); tac);
      unfold kept in K
  end.

(** The methods under the reconciler and under the handlers, opened. *)
Ltac open_methods :=
  unfold _detect_and_handle_entry_and_exit_modifications, reconcile_buy, reconcile_sell,
    reconcile_take_profit, reconcile_stop_loss, stop_loss_is_not_take_profit,
    submit_buy_row, submit_sell_row, resubmit_sell_row, resubmit_take_profit_row,
    resubmit_stop_loss_row, cancel_live_orders, append_open_position_order,
    append_take_profit_order, append_stop_loss_order, append_log_take_profit,
    append_log_stop_loss, _prepare_buy, _prepare_sell, _prepare_take_profit,
    _prepare_stop_loss, _validate_take_profit, _validate_stop_loss, validate_buy,
    validate_sell, prepare_exits, _update_position, _execute_cancel, _reset,
    submit_exit_orders, open_take_profit_row, open_stop_loss_row, _on_open_position,
    _on_stop_loss, _on_take_profit, _on_increased_position, _on_reduced_position,
    _broadcast, call, emit.

Ltac kept_tac :=
  repeat first
    [ solve [eauto with frames]
    | apply kept_place; intros; kept_side
    | along_step kept_side
    | progress open_methods ].

Ltac kept_in f H := kept_in_with kept_tac f H.

Section Frames.

Context {R : Type} {N : Num R}.
Variable E : Env R.

Lemma reconciler_keeps_position :
  along (kept (@position R)) (_detect_and_handle_entry_and_exit_modifications E).
Proof. kept_tac. Qed.

Lemma reconciler_keeps_initial_qty :
  along (kept (@_initial_qty R)) (_detect_and_handle_entry_and_exit_modifications E).
Proof. kept_tac. Qed.

Lemma reconciler_keeps_trade :
  along (kept (@trade R)) (_detect_and_handle_entry_and_exit_modifications E).
Proof. kept_tac. Qed.

Lemma reconciler_keeps_trades_count :
  along (kept (@trades_count R)) (_detect_and_handle_entry_and_exit_modifications E).
Proof. kept_tac. Qed.

Lemma reconciler_keeps_completed_trades :
  along (kept (@completed_trades R)) (_detect_and_handle_entry_and_exit_modifications E).
Proof. kept_tac. Qed.

(** X4.  The reconciler speaks to the broker and rewrites intents,
    snapshots, logs and baskets, and nothing else: whether it returns or
    raises, the position, the initial quantity, the open trade, the count of
    trades and the store of completed trades are as they were. *)
Theorem the_reconciler_keeps_the_books (w w' : World R) (r : Res unit) :
  _detect_and_handle_entry_and_exit_modifications E w = (w', r) ->
  position w' = position w /\ _initial_qty w' = _initial_qty w /\
  trade w' = trade w /\ trades_count w' = trades_count w /\
  completed_trades w' = completed_trades w.
Proof.
  intros H. repeat split.
  - exact (reconciler_keeps_position _ H).
  - exact (reconciler_keeps_initial_qty _ H).
  - exact (reconciler_keeps_trade _ H).
  - exact (reconciler_keeps_trades_count _ H).
  - exact (reconciler_keeps_completed_trades _ H).
Qed.

Lemma exit_orders_keep_position : along (kept (@position R)) (submit_exit_orders E).
Proof. kept_tac. Qed.

Lemma open_handler_keeps_position : along (kept (@position R)) (_on_open_position E).
Proof. kept_tac. Qed.

(** X5.  When the open-position handler returns, the initial quantity is
    the quantity of the position, which the handler has not changed; so,
    for a quantity that is not below itself, the position reads as neither
    reduced nor increased. *)
Theorem an_opened_position_is_neither_reduced_nor_increased (w w' : World R) :
  Position.is_open (position w) = true ->
  num_ltb (Position.qty (position w)) (Position.qty (position w)) = false ->
  _on_open_position E w = (w', Ok tt) ->
  position w' = position w /\
  _initial_qty w' = Some (Position.qty (position w)) /\
  is_reduced w' = Ok (Some false) /\ is_increased w' = Ok (Some false).
Proof.
  intros Hopen Hirr Hrun.
  assert (Hpos : position w' = position w)
    by exact (open_handler_keeps_position _ Hrun).
  assert (Hq : _initial_qty w' = Some (Position.qty (position w))).
  { unfold _on_open_position in Hrun.
    destruct (bind_inv _ _ _ Hrun) as [(w1 & [] & Hb & Hrun1)|(e & _ & He)];
      [|discriminate].
    apply broadcast_inv in Hb. destruct Hb as (-> & _).
    destruct (bind_inv _ _ _ Hrun1) as [(w2 & [] & Hexits & Hrun2)|(e & _ & He)];
      [|discriminate].
    pose proof (exit_orders_keep_position _ Hexits) as P2.
    unfold bind at 1, modify at 1 in Hrun2. unfold bind at 1, modify at 1 in Hrun2.
    destruct (bind_inv _ _ _ Hrun2) as [(w5 & [] & Hcall & Hrec)|(e & _ & He)];
      [|discriminate].
    apply reconciler_keeps_initial_qty in Hrec. unfold kept in Hrec. rewrite Hrec.
    unfold call, emit, bind, modify in Hcall. injection Hcall as <-.
    unfold kept in P2. destruct w2, w. cbn in *. now rewrite P2. }
  repeat split; auto.
  - unfold is_reduced. rewrite Hq, Hpos.
    unfold Position.is_open, Position.is_close in *.
    destruct (Position.type (position w)); try discriminate; now rewrite Hirr.
  - unfold is_increased. rewrite Hq, Hpos.
    unfold Position.is_open, Position.is_close in *.
    destruct (Position.type (position w)); try discriminate; now rewrite Hirr.
Qed.

End Frames.

(** The short position whose entry the user has rewritten: the reconciler
    places three orders and leaves the position and the trade alone. *)
Lemma the_reconciler_keeps_the_books_witness :
  let w' := fst (_detect_and_handle_entry_and_exit_modifications Inputs.basic_short
                   Inputs.short_mutated) in
  position w' = Inputs.one_short /\ trade w' = None.
Proof.
  intro w'.
  destruct (@the_reconciler_keeps_the_books _ _ Inputs.basic_short Inputs.short_mutated
              _ _ (surjective_pairing _)) as (H1 & _ & H3 & _).
  split; [exact H1 | exact H3].
Defined.

(** The demo strategy, one unit long. *)
Lemma an_opened_position_is_neither_reduced_nor_increased_witness :
  let w' := fst (_on_open_position Inputs.basic_long MoreInputs.opened) in
  position w' = Inputs.one_long /\
  _initial_qty w' = Some 1%float /\
  is_reduced w' = Ok (Some false) /\ is_increased w' = Ok (Some false).
Proof.
  intro w'.
  apply (@an_opened_position_is_neither_reduced_nor_increased _ _ Inputs.basic_long
           MoreInputs.opened w'); vm_compute; reflexivity.
Defined.

(* ================================================================= *)
(** ** Exceptions a method never raises *)

Section Never.

Context {R : Type}.
Variable e : Exn.

Lemma raises_bind A B (m : M R A) (k : A -> M R B) w :
  raises e (bind m k) w
  = match m w with
    | (w1, Ok a) => raises e (k a) w1
    | (_, Raise e') => Exn_eqb e' e
    end.
Proof. unfold raises, bind. destruct (m w) as [w1 [a|e']]; reflexivity. Qed.

Lemma never_ret A (a : A) : never e (@ret R A a).
Proof. intro w. reflexivity. Qed.

Lemma never_raise A e' : Exn_eqb e' e = false -> never e (@raise R A e').
Proof. intros H w. exact H. Qed.

Lemma never_lift A (x : Res A) :
  match x with Raise e' => Exn_eqb e' e | Ok _ => false end = false ->
  never e (@lift R A x).
Proof. intros H w. exact H. Qed.

Lemma never_get : never e (@get R).
Proof. intro w. reflexivity. Qed.

Lemma never_modify (f : World R -> World R) : never e (modify f).
Proof. intro w. reflexivity. Qed.

Lemma never_place (E : Env R) c : never e (place E c).
Proof. intro w. reflexivity. Qed.

Lemma never_bind A B (m : M R A) (k : A -> M R B) :
  never e m -> (forall a, never e (k a)) -> never e (bind m k).
Proof.
  intros Hm Hk w. rewrite raises_bind. specialize (Hm w). unfold raises in Hm.
  destruct (m w) as [w1 [a|e']]; [apply Hk | exact Hm].
Qed.

Lemma never_when b (m : M R unit) : never e m -> never e (when b m).
Proof. destruct b; simpl; auto using never_ret. Qed.

Lemma never_for_each A (l : list A) (body : A -> M R unit) :
  (forall a, never e (body a)) -> never e (for_each l body).
Proof.
  intros Hb. induction l; simpl; [apply never_ret|].
  apply never_bind; auto.
Qed.

End Never.

(** A division raises [ZeroDivisionError] or nothing. *)
Lemma sc_div_raises R (N : Num R) (e : Exn) (a b : Scalar R) :
  Exn_eqb ZeroDivisionError e = false ->
  match sc_div a b with Raise e' => Exn_eqb e' e | Ok _ => false end = false.
Proof.
  intros H. unfold sc_div.
  destruct (is_np a || is_np b); [reflexivity|].
  destruct (num_eqb (sval b) num_zero); [exact H | reflexivity].
Qed.

Lemma average_of_log_raises R (N : Num R) (e : Exn) (log : option (Log R)) :
  Exn_eqb ZeroDivisionError e = false ->
  match average_of_log log with Raise e' => Exn_eqb e' e | Ok _ => false end = false.
Proof.
  intros H. unfold average_of_log. destruct log; [|reflexivity].
  cbv zeta. now apply sc_div_raises.
Qed.

(** The partial reads of the intents and the divisions raise what they
    raise, and nothing else. *)
Ltac never_side :=
  unfold item0, wrap, np_array, normalized, _convert_to_numpy_array, rows_of, the_array,
    sc_div, average_of_log;
  cbn;
  repeat match goal with
         | |- context [match ?x with _ => _ end] =>
             lazymatch x with
             | context [match _ with _ => _ end] => fail
             | _ => destruct x; cbn
             end
         end;
  reflexivity.

Ltac never_step :=
  first
    [ apply never_ret | apply never_raise; reflexivity
    | apply never_lift;
      first [ apply sc_div_raises; reflexivity | apply average_of_log_raises; reflexivity
            | never_side ]
    | apply never_get | apply never_modify
    | apply never_place
    | apply never_bind; [ | intro ]
    | apply never_when
    | apply never_for_each; intro
    | match goal with
      | |- never _ (match ?x with _ => _ end) => destruct x
      end
    | progress cbv zeta ].

Ltac never_tac :=
  repeat first
    [ solve [eauto with frames]
    | never_step
    | progress open_methods
    | progress unfold _log_position_update, update_trade, with_trade, share, run_handler ].

Lemma reconciler_never_raises_Exception R (N : Num R) (E : Env R) :
  never Exception_ (_detect_and_handle_entry_and_exit_modifications E).
Proof. never_tac. Qed.

(** The loop over the routes raises what a reconciler raises. *)
Lemma routes_never_answer_Exception R (N : Num R) (self : Route.t R) msg routes :
  match snd (Router._broadcast self msg routes) with
  | Raise e' => Exn_eqb e' Exception_
  | Ok _ => false
  end = false.
Proof.
  induction routes as [|r rest IH]; cbn [Router._broadcast]; [reflexivity|].
  destruct (Route.id r =? Route.id self).
  - destruct (Router._broadcast self msg rest). exact IH.
  - unfold Router.notify.
    pose proof (@reconciler_never_raises_Exception _ _ (Route.env r)
                  (written (Router.on_route msg r (Route.strategy self) (Route.strategy r))
                     (Route.strategy r))) as H.
    unfold raises in H.
    destruct (_detect_and_handle_entry_and_exit_modifications _ _) as [w' [[]|e]];
      cbn in H |- *.
    + destruct (Router._broadcast self msg rest). exact IH.
    + exact H.
Qed.

Section Dispatcher.

Context {R : Type} {N : Num R}.
Variable E : Env R.

Lemma the_answer_is_not_Exception msg (w : World R) e :
  routes_answer E msg w = Raise e -> Exn_eqb e Exception_ = false.
Proof.
  intros H. unfold routes_answer in H.
  pose proof (@routes_never_answer_Exception _ _ (route_of (E, w)) msg
                (map route_of (routes E w))) as Hn.
  now rewrite H in Hn.
Qed.

Lemma broadcast_never_raises_Exception msg : never Exception_ (_broadcast E msg).
Proof.
  unfold _broadcast. apply never_bind; [unfold emit; apply never_modify|intros _].
  apply never_bind; [apply never_get|intro w].
  apply never_lift. apply routes_never_answer_Exception.
Qed.

Hint Resolve broadcast_never_raises_Exception : frames.

Lemma recorder_never_raises_Exception o r :
  never Exception_ (_log_position_update E o r).
Proof. never_tac. Qed.

Lemma open_handler_never_raises_Exception : never Exception_ (_on_open_position E).
Proof. never_tac. Qed.

Lemma increased_handler_never_raises_Exception :
  never Exception_ (_on_increased_position E).
Proof. never_tac. Qed.

Lemma reduced_handler_never_raises_Exception :
  never Exception_ (_on_reduced_position E).
Proof. never_tac. Qed.

Lemma never_run A (e e' : Exn) (m : M R A) w w' :
  never e m -> m w = (w', Raise e') -> Exn_eqb e' e = false.
Proof. intros Hm H. specialize (Hm w). unfold raises in Hm. now rewrite H in Hm. Qed.

(** An order that the classifier leaves with the role CLOSE_POSITION found
    the position closed. *)
Lemma classify_close p (o : Order.t R) :
  Order.role (classify p o) = Some CLOSE_POSITION -> Position.is_open p = false.
Proof.
  unfold classify, reassign_closing, reassign_opening, has_role.
  destruct (Order.role o) as [[]|] eqn:Hr; cbn; rewrite ?Hr; cbn;
    repeat match goal with
           | |- context [if ?b then _ else _] => destruct b eqn:?; cbn; rewrite ?Hr; cbn
           end;
    congruence.
Qed.

Lemma recorder_keeps_position o r :
  along (kept (@position R)) (share o ;; _log_position_update E o r).
Proof.
  unfold share, _log_position_update, update_trade, with_trade.
  destruct r as [[]|]; kept_tac.
Qed.

(** The take-profit and the stop-loss handler have one shape.  Run on a
    closed position, such a handler that returns has announced itself,
    cancelled and reset the strategy, and called its override; the
    reconciler then finds nothing to do. *)
Lemma cancelling_handler msg h (f : World R -> Intents.t R) (v v' : World R) :
  Position.is_close (position v) = true ->
  (_broadcast E msg ;; _execute_cancel E ;; call h f ;;
   _detect_and_handle_entry_and_exit_modifications E) v = (v', Ok tt) ->
  (position v' = position v /\ trade v' = trade v /\
   trades_count v' = trades_count v /\ completed_trades v' = completed_trades v) /\
  (_buy v' = None /\ _sell v' = None /\ _take_profit v' = None /\ _stop_loss v' = None /\
   _log_take_profit v' = None /\ _log_stop_loss v' = None /\
   _open_position_orders v' = [] /\ _take_profit_orders v' = [] /\
   _stop_loss_orders v' = [] /\ _initial_qty v' = None) /\
  trace v' = trace v ++ [EBroadcast msg; ECancelAllOrders; EBroadcast route_canceled;
                          ECall Hook.on_cancel]
                     ++ (if negb (is_unit_testing E) && negb (is_live E)
                         then [EClearOrders] else [])
                     ++ [ECall h].
Proof.
  intros Hc Hrun.
  destruct (bind_inv _ _ _ Hrun) as [(v1 & [] & Hb & Hrun1)|(e & _ & He)]; [|discriminate].
  apply broadcast_inv in Hb. destruct Hb as (-> & _).
  destruct (bind_inv _ _ _ Hrun1) as [(v2 & [] & Hcan & Hrun2)|(e & _ & He)];
    [|discriminate].
  assert (Hc1 : Position.is_close (position (fst (emit (EBroadcast msg) v))) = true)
    by (destruct v; exact Hc).
  rewrite (execute_cancel_closed E _ Hc1) in Hcan. cbv zeta in Hcan.
  destruct (routes_answer E route_canceled _) as [[]|e]; [|discriminate].
  destruct v. destruct position0 as [q ty ep cp].
  cbn in Hc. destruct ty; try discriminate.
  unfold _detect_and_handle_entry_and_exit_modifications, _reset, call, emit, when, bind,
    get, modify, ret in Hcan, Hrun2.
  cbn in Hcan, Hrun2.
  destruct (negb (is_unit_testing E) && negb (is_live E)); cbn in Hcan;
    injection Hcan as <-; cbn in Hrun2; injection Hrun2 as <-; cbn; repeat split;
    rewrite <- ?app_assoc; reflexivity.
Qed.

(** And one that raises does not raise the plain [Exception]. *)
Lemma cancelling_handler_raises msg h (f : World R -> Intents.t R) (v v' : World R) e :
  Position.is_close (position v) = true ->
  (_broadcast E msg ;; _execute_cancel E ;; call h f ;;
   _detect_and_handle_entry_and_exit_modifications E) v = (v', Raise e) ->
  Exn_eqb e Exception_ = false.
Proof.
  intros Hc Hrun.
  destruct (bind_inv _ _ _ Hrun) as [(v1 & [] & Hb & Hrun1)|(e0 & Hb & He)].
  - apply broadcast_inv in Hb. destruct Hb as (-> & _).
    assert (Hc1 : Position.is_close (position (fst (emit (EBroadcast msg) v))) = true)
      by (destruct v; exact Hc).
    destruct (bind_inv _ _ _ Hrun1) as [(v2 & [] & Hcan & Hrun2)|(e0 & Hcan & He)].
    + eapply never_run; [|exact Hrun2].
      apply never_bind; [unfold call; never_tac | intros _].
      apply reconciler_never_raises_Exception.
    + injection He as ->.
      rewrite (execute_cancel_closed E _ Hc1) in Hcan. cbv zeta in Hcan.
      destruct (routes_answer E route_canceled _) as [[]|e1] eqn:Ha.
      * eapply never_run; [|exact Hcan]. unfold call. never_tac.
      * injection Hcan as _ <-. exact (the_answer_is_not_Exception _ _ Ha).
  - injection He as ->. eapply never_run; [|exact Hb].
    apply broadcast_never_raises_Exception.
Qed.

(** X6.  The plain [Exception] with which [_execute_cancel] refuses to
    cancel on an open position is never raised by the handling of an
    executed order: the take-profit and stop-loss handlers, the only ones
    that cancel, run for an order whose role is still CLOSE_POSITION, and the
    classifier leaves that role only when the position is closed. *)
Theorem a_fill_never_trips_the_cancel_guard (order : Order.t R) (w : World R) :
  raises Exception_ (_on_updated_position E order) w = false.
Proof.
  unfold raises.
  destruct (_on_updated_position E order w) as [w' [[]|e]] eqn:Hrun; cbn; [reflexivity|].
  unfold _on_updated_position in Hrun. unfold bind at 1, get at 1 in Hrun.
  set (order' := classify (position w) order) in *.
  change (share order' ;; (_log_position_update E order' (Order.role order') ;;
            (w <- get ;;
             run_handler E (handler_of (Order.role order')
                              (order_in order' (_take_profit_orders w))
                              (order_in order' (_stop_loss_orders w))))))
    with ((share order' ;; _log_position_update E order' (Order.role order')) ;;
          (w <- get ;;
             run_handler E (handler_of (Order.role order')
                              (order_in order' (_take_profit_orders w))
                              (order_in order' (_stop_loss_orders w)))))
    in Hrun.
  destruct (bind_inv _ _ _ Hrun) as [(w1 & [] & Hrec & Hrun1)|(e' & Hrec & He)].
  - pose proof (recorder_keeps_position _ _ _ Hrec) as Hpos. unfold kept in Hpos.
    unfold bind, get in Hrun1.
    destruct (handler_of (Order.role order') _ _) as [[]|] eqn:Hh;
      cbn [run_handler] in Hrun1.
    + eapply never_run; [apply open_handler_never_raises_Exception | exact Hrun1].
    + assert (Hrole : Order.role order' = Some CLOSE_POSITION).
      { unfold handler_of in Hh. destruct (Order.role order') as [[]|]; congruence. }
      apply classify_close in Hrole.
      assert (Hc : Position.is_close (position w1) = true).
      { rewrite Hpos. unfold Position.is_open, Position.is_close in *.
        destruct (Position.type (position w)); congruence. }
      exact (cancelling_handler_raises _ _ _ _ Hc Hrun1).
    + assert (Hrole : Order.role order' = Some CLOSE_POSITION).
      { unfold handler_of in Hh. destruct (Order.role order') as [[]|]; congruence. }
      apply classify_close in Hrole.
      assert (Hc : Position.is_close (position w1) = true).
      { rewrite Hpos. unfold Position.is_open, Position.is_close in *.
        destruct (Position.type (position w)); congruence. }
      exact (cancelling_handler_raises _ _ _ _ Hc Hrun1).
    + eapply never_run; [apply increased_handler_never_raises_Exception | exact Hrun1].
    + eapply never_run; [apply reduced_handler_never_raises_Exception | exact Hrun1].
    + discriminate.
  - injection He as ->.
    destruct (bind_inv _ _ _ Hrec) as [(w0 & [] & _ & Hlog)|(e0 & Hshare & _)].
    + eapply never_run; [apply recorder_never_raises_Exception | exact Hlog].
    + unfold share, modify in Hshare. discriminate.
Qed.

(** What the recorder does to the books when it closes a trade. *)
Lemma recorder_on_close o (w0 w1 : World R) :
  _log_position_update E o (Some CLOSE_POSITION) w0 = (w1, Ok tt) ->
  trade w1 = None /\ trades_count w1 = trades_count w0 + 1 /\
  exists t, completed_trades w1 = completed_trades w0 ++ [t].
Proof.
  intros Hrun. destruct w0. destruct trade0 as [t0|]; [destruct t0|].
  - unfold _log_position_update, update_trade, with_trade, bind, get, modify, lift,
      raise in Hrun.
    cbn [trade set_trade CompletedTrade.set_exit_candle_timestamp CompletedTrade.set_orders
         CompletedTrade.orders _log_stop_loss _log_take_profit
         CompletedTrade.set_stop_loss_at CompletedTrade.set_take_profit_at
         CompletedTrade.type CompletedTrade.set_entry_price CompletedTrade.set_exit_price
         CompletedTrade.set_closed_at CompletedTrade.set_qty set_completed_trades
         set_trades_count completed_trades] in Hrun.
    destruct (average_of_log _log_stop_loss0) as [sl|]; [|discriminate].
    destruct (average_of_log _log_take_profit0) as [tp|]; [|discriminate].
    destruct (sc_div (fst (entry_sums type (orders ++ [o]))) _) as [entry|];
      [|discriminate].
    destruct (sc_div (fst (exit_sums type (orders ++ [o]))) _) as [exit|];
      [|discriminate].
    inversion Hrun; subst w1. cbn. repeat split. eauto.
  - unfold _log_position_update, update_trade, with_trade, bind, get, raise in Hrun.
    discriminate.
Qed.

(** X7.  An executed order with the role CLOSE_POSITION that finds the
    position closed and itself in the take-profit basket, or else in the
    stop-loss basket, ends the trade: when its handling returns, the open
    trade has gone to the store of completed trades and the count of trades
    is one more; every snapshot and log is null, the three baskets are empty
    and there is no initial quantity; and what the outside saw is, in this
    order, the handler's broadcast, the cancellation of all orders, the
    route-canceled broadcast, [on_cancel], the clearing of the order store
    outside live trading and unit tests, and the handler's own override. *)
Theorem a_closing_fill_ends_the_trade (w w' : World R) (order : Order.t R) :
  let in_take_profit := order_in order (_take_profit_orders w) in
  Order.role order = Some CLOSE_POSITION ->
  Position.is_close (position w) = true ->
  in_take_profit || order_in order (_stop_loss_orders w) = true ->
  _on_updated_position E order w = (w', Ok tt) ->
  (trade w' = None /\ trades_count w' = trades_count w + 1 /\
   exists t, completed_trades w' = completed_trades w ++ [t]) /\
  (_buy w' = None /\ _sell w' = None /\ _take_profit w' = None /\ _stop_loss w' = None /\
   _log_take_profit w' = None /\ _log_stop_loss w' = None /\
   _open_position_orders w' = [] /\ _take_profit_orders w' = [] /\
   _stop_loss_orders w' = [] /\ _initial_qty w' = None) /\
  position w' = position w /\
  trace w' = trace w
             ++ [EBroadcast (if in_take_profit then route_take_profit else route_stop_loss);
                 ECancelAllOrders; EBroadcast route_canceled; ECall Hook.on_cancel]
             ++ (if negb (is_unit_testing E) && negb (is_live E) then [EClearOrders] else [])
             ++ [ECall (if in_take_profit then Hook.on_take_profit else Hook.on_stop_loss)].
Proof.
  intros in_tp Hrole Hclose Hin Hrun.
  assert (Hopen : Position.is_open (position w) = false).
  { unfold Position.is_open, Position.is_close in *.
    destruct (Position.type (position w)); congruence. }
  assert (Hcl : classify (position w) order = order).
  { unfold classify, reassign_closing, reassign_opening, has_role.
    rewrite Hrole. cbn. rewrite Hrole. cbn. now rewrite Hopen. }
  unfold _on_updated_position in Hrun. unfold bind at 1, get at 1 in Hrun.
  rewrite Hcl, Hrole in Hrun.
  change (share order ;; (_log_position_update E order (Some CLOSE_POSITION) ;;
            (w <- get ;;
             run_handler E (handler_of (Some CLOSE_POSITION)
                              (order_in order (_take_profit_orders w))
                              (order_in order (_stop_loss_orders w))))))
    with ((share order ;; _log_position_update E order (Some CLOSE_POSITION)) ;;
          (w <- get ;;
             run_handler E (handler_of (Some CLOSE_POSITION)
                              (order_in order (_take_profit_orders w))
                              (order_in order (_stop_loss_orders w)))))
    in Hrun.
  destruct (bind_inv _ _ _ Hrun) as [(w1 & [] & Hrec & Hrun1)|(e' & _ & He)];
    [|discriminate].
  pose proof (recorder_keeps_position _ _ _ Hrec) as Hpos. unfold kept in Hpos.
  pose proof (quiet_recorded _ _ _ _ Hrec) as (Ht & Htp & Hsl).
  assert (Hbooks : trade w1 = None /\ trades_count w1 = trades_count w + 1 /\
                   exists t, completed_trades w1 = completed_trades w ++ [t]).
  { destruct (bind_inv _ _ _ Hrec) as [(w0 & [] & Hshare & Hlog)|(e0 & _ & He)];
      [|discriminate].
    apply recorder_on_close in Hlog. destruct Hlog as (L1 & L2 & t & L3).
    unfold share, modify in Hshare. injection Hshare as <-.
    destruct w. cbn in *. eauto. }
  assert (Hc : Position.is_close (position w1) = true) by now rewrite Hpos.
  unfold bind, get in Hrun1.
  rewrite (order_in_ids order order _ _ eq_refl Htp) in Hrun1.
  rewrite (order_in_ids order order _ _ eq_refl Hsl) in Hrun1.
  fold in_tp in Hrun1. unfold handler_of in Hrun1.
  destruct Hbooks as (B1 & B2 & t & B3).
  destruct in_tp.
  - cbn [run_handler] in Hrun1. unfold _on_take_profit in Hrun1.
    destruct (cancelling_handler _ _ _ _ Hc Hrun1)
      as ((P1 & P2 & P3 & P4) & Hnull & Htrace).
    split; [|split; [exact Hnull | split]].
    + rewrite P2, P3, P4. eauto.
    + congruence.
    + rewrite Htrace, Ht. reflexivity.
  - cbn in Hin. rewrite Hin in Hrun1.
    cbn [run_handler] in Hrun1. unfold _on_stop_loss in Hrun1.
    destruct (cancelling_handler _ _ _ _ Hc Hrun1)
      as ((P1 & P2 & P3 & P4) & Hnull & Htrace).
    split; [|split; [exact Hnull | split]].
    + rewrite P2, P3, P4. eauto.
    + congruence.
    + rewrite Htrace, Ht. reflexivity.
Qed.

End Dispatcher.

(** The closing sell of the trade of [Inputs.before_close], found in the
    take-profit basket of the flat strategy. *)
Lemma a_closing_fill_ends_the_trade_witness :
  let w' := fst (_on_updated_position Inputs.basic_long Inputs.sold MoreInputs.closing) in
  trade w' = None /\ trades_count w' = 1 /\ _take_profit_orders w' = [] /\
  trace w' = [EBroadcast route_take_profit; ECancelAllOrders; EBroadcast route_canceled;
              ECall Hook.on_cancel; EClearOrders; ECall Hook.on_take_profit].
Proof.
  intro w'.
  destruct (@a_closing_fill_ends_the_trade _ _ Inputs.basic_long MoreInputs.closing w'
              Inputs.sold eq_refl eq_refl eq_refl)
    as ((H1 & H2 & _) & (_ & _ & _ & _ & _ & _ & _ & H3 & _) & _ & H4).
  - vm_compute. reflexivity.
  - split; [exact H1 | split; [exact H2 | split; [exact H3 | exact H4]]].
Defined.

(* ================================================================= *)
(** ** The recorder without a trade to record *)

Section RecorderErrors.

Context {R : Type} {N : Num R}.
Variable E : Env R.

(** X8.  An executed order whose role is not OPEN_POSITION, handled while
    no trade is open, raises [AttributeError] in the recorder: no handler
    runs, nothing is said to the outside, and the position and the store of
    completed trades are as they were. *)
Theorem a_fill_without_an_open_trade (w : World R) (order : Order.t R) (r : Role) :
  trade w = None ->
  Order.role order = Some r -> r <> OPEN_POSITION ->
  exists w',
    _on_updated_position E order w = (w', Raise AttributeError) /\
    trace w' = trace w /\ position w' = position w /\
    trade w' = None /\ completed_trades w' = completed_trades w.
Proof.
  intros Ht Hr Hne.
  assert (Hrole : exists r', Order.role (classify (position w) order) = Some r' /\
                             r' <> OPEN_POSITION).
  { unfold classify, reassign_closing, reassign_opening, has_role. rewrite Hr.
    destruct r; try congruence; cbn; rewrite Hr; cbn;
      try destruct (Position.is_open (position w)); cbn; rewrite ?Hr;
      (eexists; split; [reflexivity | discriminate]). }
  destruct Hrole as (r' & Hr' & Hne').
  unfold _on_updated_position. unfold bind at 1, get at 1.
  set (order' := classify (position w) order) in *.
  rewrite Hr'.
  unfold bind at 1, share at 1, modify at 1.
  match goal with |- context [bind _ _ ?v] => set (w0 := v) end.
  assert (Ht0 : trade w0 = None) by (subst w0; destruct w; cbn in *; now rewrite Ht).
  exists w0.
  assert (Hlog : _log_position_update E order' (Some r') w0 = (w0, Raise AttributeError)).
  { unfold _log_position_update, update_trade, with_trade, bind, get, raise.
    destruct r'; try congruence; now rewrite Ht0. }
  unfold bind. rewrite Hlog. split; [reflexivity|].
  subst w0. destruct w. cbn in *. repeat split. now rewrite Ht.
Qed.

Lemma average_of_log_raise (log : option (Log R)) e :
  average_of_log log = Raise e -> e = ZeroDivisionError.
Proof.
  unfold average_of_log, sc_div. destruct log; [|discriminate]. cbv zeta.
  destruct (is_np _ || is_np _); [discriminate|].
  destruct (num_eqb _ _); [|discriminate]. congruence.
Qed.

(** The loop for the entry price over orders of which it keeps none. *)
Lemma entry_sums_of_no_fill ty (orders : list (Order.t R)) :
  filter (fun o => Order.is_executed o && TradeType_eqb (side_to_type (Order.side o)) ty)
         orders = [] ->
  entry_sums ty orders = no_sums.
Proof.
  unfold entry_sums. generalize (@no_sums R N).
  induction orders as [|o orders IH]; intros acc H; cbn in *; [reflexivity|].
  destruct (Order.is_executed o), (TradeType_eqb _ ty); cbn in *;
    try discriminate; auto.
Qed.

(** X9.  Closing a trade none of whose orders on its opening side is
    executed divides zero by zero: the recorder raises
    [ZeroDivisionError]; the trade, with the closing order appended, stays
    open, and neither the store of completed trades nor the count of trades
    changes. *)
Theorem closing_a_trade_that_nothing_opened (w : World R) (t0 : CompletedTrade.t R)
    (order : Order.t R) :
  num_eqb (num_zero : R) num_zero = true ->
  trade w = Some t0 ->
  entry_fills (CompletedTrade.set_orders (CompletedTrade.orders t0 ++ [order]) t0) = [] ->
  exists w' t,
    _log_position_update E order (Some CLOSE_POSITION) w = (w', Raise ZeroDivisionError) /\
    trade w' = Some t /\
    CompletedTrade.orders t = CompletedTrade.orders t0 ++ [order] /\
    completed_trades w' = completed_trades w /\ trades_count w' = trades_count w.
Proof.
  intros Hz Ht Hnone. destruct w. cbn in Ht. subst trade0. destruct t0.
  unfold entry_fills in Hnone. cbn in Hnone.
  apply entry_sums_of_no_fill in Hnone.
  unfold _log_position_update, update_trade, with_trade, bind, get, modify, lift, raise.
  cbn [trade set_trade CompletedTrade.set_exit_candle_timestamp CompletedTrade.set_orders
       CompletedTrade.orders _log_stop_loss _log_take_profit
       CompletedTrade.set_stop_loss_at CompletedTrade.set_take_profit_at
       CompletedTrade.type CompletedTrade.set_entry_price CompletedTrade.set_exit_price
       CompletedTrade.set_closed_at CompletedTrade.set_qty set_completed_trades
       set_trades_count completed_trades].
  destruct (average_of_log _log_stop_loss0) as [sl|e1] eqn:Hsl.
  - destruct (average_of_log _log_take_profit0) as [tp|e2] eqn:Htp.
    + rewrite Hnone. unfold sc_div, no_sums, py_zero. cbn. rewrite Hz.
      eexists _, _. split; [reflexivity|]. cbn. repeat split.
    + apply average_of_log_raise in Htp. subst e2.
      eexists _, _. split; [reflexivity|]. cbn. repeat split.
  - apply average_of_log_raise in Hsl. subst e1.
    eexists _, _. split; [reflexivity|]. cbn. repeat split.
Qed.

End RecorderErrors.

(** A closing order that arrives at the fresh strategy. *)
Lemma a_fill_without_an_open_trade_witness :
  exists w',
    _on_updated_position Inputs.basic_long Inputs.sold (Demo.fresh Inputs.flat)
    = (w', Raise AttributeError) /\
    trace w' = [].
Proof.
  destruct (@a_fill_without_an_open_trade _ _ Inputs.basic_long (Demo.fresh Inputs.flat)
              Inputs.sold CLOSE_POSITION eq_refl eq_refl)
    as (w' & Hrun & Htrace & _).
  - discriminate.
  - exists w'. split; [exact Hrun | exact Htrace].
Defined.

(** A trade opened by an order that was never executed, closed by an
    executed sell. *)
Lemma closing_a_trade_that_nothing_opened_witness :
  exists w',
    _log_position_update Inputs.basic_long Inputs.sold (Some CLOSE_POSITION)
      MoreInputs.opened_by_pending
    = (w', Raise ZeroDivisionError) /\
    completed_trades w' = [] /\ trades_count w' = 0.
Proof.
  destruct (trade MoreInputs.opened_by_pending) as [t0|] eqn:Ht; [|discriminate].
  assert (Hz : num_eqb (num_zero : float) num_zero = true) by (vm_compute; reflexivity).
  destruct (@closing_a_trade_that_nothing_opened _ _ Inputs.basic_long
              MoreInputs.opened_by_pending t0 Inputs.sold Hz Ht)
    as (w' & t & Hrun & _ & _ & H1 & H2).
  - vm_compute in Ht. injection Ht as <-. vm_compute. reflexivity.
  - exists w'. repeat split; [exact Hrun | exact H1 | exact H2].
Defined.

(* ================================================================= *)
(** ** The entry pipelines: filters and preparation *)

Section Pipelines.

Context {R : Type} {N : Num R}.
Variable E : Env R.

Lemma long_preparation_trace (w w1 : World R) :
  long_preparation E w = (w1, Ok tt) ->
  trace w1 = trace w ++ [ECall Hook.go_long] /\ position w1 = position w.
Proof.
  intros H. split.
  - unfold long_preparation in H.
    destruct (bind_inv _ _ _ H) as [(w0 & [] & Hcall & Hrest)|(e & _ & He)];
      [|discriminate].
    assert (K : kept (@trace R) w0 w1)
      by (refine ((_ : along (kept (@trace R)) _) _ _ _ Hrest); kept_tac).
    unfold kept in K. rewrite K.
    unfold call, emit, bind, modify in Hcall. injection Hcall as <-.
    destruct w. reflexivity.
  - refine ((_ : along (kept (@position R)) _) _ _ _ H).
    unfold long_preparation. kept_tac.
Qed.

Lemma short_preparation_trace (w w1 : World R) :
  short_preparation E w = (w1, Ok tt) ->
  trace w1 = trace w ++ [ECall Hook.go_short] /\ position w1 = position w.
Proof.
  intros H. split.
  - unfold short_preparation in H.
    destruct (bind_inv _ _ _ H) as [(w0 & [] & Hcall & Hrest)|(e & _ & He)];
      [|discriminate].
    assert (K : kept (@trace R) w0 w1)
      by (refine ((_ : along (kept (@trace R)) _) _ _ _ Hrest); kept_tac).
    unfold kept in K. rewrite K.
    unfold call, emit, bind, modify in Hcall. injection Hcall as <-.
    destruct w. reflexivity.
  - refine ((_ : along (kept (@position R)) _) _ _ _ H).
    unfold short_preparation. kept_tac.
Qed.

(** A pipeline whose preparation returns and one of whose filters rejects
    is [_reset]. *)
Lemma execute_long_is_reset w0 w :
  long_preparation E w0 = (w, Ok tt) ->
  existsb (fun f => equals_False (f w)) (filters E w) = true ->
  _execute_long E w0 = _reset w.
Proof.
  intros Hprep Hfilters. unfold long_preparation in Hprep.
  destruct (bind_inv _ _ _ Hprep) as [(w1 & [] & H1 & Hprep1)|(e & _ & He)]; [|discriminate].
  destruct (bind_inv _ _ _ Hprep1) as [(w2 & [] & H2 & Hprep2)|(e & _ & He)]; [|discriminate].
  destruct (bind_inv _ _ _ Hprep2) as [(w3 & [] & H3 & H4)|(e & _ & He)]; [|discriminate].
  unfold _execute_long.
  rewrite (bind_ok _ _ _ H1), (bind_ok _ _ _ H2), (bind_ok _ _ _ H3), (bind_ok _ _ _ H4).
  unfold bind at 1, get at 1. now rewrite Hfilters.
Qed.

Lemma execute_short_is_reset w0 w :
  short_preparation E w0 = (w, Ok tt) ->
  existsb (fun f => is_False (f w)) (filters E w) = true ->
  _execute_short E w0 = _reset w.
Proof.
  intros Hprep Hfilters. unfold short_preparation in Hprep.
  destruct (bind_inv _ _ _ Hprep) as [(w1 & [] & H1 & Hprep1)|(e & _ & He)]; [|discriminate].
  destruct (bind_inv _ _ _ Hprep1) as [(w2 & [] & H2 & Hprep2)|(e & _ & He)]; [|discriminate].
  destruct (bind_inv _ _ _ Hprep2) as [(w3 & [] & H3 & H4)|(e & _ & He)]; [|discriminate].
  unfold _execute_short.
  rewrite (bind_ok _ _ _ H1), (bind_ok _ _ _ H2), (bind_ok _ _ _ H3), (bind_ok _ _ _ H4).
  unfold bind at 1, get at 1. now rewrite Hfilters.
Qed.

Lemma reset_result (w : World R) :
  exists w', _reset w = (w', Ok tt) /\ nulled w' /\ same_outside_reset w w'.
Proof.
  exists (fst (_reset w)). split; [reflexivity|].
  destruct w. unfold nulled, same_outside_reset. cbn. repeat split.
Qed.

(** X10.  When the preparation of an entry returns and a filter rejects,
    the pipeline returns with the strategy reset: every intent, snapshot and
    log null, the baskets empty; no order reaches the broker, the only call
    made being [go_long] (or [go_short]); the position is untouched.  The
    long pipeline takes for a rejection any result that equals [False], the
    number 0 among them; the short pipeline only [False] itself. *)
Theorem a_rejecting_filter_drops_the_entry (w w1 : World R) :
  (long_preparation E w = (w1, Ok tt) ->
   existsb (fun f => equals_False (f w1)) (filters E w1) = true ->
   exists w', _execute_long E w = (w', Ok tt) /\ nulled w' /\
              trace w' = trace w ++ [ECall Hook.go_long] /\ position w' = position w) /\
  (short_preparation E w = (w1, Ok tt) ->
   existsb (fun f => is_False (f w1)) (filters E w1) = true ->
   exists w', _execute_short E w = (w', Ok tt) /\ nulled w' /\
              trace w' = trace w ++ [ECall Hook.go_short] /\ position w' = position w).
Proof.
  split; intros Hprep Hf.
  - destruct (reset_result w1) as (w' & Hrun & Hnull & Hsame).
    destruct (@long_preparation_trace w w1 Hprep) as (Ht & Hp).
    exists w'. rewrite (@execute_long_is_reset w w1 Hprep Hf).
    unfold same_outside_reset in Hsame. intuition congruence.
  - destruct (reset_result w1) as (w' & Hrun & Hnull & Hsame).
    destruct (@short_preparation_trace w w1 Hprep) as (Ht & Hp).
    exists w'. rewrite (@execute_short_is_reset w w1 Hprep Hf).
    unfold same_outside_reset in Hsame. intuition congruence.
Qed.

(** X11.  The preparation of an exit intent is done once: when it has
    returned, the intent is an array, and preparing it again, with or
    without copies, changes nothing; so the rounding of live trading is not
    applied a second time. *)
Theorem an_exit_is_prepared_once (b b' : bool) (w w1 : World R) :
  (_prepare_take_profit E b w = (w1, Ok tt) ->
   (exists t, take_profit w1 = IArray t) /\
   _prepare_take_profit E b' w1 = (w1, Ok tt)) /\
  (_prepare_stop_loss E b w = (w1, Ok tt) ->
   (exists t, stop_loss w1 = IArray t) /\
   _prepare_stop_loss E b' w1 = (w1, Ok tt)).
Proof.
  split; intros H.
  - assert (Ht : exists t, take_profit w1 = IArray t).
    { unfold _prepare_take_profit in H. unfold bind at 1, get at 1 in H.
      destruct (take_profit w) eqn:Htp;
        try (unfold bind, lift in H;
             match type of H with
             | context [normalized ?E ?b ?x] => destruct (normalized E b x) as [t|]
             end; [|discriminate];
             unfold modify, when, bind, ret in H; destruct b;
             injection H as <-; exists t; destruct w; reflexivity).
      unfold ret in H. injection H as <-. eauto. }
    split; [exact Ht|]. destruct Ht as (t & Ht).
    unfold _prepare_take_profit, bind, get. now rewrite Ht.
  - assert (Ht : exists t, stop_loss w1 = IArray t).
    { unfold _prepare_stop_loss in H. unfold bind at 1, get at 1 in H.
      destruct (stop_loss w) eqn:Htp;
        try (unfold bind, lift in H;
             match type of H with
             | context [normalized ?E ?b ?x] => destruct (normalized E b x) as [t|]
             end; [|discriminate];
             unfold modify, when, bind, ret in H; destruct b;
             injection H as <-; exists t; destruct w; reflexivity).
      unfold ret in H. injection H as <-. eauto. }
    split; [exact Ht|]. destruct Ht as (t & Ht).
    unfold _prepare_stop_loss, bind, get. now rewrite Ht.
Qed.

End Pipelines.

(** A long entry vetoed by a filter that returns the number 0, and a short
    entry vetoed by a filter that returns [False]. *)
Lemma a_rejecting_filter_drops_the_entry_witness :
  (exists w', _execute_long MoreInputs.long_with_a_zero_filter (Demo.fresh Inputs.flat)
              = (w', Ok tt) /\ trace w' = [ECall Hook.go_long]) /\
  (exists w', _execute_short MoreInputs.short_with_a_False_filter (Demo.fresh Inputs.flat)
              = (w', Ok tt) /\ trace w' = [ECall Hook.go_short]).
Proof.
  split.
  - destruct (proj1 (@a_rejecting_filter_drops_the_entry _ _
                       MoreInputs.long_with_a_zero_filter (Demo.fresh Inputs.flat) _)
                (surjective_pairing _)) as (w' & Hrun & _ & Ht & _).
    + vm_compute. reflexivity.
    + exists w'. split; [exact Hrun | exact Ht].
  - destruct (proj2 (@a_rejecting_filter_drops_the_entry _ _
                       MoreInputs.short_with_a_False_filter (Demo.fresh Inputs.flat) _)
                (surjective_pairing _)) as (w' & Hrun & _ & Ht & _).
    + vm_compute. reflexivity.
    + exists w'. split; [exact Hrun | exact Ht].
Defined.

(** A take-profit pair, prepared with copies and then again without. *)
Lemma an_exit_is_prepared_once_witness :
  let w1 := fst (_prepare_take_profit Inputs.basic_long true MoreInputs.with_raw_take_profit) in
  take_profit w1 = IArray [(1, 110)]%float /\
  _prepare_take_profit Inputs.basic_long false w1 = (w1, Ok tt).
Proof.
  intro w1.
  destruct (proj1 (@an_exit_is_prepared_once _ Inputs.basic_long true false
                     MoreInputs.with_raw_take_profit w1) eq_refl) as (_ & H).
  split; [reflexivity | exact H].
Defined.

(* ================================================================= *)
(** ** The reconciler at rest *)

Section AtRest.

Context {R : Type} {N : Num R}.
Variable E : Env R.

Lemma set_buy_same (w : World R) : set_buy (buy w) w = w.
Proof. destruct w. reflexivity. Qed.

Lemma set_sell_same (w : World R) : set_sell (sell w) w = w.
Proof. destruct w. reflexivity. Qed.

(** The three blocks of the reconciler on what is settled. *)
Lemma entry_at_rest_long (w : World R) :
  entry_settled (buy w) (_buy w) = true -> reconcile_buy E w = (w, Ok tt).
Proof.
  unfold entry_settled. intros H.
  destruct (buy w) as [| | | |[|o t]] eqn:Hb; try discriminate.
  unfold reconcile_buy, bind, get, lift, modify, when, ret.
  rewrite Hb. cbn. rewrite <- Hb, set_buy_same, H. reflexivity.
Qed.

Lemma entry_at_rest_short (w : World R) :
  entry_settled (sell w) (_sell w) = true -> reconcile_sell E w = (w, Ok tt).
Proof.
  unfold entry_settled. intros H.
  destruct (sell w) as [| | | |[|o t]] eqn:Hb; try discriminate.
  unfold reconcile_sell, bind, get, lift, modify, when, ret.
  rewrite Hb. cbn. rewrite <- Hb, set_sell_same, H. reflexivity.
Qed.

Lemma take_profit_at_rest (w : World R) :
  exit_settled (take_profit w) (_take_profit w) = true ->
  (w <- get ;;
   when (Position.is_open (position w) && negb (is_None (take_profit w)))
     (reconcile_take_profit E)) w = (w, Ok tt).
Proof.
  unfold exit_settled. intros H. unfold bind at 1, get at 1.
  destruct (take_profit w) as [| | | |t] eqn:Hb; try discriminate.
  - rewrite andb_false_r. reflexivity.
  - destruct (Position.is_open (position w)); [|reflexivity].
    assert (Hv : _validate_take_profit w = (w, Ok tt))
      by (unfold _validate_take_profit, bind, get; now rewrite Hb).
    assert (Hp : _prepare_take_profit E false w = (w, Ok tt))
      by (unfold _prepare_take_profit, bind, get; now rewrite Hb).
    unfold when. cbn [andb negb is_None]. unfold reconcile_take_profit.
    rewrite (bind_ok _ _ _ Hv), (bind_ok _ _ _ Hp).
    unfold bind, get, lift. rewrite Hb. cbn [the_array]. rewrite H. reflexivity.
Qed.

Lemma stop_loss_at_rest (w : World R) :
  exit_settled (stop_loss w) (_stop_loss w) = true ->
  (w <- get ;;
   when (Position.is_open (position w) && negb (is_None (stop_loss w)))
     (reconcile_stop_loss E)) w = (w, Ok tt).
Proof.
  unfold exit_settled. intros H. unfold bind at 1, get at 1.
  destruct (stop_loss w) as [| | | |t] eqn:Hb; try discriminate.
  - rewrite andb_false_r. reflexivity.
  - destruct (Position.is_open (position w)); [|reflexivity].
    assert (Hv : _validate_stop_loss w = (w, Ok tt))
      by (unfold _validate_stop_loss, bind, get; now rewrite Hb).
    assert (Hp : _prepare_stop_loss E false w = (w, Ok tt))
      by (unfold _prepare_stop_loss, bind, get; now rewrite Hb).
    unfold when. cbn [andb negb is_None]. unfold reconcile_stop_loss.
    rewrite (bind_ok _ _ _ Hv), (bind_ok _ _ _ Hp).
    unfold bind, get, lift. rewrite Hb. cbn [the_array]. rewrite H. reflexivity.
Qed.

Lemma exits_at_rest (w : World R) :
  exit_settled (take_profit w) (_take_profit w) = true ->
  exit_settled (stop_loss w) (_stop_loss w) = true ->
  exits_differ (stop_loss w) (take_profit w) = true ->
  stop_loss_is_not_take_profit w = (w, Ok tt).
Proof.
  unfold exit_settled, exits_differ, stop_loss_is_not_take_profit, bind, get, when.
  intros H1 H2 H3.
  destruct (Position.is_open (position w)); [|reflexivity].
  destruct (stop_loss w) as [| | | |s]; try discriminate;
    destruct (take_profit w) as [| | | |t]; try discriminate; try reflexivity.
  destruct (table_eqb s t); [discriminate | reflexivity].
Qed.

(** What a run of the reconciler's blocks leaves behind. *)
Lemma entry_tail_long t (w wa : World R) r :
  (modify (set_buy (IArray t)) ;;
   w <- get ;;
   when (negb (array_equal t (_buy w)))
     (modify (set__buy (Some t)) ;;
      cancel_live_orders (_open_position_orders w) ;;
      modify (fun w => set__open_position_orders (executed_only (_open_position_orders w)) w) ;;
      for_each t (submit_buy_row E))) w = (wa, r) ->
  buy wa = IArray t /\ (array_equal t (_buy wa) = true \/ _buy wa = Some t).
Proof.
  unfold bind at 1, modify at 1. unfold bind at 1, get at 1.
  destruct (array_equal t (_buy (set_buy (IArray t) w))) eqn:Heq; cbn [negb when].
  - intros H. injection H as <- _. split; [destruct w; reflexivity | auto].
  - unfold bind at 1, modify at 1. intros H.
    kept_in (@buy R) H. kept_in (@_buy R) H.
    rewrite K, K0. destruct w; cbn; auto.
Qed.

Lemma entry_tail_short t (w wa : World R) r :
  (modify (set_sell (IArray t)) ;;
   w <- get ;;
   when (negb (array_equal t (_sell w)))
     (modify (set__sell (Some t)) ;;
      cancel_live_orders (_open_position_orders w) ;;
      modify (fun w => set__open_position_orders (executed_only (_open_position_orders w)) w) ;;
      for_each t (resubmit_sell_row E))) w = (wa, r) ->
  sell wa = IArray t /\ (array_equal t (_sell wa) = true \/ _sell wa = Some t).
Proof.
  unfold bind at 1, modify at 1. unfold bind at 1, get at 1.
  destruct (array_equal t (_sell (set_sell (IArray t) w))) eqn:Heq; cbn [negb when].
  - intros H. injection H as <- _. split; [destruct w; reflexivity | auto].
  - unfold bind at 1, modify at 1. intros H.
    kept_in (@sell R) H. kept_in (@_sell R) H.
    rewrite K, K0. destruct w; cbn; auto.
Qed.

Lemma entry_settles_long (w wa : World R) :
  reconcile_buy E w = (wa, Ok tt) ->
  exists o t, buy wa = IArray (o :: t) /\
              (array_equal (o :: t) (_buy wa) = true \/ _buy wa = Some (o :: t)).
Proof.
  unfold reconcile_buy. unfold bind at 1, get at 1.
  destruct (buy w) as [|x|k q p|k [|o rows]|[|o rows]];
    try (unfold bind, lift; cbn; discriminate);
    unfold bind at 1, lift at 1; cbn [item0];
    unfold bind at 1, lift at 1; cbn [wrap];
    unfold bind at 1, lift at 1; cbn [np_array];
    intros H; apply entry_tail_long in H; eauto.
Qed.

Lemma entry_settles_short (w wa : World R) :
  reconcile_sell E w = (wa, Ok tt) ->
  exists o t, sell wa = IArray (o :: t) /\
              (array_equal (o :: t) (_sell wa) = true \/ _sell wa = Some (o :: t)).
Proof.
  unfold reconcile_sell. unfold bind at 1, get at 1.
  destruct (sell w) as [|x|k q p|k [|o rows]|[|o rows]];
    try (unfold bind, lift; cbn; discriminate);
    unfold bind at 1, lift at 1; cbn [item0];
    unfold bind at 1, lift at 1; cbn [wrap];
    unfold bind at 1, lift at 1; cbn [np_array];
    intros H; apply entry_tail_short in H; eauto.
Qed.

Lemma take_profit_prepared b (w w1 : World R) :
  _prepare_take_profit E b w = (w1, Ok tt) -> exists t, take_profit w1 = IArray t.
Proof.
  intros H. unfold _prepare_take_profit in H. unfold bind at 1, get at 1 in H.
  destruct (take_profit w) eqn:Htp;
    try (unfold bind, lift in H;
         match type of H with
         | context [normalized ?E ?b ?x] => destruct (normalized E b x) as [t|]
         end; [|discriminate];
         unfold modify, when, bind, ret in H; destruct b;
         injection H as <-; exists t; destruct w; reflexivity).
  unfold ret in H. injection H as <-. eauto.
Qed.

Lemma stop_loss_prepared b (w w1 : World R) :
  _prepare_stop_loss E b w = (w1, Ok tt) -> exists t, stop_loss w1 = IArray t.
Proof.
  intros H. unfold _prepare_stop_loss in H. unfold bind at 1, get at 1 in H.
  destruct (stop_loss w) eqn:Htp;
    try (unfold bind, lift in H;
         match type of H with
         | context [normalized ?E ?b ?x] => destruct (normalized E b x) as [t|]
         end; [|discriminate];
         unfold modify, when, bind, ret in H; destruct b;
         injection H as <-; exists t; destruct w; reflexivity).
  unfold ret in H. injection H as <-. eauto.
Qed.

Lemma take_profit_settles (w wb : World R) :
  reconcile_take_profit E w = (wb, Ok tt) ->
  exists t, take_profit wb = IArray t /\
            (array_equal t (_take_profit wb) = true \/ _take_profit wb = Some t).
Proof.
  unfold reconcile_take_profit. intros H.
  destruct (bind_inv _ _ _ H) as [(w1 & [] & Hv & H1)|(e & _ & He)]; [|discriminate].
  destruct (bind_inv _ _ _ H1) as [(w2 & [] & Hp & H2)|(e & _ & He)]; [|discriminate].
  destruct (take_profit_prepared _ _ Hp) as (t & Ht).
  unfold bind at 1, get at 1 in H2. rewrite Ht in H2.
  unfold bind at 1, lift at 1 in H2. cbn [the_array] in H2.
  exists t.
  destruct (array_equal t (_take_profit w2)) eqn:Heq; cbn [negb when] in H2.
  - injection H2 as <-. auto.
  - unfold bind at 1, modify at 1 in H2.
    kept_in (@take_profit R) H2. kept_in (@_take_profit R) H2.
    rewrite K, K0. destruct w2; cbn in *; auto.
Qed.

Lemma stop_loss_settles (w wb : World R) :
  reconcile_stop_loss E w = (wb, Ok tt) ->
  exists t, stop_loss wb = IArray t /\
            (array_equal t (_stop_loss wb) = true \/ _stop_loss wb = Some t).
Proof.
  unfold reconcile_stop_loss. intros H.
  destruct (bind_inv _ _ _ H) as [(w1 & [] & Hv & H1)|(e & _ & He)]; [|discriminate].
  destruct (bind_inv _ _ _ H1) as [(w2 & [] & Hp & H2)|(e & _ & He)]; [|discriminate].
  destruct (stop_loss_prepared _ _ Hp) as (t & Ht).
  unfold bind at 1, get at 1 in H2. rewrite Ht in H2.
  unfold bind at 1, lift at 1 in H2. cbn [the_array] in H2.
  exists t.
  destruct (array_equal t (_stop_loss w2)) eqn:Heq; cbn [negb when] in H2.
  - injection H2 as <-. auto.
  - unfold bind at 1, modify at 1 in H2.
    kept_in (@stop_loss R) H2. kept_in (@_stop_loss R) H2.
    rewrite K, K0. destruct w2; cbn in *; auto.
Qed.

(** A settled strategy is left alone. *)
Lemma settled_is_left_alone (w : World R) :
  settled w = true ->
  _detect_and_handle_entry_and_exit_modifications E w = (w, Ok tt).
Proof.
  unfold settled. intros H.
  unfold _detect_and_handle_entry_and_exit_modifications. unfold bind at 1, get at 1.
  unfold Position.is_close, is_long, is_short.
  destruct (Position.type (position w)) eqn:Hty; [| |reflexivity].
  - apply andb_prop in H. destruct H as (H & H4).
    apply andb_prop in H. destruct H as (H & H3).
    apply andb_prop in H. destruct H as (H1 & H2).
    rewrite (bind_ok _ _ _ (entry_at_rest_long _ H1)).
    rewrite (bind_ok _ _ _ (take_profit_at_rest _ H2)).
    rewrite (bind_ok _ _ _ (stop_loss_at_rest _ H3)).
    now apply exits_at_rest.
  - apply andb_prop in H. destruct H as (H & H4).
    apply andb_prop in H. destruct H as (H & H3).
    apply andb_prop in H. destruct H as (H1 & H2).
    rewrite (bind_ok _ _ _ (entry_at_rest_short _ H1)).
    rewrite (bind_ok _ _ _ (take_profit_at_rest _ H2)).
    rewrite (bind_ok _ _ _ (stop_loss_at_rest _ H3)).
    now apply exits_at_rest.
Qed.

Lemma settle_entry (x : Intent R) snap o t :
  x = IArray (o :: t) ->
  array_equal (o :: t) snap = true \/ snap = Some (o :: t) ->
  self_equal x = true -> entry_settled x snap = true.
Proof.
  intros -> [H| ->] Hs; unfold entry_settled; [exact H | exact Hs].
Qed.

Lemma settle_exit (x : Intent R) snap :
  x = INone \/ (exists t, x = IArray t /\ (array_equal t snap = true \/ snap = Some t)) ->
  self_equal x = true -> exit_settled x snap = true.
Proof.
  intros [->|(t & -> & [H| ->])] Hs; unfold exit_settled; auto.
Qed.

Lemma take_profit_block_settles (w wb : World R) :
  Position.is_open (position w) = true ->
  (w <- get ;;
   when (Position.is_open (position w) && negb (is_None (take_profit w)))
     (reconcile_take_profit E)) w = (wb, Ok tt) ->
  take_profit wb = INone \/
  (exists t, take_profit wb = IArray t /\
             (array_equal t (_take_profit wb) = true \/ _take_profit wb = Some t)).
Proof.
  intros Ho. unfold bind at 1, get at 1. rewrite Ho. cbn [andb].
  destruct (take_profit w) eqn:Htp; cbn [is_None negb when]; intros H.
  - injection H as <-. left. exact Htp.
  - right. eapply take_profit_settles; exact H.
  - right. eapply take_profit_settles; exact H.
  - right. eapply take_profit_settles; exact H.
  - right. eapply take_profit_settles; exact H.
Qed.

Lemma stop_loss_block_settles (w wb : World R) :
  Position.is_open (position w) = true ->
  (w <- get ;;
   when (Position.is_open (position w) && negb (is_None (stop_loss w)))
     (reconcile_stop_loss E)) w = (wb, Ok tt) ->
  stop_loss wb = INone \/
  (exists t, stop_loss wb = IArray t /\
             (array_equal t (_stop_loss wb) = true \/ _stop_loss wb = Some t)).
Proof.
  intros Ho. unfold bind at 1, get at 1. rewrite Ho. cbn [andb].
  destruct (stop_loss w) eqn:Htp; cbn [is_None negb when]; intros H.
  - injection H as <-. left. exact Htp.
  - right. eapply stop_loss_settles; exact H.
  - right. eapply stop_loss_settles; exact H.
  - right. eapply stop_loss_settles; exact H.
  - right. eapply stop_loss_settles; exact H.
Qed.

Lemma final_check_passed (wc w1 : World R) :
  Position.is_open (position wc) = true ->
  stop_loss_is_not_take_profit wc = (w1, Ok tt) ->
  w1 = wc /\ exits_differ (stop_loss wc) (take_profit wc) = true.
Proof.
  intros Ho. unfold stop_loss_is_not_take_profit, exits_differ, bind, get, when.
  rewrite Ho.
  destruct (stop_loss wc) as [| | | |s]; destruct (take_profit wc) as [| | | |t];
    try (intros H; injection H as <-; auto); try discriminate.
  destruct (table_eqb s t); [discriminate|]. intros H. injection H as <-. auto.
Qed.

(** Once the reconciler has returned, the strategy is settled, if no number
    of its intents is a NaN. *)
Lemma reconciler_settles (w w1 : World R) :
  _detect_and_handle_entry_and_exit_modifications E w = (w1, Ok tt) ->
  self_equal (buy w1) = true -> self_equal (sell w1) = true ->
  self_equal (take_profit w1) = true -> self_equal (stop_loss w1) = true ->
  settled w1 = true.
Proof.
  intros H Sb Ss St Sl.
  assert (Hpos : position w1 = position w)
    by exact (reconciler_keeps_position E _ H).
  unfold settled. rewrite Hpos.
  unfold _detect_and_handle_entry_and_exit_modifications in H.
  unfold bind at 1, get at 1 in H.
  unfold Position.is_close, is_long, is_short in H.
  destruct (Position.type (position w)) eqn:Hty; [| |reflexivity].
  - destruct (bind_inv _ _ _ H) as [(wa & [] & Ha & H1)|(e & _ & He)]; [|discriminate].
    destruct (bind_inv _ _ _ H1) as [(wb & [] & Hb & H2)|(e & _ & He)]; [|discriminate].
    destruct (bind_inv _ _ _ H2) as [(wc & [] & Hc & Hd)|(e & _ & He)]; [|discriminate].
    kept_in (@position R) Ha. kept_in (@position R) Hb. kept_in (@position R) Hc.
    assert (Oa : Position.is_open (position wa) = true)
      by (unfold Position.is_open; now rewrite K, Hty).
    assert (Ob : Position.is_open (position wb) = true)
      by (unfold Position.is_open; now rewrite K0, K, Hty).
    assert (Oc : Position.is_open (position wc) = true)
      by (unfold Position.is_open; now rewrite K1, K0, K, Hty).
    destruct (final_check_passed _ Oc Hd) as (-> & Hdiff).
    destruct (entry_settles_long _ Ha) as (o & t & Eb & Es).
    pose proof (take_profit_block_settles _ Oa Hb) as Tp.
    pose proof (stop_loss_block_settles _ Ob Hc) as Sp.
    kept_in (@buy R) Hb. kept_in (@_buy R) Hb.
    kept_in (@buy R) Hc. kept_in (@_buy R) Hc.
    kept_in (@take_profit R) Hc. kept_in (@_take_profit R) Hc.
    rewrite <- K2, <- K4 in Eb. rewrite <- K3, <- K5 in Es.
    rewrite <- K6, <- K7 in Tp.
    rewrite (@settle_entry _ _ _ _ Eb Es Sb), (@settle_exit _ _ Tp St), (@settle_exit _ _ Sp Sl), Hdiff.
    reflexivity.
  - destruct (bind_inv _ _ _ H) as [(wa & [] & Ha & H1)|(e & _ & He)]; [|discriminate].
    destruct (bind_inv _ _ _ H1) as [(wb & [] & Hb & H2)|(e & _ & He)]; [|discriminate].
    destruct (bind_inv _ _ _ H2) as [(wc & [] & Hc & Hd)|(e & _ & He)]; [|discriminate].
    kept_in (@position R) Ha. kept_in (@position R) Hb. kept_in (@position R) Hc.
    assert (Oa : Position.is_open (position wa) = true)
      by (unfold Position.is_open; now rewrite K, Hty).
    assert (Ob : Position.is_open (position wb) = true)
      by (unfold Position.is_open; now rewrite K0, K, Hty).
    assert (Oc : Position.is_open (position wc) = true)
      by (unfold Position.is_open; now rewrite K1, K0, K, Hty).
    destruct (final_check_passed _ Oc Hd) as (-> & Hdiff).
    destruct (entry_settles_short _ Ha) as (o & t & Eb & Es).
    pose proof (take_profit_block_settles _ Oa Hb) as Tp.
    pose proof (stop_loss_block_settles _ Ob Hc) as Sp.
    kept_in (@sell R) Hb. kept_in (@_sell R) Hb.
    kept_in (@sell R) Hc. kept_in (@_sell R) Hc.
    kept_in (@take_profit R) Hc. kept_in (@_take_profit R) Hc.
    rewrite <- K2, <- K4 in Eb. rewrite <- K3, <- K5 in Es.
    rewrite <- K6, <- K7 in Tp.
    rewrite (@settle_entry _ _ _ _ Eb Es Ss), (@settle_exit _ _ Tp St), (@settle_exit _ _ Sp Sl), Hdiff.
    reflexivity.
Qed.

(** X12.  A strategy at rest is left alone.  When the entry of the open
    position and the two exits are prepared arrays equal to their snapshots
    (an exit may also be unset), and the exits differ, the reconciler
    returns without a word to the broker and without changing anything; and
    so does [_update_position], but for the call of the override, when the
    override writes nothing new. *)
Theorem a_settled_strategy_is_left_alone (w : World R) :
  settled w = true ->
  _detect_and_handle_entry_and_exit_modifications E w = (w, Ok tt) /\
  (let w0 := fst (emit (ECall Hook.update_position) w) in
   written (update_position E w0) w0 = w0 ->
   _update_position E w = (w0, Ok tt)).
Proof.
  intros H. split; [now apply settled_is_left_alone|].
  intros w0 Hw0. unfold _update_position, call.
  unfold bind at 1 2, emit at 1, modify at 1 2.
  change (set_trace (trace w ++ [ECall Hook.update_position]) w) with w0.
  change (set_buy (Intents.buy (update_position E w0))
            (set_sell (Intents.sell (update_position E w0))
               (set_stop_loss (Intents.stop_loss (update_position E w0))
                  (set_take_profit (Intents.take_profit (update_position E w0)) w0))))
    with (written (update_position E w0) w0).
  rewrite Hw0. apply settled_is_left_alone.
  subst w0. unfold settled in *. destruct w. exact H.
Qed.

(** X13.  The reconciler is idempotent.  When it has returned and no
    number of the intents is a NaN, a second run, the user having touched
    nothing in between, returns without a word to the broker and without
    changing anything.  (An array with a NaN never equals its snapshot, and
    is resubmitted at every run.) *)
Theorem the_reconciler_is_idempotent (w w1 : World R) :
  _detect_and_handle_entry_and_exit_modifications E w = (w1, Ok tt) ->
  self_equal (buy w1) = true -> self_equal (sell w1) = true ->
  self_equal (take_profit w1) = true -> self_equal (stop_loss w1) = true ->
  _detect_and_handle_entry_and_exit_modifications E w1 = (w1, Ok tt).
Proof.
  intros H Sb Ss St Sl. apply settled_is_left_alone. now apply (reconciler_settles _ H).
Qed.

End AtRest.

(** The demo strategy, one unit long with its entry in place: the
    reconciler and [_update_position] leave it alone. *)
Lemma a_settled_strategy_is_left_alone_witness :
  _detect_and_handle_entry_and_exit_modifications Inputs.basic_long MoreInputs.opened
  = (MoreInputs.opened, Ok tt) /\
  _update_position Inputs.basic_long MoreInputs.opened
  = (fst (emit (ECall Hook.update_position) MoreInputs.opened), Ok tt).
Proof.
  assert (Hs : settled MoreInputs.opened = true) by (vm_compute; reflexivity).
  destruct (a_settled_strategy_is_left_alone Inputs.basic_long MoreInputs.opened Hs)
    as (H1 & H2).
  split; [exact H1 | apply H2; vm_compute; reflexivity].
Defined.

(** The short position whose entry the user has rewritten: the first run
    places the three orders, the second places none. *)
Lemma the_reconciler_is_idempotent_witness :
  let w1 := fst (_detect_and_handle_entry_and_exit_modifications Inputs.basic_short
                   Inputs.short_mutated) in
  List.length (trace w1) = 3%nat /\
  _detect_and_handle_entry_and_exit_modifications Inputs.basic_short w1 = (w1, Ok tt).
Proof.
  intro w1. split; [vm_compute; reflexivity|].
  apply (@the_reconciler_is_idempotent _ _ Inputs.basic_short Inputs.short_mutated w1);
    vm_compute; reflexivity.
Defined.

(* ================================================================= *)
(** ** [liquidate] *)

Section Liquidation.

Context {R : Type} {N : Num R}.
Variable E : Env R.
Variable pnl : Position.t R -> R.

Lemma cancel_live_orders_run (basket : list (Order.t R)) (v : World R) :
  cancel_live_orders basket v
  = (set_trace (trace v ++ map ECancelOrder (live_ids basket)) v, Ok tt).
Proof.
  unfold cancel_live_orders, live_ids. revert v.
  induction basket as [|o basket IH]; intro v; cbn [for_each filter map].
  - destruct v. cbn. now rewrite app_nil_r.
  - unfold bind. destruct (Order.is_active o || Order.is_queued o); cbn [when].
    + unfold emit, modify. rewrite IH. destruct v. cbn. now rewrite <- app_assoc.
    + unfold ret. apply IH.
Qed.

(** A take-profit pair at the mark, new to the strategy, replaces the
    take-profit orders by one MARKET order. *)
Lemma take_profit_at_the_mark (v : World R) k q p :
  take_profit v = IPair k q p ->
  is_live E = false ->
  Position.is_open (position v) = true ->
  num_eqb p (price v) = true ->
  array_equal [(q, p)] (_take_profit v) = false ->
  exists v' o,
    reconcile_take_profit E v = (v', Ok tt) /\
    trace v' = trace v ++ map ECancelOrder (live_ids (_take_profit_orders v))
                       ++ [EBroker (market_exit v q)] /\
    _take_profit_orders v' = executed_only (_take_profit_orders v) ++ [o] /\
    take_profit v' = IArray [(q, p)] /\ _take_profit v' = Some [(q, p)] /\
    (position v' = position v /\ buy v' = buy v /\ _buy v' = _buy v /\
     sell v' = sell v /\ _sell v' = _sell v /\
     stop_loss v' = stop_loss v /\ _stop_loss v' = _stop_loss v /\
     _open_position_orders v' = _open_position_orders v /\
     _stop_loss_orders v' = _stop_loss_orders v).
Proof.
  intros Htp Hlive Hopen Hp Hneq.
  destruct v. destruct position0 as [pq ty ep cp].
  cbn in Htp, Hopen, Hp, Hneq. subst take_profit0.
  unfold reconcile_take_profit, _validate_take_profit, _prepare_take_profit, normalized,
    _convert_to_numpy_array, bind, get, lift, modify, when, ret, raise.
  cbn -[cancel_live_orders]. rewrite Hlive. cbn -[cancel_live_orders].
  rewrite Hneq. cbn -[cancel_live_orders].
  rewrite cancel_live_orders_run. cbn.
  unfold resubmit_take_profit_row, append_log_take_profit, append_take_profit_order,
    place, bind, get, modify. cbn. rewrite Hp.
  unfold market_exit, is_long, is_short. cbn.
  destruct ty; try discriminate; cbn;
    (eexists _, _; split; [reflexivity|]; cbn;
     repeat split; rewrite <- ?app_assoc; reflexivity).
Qed.

(** The same for a stop-loss pair. *)
Lemma stop_loss_at_the_mark (v : World R) k q p :
  stop_loss v = IPair k q p ->
  is_live E = false ->
  Position.is_open (position v) = true ->
  num_eqb p (price v) = true ->
  array_equal [(q, p)] (_stop_loss v) = false ->
  exists v' o,
    reconcile_stop_loss E v = (v', Ok tt) /\
    trace v' = trace v ++ map ECancelOrder (live_ids (_stop_loss_orders v))
                       ++ [EBroker (market_exit v q)] /\
    _stop_loss_orders v' = executed_only (_stop_loss_orders v) ++ [o] /\
    stop_loss v' = IArray [(q, p)] /\ _stop_loss v' = Some [(q, p)] /\
    (position v' = position v /\ buy v' = buy v /\ _buy v' = _buy v /\
     sell v' = sell v /\ _sell v' = _sell v /\
     take_profit v' = take_profit v /\ _take_profit v' = _take_profit v /\
     _open_position_orders v' = _open_position_orders v /\
     _take_profit_orders v' = _take_profit_orders v).
Proof.
  intros Htp Hlive Hopen Hp Hneq.
  destruct v. destruct position0 as [pq ty ep cp].
  cbn in Htp, Hopen, Hp, Hneq. subst stop_loss0.
  unfold reconcile_stop_loss, _validate_stop_loss, _prepare_stop_loss, normalized,
    _convert_to_numpy_array, bind, get, lift, modify, when, ret, raise.
  cbn -[cancel_live_orders]. rewrite Hlive. cbn -[cancel_live_orders].
  rewrite Hneq. cbn -[cancel_live_orders].
  rewrite cancel_live_orders_run. cbn.
  unfold resubmit_stop_loss_row, append_log_stop_loss, append_stop_loss_order,
    place, bind, get, modify. cbn. rewrite Hp.
  unfold market_exit, is_long, is_short. cbn.
  destruct ty; try discriminate; cbn;
    (eexists _, _; split; [reflexivity|]; cbn;
     repeat split; rewrite <- ?app_assoc; reflexivity).
Qed.

Lemma exit_settled_shape (x : Intent R) snap :
  exit_settled x snap = true -> x = INone \/ exists t, x = IArray t.
Proof. destruct x; cbn; try discriminate; eauto. Qed.

Lemma final_check_when_differ (wc : World R) :
  stop_loss wc = INone \/ (exists s, stop_loss wc = IArray s) ->
  take_profit wc = INone \/ (exists t, take_profit wc = IArray t) ->
  exits_differ (stop_loss wc) (take_profit wc) = true ->
  stop_loss_is_not_take_profit wc = (wc, Ok tt).
Proof.
  unfold stop_loss_is_not_take_profit, exits_differ, bind, get, when.
  cbv beta iota.
  intros [Hs|(s & Hs)] [Ht|(t & Ht)]; rewrite ?Hs, ?Ht; intros Hd;
    destruct (Position.is_open (position wc)); try reflexivity.
  destruct (table_eqb s t); [discriminate | reflexivity].
Qed.

(** The entry block of the reconciler on a settled entry. *)
Lemma entry_block_at_rest (v : World R) :
  Position.is_open (position v) = true ->
  (if is_long v then entry_settled (buy v) (_buy v)
   else entry_settled (sell v) (_sell v)) = true ->
  (if is_long v then reconcile_buy E
   else if is_short v then reconcile_sell E else ret tt) v = (v, Ok tt).
Proof.
  unfold Position.is_open, is_long, is_short.
  destruct (Position.type (position v)); try discriminate; intros _ H.
  - now apply entry_at_rest_long.
  - now apply entry_at_rest_short.
Qed.

Lemma settled_parts (w : World R) :
  Position.is_open (position w) = true -> settled w = true ->
  (if is_long w then entry_settled (buy w) (_buy w)
   else entry_settled (sell w) (_sell w)) = true /\
  exit_settled (take_profit w) (_take_profit w) = true /\
  exit_settled (stop_loss w) (_stop_loss w) = true /\
  exits_differ (stop_loss w) (take_profit w) = true.
Proof.
  unfold settled, Position.is_open, is_long.
  destruct (Position.type (position w)); try discriminate; intros _ H;
    apply andb_prop in H; destruct H as (H & H4);
    apply andb_prop in H; destruct H as (H & H3);
    apply andb_prop in H; destruct H as (H1 & H2); auto.
Qed.

(** X14.  [liquidate] closes the position with a MARKET order.  On an open
    position it writes the pair (position.qty, price) as the take-profit
    when the position is in profit, as the stop-loss otherwise (a NaN profit
    included).  At the next run of the reconciler on a strategy that was at
    rest, outside live trading, that pair being new and not the other exit:
    the active and queued orders of that exit's basket are cancelled, and one
    MARKET order for the quantity of the position is placed, a sell for a
    long position and a buy for a short one; the order joins the executed
    orders of the basket; the run returns.  Entry orders and the other exit
    are untouched. *)
Theorem liquidate_closes_at_market (w : World R) :
  let q := Position.qty (position w) in
  let m := price w in
  let gain := num_ltb num_zero (pnl (position w)) in
  let basket := fun v => if gain then _take_profit_orders v else _stop_loss_orders v in
  Position.is_open (position w) = true ->
  is_live E = false ->
  settled w = true ->
  num_eqb m m = true ->
  array_equal [(q, m)] (if gain then _take_profit w else _stop_loss w) = false ->
  (if gain then exits_differ (stop_loss w) (IArray [(q, m)])
   else exits_differ (IArray [(q, m)]) (take_profit w)) = true ->
  exists w' o,
    (liquidate pnl ;; _detect_and_handle_entry_and_exit_modifications E) w = (w', Ok tt) /\
    trace w' = trace w ++ map ECancelOrder (live_ids (basket w))
                       ++ [EBroker (market_exit w q)] /\
    basket w' = executed_only (basket w) ++ [o] /\
    (if gain then take_profit w' else stop_loss w') = IArray [(q, m)] /\
    (if gain then stop_loss w' = stop_loss w /\ _stop_loss_orders w' = _stop_loss_orders w
     else take_profit w' = take_profit w /\ _take_profit_orders w' = _take_profit_orders w) /\
    position w' = position w /\ _open_position_orders w' = _open_position_orders w.
Proof.
  intros q m gain basket Hopen Hlive Hset Hm Hnew Hother.
  destruct (settled_parts w Hopen Hset) as (S1 & S2 & S3 & S4).
  assert (Hclose : Position.is_close (position w) = false).
  { unfold Position.is_open, Position.is_close in *.
    destruct (Position.type (position w)); congruence. }
  unfold bind at 1. unfold liquidate, bind, get. rewrite Hclose. fold gain.
  unfold basket in *. clear basket. destruct gain.
  - unfold modify. fold q m.
    set (wl := set_take_profit (IPair tuple q m) w).
    assert (F : position wl = position w /\ buy wl = buy w /\ _buy wl = _buy w /\
                sell wl = sell w /\ _sell wl = _sell w /\
                stop_loss wl = stop_loss w /\ _stop_loss wl = _stop_loss w /\
                _take_profit wl = _take_profit w /\ take_profit wl = IPair tuple q m /\
                trace wl = trace w /\ _take_profit_orders wl = _take_profit_orders w /\
                _stop_loss_orders wl = _stop_loss_orders w /\
                _open_position_orders wl = _open_position_orders w)
      by (subst wl; destruct w; cbn; repeat split).
    destruct F as (F1 & F2 & F3 & F4 & F5 & F6 & F7 & F8 & F9 & F10 & F11 & F12 & F13).
    assert (Ol : Position.is_open (position wl) = true) by now rewrite F1.
    assert (El : (if is_long wl then entry_settled (buy wl) (_buy wl)
                  else entry_settled (sell wl) (_sell wl)) = true).
    { unfold is_long in *. now rewrite F1, F2, F3, F4, F5. }
    destruct (@take_profit_at_the_mark wl tuple q m F9 Hlive Ol)
      as (v' & o & Hrun & Htrace & Hbasket & T1 & T2 & G1 & G2 & G3 & G4 & G5 & G6 & G7 & G8 & G9).
    { unfold price. rewrite F1. exact Hm. }
    { rewrite F8. exact Hnew. }
    exists v', o. split.
    + unfold _detect_and_handle_entry_and_exit_modifications.
      unfold bind at 1, get at 1.
      assert (Cl : Position.is_close (position wl) = false) by now rewrite F1.
      rewrite Cl.
      rewrite (bind_ok _ _ _ (entry_block_at_rest wl Ol El)).
      unfold bind at 1 2, get at 1. rewrite Ol, F9. cbn [is_None negb andb when].
      rewrite Hrun.
      assert (Sv : exit_settled (stop_loss v') (_stop_loss v') = true)
        by now rewrite G6, G7, F6, F7.
      rewrite (bind_ok _ _ _ (stop_loss_at_rest E v' Sv)).
      apply final_check_when_differ.
      * rewrite G6, F6. eapply exit_settled_shape; eauto.
      * right. eauto.
      * rewrite G6, F6, T1. exact Hother.
    + rewrite Htrace, Hbasket, F10, F11, G1, F1, G6, F6, G9, F12, G8, F13.
      unfold market_exit, is_long. rewrite F1. repeat split; assumption.
  - unfold modify. fold q m.
    set (wl := set_stop_loss (IPair tuple q m) w).
    assert (F : position wl = position w /\ buy wl = buy w /\ _buy wl = _buy w /\
                sell wl = sell w /\ _sell wl = _sell w /\
                take_profit wl = take_profit w /\ _take_profit wl = _take_profit w /\
                _stop_loss wl = _stop_loss w /\ stop_loss wl = IPair tuple q m /\
                trace wl = trace w /\ _take_profit_orders wl = _take_profit_orders w /\
                _stop_loss_orders wl = _stop_loss_orders w /\
                _open_position_orders wl = _open_position_orders w)
      by (subst wl; destruct w; cbn; repeat split).
    destruct F as (F1 & F2 & F3 & F4 & F5 & F6 & F7 & F8 & F9 & F10 & F11 & F12 & F13).
    assert (Ol : Position.is_open (position wl) = true) by now rewrite F1.
    assert (El : (if is_long wl then entry_settled (buy wl) (_buy wl)
                  else entry_settled (sell wl) (_sell wl)) = true).
    { unfold is_long in *. now rewrite F1, F2, F3, F4, F5. }
    destruct (@stop_loss_at_the_mark wl tuple q m F9 Hlive Ol)
      as (v' & o & Hrun & Htrace & Hbasket & T1 & T2 & G1 & G2 & G3 & G4 & G5 & G6 & G7 & G8 & G9).
    { unfold price. rewrite F1. exact Hm. }
    { rewrite F8. exact Hnew. }
    exists v', o. split.
    + unfold _detect_and_handle_entry_and_exit_modifications.
      unfold bind at 1, get at 1.
      assert (Cl : Position.is_close (position wl) = false) by now rewrite F1.
      rewrite Cl.
      rewrite (bind_ok _ _ _ (entry_block_at_rest wl Ol El)).
      assert (Tl : exit_settled (take_profit wl) (_take_profit wl) = true)
        by now rewrite F6, F7.
      rewrite (bind_ok _ _ _ (take_profit_at_rest E wl Tl)).
      unfold bind at 1 2, get at 1. rewrite Ol, F9. cbn [is_None negb andb when].
      rewrite Hrun.
      apply final_check_when_differ.
      * right. eauto.
      * rewrite G6, F6. eapply exit_settled_shape; eauto.
      * rewrite G6, F6, T1. exact Hother.
    + rewrite Htrace, Hbasket, F10, F12, G1, F1, G6, F6, G9, F11, G8, F13.
      unfold market_exit, is_long. rewrite F1. repeat split; assumption.
Qed.

End Liquidation.

(** The demo strategy, one unit long and in profit: liquidation sells one
    unit at the market. *)
Lemma liquidate_closes_at_market_witness :
  exists w',
    (liquidate (fun _ => 1%float) ;;
     _detect_and_handle_entry_and_exit_modifications Inputs.basic_long) MoreInputs.opened
    = (w', Ok tt) /\
    trace w' = [EBroker (sell_at_market 1%float CLOSE_POSITION)] /\
    take_profit w' = IArray [(1, 100)]%float.
Proof.
  destruct (@liquidate_closes_at_market _ _ Inputs.basic_long (fun _ => 1%float)
              MoreInputs.opened)
    as (w' & o & Hrun & Htrace & _ & Htp & _); try (vm_compute; reflexivity).
  exists w'. vm_compute in Htrace, Htp. split; [exact Hrun | split; [exact Htrace | exact Htp]].
Defined.

(* ================================================================= *)
(** ** The router's side of a broadcast *)

Section Routes.

Context {R : Type} {N : Num R}.

Lemma reconciler_when_flat (E : Env R) (v : World R) :
  Position.is_close (position v) = true ->
  _detect_and_handle_entry_and_exit_modifications E v = (v, Ok tt).
Proof.
  intros H. unfold _detect_and_handle_entry_and_exit_modifications, bind, get.
  now rewrite H.
Qed.

(** X15.  A broadcast goes through the routes in the order of the router.
    The route of the sender is passed over; every other route runs its
    [on_route_*] override and then its reconciler.  When a route's
    reconciler raises, the broadcast raises that exception at once: the
    routes after it are as they were, and have not heard the message. *)
Theorem a_broadcast_stops_at_the_first_failure (self : Route.t R) (msg : Msg)
    (routes routes' : list (Route.t R)) (res : Res unit) :
  Router._broadcast self msg routes = (routes', res) ->
  exists reached rest,
    routes = reached ++ rest /\
    routes' = map (visited self msg) reached ++ rest /\
    match res with
    | Ok _ => rest = [] /\ Forall (fun r => answer self msg r = Ok tt) reached
    | Raise e =>
        exists before r,
          reached = before ++ [r] /\
          Forall (fun r => answer self msg r = Ok tt) before /\
          Route.id r <> Route.id self /\
          answer self msg r = Raise e
    end.
Proof.
  revert routes' res. induction routes as [|r routes IH]; intros routes' res H.
  - cbn in H. injection H as <- <-. exists [], []. repeat split. constructor.
  - cbn [Router._broadcast] in H.
    destruct (Z.eqb_spec (Route.id r) (Route.id self)) as [Hid|Hid].
    + destruct (Router._broadcast self msg routes) as [rest' res'] eqn:Hrest.
      injection H as <- <-.
      destruct (IH _ _ eq_refl) as (reached & rest & -> & -> & Hres).
      assert (Hv : visited self msg r = r)
        by (unfold visited; now rewrite Hid, Z.eqb_refl).
      assert (Ha : answer self msg r = Ok tt)
        by (unfold answer; now rewrite Hid, Z.eqb_refl).
      exists (r :: reached), rest. cbn [map app]. rewrite Hv.
      split; [reflexivity | split; [reflexivity|]].
      destruct res' as [[]|e].
      * destruct Hres as (-> & Hall). split; [reflexivity | now constructor].
      * destruct Hres as (before & r0 & -> & Hall & Hne & Hr0).
        exists (r :: before), r0. repeat split; auto.
    + assert (Hneq : (Route.id r =? Route.id self) = false) by now apply Z.eqb_neq.
      assert (Hv : visited self msg r = fst (Router.notify (Route.strategy self) msg r))
        by (unfold visited; now rewrite Hneq).
      assert (Ha : answer self msg r = snd (Router.notify (Route.strategy self) msg r))
        by (unfold answer; now rewrite Hneq).
      destruct (Router.notify (Route.strategy self) msg r) as [r' [[]|e]] eqn:Hn;
        cbn [fst snd] in Hv, Ha.
      * destruct (Router._broadcast self msg routes) as [rest' res'] eqn:Hrest.
        injection H as <- <-.
        destruct (IH _ _ eq_refl) as (reached & rest & -> & -> & Hres).
        exists (r :: reached), rest. cbn [map app]. rewrite Hv.
        split; [reflexivity | split; [reflexivity|]].
        destruct res' as [[]|e].
        -- destruct Hres as (-> & Hall). split; [reflexivity | now constructor].
        -- destruct Hres as (before & r0 & -> & Hall & Hne & Hr0).
           exists (r :: before), r0. repeat split; auto.
      * injection H as <- <-.
        exists [r], routes. cbn [map app]. rewrite Hv.
        split; [reflexivity | split; [reflexivity|]].
        exists [], r. repeat split; auto.
Qed.

Lemma notify_keeps (self : World R) (msg : Msg) (r r' : Route.t R) res :
  Router.notify self msg r = (r', res) ->
  same_route r r' /\
  (Position.is_close (position (Route.strategy r)) = true -> res = Ok tt /\ silent r r').
Proof.
  unfold Router.notify.
  set (d := Router.on_route msg r self (Route.strategy r)).
  destruct (_detect_and_handle_entry_and_exit_modifications (Route.env r)
              (written d (Route.strategy r))) as [w' res'] eqn:Hrun.
  intros H. injection H as <- <-.
  assert (Hw : position (written d (Route.strategy r)) = position (Route.strategy r) /\
               trade (written d (Route.strategy r)) = trade (Route.strategy r) /\
               completed_trades (written d (Route.strategy r))
               = completed_trades (Route.strategy r) /\
               trace (written d (Route.strategy r)) = trace (Route.strategy r) /\
               _open_position_orders (written d (Route.strategy r))
               = _open_position_orders (Route.strategy r) /\
               _take_profit_orders (written d (Route.strategy r))
               = _take_profit_orders (Route.strategy r) /\
               _stop_loss_orders (written d (Route.strategy r))
               = _stop_loss_orders (Route.strategy r))
    by (unfold written; destruct (Route.strategy r); cbn; repeat split).
  destruct Hw as (W1 & W2 & W3 & W4 & W5 & W6 & W7).
  split.
  - pose proof (reconciler_keeps_position (Route.env r) _ Hrun) as P1.
    pose proof (reconciler_keeps_trade (Route.env r) _ Hrun) as P2.
    pose proof (reconciler_keeps_completed_trades (Route.env r) _ Hrun) as P3.
    unfold kept in *. unfold same_route. destruct r. cbn in *.
    repeat split; congruence.
  - intros Hc. rewrite <- W1 in Hc.
    rewrite (reconciler_when_flat _ _ Hc) in Hrun. injection Hrun as <- <-.
    split; [reflexivity|]. unfold silent. destruct r. cbn in *. repeat split; assumption.
Qed.

(** X16.  What a broadcast never does.  Whether it returns or raises, the
    routes it leaves are the routes it found, one for one, each with its id,
    its environment, its position and its trade books; the route of the
    sender is untouched; and a route whose position is closed has been told
    nothing to do: no call reached its broker and its baskets are as they
    were. *)
Theorem a_broadcast_moves_no_position (self : Route.t R) (msg : Msg)
    (routes routes' : list (Route.t R)) (res : Res unit) :
  Router._broadcast self msg routes = (routes', res) ->
  Forall2 (fun r r' =>
             same_route r r' /\
             (Route.id r = Route.id self -> r' = r) /\
             (Position.is_close (position (Route.strategy r)) = true -> silent r r'))
          routes routes'.
Proof.
  assert (Hsame : forall r : Route.t R, same_route r r) by (intro; repeat split).
  assert (Hsilent : forall r : Route.t R, silent r r) by (intro; repeat split).
  assert (Hrefl : forall l : list (Route.t R),
             Forall2 (fun r r' =>
                        same_route r r' /\
                        (Route.id r = Route.id self -> r' = r) /\
                        (Position.is_close (position (Route.strategy r)) = true ->
                         silent r r')) l l).
  { induction l; constructor; auto. }
  revert routes' res. induction routes as [|r routes IH]; intros routes' res H.
  - cbn in H. injection H as <- <-. constructor.
  - cbn [Router._broadcast] in H.
    destruct (Z.eqb_spec (Route.id r) (Route.id self)) as [Hid|Hid].
    + destruct (Router._broadcast self msg routes) as [rest' res'] eqn:Hrest.
      injection H as <- <-. constructor; [auto | eapply IH; reflexivity].
    + destruct (Router.notify (Route.strategy self) msg r) as [r' [[]|e]] eqn:Hn.
      * destruct (Router._broadcast self msg routes) as [rest' res'] eqn:Hrest.
        injection H as <- <-.
        destruct (notify_keeps _ _ _ Hn) as (K1 & K2).
        constructor; [|eapply IH; reflexivity].
        split; [exact K1 | split; [congruence | intro Hc; apply (K2 Hc)]].
      * injection H as <- <-.
        destruct (notify_keeps _ _ _ Hn) as (K1 & K2).
        constructor; [|apply Hrefl].
        split; [exact K1 | split; [congruence | intro Hc; apply (K2 Hc)]].
Qed.

End Routes.

(** The sender opens a position: the second route resubmits its entry, the
    third raises, and the fourth is not reached. *)
Lemma a_broadcast_stops_at_the_first_failure_witness :
  exists reached before r,
    MoreInputs.routes = reached ++ [MoreInputs.route 4 Inputs.basic_long (Demo.fresh Inputs.flat)] /\
    reached = before ++ [r] /\
    answer MoreInputs.sender route_open_position r = Raise TypeError.
Proof.
  assert (H : Router._broadcast MoreInputs.sender route_open_position MoreInputs.routes
              = (fst (Router._broadcast MoreInputs.sender route_open_position
                        MoreInputs.routes), Raise TypeError))
    by (vm_compute; reflexivity).
  destruct (a_broadcast_stops_at_the_first_failure _ _ _ H)
    as (reached & rest & H1 & H2 & before & r & H3 & _ & _ & H4).
  assert (Hrest : rest = [MoreInputs.route 4 Inputs.basic_long (Demo.fresh Inputs.flat)]).
  { subst reached. unfold MoreInputs.routes in H1.
    destruct before as [|r1 [|r2 [|r3 [|r4 before]]]]; cbn in H1.
    - injection H1 as <- <-. vm_compute in H4. discriminate.
    - injection H1 as <- <- <-. vm_compute in H4. discriminate.
    - injection H1 as <- <- <- <-. reflexivity.
    - injection H1 as <- <- <- <- <-. vm_compute in H4. discriminate.
    - injection H1 as _ _ _ _ H1. destruct before; discriminate. }
  exists reached, before, r. rewrite <- Hrest. auto.
Defined.

Lemma a_broadcast_moves_no_position_witness :
  Forall2 (fun r r' =>
             same_route r r' /\
             (Route.id r = Route.id MoreInputs.sender -> r' = r) /\
             (Position.is_close (position (Route.strategy r)) = true -> silent r r'))
          MoreInputs.routes
          (fst (Router._broadcast MoreInputs.sender route_open_position MoreInputs.routes)).
Proof.
  exact (a_broadcast_moves_no_position _ _ _ (surjective_pairing _)).
Defined.

(* ================================================================= *)
(** ** What the reconciler says *)

Lemma says_only_refl R (P : Event R -> bool) (w : World R) : says_only P w w.
Proof. exists []. split; [now rewrite app_nil_r | reflexivity]. Qed.

Lemma says_only_trans R (P : Event R -> bool) (a b c : World R) :
  says_only P a b -> says_only P b c -> says_only P a c.
Proof.
  intros (e1 & H1 & F1) (e2 & H2 & F2). exists (e1 ++ e2). split.
  - now rewrite H2, H1, app_assoc.
  - rewrite forallb_app. now rewrite F1, F2.
Qed.

#[local] Hint Resolve says_only_refl says_only_trans : core.

Lemma says_only_place R (E : Env R) (P : Event R -> bool) c :
  P (EBroker c) = true -> along (says_only P) (place E c).
Proof.
  intros HP w w' r H. inversion H. exists [EBroker c]. destruct w. cbn.
  split; [reflexivity | now rewrite HP].
Qed.

Ltac says_side :=
  match goal with w : World _ |- _ => destruct w end;
  unfold says_only; cbn;
  repeat match goal with |- context [match ?x with _ => _ end] => destruct x end;
  first [ exists []; split; [now rewrite app_nil_r | reflexivity]
        | eexists; split; reflexivity ].

Ltac says_tac :=
  repeat first
    [ solve [eauto with frames]
    | apply says_only_place; reflexivity
    | along_step says_side
    | progress open_methods ].

Section Said.

Context {R : Type} {N : Num R}.
Variable E : Env R.

Lemma reconciler_says_to_the_broker :
  along (says_only (@to_the_broker R)) (_detect_and_handle_entry_and_exit_modifications E).
Proof.
  unfold _detect_and_handle_entry_and_exit_modifications, reconcile_buy, reconcile_sell,
    reconcile_take_profit, reconcile_stop_loss, stop_loss_is_not_take_profit,
    submit_buy_row, resubmit_sell_row, resubmit_take_profit_row,
    resubmit_stop_loss_row, cancel_live_orders, append_open_position_order,
    append_take_profit_order, append_stop_loss_order, append_log_take_profit,
    append_log_stop_loss, _prepare_take_profit, _prepare_stop_loss,
    _validate_take_profit, _validate_stop_loss, emit.
  says_tac.
Qed.

(** X23.  What the reconciler says to the outside is said to the broker,
    one order at a time: whether it returns or raises, the calls it has made
    are order-submitting calls and cancellations of single orders.  It calls
    no override of the user, broadcasts nothing, and never cancels all
    orders. *)
Theorem the_reconciler_speaks_to_the_broker_only (w w' : World R) (r : Res unit) :
  _detect_and_handle_entry_and_exit_modifications E w = (w', r) ->
  exists evs, trace w' = trace w ++ evs /\ forallb to_the_broker evs = true.
Proof. intros H. exact (reconciler_says_to_the_broker _ H). Qed.

End Said.

(** The short position whose entry the user has rewritten: three calls, all
    to the broker. *)
Lemma the_reconciler_speaks_to_the_broker_only_witness :
  exists evs,
    trace (fst (_detect_and_handle_entry_and_exit_modifications Inputs.basic_short
                  Inputs.short_mutated)) = [] ++ evs /\
    forallb to_the_broker evs = true.
Proof.
  exact (@the_reconciler_speaks_to_the_broker_only _ _ Inputs.basic_short
           Inputs.short_mutated _ _ (surjective_pairing _)).
Defined.

(* ================================================================= *)
(** ** The end of a run *)

Section EndOfRun.

Context {R : Type} {N : Num R}.
Variable E : Env R.
Variable terminate : World R -> Intents.t R.
Variable pnl : Position.t R -> R.
Variable _close : R -> Position.t R -> Position.t R.

(** [_execute_cancel] on a closed position: the books are kept, the
    snapshots and the baskets are nulled; [on_cancel] is called when the
    routes have answered, and what a route's reconciler raises is raised at
    once. *)
Lemma cancel_when_flat (v : World R) :
  Position.is_close (position v) = true ->
  let shown := fst (emit (EBroadcast route_canceled)
                      (fst (_reset (fst (emit ECancelAllOrders v))))) in
  exists v' r,
    _execute_cancel E v = (v', r) /\
    (position v' = position v /\ trade v' = trade v /\
     trades_count v' = trades_count v /\ completed_trades v' = completed_trades v) /\
    (_buy v' = None /\ _sell v' = None /\ _take_profit v' = None /\ _stop_loss v' = None /\
     _open_position_orders v' = [] /\ _take_profit_orders v' = [] /\
     _stop_loss_orders v' = [] /\ _initial_qty v' = None) /\
    match routes_answer E route_canceled shown with
    | Ok _ =>
        r = Ok tt /\
        trace v' = trace v ++ [ECancelAllOrders; EBroadcast route_canceled;
                                ECall Hook.on_cancel]
                           ++ (if negb (is_unit_testing E) && negb (is_live E)
                               then [EClearOrders] else [])
    | Raise e =>
        r = Raise e /\
        trace v' = trace v ++ [ECancelAllOrders; EBroadcast route_canceled]
    end.
Proof.
  intros Hc shown. rewrite (execute_cancel_closed E _ Hc). cbv zeta. fold shown.
  destruct (routes_answer E route_canceled shown) as [[]|e].
  - subst shown. destruct v. destruct position0 as [q ty ep cp].
    cbn in Hc. destruct ty; try discriminate.
    unfold _reset, call, emit, when, bind, get, modify, ret. cbn.
    destruct (negb (is_unit_testing E) && negb (is_live E)); cbn;
      (eexists; eexists; split; [reflexivity|]); cbn; repeat split;
      rewrite <- ?app_assoc; reflexivity.
  - exists shown, (Raise e). split; [reflexivity|].
    subst shown. destruct v. cbn. repeat split. now rewrite <- app_assoc.
Qed.

(** X17.  In live trading [_terminate] runs the [terminate] override and
    the reconciler, and stops there.  Whether it returns or raises, the
    counters of open trades and the position are as they were, and all it
    has said to the outside are calls to the broker for single orders: it
    has neither closed the position nor cancelled all orders. *)
Theorem in_live_trading_terminate_cancels_nothing (app app' : App.t R) (w w' : World R)
    (r : Res unit) :
  is_live E = true ->
  _terminate E terminate pnl _close app w = ((app', w'), r) ->
  app' = app /\ position w' = position w /\
  exists evs, trace w' = trace w ++ evs /\ forallb to_the_broker evs = true.
Proof.
  intros Hlive. unfold _terminate, last_words. rewrite Hlive. cbn [negb when].
  unfold bind, modify, ret.
  destruct (_detect_and_handle_entry_and_exit_modifications E (written (terminate w) w))
    as [w1 r1] eqn:Hrun.
  assert (Hp : position w1 = position w).
  { rewrite (reconciler_keeps_position E _ Hrun). unfold written. destruct w. reflexivity. }
  assert (Ht : exists evs, trace w1 = trace w ++ evs /\ forallb to_the_broker evs = true).
  { destruct (reconciler_says_to_the_broker E _ Hrun) as (evs & H1 & H2).
    exists evs. split; [|exact H2]. rewrite H1. unfold written. destruct w. reflexivity. }
  destruct r1 as [[]|e]; intros H; injection H as <- <- <-; auto.
Qed.

(** X18.  The end of a backtest.  Once the override and the reconciler have
    returned and the pending market orders are executed: an open position is
    counted among the open trades with its profit, closed at the current
    price and, the close leaving no position, everything is cancelled and
    the strategy reset; the trade it had open is not completed: it stays
    where it was and the store of completed trades does not get it.  Without
    a position, orders that still wait for an entry are cancelled; and
    without such orders nothing more is done.  The cancellation ends with
    [on_cancel] and the clearing of the order store when the routes have
    answered the route-canceled broadcast; when the reconciler of a route
    raises, [_terminate] raises with it, the strategy already reset. *)
Theorem the_end_of_a_backtest (app : App.t R) (w w1 : World R) :
  is_live E = false ->
  last_words E terminate w = (w1, Ok tt) ->
  let shown v := fst (emit (EBroadcast route_canceled)
                        (fst (_reset (fst (emit ECancelAllOrders v))))) in
  let cancelled v w' r :=
    (_buy w' = None /\ _sell w' = None /\ _take_profit w' = None /\ _stop_loss w' = None /\
     _open_position_orders w' = [] /\ _take_profit_orders w' = [] /\
     _stop_loss_orders w' = [] /\ _initial_qty w' = None) /\
    position w' = position v /\
    trade w' = trade w1 /\ completed_trades w' = completed_trades w1 /\
    match routes_answer E route_canceled (shown v) with
    | Ok _ =>
        r = Ok tt /\
        trace w' = trace w1 ++ [ECancelAllOrders; EBroadcast route_canceled;
                                 ECall Hook.on_cancel]
                            ++ (if negb (is_unit_testing E) then [EClearOrders] else [])
    | Raise e =>
        r = Raise e /\
        trace w' = trace w1 ++ [ECancelAllOrders; EBroadcast route_canceled]
    end in
  (Position.is_open (position w1) = true ->
   let closed := _close (Position.current_price (position w1)) (position w1) in
   Position.is_close closed = true ->
   exists w' r,
     _terminate E terminate pnl _close app w
     = (({| App.total_open_trades := App.total_open_trades app + 1;
            App.total_open_pl := num_add (App.total_open_pl app) (pnl (position w1)) |},
         w'), r) /\
     cancelled (set_position closed w1) w' r) /\
  (Position.is_open (position w1) = false ->
   _open_position_orders w1 <> [] ->
   exists w' r,
     _terminate E terminate pnl _close app w = ((app, w'), r) /\
     cancelled w1 w' r) /\
  (Position.is_open (position w1) = false ->
   _open_position_orders w1 = [] ->
   _terminate E terminate pnl _close app w = ((app, w1), Ok tt)).
Proof.
  intros Hlive Hwords shown cancelled.
  assert (Hclears : forall b, (if negb b && negb (is_live E) then [@EClearOrders R] else [])
                              = (if negb b then [EClearOrders] else []))
    by (intro b; rewrite Hlive; now destruct b).
  split; [|split].
  - intros Hopen closed Hclosed.
    unfold _terminate. rewrite Hwords, Hlive, Hopen. fold closed.
    destruct (cancel_when_flat (set_position closed w1)) as (w' & r & Hrun & H1 & H2 & H3).
    { destruct w1. exact Hclosed. }
    rewrite Hrun. exists w', r. split; [reflexivity|].
    destruct H1 as (P1 & P2 & P3 & P4).
    rewrite Hclears in H3.
    unfold cancelled. split; [exact H2|]. split; [exact P1|].
    split; [rewrite P2; destruct w1; reflexivity|].
    split; [rewrite P4; destruct w1; reflexivity|].
    fold (shown (set_position closed w1)) in H3.
    destruct (routes_answer E route_canceled (shown (set_position closed w1)));
      destruct H3 as (Hr & Ht); (split; [exact Hr|]); rewrite Ht; destruct w1; reflexivity.
  - intros Hopen Horders.
    unfold _terminate. rewrite Hwords, Hlive, Hopen.
    destruct (_open_position_orders w1) as [|o l] eqn:Hb; [congruence|]. cbn [is_nil negb].
    destruct (cancel_when_flat w1) as (w' & r & Hrun & H1 & H2 & H3).
    { unfold Position.is_open, Position.is_close in *.
      destruct (Position.type (position w1)); congruence. }
    rewrite Hrun. exists w', r. split; [reflexivity|].
    destruct H1 as (P1 & P2 & P3 & P4).
    rewrite Hclears in H3. unfold cancelled.
    split; [exact H2|]. split; [exact P1|]. split; [exact P2|]. split; [exact P4|].
    exact H3.
  - intros Hopen Horders.
    unfold _terminate. rewrite Hwords, Hlive, Hopen, Horders. reflexivity.
Qed.

End EndOfRun.

(** The demo strategy in live trading, one unit long: [_terminate] leaves
    it as it is. *)
Lemma in_live_trading_terminate_cancels_nothing_witness :
  let run := _terminate (MoreInputs.live Inputs.basic_long) pass MoreInputs.five
               MoreInputs.closed_at MoreInputs.no_open_trades MoreInputs.opened in
  fst (fst run) = MoreInputs.no_open_trades /\
  position (snd (fst run)) = Inputs.one_long /\
  exists evs, trace (snd (fst run)) = [] ++ evs /\ forallb to_the_broker evs = true.
Proof.
  intro run.
  apply (@in_live_trading_terminate_cancels_nothing _ _ (MoreInputs.live Inputs.basic_long)
           pass MoreInputs.five MoreInputs.closed_at MoreInputs.no_open_trades
           (fst (fst run)) MoreInputs.opened (snd (fst run)) (snd run) eq_refl).
  vm_compute. reflexivity.
Defined.

(** The demo strategy in a backtest, alone in the router and one unit long
    at the end of the session. *)
Lemma the_end_of_a_backtest_witness :
  exists w',
    _terminate Inputs.basic_long pass MoreInputs.five MoreInputs.closed_at
      MoreInputs.no_open_trades MoreInputs.opened
    = (({| App.total_open_trades := 1; App.total_open_pl := 5%float |}, w'), Ok tt) /\
    position w' = MoreInputs.closed_at 100%float Inputs.one_long /\
    trace w' = [ECancelAllOrders; EBroadcast route_canceled; ECall Hook.on_cancel;
                EClearOrders].
Proof.
  assert (Hwords : last_words Inputs.basic_long pass MoreInputs.opened
                   = (MoreInputs.opened, Ok tt)) by (vm_compute; reflexivity).
  destruct (proj1 (the_end_of_a_backtest Inputs.basic_long pass MoreInputs.five
                     MoreInputs.closed_at MoreInputs.no_open_trades MoreInputs.opened
                     eq_refl Hwords) eq_refl eq_refl)
    as (w' & r & Hrun & _ & Hpos & _ & _ & Hm).
  match type of Hm with
  | context [routes_answer ?a ?b ?c] =>
      change (routes_answer a b c) with (@Ok unit tt) in Hm
  end.
  destruct Hm as (-> & Htrace).
  exists w'. split; [|split; [exact Hpos | exact Htrace]].
  rewrite Hrun. vm_compute. reflexivity.
Defined.

(* ================================================================= *)
(** ** The averages *)

Section Averages.

Context {R : Type} {N : Num R}.
Variable E : Env R.
Variable np_sum : list R -> R.

(** X19.  The averages of a strategy without snapshots, as [__init__] and
    [_reset] leave it.  [average_stop_loss] and [average_take_profit] raise
    [InvalidStrategy].  [average_entry_price] is [None] when there is
    neither a position nor a wish to enter, and raises [TypeError] as soon
    as the position is open or [should_long] or [should_short] holds: it
    then reads a snapshot that is not there. *)
Theorem the_averages_of_a_strategy_without_snapshots (w : World R) :
  nulled w ->
  average_stop_loss np_sum w = Raise InvalidStrategy /\
  average_take_profit np_sum w = Raise InvalidStrategy /\
  average_entry_price E np_sum w
  = if Position.is_open (position w) || should_long E w || should_short E w
    then Raise TypeError else Ok None.
Proof.
  unfold nulled. intros (_ & Hb & _ & Hs & _ & Hsl & _ & Htp & _).
  unfold average_stop_loss, average_take_profit, average_entry_price,
    average_of_snapshot, is_long, is_short, Position.is_open.
  rewrite Hb, Hs, Hsl, Htp. repeat split.
  destruct (Position.type (position w)); cbn; try reflexivity.
  destruct (should_long E w); cbn; [reflexivity|].
  destruct (should_short E w); reflexivity.
Qed.

End Averages.

(** The fresh strategy whose [should_long] holds. *)
Lemma the_averages_of_a_strategy_without_snapshots_witness :
  average_stop_loss (fun _ => 0%float) (Demo.fresh Inputs.flat) = Raise InvalidStrategy /\
  average_entry_price Inputs.basic_long (fun _ => 0%float) (Demo.fresh Inputs.flat)
  = Raise TypeError.
Proof.
  destruct (@the_averages_of_a_strategy_without_snapshots _ _ Inputs.basic_long
              (fun _ => 0%float) (Demo.fresh Inputs.flat)) as (H1 & _ & H3).
  - unfold nulled. cbn. repeat split.
  - split; [exact H1 | exact H3].
Defined.

Section ExactAveragesOfTables.

Local Open Scope Q_scope.

(** numpy's summation, in exact arithmetic: whatever the order of its
    additions, it computes the sum. *)
Variable np_sum : list Q -> Q.
Hypothesis np_sum_exact : forall l, np_sum l == Qsum l.

Lemma table_sums_bounds (lo hi : Q) (arr : Table Q) :
  (forall o, In o arr -> lo <= Qabs (snd o) /\ Qabs (snd o) <= hi) ->
  let c := Qsum (map (fun o => Qabs (fst o * snd o)) arr) in
  let v := Qsum (map (fun o => Qabs (fst o)) arr) in
  lo * v <= c /\ c <= hi * v /\ 0 <= v.
Proof.
  unfold Qsum. induction arr as [|o arr IH]; intros Hp; cbn [map fold_right].
  - rewrite !Qmult_0_r. repeat split; apply Qle_refl.
  - destruct (Hp o (or_introl eq_refl)) as (Hlo & Hhi).
    destruct (IH (fun o' Ho' => Hp o' (or_intror Ho'))) as (G1 & G2 & G3).
    pose proof (Qabs_nonneg (fst o)) as Hw.
    rewrite Qabs_Qmult, !Qmult_plus_distr_r.
    rewrite (Qmult_comm (Qabs (fst o)) (Qabs (snd o))).
    repeat split.
    + apply Qplus_le_compat; [|exact G1]. now apply Qmult_le_compat_r.
    + apply Qplus_le_compat; [|exact G2]. now apply Qmult_le_compat_r.
    + apply (Qle_trans _ (0 + 0)); [compute; discriminate|].
      apply Qplus_le_compat; assumption.
Qed.

(** X20.  In exact arithmetic the averages are averages.  The average of a
    table some row of which has a quantity other than zero lies between the
    least and the greatest absolute price of its rows; so the average of one
    row is the absolute value of its price. *)
Theorem an_average_lies_between_the_prices (arr : Table Q) (x : Q) :
  average_of np_sum arr = Ok x ->
  ~ Qsum (map (fun o => Qabs (fst o)) arr) == 0 ->
  exists lo hi,
    In lo (absolute_prices arr) /\ In hi (absolute_prices arr) /\ lo <= x /\ x <= hi.
Proof.
  intros Hx Hv.
  assert (Hne : absolute_prices arr <> []).
  { destruct arr; [|discriminate]. exfalso. apply Hv. reflexivity. }
  destruct (least_and_greatest Hne) as (lo & hi & Hlo & Hhi & Hall).
  exists lo, hi. split; [exact Hlo|]. split; [exact Hhi|].
  destruct (@table_sums_bounds lo hi arr) as (G1 & G2 & G3).
  { intros o Ho. apply Hall. unfold absolute_prices.
    exact (in_map (fun o => Qabs (snd o)) arr o Ho). }
  assert (Hpos : 0 < Qsum (map (fun o => Qabs (fst o)) arr)).
  { apply Qle_lteq in G3. destruct G3 as [G3|G3]; [exact G3|]. now symmetry in G3. }
  unfold average_of in Hx. destruct arr as [|o arr]; [discriminate|].
  injection Hx as <-. cbn [num_div num_abs num_mul exact].
  rewrite !np_sum_exact. split.
  - now apply Qle_shift_div_l.
  - now apply Qle_shift_div_r.
Qed.

End ExactAveragesOfTables.

(** Two rows, 3 units at 1/10 and 1 unit sold at 1/2, summed exactly: the
    average is 16/80. *)
Lemma an_average_lies_between_the_prices_witness :
  exists lo hi,
    In lo [1 # 10; 1 # 2]%Q /\ In hi [1 # 10; 1 # 2]%Q /\
    (lo <= 16 # 80)%Q /\ (16 # 80 <= hi)%Q.
Proof.
  destruct (@an_average_lies_between_the_prices Qsum (fun l => Qeq_refl _)
              [(3, 1 # 10); (-1, 1 # 2)]%Q (16 # 80)%Q) as (lo & hi & H).
  - vm_compute. reflexivity.
  - vm_compute. discriminate.
  - exists lo, hi. exact H.
Defined.

(* ================================================================= *)
(** * Properties of [bollinger_bands_width] *)

Section BollingerBandsWidth.

Import Indicators.

Variable BBANDS : list float -> Z -> float -> float -> Z ->
                  list float * list float * list float.

(** The last item of an array computed element by element. *)
Lemma last_item_elementwise f (a b c : list float) :
  elementwise f a b = Ok c ->
  (a = [] /\ b = [] /\ c = []) \/
  (exists x y, last_item a = Ok x /\ last_item b = Ok y /\ last_item c = Ok (f x y)).
Proof.
  revert b c. induction a as [|x a IH]; intros [|y b] c H; cbn in H; try discriminate.
  - injection H as <-. auto.
  - destruct (elementwise f a b) as [l|e] eqn:Hl; [|discriminate].
    injection H as <-. right.
    destruct (IH _ _ Hl) as [(-> & -> & ->)|(x' & y' & Ha & Hb & Hc)].
    + exists x, y. repeat split.
    + exists x', y'.
      destruct a as [|a0 a]; [discriminate|]. destruct b as [|b0 b]; [discriminate|].
      destruct l as [|l0 l]; [discriminate|]. auto.
Qed.

(** X21.  With at most 240 candles the two modes of the indicator agree:
    when the sequential call returns an array, the other call returns its
    last item (and raises [IndexError] when the array is empty). *)
Theorem the_value_is_the_last_of_the_sequence (candles : list Candle.t) (period : Z)
    (devup devdn : float) (matype : Z) (xs : list float) :
  (List.length candles <= 240)%nat ->
  bollinger_bands_width BBANDS candles period devup devdn matype true = Ok (an_array xs) ->
  bollinger_bands_width BBANDS candles period devup devdn matype false
  = match last_item xs with
    | Ok x => Ok (a_float x)
    | Raise e => Raise e
    end.
Proof.
  intros Hlen. unfold bollinger_bands_width. cbn [negb andb].
  assert (Hshort : (240 <? Z.of_nat (List.length candles)) = false)
    by (apply Z.ltb_ge; lia).
  rewrite Hshort.
  destruct (BBANDS (map Candle.close candles) period devup devdn matype)
    as [[upperbands middlebands] lowerbands].
  destruct (elementwise PrimFloat.sub upperbands lowerbands) as [d|e] eqn:Hd;
    [|discriminate].
  destruct (elementwise PrimFloat.div d middlebands) as [x|e] eqn:Hx; [|discriminate].
  intros H. injection H as <-.
  destruct (last_item_elementwise _ _ _ Hd) as [(-> & -> & ->)|(u & l & Hu & Hl & Hdl)].
  - destruct middlebands; [|discriminate]. injection Hx as <-. reflexivity.
  - destruct (last_item_elementwise _ _ _ Hx) as [(-> & _)|(d' & m & Hd' & Hm & Hxl)];
      [discriminate|].
    rewrite Hu, Hl, Hm, Hxl. congruence.
Qed.

Lemma last_rows_length A (n : nat) (l : list A) :
  List.length (last_rows n l) = Nat.min n (List.length l).
Proof. unfold last_rows. rewrite length_skipn. lia. Qed.

Lemma last_rows_all A (n : nat) (l : list A) :
  (List.length l <= n)%nat -> last_rows n l = l.
Proof.
  intros H. unfold last_rows.
  replace (List.length l - n)%nat with O by lia. reflexivity.
Qed.

(** The value of the indicator is that of the last 240 candles. *)
Lemma the_window_is_enough candles period devup devdn matype :
  bollinger_bands_width BBANDS candles period devup devdn matype false
  = bollinger_bands_width BBANDS (last_rows 240 candles) period devup devdn matype false.
Proof.
  unfold bollinger_bands_width. cbn [negb andb].
  rewrite last_rows_length.
  assert (Hw : (240 <? Z.of_nat (Nat.min 240 (List.length candles))) = false)
    by (apply Z.ltb_ge; lia).
  rewrite Hw.
  destruct (Z.ltb_spec 240 (Z.of_nat (List.length candles))); [reflexivity|].
  rewrite last_rows_all by lia. reflexivity.
Qed.

(** X22.  Outside the sequential mode the indicator looks at the last 240
    candles and at nothing before them: two series with the same last 240
    candles have the same value. *)
Theorem the_indicator_looks_at_240_candles (c1 c2 : list Candle.t) (period : Z)
    (devup devdn : float) (matype : Z) :
  last_rows 240 c1 = last_rows 240 c2 ->
  bollinger_bands_width BBANDS c1 period devup devdn matype false
  = bollinger_bands_width BBANDS c2 period devup devdn matype false.
Proof.
  intros H. rewrite (the_window_is_enough c1), (the_window_is_enough c2). now rewrite H.
Qed.

End BollingerBandsWidth.

(** Ten candles that close at 10, with bands at three times, once and twice
    the close: the width is 1 at every candle, and 1 is the value. *)
Lemma the_value_is_the_last_of_the_sequence_witness :
  Indicators.bollinger_bands_width MoreInputs.bands
    (repeat (MoreInputs.candle 10%float) 10) 20 2%float 2%float 0 false
  = Ok (Indicators.a_float 1%float).
Proof.
  assert (H : Indicators.bollinger_bands_width MoreInputs.bands
                (repeat (MoreInputs.candle 10%float) 10) 20 2%float 2%float 0 true
              = Ok (Indicators.an_array (repeat 1%float 10)))
    by (vm_compute; reflexivity).
  assert (Hlen : (List.length (repeat (MoreInputs.candle 10%float) 10) <= 240)%nat)
    by (cbn; lia).
  rewrite (@the_value_is_the_last_of_the_sequence MoreInputs.bands _ _ _ _ _ _ Hlen H).
  reflexivity.
Defined.

(** Two series that differ before their last 240 candles. *)
Lemma the_indicator_looks_at_240_candles_witness :
  Indicators.bollinger_bands_width MoreInputs.bands MoreInputs.one_before
    20 2%float 2%float 0 false
  = Indicators.bollinger_bands_width MoreInputs.bands MoreInputs.two_before
      20 2%float 2%float 0 false.
Proof.
  apply the_indicator_looks_at_240_candles. vm_compute. reflexivity.
Defined.

(* ================================================================= *)
(** * What the reconciler logs *)

Section Logs.

Context {R : Type} {N : Num R}.
Variable E : Env R.

(** One turn of the loops over the new rows of an exit: the row is logged,
    and at most one order joins the basket. *)
Lemma resubmit_take_profit_row_run o (v v' : World R) r :
  resubmit_take_profit_row E o v = (v', r) ->
  r = Ok tt /\
  _log_take_profit v'
  = option_map (fun l => l ++ log_of_table [o]) (_log_take_profit v) /\
  _take_profit v' = _take_profit v /\ position v' = position v /\
  exists placed, _take_profit_orders v' = _take_profit_orders v ++ placed /\
                 (List.length placed <= 1)%nat.
Proof.
  destruct v. destruct position0 as [q ty ep cp].
  unfold resubmit_take_profit_row, append_log_take_profit, append_take_profit_order,
    place, bind, get, modify, ret, is_long, is_short, price.
  cbn.
  destruct _log_take_profit0; cbn;
    destruct (num_eqb (snd o) cp); destruct ty; cbn;
      repeat match goal with
             | |- context [if ?b then _ else _] => destruct b; cbn
             end;
      intros H; injection H as <- <-; cbn;
        (repeat split;
         first [ exists []; split; [now rewrite app_nil_r | cbn; lia]
               | eexists [_]; split; [reflexivity | cbn; lia] ]).
Qed.

Lemma resubmit_stop_loss_row_run o (v v' : World R) r :
  resubmit_stop_loss_row E o v = (v', r) ->
  r = Ok tt /\
  _log_stop_loss v'
  = option_map (fun l => l ++ log_of_table [o]) (_log_stop_loss v) /\
  _stop_loss v' = _stop_loss v /\ position v' = position v /\
  exists placed, _stop_loss_orders v' = _stop_loss_orders v ++ placed /\
                 (List.length placed <= 1)%nat /\
                 (Position.is_open (position v) = true -> List.length placed = 1%nat).
Proof.
  destruct v. destruct position0 as [q ty ep cp].
  unfold resubmit_stop_loss_row, append_log_stop_loss, append_stop_loss_order,
    place, bind, get, modify, ret, is_long, is_short, price, Position.is_open.
  cbn.
  destruct _log_stop_loss0; cbn;
    destruct (num_eqb (snd o) cp); destruct ty; cbn;
      intros H; injection H as <- <-; cbn;
        (repeat split;
         first [ exists []; split; [now rewrite app_nil_r | split; [cbn; lia | discriminate]]
               | eexists [_]; split; [reflexivity | split; [cbn; lia | reflexivity]] ]).
Qed.

Lemma take_profit_loop t (v v' : World R) r :
  for_each t (resubmit_take_profit_row E) v = (v', r) ->
  r = Ok tt /\
  _log_take_profit v' = option_map (fun l => l ++ log_of_table t) (_log_take_profit v) /\
  _take_profit v' = _take_profit v /\ position v' = position v /\
  exists placed, _take_profit_orders v' = _take_profit_orders v ++ placed /\
                 (List.length placed <= List.length t)%nat.
Proof.
  revert v. induction t as [|o t IH]; intros v H.
  - cbn in H. injection H as <- <-. repeat split.
    + destruct (_log_take_profit v); cbn; [now rewrite app_nil_r | reflexivity].
    + exists []. split; [now rewrite app_nil_r | cbn; lia].
  - cbn [for_each] in H.
    destruct (bind_inv _ _ _ H) as [(v1 & [] & Hrow & Hrest)|(e & Hrow & ->)].
    + apply resubmit_take_profit_row_run in Hrow.
      destruct Hrow as (_ & L1 & S1 & P1 & p1 & B1 & N1).
      destruct (IH _ Hrest) as (-> & L2 & S2 & P2 & p2 & B2 & N2).
      repeat split; try congruence.
      * rewrite L2, L1. destruct (_log_take_profit v); cbn; [|reflexivity].
        unfold log_of_table. cbn. now rewrite <- app_assoc.
      * exists (p1 ++ p2). split.
        -- now rewrite B2, B1, app_assoc.
        -- rewrite length_app. cbn. lia.
    + apply resubmit_take_profit_row_run in Hrow. destruct Hrow as (Hr & _). discriminate.
Qed.

Lemma stop_loss_loop t (v v' : World R) r :
  for_each t (resubmit_stop_loss_row E) v = (v', r) ->
  r = Ok tt /\
  _log_stop_loss v' = option_map (fun l => l ++ log_of_table t) (_log_stop_loss v) /\
  _stop_loss v' = _stop_loss v /\ position v' = position v /\
  exists placed, _stop_loss_orders v' = _stop_loss_orders v ++ placed /\
                 (List.length placed <= List.length t)%nat /\
                 (Position.is_open (position v) = true ->
                  List.length placed = List.length t).
Proof.
  revert v. induction t as [|o t IH]; intros v H.
  - cbn in H. injection H as <- <-. repeat split.
    + destruct (_log_stop_loss v); cbn; [now rewrite app_nil_r | reflexivity].
    + exists []. split; [now rewrite app_nil_r | cbn; split; [lia | reflexivity]].
  - cbn [for_each] in H.
    destruct (bind_inv _ _ _ H) as [(v1 & [] & Hrow & Hrest)|(e & Hrow & ->)].
    + apply resubmit_stop_loss_row_run in Hrow.
      destruct Hrow as (_ & L1 & S1 & P1 & p1 & B1 & N1 & M1).
      destruct (IH _ Hrest) as (-> & L2 & S2 & P2 & p2 & B2 & N2 & M2).
      repeat split; try congruence.
      * rewrite L2, L1. destruct (_log_stop_loss v); cbn; [|reflexivity].
        unfold log_of_table. cbn. now rewrite <- app_assoc.
      * exists (p1 ++ p2). split; [|split].
        -- now rewrite B2, B1, app_assoc.
        -- rewrite length_app. cbn. lia.
        -- intros Ho. rewrite length_app, (M1 Ho). rewrite P1 in M2. rewrite (M2 Ho).
           reflexivity.
    + apply resubmit_stop_loss_row_run in Hrow. destruct Hrow as (Hr & _). discriminate.
Qed.

(** X24.  The logs of the exits follow their modifications.  When the
    reconciler finds a prepared exit that differs from its snapshot, then,
    once it is through: the snapshot is the new array; the log of the exit
    holds a row (|qty|, price) for each executed order of the basket,
    followed by the rows of the new array; and the basket holds its executed
    orders followed by the orders just placed, at most one for each row, and
    for a stop-loss on an open position exactly one for each row. *)
Theorem the_exit_logs_follow_the_modifications (w w' : World R) (t : Table R) :
  (take_profit w = IArray t -> array_equal t (_take_profit w) = false ->
   reconcile_take_profit E w = (w', Ok tt) ->
   _take_profit w' = Some t /\
   _log_take_profit w'
   = Some (log_of_orders (executed_only (_take_profit_orders w)) ++ log_of_table t) /\
   exists placed,
     _take_profit_orders w' = executed_only (_take_profit_orders w) ++ placed /\
     (List.length placed <= List.length t)%nat) /\
  (stop_loss w = IArray t -> array_equal t (_stop_loss w) = false ->
   reconcile_stop_loss E w = (w', Ok tt) ->
   _stop_loss w' = Some t /\
   _log_stop_loss w'
   = Some (log_of_orders (executed_only (_stop_loss_orders w)) ++ log_of_table t) /\
   exists placed,
     _stop_loss_orders w' = executed_only (_stop_loss_orders w) ++ placed /\
     (List.length placed <= List.length t)%nat /\
     (Position.is_open (position w) = true -> List.length placed = List.length t)).
Proof.
  split; intros Hx Hneq Hrun.
  - assert (Hv : _validate_take_profit w = (w, Ok tt))
      by (unfold _validate_take_profit, bind, get; now rewrite Hx).
    assert (Hp : _prepare_take_profit E false w = (w, Ok tt))
      by (unfold _prepare_take_profit, bind, get; now rewrite Hx).
    unfold reconcile_take_profit in Hrun.
    rewrite (bind_ok _ _ _ Hv), (bind_ok _ _ _ Hp) in Hrun.
    unfold bind at 1, get at 1 in Hrun. rewrite Hx in Hrun.
    unfold bind at 1, lift at 1 in Hrun. cbn [the_array] in Hrun.
    rewrite Hneq in Hrun. cbn [negb when] in Hrun.
    unfold bind at 1, modify at 1 in Hrun.
    rewrite (bind_ok _ _ _ (cancel_live_orders_run _ _)) in Hrun.
    unfold bind at 1, modify at 1 in Hrun. unfold bind at 1, modify at 1 in Hrun.
    apply take_profit_loop in Hrun.
    destruct Hrun as (_ & L & S & P & placed & B & Hn).
    rewrite L, S, B. destruct w. cbn. repeat split. eauto.
  - assert (Hv : _validate_stop_loss w = (w, Ok tt))
      by (unfold _validate_stop_loss, bind, get; now rewrite Hx).
    assert (Hp : _prepare_stop_loss E false w = (w, Ok tt))
      by (unfold _prepare_stop_loss, bind, get; now rewrite Hx).
    unfold reconcile_stop_loss in Hrun.
    rewrite (bind_ok _ _ _ Hv), (bind_ok _ _ _ Hp) in Hrun.
    unfold bind at 1, get at 1 in Hrun. rewrite Hx in Hrun.
    unfold bind at 1, lift at 1 in Hrun. cbn [the_array] in Hrun.
    rewrite Hneq in Hrun. cbn [negb when] in Hrun.
    unfold bind at 1, modify at 1 in Hrun.
    rewrite (bind_ok _ _ _ (cancel_live_orders_run _ _)) in Hrun.
    unfold bind at 1, modify at 1 in Hrun. unfold bind at 1, modify at 1 in Hrun.
    apply stop_loss_loop in Hrun.
    destruct Hrun as (_ & L & S & P & placed & B & Hn & Hm).
    rewrite L, S, B. destruct w. cbn in *. repeat split. eauto.
Qed.

End Logs.

(** One unit long with a take-profit at 120 in place, an executed and a
    waiting order in its basket, after the user has moved the take-profit to
    110. *)
Lemma the_exit_logs_follow_the_modifications_witness :
  let w' := fst (reconcile_take_profit Inputs.basic_long MoreInputs.moved_take_profit) in
  _take_profit w' = Some [(1, 110)]%float /\
  _log_take_profit w'
  = Some (log_of_orders [Inputs.sold] ++ log_of_table [(1, 110)]%float).
Proof.
  intro w'.
  destruct (proj1 (@the_exit_logs_follow_the_modifications _ _ Inputs.basic_long
                     MoreInputs.moved_take_profit w' [(1, 110)]%float) eq_refl)
    as (H1 & H2 & _).
  - vm_compute. reflexivity.
  - vm_compute. reflexivity.
  - split; [exact H1 | exact H2].
Defined.

(* ================================================================= *)
(** * A cancellation with a position open, and an entry rewritten *)

Section Hazards.

Context {R : Type} {N : Num R}.
Variable E : Env R.

(** X25.  A tick that is asked to cancel while a position is open fails.
    With a position open, entry orders still in their basket and
    [should_cancel] true, [_execute] raises the plain [Exception] of
    [_execute_cancel]: nothing has been said to the broker, the only call
    made is [prepare], and the guard [_is_executing] is left set. *)
Theorem a_cancellation_with_an_open_position_fails (w : World R) :
  let w2 := fst (call Hook.prepare (prepare E) (set__is_executing true w)) in
  let v := fst (mark_initiated w2) in
  _is_executing w = false ->
  test_drive_is_over E v = false ->
  Position.is_open (position w) = true ->
  _open_position_orders w <> [] ->
  should_cancel E v = true ->
  _execute E w = (v, Raise Exception_) /\
  trace v = trace w ++ [ECall Hook.prepare] /\ _is_executing v = true.
Proof.
  intros w2 v Hx Hover Hopen Hbasket Hcancel.
  assert (Hw2 : call Hook.prepare (prepare E) (set__is_executing true w) = (w2, Ok tt))
    by reflexivity.
  assert (Hv : position v = position w /\ _open_position_orders v = _open_position_orders w /\
               trace v = trace w ++ [ECall Hook.prepare] /\ _is_executing v = true).
  { subst v w2. unfold mark_initiated, call, emit, bind, get, modify, when, ret.
    destruct w. cbn. destruct _is_initiated0; cbn; repeat split. }
  destruct Hv as (V1 & V2 & V3 & V4).
  split; [|split; assumption].
  unfold _execute. unfold bind at 1, get at 1. rewrite Hx.
  unfold bind at 1, modify at 1. rewrite (bind_ok _ _ _ Hw2).
  assert (Hcheck : _check E w2 = (v, Raise Exception_)).
  { unfold _check. rewrite (bind_ok _ _ _ (mark_initiated_returns w2)). fold v.
    unfold bind at 1, get at 1. rewrite Hover.
    unfold before_entry, cancel_if_asked. unfold bind at 1 2 3, get at 1.
    rewrite V2. destruct (_open_position_orders w) as [|o l]; [congruence|].
    cbn [is_nil negb andb]. rewrite Hcancel. cbn [when].
    unfold bind at 1, _execute_cancel at 1. unfold bind at 1, get at 1.
    rewrite V1, Hopen. reflexivity. }
  unfold bind at 1. rewrite Hcheck. reflexivity.
Qed.

End Hazards.

Lemma a_cancellation_with_an_open_position_fails_witness :
  let E := MoreInputs.cancelling Inputs.basic_long in
  let w := MoreInputs.with_a_waiting_entry in
  exists v,
    _execute E w = (v, Raise Exception_) /\
    trace v = trace w ++ [ECall Hook.prepare] /\ _is_executing v = true.
Proof.
  intros E w. eexists.
  apply (@a_cancellation_with_an_open_position_fails _ _ E w);
    vm_compute; try reflexivity; discriminate.
Defined.



(** X26.  A long entry rewritten while the position is open replaces the
    entry orders that wait.  When [buy] is a list or an array of rows that
    differs from its snapshot, the reconciler takes the rows as they are (no
    rounding is applied here, in any mode), cancels the active and queued
    entry orders, keeps the executed ones, and places for each row the order
    of the long pipeline: STOP above the mark, LIMIT below it, MARKET at it,
    and none for a row whose price is a NaN. *)
Theorem a_rewritten_long_entry_replaces_the_waiting_orders (E : Env float)
    (w : World float) (t : Table float) :
  np_array (buy w) = Ok t -> t <> [] ->
  array_equal t (_buy w) = false ->
  let cs := entry_calls BUY (price w) t in
  exists w',
    reconcile_buy E w = (w', Ok tt) /\
    buy w' = IArray t /\ _buy w' = Some t /\
    trace w' = trace w ++ map ECancelOrder (live_ids (_open_position_orders w))
                       ++ map (@EBroker float) cs /\
    (exists placed,
       _open_position_orders w' = executed_only (_open_position_orders w) ++ placed /\
       List.length placed = List.length cs) /\
    List.length cs
    = List.length (filter (fun o : float * float =>
                     negb (PrimFloat.is_nan (snd o) || PrimFloat.is_nan (price w))) t).
Proof.
  intros Hb Hne Hneq cs.
  assert (Hitem : exists k, item0 (buy w) = Ok k /\ k <> a_number).
  { destruct (buy w) as [| | |k rows|rows]; try discriminate;
      cbn in Hb; injection Hb as ->; destruct t; try congruence;
        eexists; split; try reflexivity; discriminate. }
  destruct Hitem as (k & Hk & Hnum).
  set (w1 := set__buy (Some t) (set_buy (IArray t) w)).
  set (w2 := set_trace (trace w1 ++ map ECancelOrder (live_ids (_open_position_orders w))) w1).
  set (w3 := set__open_position_orders (executed_only (_open_position_orders w2)) w2).
  assert (Hp : price w3 = price w) by (subst w3 w2 w1; destruct w; reflexivity).
  pose proof (@entry_loop_any _ _ E BUY _ (@submit_buy_row_any _ _ E) t w3
                (fun o _ => binary64_any (snd o) (price w3))) as Hloop.
  rewrite Hp in Hloop. fold cs in Hloop.
  exists (placed_all E cs w3). split.
  - unfold reconcile_buy. unfold bind at 1, get at 1.
    unfold bind at 1, lift at 1. rewrite Hk.
    unfold bind at 1, lift at 1.
    assert (Hx : match k with a_number => wrap (buy w) | _ => Ok (buy w) end = Ok (buy w))
      by (destruct k; congruence).
    rewrite Hx. unfold bind at 1, lift at 1. rewrite Hb.
    unfold bind at 1, modify at 1. unfold bind at 1, get at 1.
    assert (Hs : _buy (set_buy (IArray t) w) = _buy w) by (destruct w; reflexivity).
    rewrite Hs, Hneq. cbn [negb when].
    unfold bind at 1, modify at 1.
    assert (Ho : _open_position_orders (set_buy (IArray t) w) = _open_position_orders w)
      by (destruct w; reflexivity).
    rewrite Ho. fold w1.
    rewrite (bind_ok _ _ _ (cancel_live_orders_run _ _)). fold w2.
    unfold bind at 1, modify at 1. fold w3. exact Hloop.
  - assert (Hbuy : buy (placed_all E cs w3) = IArray t /\ _buy (placed_all E cs w3) = Some t).
    { assert (H3 : buy w3 = IArray t /\ _buy w3 = Some t)
        by (subst w3 w2 w1; destruct w; split; reflexivity).
      clear Hloop Hp. revert H3. generalize w3. generalize cs. clear.
      induction cs as [|c cs IH]; intros v H3; [exact H3|].
      apply (IH (placed E c v)). unfold placed. destruct v. exact H3. }
    destruct Hbuy as (B1 & B2). split; [exact B1|]. split; [exact B2|]. split; [|split].
    + rewrite trace_placed_all. subst w3 w2 w1. destruct w. cbn.
      now rewrite <- app_assoc.
    + exists (returned E cs w3). split.
      * rewrite basket_placed_all. subst w3 w2 w1. destruct w. reflexivity.
      * apply returned_length.
    + apply binary64_entry_calls_length.
Qed.

(** One unit long with an executed and a waiting entry order, the entry
    rewritten to a row under the mark and a row over it: the waiting order is
    cancelled, and a LIMIT buy and a STOP entry are placed. *)
Lemma a_rewritten_long_entry_replaces_the_waiting_orders_witness :
  let w := MoreInputs.rewritten_entry in
  let t := [(1, 90); (1, 110)]%float in
  exists w',
    reconcile_buy Inputs.basic_long w = (w', Ok tt) /\
    buy w' = IArray t /\ _buy w' = Some t /\
    trace w' = [ECancelOrder 3; EBroker (buy_at 1 90 OPEN_POSITION);
                EBroker (start_profit_at BUY 1 110 OPEN_POSITION)]%float.
Proof.
  intros w t.
  assert (H1 : np_array (buy w) = Ok t) by reflexivity.
  assert (H2 : t <> []) by discriminate.
  assert (H3 : array_equal t (_buy w) = false) by (vm_compute; reflexivity).
  destruct (@a_rewritten_long_entry_replaces_the_waiting_orders Inputs.basic_long w t
              H1 H2 H3) as (w' & Hrun & Hb & Hs & Ht & _).
  exists w'. split; [exact Hrun|]. split; [exact Hb|]. split; [exact Hs|].
  rewrite Ht. vm_compute. reflexivity.
Defined.

(* ================================================================= *)
(** * From the entry to the first tick of the position *)

Section FirstTick.

Context {R : Type} {N : Num R}.
Variable E : Env R.

Lemma a_normalized_sequence_has_rows b (x : Intent R) t :
  not_sequence x = false -> normalized E b x = Ok t -> t <> [].
Proof.
  destruct x as [|x|k q p|k [|[q p] rows]|rows]; try discriminate; intros _;
    unfold normalized; cbn; destruct (is_live E); cbn; intros H; inversion H; discriminate.
Qed.

Lemma prepare_buy_snapshot (w w2 : World R) :
  not_sequence (buy w) = false ->
  _prepare_buy E true w = (w2, Ok tt) ->
  exists o t, buy w2 = IArray (o :: t) /\ _buy w2 = Some (o :: t).
Proof.
  intros Hs. unfold _prepare_buy. unfold bind at 1, get at 1. unfold bind at 1, lift at 1.
  destruct (normalized E false (buy w)) as [t|e] eqn:Hn; [|discriminate].
  pose proof (a_normalized_sequence_has_rows _ _ Hs Hn) as Hne.
  destruct t as [|o t]; [congruence|].
  unfold bind, modify, when. intros H. injection H as <-.
  exists o, t. destruct w. split; reflexivity.
Qed.

Lemma prepare_sell_snapshot (w w2 : World R) :
  not_sequence (sell w) = false ->
  _prepare_sell E true w = (w2, Ok tt) ->
  exists o t, sell w2 = IArray (o :: t) /\ _sell w2 = Some (o :: t).
Proof.
  intros Hs. unfold _prepare_sell. unfold bind at 1, get at 1. unfold bind at 1, lift at 1.
  destruct (normalized E false (sell w)) as [t|e] eqn:Hn; [|discriminate].
  pose proof (a_normalized_sequence_has_rows _ _ Hs Hn) as Hne.
  destruct t as [|o t]; [congruence|].
  unfold bind, modify, when. intros H. injection H as <-.
  exists o, t. destruct w. split; reflexivity.
Qed.

Lemma take_profit_taken (w w' : World R) :
  is_array (take_profit w) = false ->
  (w <- get ;;
   when (negb (is_None (take_profit w)))
     (_validate_take_profit ;; _prepare_take_profit E true)) w = (w', Ok tt) ->
  take_profit w' = INone \/
  exists t, take_profit w' = IArray t /\ _take_profit w' = Some t.
Proof.
  intros Ha. unfold bind at 1, get at 1.
  destruct (take_profit w) eqn:Htp; try discriminate; cbn [is_None negb when];
    intros H;
    try (destruct (bind_inv _ _ _ H) as [(w1 & [] & Hv & Hp)|(e & _ & He)]; [|discriminate];
         assert (K : take_profit w1 = take_profit w)
           by (unfold _validate_take_profit, bind, get, raise, ret in Hv; rewrite Htp in Hv;
               cbn in Hv; congruence);
         unfold _prepare_take_profit in Hp; unfold bind at 1, get at 1 in Hp;
         rewrite K, Htp in Hp; unfold bind at 1, lift at 1 in Hp;
         match type of Hp with
         | context [normalized ?E ?b ?x] => destruct (normalized E b x) as [t|]
         end; [|discriminate];
         unfold bind, modify, when in Hp; injection Hp as <-;
         right; exists t; destruct w1; split; reflexivity).
  injection H as <-. left. exact Htp.
Qed.

Lemma stop_loss_taken (w w' : World R) :
  is_array (stop_loss w) = false ->
  (w <- get ;;
   when (negb (is_None (stop_loss w)))
     (_validate_stop_loss ;; _prepare_stop_loss E true)) w = (w', Ok tt) ->
  stop_loss w' = INone \/
  exists t, stop_loss w' = IArray t /\ _stop_loss w' = Some t.
Proof.
  intros Ha. unfold bind at 1, get at 1.
  destruct (stop_loss w) eqn:Htp; try discriminate; cbn [is_None negb when];
    intros H;
    try (destruct (bind_inv _ _ _ H) as [(w1 & [] & Hv & Hp)|(e & _ & He)]; [|discriminate];
         assert (K : stop_loss w1 = stop_loss w)
           by (unfold _validate_stop_loss, bind, get, raise, ret in Hv; rewrite Htp in Hv;
               cbn in Hv; congruence);
         unfold _prepare_stop_loss in Hp; unfold bind at 1, get at 1 in Hp;
         rewrite K, Htp in Hp; unfold bind at 1, lift at 1 in Hp;
         match type of Hp with
         | context [normalized ?E ?b ?x] => destruct (normalized E b x) as [t|]
         end; [|discriminate];
         unfold bind, modify, when in Hp; injection Hp as <-;
         right; exists t; destruct w1; split; reflexivity).
  injection H as <-. left. exact Htp.
Qed.

(** The two blocks of [prepare_exits], on exits that were not given as
    arrays. *)
Lemma exits_taken (w w' : World R) :
  is_array (take_profit w) = false -> is_array (stop_loss w) = false ->
  prepare_exits E w = (w', Ok tt) ->
  (take_profit w' = INone \/
   exists t, take_profit w' = IArray t /\ _take_profit w' = Some t) /\
  (stop_loss w' = INone \/
   exists t, stop_loss w' = IArray t /\ _stop_loss w' = Some t) /\
  buy w' = buy w /\ _buy w' = _buy w /\ sell w' = sell w /\ _sell w' = _sell w.
Proof.
  intros Ht Hs H.
  assert (Kb : buy w' = buy w /\ _buy w' = _buy w /\ sell w' = sell w /\ _sell w' = _sell w).
  { kept_in (@buy R) H. kept_in (@_buy R) H. kept_in (@sell R) H. kept_in (@_sell R) H.
    auto. }
  unfold prepare_exits in H.
  destruct (bind_inv _ _ _ H) as [(w1 & [] & H1 & H2)|(e & _ & He)]; [|discriminate].
  pose proof (take_profit_taken _ Ht H1) as T.
  assert (Ks : stop_loss w1 = stop_loss w) by (kept_in (@stop_loss R) H1; exact K).
  rewrite <- Ks in Hs.
  pose proof (stop_loss_taken _ Hs H2) as S.
  kept_in (@take_profit R) H2. kept_in (@_take_profit R) H2.
  rewrite K, K0. auto.
Qed.

Lemma settled_when_taken (v : World R) :
  match Position.type (position v) with
  | long => entry_settled (buy v) (_buy v)
  | short => entry_settled (sell v) (_sell v)
  | close => true
  end = true ->
  (take_profit v = INone \/
   exists t, take_profit v = IArray t /\ _take_profit v = Some t) ->
  (stop_loss v = INone \/
   exists t, stop_loss v = IArray t /\ _stop_loss v = Some t) ->
  self_equal (take_profit v) = true -> self_equal (stop_loss v) = true ->
  exits_differ (stop_loss v) (take_profit v) = true ->
  settled v = true.
Proof.
  intros He Ht Hs St Sl Hd. unfold settled.
  assert (Et : exit_settled (take_profit v) (_take_profit v) = true).
  { apply settle_exit; [|exact St].
    destruct Ht as [Ht|(t & H1 & H2)]; [auto | right; exists t; auto]. }
  assert (Es : exit_settled (stop_loss v) (_stop_loss v) = true).
  { apply settle_exit; [|exact Sl].
    destruct Hs as [Hs|(t & H1 & H2)]; [auto | right; exists t; auto]. }
  destruct (Position.type (position v)); [| |reflexivity];
    rewrite He, Et, Es, Hd; reflexivity.
Qed.

(** X27.  From the entry to the first look at the position.  Let a long
    pipeline return with its entry in place (no filter rejected it), for a
    [go_long] that gave neither exit as an array, and let what it leaves hold
    no NaN and two exits that differ.  Then a strategy that holds these
    intents and snapshots beside a long position is settled: the reconciler,
    at the end of the open handler and on every later tick, returns at once
    and says nothing, until an override rewrites an intent.  The same holds
    of the short pipeline beside a short position. *)
Theorem an_entry_leaves_the_strategy_settled (w w' v : World R) :
  (let given := go_long E (fst (emit (ECall Hook.go_long) w)) in
   _execute_long E w = (w', Ok tt) ->
   _buy w' <> None ->
   is_array (Intents.take_profit given) = false ->
   is_array (Intents.stop_loss given) = false ->
   self_equal (buy w') = true ->
   self_equal (take_profit w') = true -> self_equal (stop_loss w') = true ->
   exits_differ (stop_loss w') (take_profit w') = true ->
   same_intents w' v -> Position.type (position v) = long ->
   settled v = true /\
   _detect_and_handle_entry_and_exit_modifications E v = (v, Ok tt)) /\
  (let given := go_short E (fst (emit (ECall Hook.go_short) w)) in
   _execute_short E w = (w', Ok tt) ->
   _sell w' <> None ->
   is_array (Intents.take_profit given) = false ->
   is_array (Intents.stop_loss given) = false ->
   self_equal (sell w') = true ->
   self_equal (take_profit w') = true -> self_equal (stop_loss w') = true ->
   exits_differ (stop_loss w') (take_profit w') = true ->
   same_intents w' v -> Position.type (position v) = short ->
   settled v = true /\
   _detect_and_handle_entry_and_exit_modifications E v = (v, Ok tt)).
Proof.
  split; cbv zeta; intros Hrun Hin Gt Gs Sb St Sl Hd Hv Hty;
    destruct Hv as (V1 & V2 & V3 & V4 & V5 & V6 & V7 & V8).
  - assert (Hs : settled v = true); [|split; [exact Hs | now apply settled_is_left_alone]].
    unfold _execute_long in Hrun.
    destruct (bind_inv _ _ _ Hrun) as [(w1 & [] & Hcall & H1)|(e & _ & He)]; [|discriminate].
    assert (Hgiven : take_profit w1 = Intents.take_profit
                       (go_long E (fst (emit (ECall Hook.go_long) w))) /\
                     stop_loss w1 = Intents.stop_loss
                       (go_long E (fst (emit (ECall Hook.go_long) w)))).
    { unfold call, bind, emit, modify in Hcall. injection Hcall as <-.
      destruct w. split; reflexivity. }
    destruct Hgiven as (G1 & G2). rewrite <- G1 in Gt. rewrite <- G2 in Gs.
    destruct (bind_inv _ _ _ H1) as [(w1' & [] & Hval & H2)|(e & _ & He)]; [|discriminate].
    assert (Hseq : w1' = w1 /\ not_sequence (buy w1) = false).
    { unfold validate_buy, bind, get, raise, ret in Hval.
      destruct (is_None (buy w1)); [discriminate|].
      destruct (not_sequence (buy w1)); [discriminate|].
      injection Hval as <-. auto. }
    destruct Hseq as (-> & Hseq).
    destruct (bind_inv _ _ _ H2) as [(w2 & [] & Hprep & H3)|(e & _ & He)]; [|discriminate].
    destruct (prepare_buy_snapshot _ Hseq Hprep) as (o & t & B1 & B2).
    assert (K2 : take_profit w2 = take_profit w1 /\ stop_loss w2 = stop_loss w1).
    { kept_in (@take_profit R) Hprep. kept_in (@stop_loss R) Hprep. auto. }
    destruct K2 as (K2t & K2s). rewrite <- K2t in Gt. rewrite <- K2s in Gs.
    destruct (bind_inv _ _ _ H3) as [(w3 & [] & Hexits & H4)|(e & _ & He)]; [|discriminate].
    destruct (exits_taken _ Gt Gs Hexits) as (T & S & E1 & E2 & _ & _).
    assert (B1' : buy w3 = IArray (o :: t)) by congruence.
    assert (B2' : _buy w3 = Some (o :: t)) by congruence.
    unfold bind at 1, get at 1 in H4.
    destruct (existsb _ (filters E w3)).
    { exfalso. apply Hin. unfold _reset, modify in H4. injection H4 as <-.
      destruct w3. reflexivity. }
    assert (K : buy w' = buy w3 /\ _buy w' = _buy w3 /\
                take_profit w' = take_profit w3 /\ _take_profit w' = _take_profit w3 /\
                stop_loss w' = stop_loss w3 /\ _stop_loss w' = _stop_loss w3).
    { kept_in (@buy R) H4. kept_in (@_buy R) H4.
      kept_in (@take_profit R) H4. kept_in (@_take_profit R) H4.
      kept_in (@stop_loss R) H4. kept_in (@_stop_loss R) H4.
      repeat split; assumption. }
    destruct K as (K1 & K2 & K3 & K4 & K5 & K6).
    apply settled_when_taken.
    + rewrite Hty, V1, V2, K1, K2.
      apply (settle_entry (snap := _buy w3) B1' (or_intror B2')).
      now rewrite <- K1.
    + rewrite V5, V6, K3, K4. exact T.
    + rewrite V7, V8, K5, K6. exact S.
    + now rewrite V5.
    + now rewrite V7.
    + now rewrite V5, V7.
  - assert (Hs : settled v = true); [|split; [exact Hs | now apply settled_is_left_alone]].
    unfold _execute_short in Hrun.
    destruct (bind_inv _ _ _ Hrun) as [(w1 & [] & Hcall & H1)|(e & _ & He)]; [|discriminate].
    assert (Hgiven : take_profit w1 = Intents.take_profit
                       (go_short E (fst (emit (ECall Hook.go_short) w))) /\
                     stop_loss w1 = Intents.stop_loss
                       (go_short E (fst (emit (ECall Hook.go_short) w)))).
    { unfold call, bind, emit, modify in Hcall. injection Hcall as <-.
      destruct w. split; reflexivity. }
    destruct Hgiven as (G1 & G2). rewrite <- G1 in Gt. rewrite <- G2 in Gs.
    destruct (bind_inv _ _ _ H1) as [(w1' & [] & Hval & H2)|(e & _ & He)]; [|discriminate].
    assert (Hseq : w1' = w1 /\ not_sequence (sell w1) = false).
    { unfold validate_sell, bind, get, raise, ret in Hval.
      destruct (is_None (sell w1)); [discriminate|].
      destruct (not_sequence (sell w1)); [discriminate|].
      injection Hval as <-. auto. }
    destruct Hseq as (-> & Hseq).
    destruct (bind_inv _ _ _ H2) as [(w2 & [] & Hprep & H3)|(e & _ & He)]; [|discriminate].
    destruct (prepare_sell_snapshot _ Hseq Hprep) as (o & t & B1 & B2).
    assert (K2 : take_profit w2 = take_profit w1 /\ stop_loss w2 = stop_loss w1).
    { kept_in (@take_profit R) Hprep. kept_in (@stop_loss R) Hprep. auto. }
    destruct K2 as (K2t & K2s). rewrite <- K2t in Gt. rewrite <- K2s in Gs.
    destruct (bind_inv _ _ _ H3) as [(w3 & [] & Hexits & H4)|(e & _ & He)]; [|discriminate].
    destruct (exits_taken _ Gt Gs Hexits) as (T & S & _ & _ & E1 & E2).
    assert (B1' : sell w3 = IArray (o :: t)) by congruence.
    assert (B2' : _sell w3 = Some (o :: t)) by congruence.
    unfold bind at 1, get at 1 in H4.
    destruct (existsb _ (filters E w3)).
    { exfalso. apply Hin. unfold _reset, modify in H4. injection H4 as <-.
      destruct w3. reflexivity. }
    assert (K : sell w' = sell w3 /\ _sell w' = _sell w3 /\
                take_profit w' = take_profit w3 /\ _take_profit w' = _take_profit w3 /\
                stop_loss w' = stop_loss w3 /\ _stop_loss w' = _stop_loss w3).
    { kept_in (@sell R) H4. kept_in (@_sell R) H4.
      kept_in (@take_profit R) H4. kept_in (@_take_profit R) H4.
      kept_in (@stop_loss R) H4. kept_in (@_stop_loss R) H4.
      repeat split; assumption. }
    destruct K as (K1 & K2 & K3 & K4 & K5 & K6).
    apply settled_when_taken.
    + rewrite Hty, V3, V4, K1, K2.
      apply (settle_entry (snap := _sell w3) B1' (or_intror B2')).
      now rewrite <- K1.
    + rewrite V5, V6, K3, K4. exact T.
    + rewrite V7, V8, K5, K6. exact S.
    + now rewrite V5.
    + now rewrite V7.
    + now rewrite V5, V7.
Qed.

End FirstTick.

(** The demo strategy: what its entry pipeline leaves, beside the position
    of one unit that the entry opens, is settled. *)
Lemma an_entry_leaves_the_strategy_settled_witness :
  let w' := fst (_execute_long Inputs.basic_long (Demo.fresh Inputs.flat)) in
  let v := set_position Inputs.one_long w' in
  settled v = true /\
  _detect_and_handle_entry_and_exit_modifications Inputs.basic_long v = (v, Ok tt).
Proof.
  intros w' v.
  apply (proj1 (@an_entry_leaves_the_strategy_settled _ _ Inputs.basic_long
                  (Demo.fresh Inputs.flat) w' v));
    try (vm_compute; reflexivity).
  - vm_compute. discriminate.
  - repeat split.
Defined.
